(** * Feature pipeline of [script/refactor.py]: a shallow embedding

    The program is a pandas pipeline: five tables are loaded, each is
    cleaned by a per-table processor, the event tables are left-merged with
    the song and member tables, and an engineering processor adds three
    aggregate columns computed from a reference table.

    Conventions of the embedding.
    - A cell is a [value]; [VNull] stands for NaN, None and NaT alike.
      Cells are untyped: the dtype machinery of pandas (the int64 to float64
      upcast of a column that receives a null, dtype checks that fire on an
      empty column) is not represented; numeric cells are compared by value.
      The one dtype check the program can meet, that of [merge] on its two
      key columns, is decided from the cells where they leave no doubt
      ([keys_clash]); where they do, the merge is taken to go through, and
      no statement below concludes, for tables in general, that a merge
      returns.
    - Floating-point cells are exact rationals.  The program computes with
      them only a group mean compared with 0.6 and an age compared with
      constants; both agree with binary64 on every input whose distance to
      the threshold exceeds the rounding error.  [str] prints the binary64
      nearest to the cell.
    - The library semantics followed is that of pandas 1.x, the last series
      that has every call the source makes ([DataFrame.append], in-place
      [fillna] through a selected column, [value_counts().reset_index()]
      with two columns).
    - A Python exception is a [Raise e]; an object mutated in place is a
      state threaded through the call, so that what a caller still sees
      after an exception, or through a second reference, is explicit. *)

From Stdlib Require Import ZArith QArith Qround Qabs List String Ascii Bool Lia Arith.
From Stdlib Require Import DecimalString Permutation.
Import ListNotations.

Local Open Scope string_scope.
Local Open Scope Z_scope.

(* ===================================================================== *)
(** ** Python values, exceptions and builtins                            *)
(* ===================================================================== *)

Module Py.

(** A calendar date; [read_csv(parse_dates=...)] yields midnight
    timestamps, so the time of day is left out. *)
Record date := mkDate { d_year : Z; d_month : Z; d_day : Z }.

Inductive value :=
| VNull
| VStr (s : string)
| VInt (n : Z)
| VFloat (q : Q)
| VDate (d : date).

(** Python raises the single class [AssertionError] at every [assert] of
    the program; the tag records which one fired.  The specification calls
    them StageOrderError ([StageOrder]), DispatchError ([NoReference],
    [NoTransformer]) and DataIntegrityError ([MissingData]); [NoDirectory]
    is the assertion of the constructor on its root directory. *)
Inductive assert_site :=
| StageOrder (required : Z)
| NoReference
| NoTransformer
| MissingData
| NoDirectory.

Inductive exn :=
| AssertionError (site : assert_site)
| KeyError (label : string)
| TypeError
| ValueError
| AttributeError
| DataError
| IOError.

Inductive result (A : Type) :=
| Ok (a : A)
| Raise (e : exn).
Arguments Ok {A} a.
Arguments Raise {A} e.

Definition bind {A B} (m : result A) (k : A -> result B) : result B :=
  match m with
  | Ok a => k a
  | Raise e => Raise e
  end.

Fixpoint mapM {A B} (f : A -> result B) (l : list A) : result (list B) :=
  match l with
  | [] => Ok []
  | x :: l' =>
      match f x with
      | Ok y => match mapM f l' with
                | Ok ys => Ok (y :: ys)
                | Raise e => Raise e
                end
      | Raise e => Raise e
      end
  end.

Definition is_ok {A} (m : result A) : bool :=
  match m with Ok _ => true | Raise _ => false end.

(** *** Equality of cells *)

Definition date_eqb (a b : date) : bool :=
  (d_year a =? d_year b) && (d_month a =? d_month b) && (d_day a =? d_day b).

Definition Q_eqb (a b : Q) : bool :=
  (Qnum a =? Qnum b) && (Pos.eqb (Qden a) (Qden b)).

(** Structural equality. *)
Definition value_eqb (a b : value) : bool :=
  match a, b with
  | VNull, VNull => true
  | VStr s, VStr t => String.eqb s t
  | VInt n, VInt m => n =? m
  | VFloat p, VFloat q => Q_eqb p q
  | VDate d, VDate e => date_eqb d e
  | _, _ => false
  end.

(** Numbers are keys by their numeric value: [1] and [1.0] are one key. *)
Definition key_norm (v : value) : value :=
  match v with
  | VInt n => VFloat (inject_Z n)
  | VFloat q => VFloat (Qred q)
  | _ => v
  end.

(** Key equality of [merge] and [drop_duplicates]: two nulls are equal. *)
Definition key_eqb (a b : value) : bool :=
  value_eqb (key_norm a) (key_norm b).

Definition is_null (v : value) : bool :=
  match v with VNull => true | _ => false end.

(** Python [==] on cells: as [key_eqb], but NaN equals nothing. *)
Definition py_eqb (a b : value) : bool :=
  negb (is_null a) && key_eqb a b.

Definition as_Q (v : value) : option Q :=
  match v with
  | VInt n => Some (inject_Z n)
  | VFloat q => Some q
  | _ => None
  end.

(** *** Strings *)

(** [sub in s]. *)
Fixpoint contains (sub s : string) : bool :=
  if String.prefix sub s then true
  else match s with
       | EmptyString => false
       | String _ s' => contains sub s'
       end.

(** [s.count(sub)] for a non-empty [sub]: occurrences that do not overlap,
    scanned from the left; [skip] characters of the last match remain. *)
Fixpoint count_from (sub : string) (skip : nat) (s : string) : nat :=
  match s with
  | EmptyString => 0%nat
  | String _ s' =>
      match skip with
      | S k => count_from sub k s'
      | O => if String.prefix sub s
             then S (count_from sub (String.length sub - 1) s')
             else count_from sub 0 s'
      end
  end.

Definition count (sub s : string) : Z := Z.of_nat (count_from sub 0 s).

Definition str_of_Z (n : Z) : string := NilZero.string_of_int (Z.to_int n).

Fixpoint zero_pad (width : nat) (s : string) : string :=
  match (width - String.length s)%nat with
  | O => s
  | S _ => match width with
           | O => s
           | S w => "0" ++ zero_pad w s
           end
  end.

Fixpoint zeros (n : nat) : string :=
  match n with
  | O => EmptyString
  | S n' => String "0" (zeros n')
  end.

(** *** [str] of a float

    [float.__repr__] prints the shortest decimal that reads back as the
    float, the nearest to it among the decimals of that length, and lays
    it out with an exponent when the decimal point would stand more than
    16 digits to the right of the first digit or more than 3 zeros to its
    left.  A cell is a rational; what is printed is the binary64 nearest
    to it, which is the float the column holds. *)

Definition Qpow (b k : Z) : Q := Qpower (inject_Z b) k.

(** The [k] with [b ^ k <= q < b ^ (k + 1)], reached from an estimate that
    is off by a few units at most. *)
Fixpoint settle (fuel : nat) (b : Z) (q : Q) (k : Z) : Z :=
  match fuel with
  | O => k
  | S fuel' =>
      if Qle_bool (Qpow b k) q
      then if Qle_bool (Qpow b (k + 1)) q then settle fuel' b q (k + 1) else k
      else settle fuel' b q (k - 1)
  end.

Definition log2_estimate (q : Q) : Z := Z.log2 (Qnum q) - Z.log2 (Zpos (Qden q)).

Definition floor_log2 (q : Q) : Z := settle 4 2 q (log2_estimate q).

Definition floor_log10 (q : Q) : Z := settle 4 10 q (log2_estimate q * 1233 / 4096).

Definition round_half_even (q : Q) : Z :=
  let f := Qfloor q in
  match Qcompare (q - inject_Z f)%Q (1 # 2) with
  | Lt => f
  | Gt => f + 1
  | Eq => if Z.even f then f else f + 1
  end.

(** The binary64 nearest to a positive rational, as a significand [m] of
    at most 53 bits and an exponent [e >= -1074]: the float is [m * 2^e]. *)
Definition binary64 (q : Q) : Z * Z :=
  let e := Z.max (floor_log2 q - 52) (-1074) in
  let m := round_half_even (q * Qpow 2 (- e))%Q in
  if m =? 2 ^ 53 then (2 ^ 52, e + 1) else (m, e).

(** The shortest decimal [d * 10^t] between [lo] and [hi], the bounds of
    the rationals that round to the float [v] ([closed] tells whether the
    bounds themselves do): decimals of [p] digits are tried, then of
    [p + 1], and of two that fit the nearer to [v] is taken. *)
Fixpoint shortest (fuel : nat) (p : Z) (v lo hi : Q) (closed : bool) : Z * Z :=
  let t := floor_log10 v - p + 1 in
  let s := Qred (v * Qpow 10 (- t))%Q in
  let d1 := Qfloor s in
  let d2 := d1 + 1 in
  let inside d :=
    let x := (inject_Z d * Qpow 10 t)%Q in
    if closed then Qle_bool lo x && Qle_bool x hi
    else negb (Qle_bool x lo) && negb (Qle_bool hi x) in
  let pick :=
    match inside d1, inside d2 with
    | true, true =>
        match Qcompare (s - inject_Z d1)%Q (inject_Z d2 - s)%Q with
        | Lt => Some d1
        | Gt => Some d2
        | Eq => Some (if Z.even d1 then d1 else d2)
        end
    | true, false => Some d1
    | false, true => Some d2
    | false, false => None
    end in
  match pick, fuel with
  | Some d, _ => (d, t)
  | None, S fuel' => shortest fuel' (p + 1) v lo hi closed
  | None, O => (round_half_even s, t)
  end.

Fixpoint strip_zeros (fuel : nat) (d t : Z) : Z * Z :=
  match fuel with
  | O => (d, t)
  | S fuel' => if (d mod 10 =? 0) && negb (d =? 0)
               then strip_zeros fuel' (d / 10) (t + 1) else (d, t)
  end.

(** The digits [d1 d2 ... dn] of the float [0.d1d2...dn * 10^decpt], laid
    out as [float.__repr__] does. *)
Definition float_layout (digits : string) (decpt : Z) : string :=
  let n := Z.of_nat (String.length digits) in
  if (decpt <=? -4) || (16 <? decpt) then
    String.substring 0 1 digits
    ++ (if n =? 1 then ""
        else "." ++ String.substring 1 (String.length digits - 1) digits)
    ++ "e" ++ (if decpt - 1 <? 0 then "-" else "+")
    ++ zero_pad 2 (str_of_Z (Z.abs (decpt - 1)))
  else if decpt <=? 0 then "0." ++ zeros (Z.to_nat (- decpt)) ++ digits
  else if n <=? decpt then digits ++ zeros (Z.to_nat (decpt - n)) ++ ".0"
  else String.substring 0 (Z.to_nat decpt) digits ++ "."
       ++ String.substring (Z.to_nat decpt) (Z.to_nat (n - decpt)) digits.

(** [str(x)] of a float. *)
Definition float_repr (q : Q) : string :=
  let sign := if Qnum q <? 0 then "-" else "" in
  if Qnum q =? 0 then "0.0"
  else
    let '(m, e) := binary64 (Qred (Qabs q)) in
    if m =? 0 then sign ++ "0.0"
    else if 971 <? e then sign ++ "inf"
    else
      let v := Qred (inject_Z m * Qpow 2 e)%Q in
      let lo := if (m =? 2 ^ 52) && (-1074 <? e)
                then (v - Qpow 2 (e - 2))%Q else (v - Qpow 2 (e - 1))%Q in
      let hi := (v + Qpow 2 (e - 1))%Q in
      let '(d, t) := shortest 16 1 v (Qred lo) (Qred hi) (Z.even m) in
      let '(d, t) := strip_zeros 17 d t in
      let digits := str_of_Z d in
      sign ++ float_layout digits (Z.of_nat (String.length digits) + t).

Definition date_repr (d : date) : string :=
  zero_pad 4 (str_of_Z (d_year d)) ++ "-" ++ zero_pad 2 (str_of_Z (d_month d))
  ++ "-" ++ zero_pad 2 (str_of_Z (d_day d)) ++ " 00:00:00".

(** [str(x)]. *)
Definition str (v : value) : string :=
  match v with
  | VNull => "nan"
  | VStr s => s
  | VInt n => str_of_Z n
  | VFloat q => float_repr q
  | VDate d => date_repr d
  end.

(** *** [int(s)] *)

Definition is_space (c : ascii) : bool :=
  let n := nat_of_ascii c in
  ((9 <=? n) && (n <=? 13) || (n =? 32) || ((28 <=? n) && (n <=? 31)))%nat.

Definition is_digit (c : ascii) : bool :=
  let n := nat_of_ascii c in ((48 <=? n) && (n <=? 57))%nat.

Fixpoint lstrip (l : list ascii) : list ascii :=
  match l with
  | c :: l' => if is_space c then lstrip l' else l
  | [] => []
  end.

Definition strip (l : list ascii) : list ascii :=
  rev (lstrip (rev (lstrip l))).

(** Digits, single underscores allowed between two digits; [acc] is the
    number read so far and [prev] tells whether the last character was a
    digit. *)
Fixpoint digits_value (l : list ascii) (acc : Z) (prev : bool) : option Z :=
  match l with
  | [] => if prev then Some acc else None
  | c :: l' =>
      if is_digit c
      then digits_value l' (10 * acc + Z.of_nat (nat_of_ascii c - 48)) true
      else if Ascii.eqb c "_" && prev
           then match l' with
                | d :: _ => if is_digit d then digits_value l' acc false else None
                | [] => None
                end
           else None
  end.

Definition int_of_str (s : string) : result Z :=
  let l := strip (list_ascii_of_string s) in
  let '(neg, body) :=
    match l with
    | c :: l' => if Ascii.eqb c "-" then (true, l')
                 else if Ascii.eqb c "+" then (false, l') else (false, l)
    | [] => (false, [])
    end in
  match digits_value body 0 false with
  | Some n => Ok (if (neg : bool) then - n else n)
  | None => Raise ValueError
  end.

(** *** Fixed-width integers and dates *)

(** [astype(np.int8)] of an integer wraps around. *)
Definition int8 (n : Z) : Z := (n + 128) mod 256 - 128.

(** Days from 1970-01-01 to a date of the proleptic Gregorian calendar. *)
Definition days_from_civil (d : date) : Z :=
  let y := if d_month d <=? 2 then d_year d - 1 else d_year d in
  let era := y / 400 in
  let yoe := y - era * 400 in
  let mp := if d_month d >? 2 then d_month d - 3 else d_month d + 9 in
  let doy := (153 * mp + 2) / 5 + d_day d - 1 in
  let doe := yoe * 365 + yoe / 4 - yoe / 100 + doy in
  era * 146097 + doe - 719468.

End Py.

Import Py.

Declare Scope py_scope.
Delimit Scope py_scope with py.
Notation "x <- m ;; k" := (Py.bind m (fun x => k))
  (at level 61, m at next level, right associativity) : py_scope.
Local Open Scope py_scope.

(* ===================================================================== *)
(** ** The pandas operations the program calls                           *)
(* ===================================================================== *)

Module pd.

(** A table: the length of its index and its columns in order.  A frame
    that pandas builds has columns of that one length ([wf] below). *)
Record DataFrame := mkDF { nrows : nat; cols : list (string * list value) }.

Definition columns (df : DataFrame) : list string := map fst (cols df).

Definition mem (c : string) (l : list string) : bool := existsb (String.eqb c) l.
Arguments mem : simpl never.

Definition has_column (c : string) (df : DataFrame) : bool := mem c (columns df).

Fixpoint lookup (c : string) (l : list (string * list value)) : option (list value) :=
  match l with
  | [] => None
  | (n, v) :: l' => if String.eqb c n then Some v else lookup c l'
  end.

(** [df[c]] *)
Definition getitem (c : string) (df : DataFrame) : result (list value) :=
  match lookup c (cols df) with
  | Some v => Ok v
  | None => Raise (KeyError c)
  end.

Fixpoint assign (c : string) (v : list value) (l : list (string * list value)) :=
  match l with
  | [] => [(c, v)]
  | (n, w) :: l' => if String.eqb c n then (n, v) :: l' else (n, w) :: assign c v l'
  end.

(** [df[c] = v]: an existing column keeps its place, a new one goes last. *)
Definition setitem (c : string) (v : list value) (df : DataFrame) : DataFrame :=
  mkDF (nrows df) (assign c v (cols df)).

Definition fill (v x : value) : value := if is_null x then v else x.

(** [df[c].fillna(v, inplace=True)] *)
Definition fillna (c : string) (v : value) (df : DataFrame) : result DataFrame :=
  col <- getitem c df ;;
  Ok (setitem c (map (fill v) col) df).

(** [series.apply(f)] *)
Definition apply (f : value -> result value) (col : list value) : result (list value) :=
  mapM f col.

Definition remove (labels : list string) (l : list (string * list value)) :=
  filter (fun nv => negb (mem (fst nv) labels)) l.

(** [df.drop(labels, axis=1, inplace=True)] *)
Definition drop (labels : list string) (df : DataFrame) : result DataFrame :=
  match find (fun c => negb (has_column c df)) labels with
  | Some c => Raise (KeyError c)
  | None => Ok (mkDF (nrows df) (remove labels (cols df)))
  end.

(** [df.isnull().any().any()] *)
Definition isnull_any (df : DataFrame) : bool :=
  existsb (fun nv => existsb is_null (snd nv)) (cols df).

(** [df[[c1, ..., cn]]] *)
Definition select (labels : list string) (df : DataFrame) : result DataFrame :=
  cs <- mapM (fun c => v <- getitem c df ;; Ok (c, v)) labels ;;
  Ok (mkDF (nrows df) cs).

(** [df.columns = names] *)
Definition set_columns (names : list string) (df : DataFrame) : result DataFrame :=
  if (List.length names =? List.length (cols df))%nat
  then Ok (mkDF (nrows df) (combine names (map snd (cols df))))
  else Raise ValueError.

(** *** Row selection *)

Definition take (idx : list nat) (col : list value) : list value :=
  map (fun i => nth i col VNull) idx.

Definition take_opt (idx : list (option nat)) (col : list value) : list value :=
  map (fun oj => match oj with Some j => nth j col VNull | None => VNull end) idx.

Definition take_rows (idx : list nat) (df : DataFrame) : DataFrame :=
  mkDF (List.length idx) (map (fun nv => (fst nv, take idx (snd nv))) (cols df)).

(** *** Left merge on one key column *)

Fixpoint positions_from (p : value -> bool) (i : nat) (l : list value) : list nat :=
  match l with
  | [] => []
  | x :: l' => if p x then i :: positions_from p (S i) l'
               else positions_from p (S i) l'
  end.

Definition positions (p : value -> bool) (l : list value) : list nat :=
  positions_from p 0 l.

(** The rows of a left merge, as pairs of a left row and the right row it
    matched: every left row in order, once per matching right row, and
    once with no partner when nothing matches. *)
Definition indexer (lkeys rkeys : list value) : list (nat * option nat) :=
  flat_map (fun ik =>
              match positions (key_eqb (snd ik)) rkeys with
              | [] => [(fst ik, None)]
              | js => map (fun j => (fst ik, Some j)) js
              end)
           (combine (seq 0 (List.length lkeys)) lkeys).

Definition is_text (v : value) : bool :=
  match v with VStr _ => true | _ => false end.

Definition is_int (v : value) : bool :=
  match v with VInt _ => true | _ => false end.

Definition is_number (v : value) : bool :=
  match v with VInt _ | VFloat _ => true | _ => false end.

(** A key column that is of dtype object and that pandas infers to hold
    text: it has a text cell and no integer. *)
Definition text_keys (l : list value) : bool :=
  existsb is_text l && negb (existsb is_int l).

(** A key column of a numeric dtype: numbers and nulls, with a number
    among them. *)
Definition number_keys (l : list value) : bool :=
  existsb is_number l && forallb (fun v => is_number v || is_null v) l.

(** The two key columns on which [merge] raises its [ValueError] ("You
    are trying to merge on object and int64 columns"): text on one side,
    numbers on the other.  A side without rows is never refused. *)
Definition keys_clash (lk rk : list value) : bool :=
  text_keys lk && number_keys rk || number_keys lk && text_keys rk.

(** [left.merge(right, on=on, how='left')].  A column name the two sides
    share, the key apart, takes the suffixes [_x] and [_y].  The key column
    holds the left key of each row.  It stands where the left frame has it,
    unless the left frame has no row: pandas then drops the key from the
    left frame and keeps the one of the right frame, so the key comes
    among the right columns, behind the other left ones. *)
Definition merge (left right : DataFrame) (on : string) : result DataFrame :=
  lk <- getitem on left ;;
  rk <- getitem on right ;;
  if keys_clash lk rk then Raise ValueError
  else
    let ix := indexer lk rk in
    let rcols := remove [on] (cols right) in
    let ren_l n := if negb (String.eqb n on) && mem n (map fst rcols)
                   then n ++ "_x" else n in
    let ren_r n := if mem n (columns left) then n ++ "_y" else n in
    let from_l nv := (ren_l (fst nv), take (map fst ix) (snd nv)) in
    let from_r nv := (ren_r (fst nv), take_opt (map snd ix) (snd nv)) in
    Ok (mkDF (List.length ix)
          (if (nrows left =? 0)%nat
           then map from_l (remove [on] (cols left))
                ++ map (fun nv => if String.eqb (fst nv) on
                                  then (on, take (map fst ix) lk) else from_r nv)
                       (cols right)
           else map from_l (cols left) ++ map from_r rcols)).

(** *** Distinct keys, counts and groups *)

(** The distinct keys of a list, each at its first occurrence. *)
Fixpoint nub (l : list value) : list value :=
  match l with
  | [] => []
  | x :: l' => x :: filter (fun y => negb (key_eqb x y)) (nub l')
  end.

Definition dropna (l : list value) : list value :=
  filter (fun x => negb (is_null x)) l.

Definition count_key (k : value) (l : list value) : nat :=
  List.length (filter (key_eqb k) l).

(** Stable insertion sort of keyed rows, largest count first. *)
Fixpoint insert_desc {A} (x : A * Z) (l : list (A * Z)) : list (A * Z) :=
  match l with
  | [] => [x]
  | y :: l' => if snd y <=? snd x then x :: l else y :: insert_desc x l'
  end.

Definition sort_desc {A} (l : list (A * Z)) : list (A * Z) :=
  fold_right insert_desc [] l.

(** [series.value_counts()]: nulls are left out, the most frequent key
    comes first.  pandas leaves the order of ties open; here they keep the
    order of first occurrence. *)
Definition value_counts (col : list value) : list (value * Z) :=
  let nn := dropna col in
  sort_desc (map (fun k => (k, Z.of_nat (count_key k nn))) (nub nn)).

(** [series.value_counts().reset_index()]: a frame of two columns. *)
Definition value_counts_frame (name : string) (col : list value) : DataFrame :=
  let vc := value_counts col in
  mkDF (List.length vc) [("index", map fst vc); (name, map (fun kc => VInt (snd kc)) vc)].

Inductive agg := Mean | Count.

Definition agg_name (a : agg) : string :=
  match a with Mean => "mean" | Count => "count" end.

Definition sumQ (l : list Q) : Q := fold_right Qplus 0%Q l.

Fixpoint numbers (l : list value) : option (list Q) :=
  match l with
  | [] => Some []
  | v :: l' => match as_Q v, numbers l' with
               | Some q, Some qs => Some (q :: qs)
               | _, _ => None
               end
  end.

(** One aggregate of the cells of a group; nulls are skipped, and the mean
    of no cell is a null. *)
Definition agg_apply (a : agg) (cells : list value) : result value :=
  let nn := dropna cells in
  match a with
  | Count => Ok (VInt (Z.of_nat (List.length nn)))
  | Mean =>
      match numbers nn with
      | None => Raise DataError
      | Some [] => Ok VNull
      | Some qs => Ok (VFloat (Qred (sumQ qs / inject_Z (Z.of_nat (List.length qs)))))
      end
  end.

(** The cells of [vals] in the rows whose key is [g]. *)
Definition members (g : value) (keys vals : list value) : list value :=
  map snd (filter (fun kv => key_eqb g (fst kv)) (combine keys vals)).

Definition group_keys (keys : list value) : list value := nub (dropna keys).

(** [df.groupby(key).agg([a1, ..., an]).reset_index()]: one row per
    non-null key, and for every other column one column per aggregate.
    pandas orders the groups by key; the order kept here is that of first
    occurrence, which no consumer in this program can tell apart (each
    result is the right side of a left merge). *)
Definition groupby_agg (key : string) (aggs : list agg) (df : DataFrame)
  : result DataFrame :=
  keys <- getitem key df ;;
  let groups := group_keys keys in
  newcols <- mapM (fun nva =>
                     col <- mapM (fun g => agg_apply (snd nva)
                                             (members g keys (snd (fst nva)))) groups ;;
                     Ok (fst (fst nva) ++ "_" ++ agg_name (snd nva), col))
                  (list_prod (remove [key] (cols df)) aggs) ;;
  Ok (mkDF (List.length groups) ((key, groups) :: newcols)).

(** [df.groupby(key).agg('count').reset_index()]: as above with the one
    aggregate, the columns keeping their names. *)
Definition groupby_count (key : string) (df : DataFrame) : result DataFrame :=
  keys <- getitem key df ;;
  let groups := group_keys keys in
  newcols <- mapM (fun nv =>
                     col <- mapM (fun g => agg_apply Count (members g keys (snd nv))) groups ;;
                     Ok (fst nv, col))
                  (remove [key] (cols df)) ;;
  Ok (mkDF (List.length groups) ((key, groups) :: newcols)).

(** *** Duplicates *)

Fixpoint tuple_eqb (a b : list value) : bool :=
  match a, b with
  | [], [] => true
  | x :: a', y :: b' => key_eqb x y && tuple_eqb a' b'
  | _, _ => false
  end.

(** Positions of the rows whose key tuple did not occur before. *)
Fixpoint firsts (seen : list (list value)) (i : nat) (l : list (list value)) : list nat :=
  match l with
  | [] => []
  | k :: l' => if existsb (tuple_eqb k) seen then firsts seen (S i) l'
               else i :: firsts (k :: seen) (S i) l'
  end.

Definition row_keys (n : nat) (keycols : list (list value)) : list (list value) :=
  map (fun i => map (fun col => nth i col VNull) keycols) (seq 0 n).

(** [df.drop_duplicates(subset)]: the first row of each key is kept. *)
Definition drop_duplicates (subset : list string) (df : DataFrame) : result DataFrame :=
  keycols <- mapM (fun c => getitem c df) subset ;;
  Ok (take_rows (firsts [] 0 (row_keys (nrows df) keycols)) df).

(** *** Sorting and concatenation *)

Definition sort_key (v : value) : Z :=
  match v with
  | VInt n => n
  | VFloat q => Qfloor q
  | _ => -1
  end.

(** [df.sort_values(key, ascending=False)] for a column of counts. *)
Definition sort_values_desc (key : string) (df : DataFrame) : result DataFrame :=
  keys <- getitem key df ;;
  let order := sort_desc (combine (seq 0 (List.length keys)) (map sort_key keys)) in
  Ok (take_rows (map fst order) df).

Definition column_or_nulls (c : string) (df : DataFrame) : list value :=
  match lookup c (cols df) with
  | Some v => v
  | None => repeat VNull (nrows df)
  end.

(** [a.append(b)]: the rows of [a] then those of [b], over the columns of
    [a] followed by the new ones of [b]. *)
Definition append (a b : DataFrame) : DataFrame :=
  let names := (columns a ++ filter (fun c => negb (has_column c a)) (columns b))%list in
  mkDF (nrows a + nrows b)
       (map (fun c => (c, (column_or_nulls c a ++ column_or_nulls c b)%list)) names).

(** The invariant of a frame: columns of the length of the index, under
    distinct names. *)
Definition wf (df : DataFrame) : Prop :=
  Forall (fun nv => List.length (snd nv) = nrows df) (cols df) /\ NoDup (columns df).

End pd.

Import pd.

(* ===================================================================== *)
(** ** Calls that mutate an object in place                              *)
(* ===================================================================== *)

(** A computation over an object of type [S] that the caller keeps a
    reference to: it leaves the object in a new state and either returns
    or raises.  The state it leaves on a raise is what the caller would
    find afterwards. *)
Definition stateful (S A : Type) : Type := S -> S * result A.

Definition sret {S A} (a : A) : stateful S A := fun s => (s, Ok a).

Definition sraise {S A} (e : exn) : stateful S A := fun s => (s, Raise e).

Definition sbind {S A B} (m : stateful S A) (k : A -> stateful S B) : stateful S B :=
  fun s => match m s with
           | (s', Ok a) => k a s'
           | (s', Raise e) => (s', Raise e)
           end.

Definition sget {S} : stateful S S := fun s => (s, Ok s).

(** An in-place operation: the object changes only when it succeeds. *)
Definition update {S} (f : S -> result S) : stateful S unit :=
  fun s => match f s with
           | Ok s' => (s', Ok tt)
           | Raise e => (s, Raise e)
           end.

(** A computation that reads the object and leaves it alone. *)
Definition read {S A} (f : S -> result A) : stateful S A := fun s => (s, f s).

Notation "x <~ m ;; k" := (sbind m (fun x => k))
  (at level 61, m at next level, right associativity) : py_scope.
Notation "m ;;; k" := (sbind m (fun _ => k))
  (at level 61, right associativity) : py_scope.

(** [assert cond] at the site [site]. *)
Definition assert_ {S} (cond : bool) (site : assert_site) : stateful S unit :=
  if cond then sret tt else sraise (AssertionError site).

Fixpoint map2 {A B C} (f : A -> B -> C) (l : list A) (l' : list B) : list C :=
  match l, l' with
  | x :: l, y :: l' => f x y :: map2 f l l'
  | _, _ => []
  end.

Definition of_bool (b : bool) : value := VInt (if b then 1 else 0).

(** [df[dst] = df[src].apply(f)] *)
Definition derive (dst src : string) (f : value -> result value) (df : DataFrame)
  : result DataFrame :=
  col <- getitem src df ;;
  v <- apply f col ;;
  Ok (setitem dst v df).

(** [x.astype(np.int8)] of a cell. *)
Definition astype_int8 (v : value) : result value :=
  match v with
  | VInt n => Ok (VInt (int8 n))
  | VFloat q => Ok (VInt (int8 (Z.quot (Qnum q) (Zpos (Qden q)))))
  | VNull => Raise ValueError
  | VStr s => n <- int_of_str s ;; Ok (VInt (int8 n))
  | VDate _ => Raise TypeError
  end.

(** [assert (~df.isnull().any().any())] *)
Definition assert_no_null : stateful DataFrame unit :=
  fun df => assert_ (negb (isnull_any df)) MissingData df.

(** Order of two cells for [<=] and [>=]; a comparison with NaN is false,
    a comparison of text with a number raises. *)
Definition num_leb (a b : value) : result bool :=
  match a, b with
  | VNull, (VNull | VInt _ | VFloat _) | (VInt _ | VFloat _), VNull => Ok false
  | _, _ => match as_Q a, as_Q b with
            | Some p, Some q => Ok (Qle_bool p q)
            | _, _ => Raise TypeError
            end
  end.

(* ===================================================================== *)
(** ** The per-table processors                                          *)
(* ===================================================================== *)

Module SongsProcessor.

Definition is_featured (x : value) : result value :=
  Ok (of_bool (contains "feat" (str x))).

Definition artist_count (x : value) : result value :=
  if py_eqb x (VStr "no_artist") then Ok (VInt 0)
  else match x with
       | VStr s => Ok (VInt (count "and" s + count "," s + count "feat" s + count "&" s))
       | _ => Raise AttributeError
       end.

Definition song_lang_boolean (x : value) : result value :=
  Ok (of_bool (contains "17.0" (str x) || contains "45.0" (str x))).

(** The six [x.replace(...)] calls of the source discard their results,
    so the count is taken on [str(x)] as it stands. *)
Definition parse_splitted_category_to_number (x : value) : result value :=
  if is_null x then Ok (VInt 0)
  else Ok (VInt (count "|" (str x) + 1)).

Definition one_hot_encode_lang (x : value) : result value :=
  Ok (of_bool (py_eqb x (VInt (-1)) || py_eqb x (VInt 17) || py_eqb x (VInt 45))).

Definition one_hot_song_length (x : value) : result value :=
  b <- num_leb x (VInt 239738) ;; Ok (of_bool b).

Definition with_int8 (f : value -> result value) (x : value) : result value :=
  y <- f x ;; astype_int8 y.

Definition equal_cells (x y : value) : value := of_bool (py_eqb x y).

(** [df[dst] = (df[a] == df[b])] *)
Definition same_columns (dst a b : string) (df : DataFrame) : result DataFrame :=
  ca <- getitem a df ;;
  cb <- getitem b df ;;
  Ok (setitem dst (map2 equal_cells ca cb) df).

(** [&] of two boolean cells. *)
Definition and_cells (x y : value) : value :=
  of_bool (py_eqb x (VInt 1) && py_eqb y (VInt 1)).

(** [df[dst] = (df[a] == df[b]) & (df[a] == df[c]) & (df[b] == df[c])] *)
Definition same_three (dst a b c : string) (df : DataFrame) : result DataFrame :=
  ca <- getitem a df ;;
  cb <- getitem b df ;;
  cc <- getitem c df ;;
  Ok (setitem dst
        (map2 and_cells
           (map2 and_cells (map2 equal_cells ca cb) (map2 equal_cells ca cc))
           (map2 equal_cells cb cc)) df).

Definition parse : stateful DataFrame DataFrame :=
  update (fillna "artist_name" (VStr "no_artist")) ;;;
  update (fillna "language" (VStr "nan")) ;;;
  update (fillna "composer" (VStr "nan")) ;;;
  update (fillna "lyricist" (VStr "nan")) ;;;
  update (fillna "genre_ids" (VStr "nan")) ;;;
  update (derive "is_featured" "artist_name" (with_int8 is_featured)) ;;;
  update (derive "artist_count" "artist_name" (with_int8 artist_count)) ;;;
  update (same_columns "artist_composer" "artist_name" "composer") ;;;
  update (derive "artist_composer" "artist_composer" astype_int8) ;;;
  update (same_three "artist_composer_lyricist" "artist_name" "composer" "lyricist") ;;;
  update (derive "artist_composer_lyricist" "artist_composer_lyricist" astype_int8) ;;;
  update (derive "song_lang_boolean" "language" (with_int8 song_lang_boolean)) ;;;
  update (derive "genre_count" "genre_ids" parse_splitted_category_to_number) ;;;
  update (derive "composer_count" "composer" parse_splitted_category_to_number) ;;;
  update (derive "lyricist_count" "lyricist" parse_splitted_category_to_number) ;;;
  update (derive "1h_lang" "language" one_hot_encode_lang) ;;;
  update (derive "1h_song_length" "song_length" one_hot_song_length) ;;;
  assert_no_null ;;;
  sget.

End SongsProcessor.

Module MembersProcessor.

(** [(expiration - registration).dt.days.astype(int)] of one row. *)
Definition membership_days (er : value * value) : result value :=
  match er with
  | (VDate e, VDate r) => Ok (VInt (days_from_civil e - days_from_civil r))
  | (VDate _, VNull) | (VNull, VDate _) | (VNull, VNull) => Raise ValueError
  | (VStr _, _) | (_, VStr _) => Raise TypeError
  | _ => Raise AttributeError
  end.

Definition dt_field (f : date -> Z) (x : value) : result value :=
  match x with
  | VDate d => Ok (VInt (f d))
  | VNull => Ok VNull
  | _ => Raise AttributeError
  end.

Definition bd_mean : Q := 2899737187910644 # 100000000000000.
Definition bd_std : Q := 9538470787507382 # 1000000000000000.

Definition transform_bd_outliers (bd : value) : result value :=
  high <- num_leb (VInt 120) bd ;;
  low <- (if high then Ok true else num_leb bd (VInt 7)) ;;
  if low then Ok (VStr "nan")
  else match as_Q bd with
       | Some q => if Qle_bool (Qabs (q - bd_mean)) (3 * bd_std)
                   then Ok bd else Ok (VStr "nan")
       | None => Ok (VStr "nan")
       end.

Definition one_hot_encode_via (x : value) : result value :=
  Ok (VInt (if py_eqb x (VInt 4) then 0 else 1)).

Definition set_membership_days (df : DataFrame) : result DataFrame :=
  e <- getitem "expiration_date" df ;;
  r <- getitem "registration_init_time" df ;;
  v <- mapM membership_days (combine e r) ;;
  Ok (setitem "membership_days" v df).

Definition parse : stateful DataFrame DataFrame :=
  update (fillna "gender" (VStr "nan")) ;;;
  update set_membership_days ;;;
  update (derive "registration_year" "registration_init_time" (dt_field d_year)) ;;;
  update (derive "registration_month" "registration_init_time" (dt_field d_month)) ;;;
  update (derive "expiration_year" "expiration_date" (dt_field d_year)) ;;;
  update (derive "expiration_month" "expiration_date" (dt_field d_month)) ;;;
  update (drop ["registration_init_time"]) ;;;
  update (derive "bd" "bd" transform_bd_outliers) ;;;
  update (derive "1h_via" "registered_via" one_hot_encode_via) ;;;
  assert_no_null ;;;
  sget.

End MembersProcessor.

Module SongExtraProcessor.

Definition transform_isrc_to_year (isrc : value) : result value :=
  match isrc with
  | VStr s =>
      suffix <- int_of_str (String.substring 5 2 s) ;;
      Ok (VInt (if suffix >? 17 then 1900 + suffix else 2000 + suffix))
  | _ => Ok VNull
  end.

(** [1 if 2013 <= float(x) <= 2017 else 0]; the column it is applied to
    holds what [transform_isrc_to_year] returned, an integer or NaN. *)
Definition one_hot_encode_year (x : value) : result value :=
  match x with
  | VNull => Ok (VInt 0)
  | VInt _ | VFloat _ =>
      lo <- num_leb (VInt 2013) x ;;
      hi <- num_leb x (VInt 2017) ;;
      Ok (of_bool (lo && hi))
  | VStr _ => Raise ValueError
  | VDate _ => Raise TypeError
  end.

Definition parse : stateful DataFrame DataFrame :=
  update (derive "song_year" "isrc" transform_isrc_to_year) ;;;
  update (drop ["name"; "isrc"]) ;;;
  update (derive "1h_song_year" "song_year" one_hot_encode_year) ;;;
  update (fillna "song_year" (VInt 2017)) ;;;
  assert_no_null ;;;
  sget.

End SongExtraProcessor.

Module TrainTestProcessor.

Definition one_hot_encode_system_tab (x : value) : result value :=
  Ok (of_bool (py_eqb x (VStr "my library"))).

Definition one_hot_encode_screen_name (x : value) : result value :=
  Ok (of_bool (py_eqb x (VStr "Local playlist more") || py_eqb x (VStr "My library"))).

Definition one_hot_encode_source_type (x : value) : result value :=
  Ok (of_bool (py_eqb x (VStr "local-library") || py_eqb x (VStr "local-playlist"))).

Definition one_hot_encode_source (x : value) : result value :=
  b <- num_leb (VFloat (6 # 10)) x ;; Ok (of_bool b).

Fixpoint map3 {A B C D} (f : A -> B -> C -> D) (a : list A) (b : list B) (c : list C)
  : list D :=
  match a, b, c with
  | x :: a, y :: b, z :: c => f x y z :: map3 f a b c
  | _, _, _ => []
  end.

Definition merged_name (tab screen type : value) : value :=
  VStr (str tab ++ " | " ++ str screen ++ " | " ++ str type).

Definition set_source_merged (df : DataFrame) : result DataFrame :=
  tab <- getitem "source_system_tab" df ;;
  screen <- getitem "source_screen_name" df ;;
  type <- getitem "source_type" df ;;
  Ok (setitem "source_merged" (map3 merged_name tab screen type) df).

(** The part of [parse] that runs on the argument itself. *)
Definition fill_in_place : stateful DataFrame unit :=
  update (fillna "source_system_tab" (VStr "others")) ;;;
  update (fillna "source_screen_name" (VStr "others")) ;;;
  update (fillna "source_type" (VStr "nan")) ;;;
  update set_source_merged.

Definition check_no_null (df : DataFrame) : result DataFrame :=
  if isnull_any df then Raise (AssertionError MissingData) else Ok df.

(** The rest of [parse]: [df.merge] returns a new frame, and what follows
    works on that one, not on the argument. *)
Definition merge_and_encode (df : DataFrame) : result DataFrame :=
  sel <- select ["source_merged"; "target"] df ;;
  count_df <- groupby_agg "source_merged" [Mean; Count] sel ;;
  count_df <- set_columns ["source_merged"; "source_replay_pb"; "source_replay_count"]
                          count_df ;;
  df <- merge df count_df "source_merged" ;;
  df <- derive "1h_source" "source_replay_pb" one_hot_encode_source df ;;
  df <- derive "1h_system_tab" "source_system_tab" one_hot_encode_system_tab df ;;
  df <- derive "1h_screen_name" "source_screen_name" one_hot_encode_screen_name df ;;
  df <- derive "1h_source_type" "source_type" one_hot_encode_source_type df ;;
  df <- drop ["source_merged"; "source_replay_pb"; "source_replay_count"] df ;;
  check_no_null df.

Definition parse : stateful DataFrame DataFrame :=
  fill_in_place ;;;
  read merge_and_encode.

End TrainTestProcessor.

Module EngineeringProcessor.

Section WithReference.

(** [self.ref_df] *)
Variable ref_df : DataFrame.

Definition generate_play_count (df : DataFrame) : result DataFrame :=
  songs <- getitem "song_id" ref_df ;;
  count_df <- set_columns ["song_id"; "play_count"]
                          (value_counts_frame "song_id" songs) ;;
  df <- merge df count_df "song_id" ;;
  fillna "play_count" (VInt 0) df.

Definition generate_track_count (df : DataFrame) : result DataFrame :=
  track_count_df <- select ["song_id"; "artist_name"] ref_df ;;
  track_count_df <- drop_duplicates ["song_id"] track_count_df ;;
  track_count_df <- groupby_count "artist_name" track_count_df ;;
  track_count_df <- set_columns ["artist_name"; "track_count"] track_count_df ;;
  track_count_df <- sort_values_desc "track_count" track_count_df ;;
  artist_count_df <- select ["artist_name"; "target"] df ;;
  artist_count_df <- groupby_agg "artist_name" [Mean; Count] artist_count_df ;;
  artist_count_df <- set_columns ["artist_name"; "replay_pb"; "play_count"]
                                 artist_count_df ;;
  artist_count_df <- merge artist_count_df track_count_df "artist_name" ;;
  right <- select ["artist_name"; "track_count"] artist_count_df ;;
  df <- merge df right "artist_name" ;;
  fillna "track_count" (VInt 0) df.

Definition generate_cover_lang (df : DataFrame) : result DataFrame :=
  cover_lang_df <- select ["artist_name"; "language"] ref_df ;;
  cover_lang_df <- drop_duplicates ["artist_name"; "language"] cover_lang_df ;;
  artists <- getitem "artist_name" cover_lang_df ;;
  cover_lang_df <- set_columns ["artist_name"; "cover_lang"]
                               (value_counts_frame "artist_name" artists) ;;
  df <- merge df cover_lang_df "artist_name" ;;
  fillna "cover_lang" (VInt 0) df.

(** No step touches its argument: each starts from a merge, which
    returns a new frame. *)
Definition parse (df : DataFrame) : result DataFrame :=
  df <- generate_play_count df ;;
  df <- generate_track_count df ;;
  df <- generate_cover_lang df ;;
  Ok df.

End WithReference.

End EngineeringProcessor.

Module DataProcessor.

(** [DataProcessor.process(df, command, ref_df=None)]; the state is the
    frame passed as [df]. *)
Definition process (command : string) (ref_df : option DataFrame)
  : stateful DataFrame DataFrame :=
  res <~ (if mem command ["train"; "test"] then
            r <~ TrainTestProcessor.parse ;; sret (Some r)
          else if String.eqb command "members" then
            r <~ MembersProcessor.parse ;; sret (Some r)
          else if String.eqb command "songs" then
            r <~ SongsProcessor.parse ;; sret (Some r)
          else if String.eqb command "song_extra_info" then
            r <~ SongExtraProcessor.parse ;; sret (Some r)
          else if String.eqb command "engineering" then
            match ref_df with
            | None => sraise (AssertionError NoReference)
            | Some ref => r <~ read (EngineeringProcessor.parse ref) ;; sret (Some r)
            end
          else sret None) ;;
  match res with
  | Some r => sret r
  | None => sraise (AssertionError NoTransformer)
  end.

End DataProcessor.

(* ===================================================================== *)
(** ** The pipeline object                                               *)
(* ===================================================================== *)

Module FeatureProcessor.

Definition INITIALIZATION_READY : Z := 0.
Definition LOAD_READY : Z := 1.
Definition PREPROCESS_READY : Z := 2.
Definition ENGINEERING_READY : Z := 3.

(** The attributes of the object; a table attribute is [None] until
    [load_raw] binds it. *)
Record t := mk {
  songs_df : option DataFrame;
  song_extra_info_df : option DataFrame;
  members_df : option DataFrame;
  train_df : option DataFrame;
  test_df : option DataFrame;
  comb_df : option DataFrame;
  state : Z
}.

(** The file system as the program meets it: whether the root directory
    exists ([os.path.exists(root)]), and what [pd.read_csv] yields for each
    of the five files under it, a frame or the exception it raises. *)
Record files := mkFiles {
  root_exists : bool;
  train_csv : result DataFrame;
  test_csv : result DataFrame;
  songs_csv : result DataFrame;
  song_extra_info_csv : result DataFrame;
  members_csv : result DataFrame
}.

Definition set_songs_df v (o : t) :=
  mk v (song_extra_info_df o) (members_df o) (train_df o) (test_df o) (comb_df o) (state o).
Definition set_song_extra_info_df v (o : t) :=
  mk (songs_df o) v (members_df o) (train_df o) (test_df o) (comb_df o) (state o).
Definition set_members_df v (o : t) :=
  mk (songs_df o) (song_extra_info_df o) v (train_df o) (test_df o) (comb_df o) (state o).
Definition set_train_df v (o : t) :=
  mk (songs_df o) (song_extra_info_df o) (members_df o) v (test_df o) (comb_df o) (state o).
Definition set_test_df v (o : t) :=
  mk (songs_df o) (song_extra_info_df o) (members_df o) (train_df o) v (comb_df o) (state o).
Definition set_comb_df v (o : t) :=
  mk (songs_df o) (song_extra_info_df o) (members_df o) (train_df o) (test_df o) v (state o).
Definition set_state v (o : t) :=
  mk (songs_df o) (song_extra_info_df o) (members_df o) (train_df o) (test_df o) (comb_df o) v.

(** The object as [__init__] leaves it when it returns. *)
Definition init : t := mk None None None None None None INITIALIZATION_READY.

(** [self.attr = value] *)
Definition store {A} (set : A -> t -> t) (v : A) : stateful t unit :=
  fun o => (set v o, Ok tt).

(** [__init__(self, root)]: the root directory must exist; then each of
    the seven attributes is bound.  ([self._root] serves only to name the
    five files, which [files] gives.) *)
Definition __init__ (fs : files) : stateful t unit :=
  assert_ (root_exists fs) NoDirectory ;;;
  store set_songs_df None ;;;
  store set_song_extra_info_df None ;;;
  store set_members_df None ;;;
  store set_train_df None ;;;
  store set_test_df None ;;;
  store set_comb_df None ;;;
  store set_state INITIALIZATION_READY.

(** Runs a call on the frame an attribute refers to.  The frame is
    changed where it is, so the attribute shows the change whether the
    call returns or raises.  An attribute still [None] makes the first
    subscript of the processor ([df['...']]) raise a [TypeError]. *)
Definition on_frame {A} (get : t -> option DataFrame)
           (set : option DataFrame -> t -> t) (m : stateful DataFrame A)
  : stateful t A :=
  fun o => match get o with
           | None => (o, Raise TypeError)
           | Some df => let (df', r) := m df in (set (Some df') o, r)
           end.

(** Reads one or two attributes for a call that changes none of them; on
    an attribute still [None] the method call ([.merge], [.append]) raises
    an [AttributeError]. *)
Definition frame (get : t -> option DataFrame) : stateful t DataFrame :=
  fun o => match get o with
           | None => (o, Raise AttributeError)
           | Some df => (o, Ok df)
           end.

Definition pure {A} (r : result A) : stateful t A := fun o => (o, r).

Definition load_raw (fs : files) : stateful t unit :=
  o <~ sget ;;
  assert_ (INITIALIZATION_READY <=? state o) (StageOrder INITIALIZATION_READY) ;;;
  df <~ pure (train_csv fs) ;; store set_train_df (Some df) ;;;
  df <~ pure (test_csv fs) ;; store set_test_df (Some df) ;;;
  df <~ pure (songs_csv fs) ;; store set_songs_df (Some df) ;;;
  df <~ pure (song_extra_info_csv fs) ;; store set_song_extra_info_df (Some df) ;;;
  df <~ pure (members_csv fs) ;; store set_members_df (Some df) ;;;
  store set_state LOAD_READY.

(** [a.merge(b, on=key, how='left')] on two attributes. *)
Definition merge_frames (a b : t -> option DataFrame) (key : string)
  : stateful t DataFrame :=
  l <~ frame a ;;
  r <~ frame b ;;
  pure (merge l r key).

Definition pre_process : stateful t unit :=
  o <~ sget ;;
  assert_ (LOAD_READY <=? state o) (StageOrder LOAD_READY) ;;;
  df <~ on_frame train_df set_train_df (DataProcessor.process "train" None) ;;
  store set_train_df (Some df) ;;;
  df <~ on_frame train_df set_train_df (DataProcessor.process "test" None) ;;
  store set_test_df (Some df) ;;;
  df <~ on_frame members_df set_members_df (DataProcessor.process "members" None) ;;
  store set_members_df (Some df) ;;;
  df <~ on_frame songs_df set_songs_df (DataProcessor.process "songs" None) ;;
  store set_songs_df (Some df) ;;;
  df <~ on_frame song_extra_info_df set_song_extra_info_df
          (DataProcessor.process "song_extra_info" None) ;;
  store set_song_extra_info_df (Some df) ;;;
  df <~ merge_frames songs_df song_extra_info_df "song_id" ;;
  store set_songs_df (Some df) ;;;
  df <~ merge_frames train_df songs_df "song_id" ;;
  store set_train_df (Some df) ;;;
  df <~ merge_frames test_df songs_df "song_id" ;;
  store set_test_df (Some df) ;;;
  df <~ merge_frames train_df members_df "msno" ;;
  store set_train_df (Some df) ;;;
  df <~ merge_frames test_df members_df "msno" ;;
  store set_test_df (Some df) ;;;
  a <~ frame train_df ;;
  b <~ frame test_df ;;
  store set_comb_df (Some (append a b)) ;;;
  store set_state PREPROCESS_READY.

Definition feature_engineering : stateful t unit :=
  o <~ sget ;;
  assert_ (PREPROCESS_READY <=? state o) (StageOrder PREPROCESS_READY) ;;;
  df <~ on_frame train_df set_train_df
          (DataProcessor.process "engineering" (train_df o)) ;;
  store set_train_df (Some df) ;;;
  o <~ sget ;;
  df <~ on_frame test_df set_test_df
          (DataProcessor.process "engineering" (comb_df o)) ;;
  store set_test_df (Some df) ;;;
  store set_state ENGINEERING_READY.

(** [main()]: [FeatureProcessor(root='../data')], then the three stages in
    order.  The object [main] is run on stands for the one Python has just
    allocated for the constructor: [__init__] binds every attribute of it,
    so nothing it held is read. *)
Definition main (fs : files) : stateful t unit :=
  __init__ fs ;;; load_raw fs ;;; pre_process ;;; feature_engineering.

End FeatureProcessor.

(* ===================================================================== *)
(** ** Vocabulary of the properties                                      *)
(* ===================================================================== *)

(** Every exception [m] can raise satisfies [P]. *)
Definition raises (P : exn -> Prop) {A} (m : result A) : Prop :=
  forall e, m = Raise e -> P e.

(** The same for a call that works on a state. *)
Definition sraises (P : exn -> Prop) {S A} (m : stateful S A) : Prop :=
  forall s s' e, m s = (s', Raise e) -> P e.

(** The exceptions that come out of the data: a missing label, a cell of
    the wrong kind, a null that is left. *)
Definition data_error (e : exn) : Prop :=
  match e with
  | AssertionError MissingData | KeyError _ | TypeError | ValueError
  | AttributeError | DataError => True
  | _ => False
  end.

(** The commands [process] has a transformer for. *)
Definition commands : list string :=
  ["train"; "test"; "members"; "songs"; "song_extra_info"; "engineering"].

(** The two assertions of [process] itself. *)
Definition dispatch_error (e : exn) : bool :=
  match e with
  | AssertionError NoReference | AssertionError NoTransformer => true
  | _ => false
  end.

(** The result is an exception that satisfies [p]. *)
Definition fails_with {A} (p : exn -> bool) (r : result A) : bool :=
  match r with
  | Raise e => p e
  | Ok _ => false
  end.

(** [s] ends in [suffix]. *)
Fixpoint ends_with (suffix s : string) : bool :=
  String.eqb s suffix
  || match s with
     | EmptyString => false
     | String _ s' => ends_with suffix s'
     end.

(** A name that carries neither suffix of a merge. *)
Definition plain (c : string) : bool :=
  negb (ends_with "_x" c) && negb (ends_with "_y" c).

(** An event table with the columns of the test file: no [target]. *)
Definition test_events : DataFrame :=
  mkDF 2 [("id", [VInt 0; VInt 1]);
          ("msno", [VStr "u1"; VStr "u2"]);
          ("song_id", [VStr "A"; VStr "B"]);
          ("source_system_tab", [VStr "my library"; VNull]);
          ("source_screen_name", [VStr "Local playlist more"; VStr "Radio"]);
          ("source_type", [VStr "local-library"; VNull])].

(** No two keys of the list are equal. *)
Fixpoint distinct (l : list value) : bool :=
  match l with
  | [] => true
  | x :: l' => negb (existsb (key_eqb x) l') && distinct l'
  end.

(** The first position whose element satisfies [p]. *)
Fixpoint index_of (p : value -> bool) (l : list value) : option nat :=
  match l with
  | [] => None
  | x :: l' => if p x then Some 0%nat else option_map S (index_of p l')
  end.

(** The cell of [vals] in the row of the key [k], a null when no row has
    that key. *)
Definition lookup_key (k : value) (keys vals : list value) : value :=
  match index_of (key_eqb k) keys with
  | Some j => nth j vals VNull
  | None => VNull
  end.

(** The number of rows of a key column whose cell equals [k] under
    Python's [==] (a null equals nothing). *)
Definition rows_with_key (k : value) (keys : list value) : Z :=
  Z.of_nat (List.length (filter (fun y => py_eqb y k) keys)).

(** The example of the specification: reference keys [A, A, B]. *)
Definition play_reference : DataFrame :=
  mkDF 3 [("song_id", [VStr "A"; VStr "A"; VStr "B"])].

(** A target with a key of the reference and a key absent from it. *)
Definition play_target : DataFrame :=
  mkDF 2 [("song_id", [VStr "A"; VStr "C"])].

(** The merged events of the test file, still without [target]. *)
Definition engineering_target : DataFrame :=
  mkDF 2 [("msno", [VStr "u1"; VStr "u2"]);
          ("song_id", [VStr "A"; VStr "B"]);
          ("artist_name", [VStr "X"; VStr "Y"]);
          ("language", [VFloat 3; VFloat 17])].

(** Every column has the length of the index. *)
Definition uniform (df : DataFrame) : Prop :=
  Forall (fun nv => List.length (snd nv) = nrows df) (cols df).

(** A target table with a null of its own, and itself as the reference. *)
Definition engineering_input : DataFrame :=
  mkDF 2 [("msno", [VStr "u1"; VStr "u2"]);
          ("song_id", [VStr "A"; VStr "B"]);
          ("artist_name", [VStr "X"; VNull]);
          ("language", [VFloat 3; VNull]);
          ("target", [VInt 1; VInt 0])].

(** The three stage methods as calls on one object. *)
Module Stage.

Import FeatureProcessor.

(** A call of one of the three stage methods; [load_raw] reads the files
    as they are at the time of the call. *)
Inductive call :=
| Load (fs : files)
| PreProcess
| Engineer.

Definition run (c : call) : stateful t unit :=
  match c with
  | Load fs => load_raw fs
  | PreProcess => pre_process
  | Engineer => feature_engineering
  end.

(** The least state a stage accepts, and the state it sets. *)
Definition required (c : call) : Z :=
  match c with
  | Load _ => INITIALIZATION_READY
  | PreProcess => LOAD_READY
  | Engineer => PREPROCESS_READY
  end.

Definition own (c : call) : Z :=
  match c with
  | Load _ => LOAD_READY
  | PreProcess => PREPROCESS_READY
  | Engineer => ENGINEERING_READY
  end.

(** The calls of a sequence, each with the object before and after it and
    its outcome; a caller that catches an exception goes on with the
    object as the failed call left it. *)
Fixpoint steps (cs : list call) (o : t) : list (t * call * t * result unit) :=
  match cs with
  | [] => []
  | c :: cs' => let (o', r) := run c o in (o, c, o', r) :: steps cs' o'
  end.

(** What holds of one call as the code has it, on an object in any
    state: below the state its stage requires it raises the stage-order
    assertion and changes nothing; when it returns it was made at or above
    that state and leaves the marker at the stage's own value; when it
    raises it leaves the marker as it was. *)
Definition step_ok (s : t * call * t * result unit) : Prop :=
  let '(o, c, o', r) := s in
  (state o < required c ->
     r = Raise (AssertionError (StageOrder (required c))) /\ o' = o)
  /\ (r = Ok tt -> required c <= state o /\ state o' = own c)
  /\ (forall e, r = Raise e -> state o' = state o).

(** The call did not lower the marker, unless it is a [load_raw] that
    returned: that one leaves the marker at [LOAD_READY]. *)
Definition marker_kept (s : t * call * t * result unit) : Prop :=
  let '(o, c, o', r) := s in
  state o <= state o'
  \/ (exists fs, c = Load fs /\ r = Ok tt /\ state o' = LOAD_READY).

(** The call leaves the marker alone, whatever its outcome. *)
Definition keeps_state {A} (m : stateful t A) : Prop :=
  forall o o' r, m o = (o', r) -> state o' = state o.

(** The call sets the marker to [v] when it returns and leaves it alone
    when it raises. *)
Definition sets_state {A} (v : Z) (m : stateful t A) : Prop :=
  forall o o' r, m o = (o', r) ->
    match r with
    | Ok _ => state o' = v
    | Raise _ => state o' = state o
    end.

End Stage.

(** A small data set, in the layout of the five files of [load_raw]. *)
Module Sample.

(** Three events; the song [C] of the third is in no song table. *)
Definition train : DataFrame :=
  mkDF 3 [("msno", [VStr "u1"; VStr "u2"; VStr "u1"]);
          ("song_id", [VStr "A"; VStr "B"; VStr "C"]);
          ("source_system_tab", [VStr "my library"; VNull; VStr "discover"]);
          ("source_screen_name", [VStr "Local playlist more"; VStr "Radio"; VNull]);
          ("source_type", [VStr "local-library"; VNull; VStr "online-playlist"]);
          ("target", [VInt 1; VInt 0; VInt 1])].

Definition test : DataFrame :=
  mkDF 1 [("id", [VInt 0]);
          ("msno", [VStr "u2"]);
          ("song_id", [VStr "B"]);
          ("source_system_tab", [VStr "radio"]);
          ("source_screen_name", [VStr "Radio"]);
          ("source_type", [VStr "radio"])].

Definition songs : DataFrame :=
  mkDF 2 [("song_id", [VStr "A"; VStr "B"]);
          ("song_length", [VInt 200000; VInt 300000]);
          ("genre_ids", [VStr "465|458"; VNull]);
          ("artist_name", [VStr "X feat. Y"; VStr "Z"]);
          ("composer", [VStr "Z"; VStr "Z"]);
          ("lyricist", [VNull; VStr "Z"]);
          ("language", [VFloat 17; VFloat 3])].

Definition song_extra_info : DataFrame :=
  mkDF 2 [("song_id", [VStr "A"; VStr "B"]);
          ("name", [VStr "first"; VStr "second"]);
          ("isrc", [VStr "TWUM71200043"; VNull])].

Definition members : DataFrame :=
  mkDF 2 [("msno", [VStr "u1"; VStr "u2"]);
          ("city", [VInt 1; VInt 13]);
          ("bd", [VInt 0; VInt 30]);
          ("gender", [VNull; VStr "male"]);
          ("registered_via", [VInt 4; VInt 7]);
          ("registration_init_time",
           [VDate (mkDate 2011 8 20); VDate (mkDate 2015 1 1)]);
          ("expiration_date",
           [VDate (mkDate 2017 9 20); VDate (mkDate 2017 1 1)])].

Definition files : FeatureProcessor.files :=
  FeatureProcessor.mkFiles true (Ok train) (Ok test) (Ok songs) (Ok song_extra_info)
                           (Ok members).

(** The same songs with the row of [A] listed twice. *)
Definition songs_twice : DataFrame :=
  mkDF 3 [("song_id", [VStr "A"; VStr "B"; VStr "A"]);
          ("song_length", [VInt 200000; VInt 300000; VInt 200000]);
          ("genre_ids", [VStr "465|458"; VNull; VStr "465|458"]);
          ("artist_name", [VStr "X feat. Y"; VStr "Z"; VStr "X feat. Y"]);
          ("composer", [VStr "Z"; VStr "Z"; VStr "Z"]);
          ("lyricist", [VNull; VStr "Z"; VNull]);
          ("language", [VFloat 17; VFloat 3; VFloat 17])].

Definition files_twice : FeatureProcessor.files :=
  FeatureProcessor.mkFiles true (Ok train) (Ok test) (Ok songs_twice)
                           (Ok song_extra_info)
                           (Ok members).

End Sample.

(** The key of a row of [drop_duplicates] on one column. *)
Definition single (x : value) : list value := [x].

(** No key of [seen] equals [x]. *)
Definition unseen (seen : list value) (x : value) : bool :=
  negb (existsb (key_eqb x) seen).

(** The number of non-null cells of [vals] in the rows of the key [g]. *)
Definition group_count (keys vals : list value) (g : value) : Z :=
  Z.of_nat (List.length (dropna (members g keys vals))).

(** The artist a song is attributed to: [drop_duplicates('song_id')]
    keeps the first row of each song, so it is the artist of that row. *)
Definition first_artist (songs artists : list value) (s : value) : value :=
  lookup_key s songs artists.

(** The number of distinct song ids of the reference attributed to the
    artist [a]; each song id counts once, and a null is no song id. *)
Definition attributed_songs (a : value) (songs artists : list value) : Z :=
  Z.of_nat (List.length (filter (fun s => py_eqb (first_artist songs artists s) a)
                                (nub (dropna songs)))).

(** Song [s1] is listed under [X] and then under [Y]; [s2] under [Y]. *)
Definition track_reference : DataFrame :=
  mkDF 4 [("song_id", [VStr "s1"; VStr "s1"; VStr "s2"; VStr "s2"]);
          ("artist_name", [VStr "X"; VStr "Y"; VStr "Y"; VStr "Y"])].

(** A target with the two artists and an artist the reference lacks. *)
Definition track_target : DataFrame :=
  mkDF 3 [("artist_name", [VStr "X"; VStr "Y"; VStr "W"]);
          ("target", [VInt 1; VInt 0; VInt 1])].

(** The labels the event processor drops at its end. *)
Definition dropped : list string :=
  ["source_merged"; "source_replay_pb"; "source_replay_count"].

(** The mean of [target] in each group of merged source names. *)
Definition group_means (keys target : list value) : result (list value) :=
  mapM (fun g => agg_apply Mean (members g keys target)) (group_keys keys).

(** The four encoded columns set on the columns [l]. *)
Definition encoded (v1 v2 v3 v4 : list value) (l : list (string * list value)) :=
  assign "1h_source_type" v4
    (assign "1h_screen_name" v3
       (assign "1h_system_tab" v2 (assign "1h_source" v1 l))).

(** The names of the four encoded columns. *)
Definition encoding_names : list string :=
  ["1h_source"; "1h_system_tab"; "1h_screen_name"; "1h_source_type"].

(** The frame [df'] has the column [c], the index and the uniformity of
    [df]. *)
Definition same_key (c : string) (df df' : DataFrame) : Prop :=
  getitem c df' = getitem c df
  /\ nrows df' = nrows df
  /\ (uniform df -> uniform df').

(** The test of the specification: a target of five rows, a reference
    with duplicate keys. *)
Definition five_rows : DataFrame :=
  mkDF 5 [("song_id", [VStr "A"; VStr "B"; VStr "A"; VStr "C"; VStr "B"]);
          ("artist_name", [VStr "X"; VStr "Y"; VStr "X"; VNull; VStr "Y"]);
          ("language", [VFloat 3; VFloat 3; VFloat 3; VNull; VFloat 17]);
          ("target", [VInt 1; VInt 0; VInt 1; VInt 0; VInt 1])].

(** The object after the calls [cs], made in order on [o]; a caller that
    catches the exception of a call goes on with the object as that call
    left it. *)
Fixpoint after (cs : list Stage.call) (o : FeatureProcessor.t) : FeatureProcessor.t :=
  match cs with
  | [] => o
  | c :: cs' => after cs' (fst (Stage.run c o))
  end.

(** The five tables of [load_raw] are bound. *)
Definition loaded (o : FeatureProcessor.t) : Prop :=
  FeatureProcessor.songs_df o <> None
  /\ FeatureProcessor.song_extra_info_df o <> None
  /\ FeatureProcessor.members_df o <> None
  /\ FeatureProcessor.train_df o <> None
  /\ FeatureProcessor.test_df o <> None.

(** What the marker tells about the attributes: it is one of the four
    stage values; from [LOAD_READY] on the five tables are bound, from
    [PREPROCESS_READY] on the combined table is. *)
Definition consistent (o : FeatureProcessor.t) : Prop :=
  FeatureProcessor.INITIALIZATION_READY <= FeatureProcessor.state o
    <= FeatureProcessor.ENGINEERING_READY
  /\ (FeatureProcessor.LOAD_READY <= FeatureProcessor.state o -> loaded o)
  /\ (FeatureProcessor.PREPROCESS_READY <= FeatureProcessor.state o ->
      FeatureProcessor.comb_df o <> None).

(** No attribute that is bound in [o] is [None] in [o']. *)
Definition grows (o o' : FeatureProcessor.t) : Prop :=
  (FeatureProcessor.songs_df o <> None -> FeatureProcessor.songs_df o' <> None)
  /\ (FeatureProcessor.song_extra_info_df o <> None ->
      FeatureProcessor.song_extra_info_df o' <> None)
  /\ (FeatureProcessor.members_df o <> None -> FeatureProcessor.members_df o' <> None)
  /\ (FeatureProcessor.train_df o <> None -> FeatureProcessor.train_df o' <> None)
  /\ (FeatureProcessor.test_df o <> None -> FeatureProcessor.test_df o' <> None)
  /\ (FeatureProcessor.comb_df o <> None -> FeatureProcessor.comb_df o' <> None).

(** The call unbinds no attribute, whatever its outcome. *)
Definition keeps_bound {A} (m : stateful FeatureProcessor.t A) : Prop :=
  forall o o' r, m o = (o', r) -> grows o o'.

(** The exception is what one of the five reads raised. *)
Definition read_error (fs : FeatureProcessor.files) (e : exn) : Prop :=
  FeatureProcessor.train_csv fs = Raise e
  \/ FeatureProcessor.test_csv fs = Raise e
  \/ FeatureProcessor.songs_csv fs = Raise e
  \/ FeatureProcessor.song_extra_info_csv fs = Raise e
  \/ FeatureProcessor.members_csv fs = Raise e.

(** The flag of a release year: 1 for a year from 2013 to 2017, 0 for any
    other year and for a missing one. *)
Definition recent (y : value) : value :=
  match y with
  | VInt n => of_bool ((2013 <=? n) && (n <=? 2017))
  | _ => VInt 0
  end.

(** What the year read off an ISRC cell can be: nothing for a cell that is
    no text, a year from 1918 to 2017 for a text. *)
Definition year_of_isrc (isrc y : value) : Prop :=
  match isrc with
  | VStr _ => exists n, y = VInt n /\ 1918 <= n <= 2017
  | _ => y = VNull
  end.

(** Two songs: one registered in 2017, one without ISRC. *)
Definition isrc_table : DataFrame :=
  mkDF 2 [("song_id", [VStr "A"; VStr "B"]);
          ("name", [VStr "first"; VStr "second"]);
          ("isrc", [VStr "TWUM71700043"; VNull])].

(** The number of pieces the song processor counts in a cell of genres,
    composers or lyricists: a missing cell has been filled with the text
    ['nan'] by then, and a piece ends at a bar and nowhere else. *)
Definition pieces (x : value) : value :=
  VInt (count "|" (str (fill (VStr "nan") x)) + 1).

(** A cell that is neither missing nor a text. *)
Definition not_text (x : value) : bool :=
  match x with
  | VNull | VStr _ => false
  | _ => true
  end.

(** A song table whose second artist name was read as a number. *)
Definition numeric_artist : DataFrame :=
  mkDF 2 [("song_id", [VStr "A"; VStr "B"]);
          ("song_length", [VInt 200000; VInt 300000]);
          ("genre_ids", [VStr "465|458"; VNull]);
          ("artist_name", [VStr "X"; VInt 1975]);
          ("composer", [VStr "Pop/Rock"; VNull]);
          ("lyricist", [VNull; VStr "Z"]);
          ("language", [VFloat 17; VFloat 3])].

(** The number of languages the reference lists under the artist [a]: the
    distinct cells of [language] in the rows of that artist, a missing
    language counting as one of them; a missing artist has none. *)
Definition languages_of (a : value) (artists langs : list value) : Z :=
  if is_null a then 0
  else Z.of_nat (List.length (nub (members a artists langs))).

(** The key of a row of [drop_duplicates] on two columns. *)
Definition pair_key (p : value * value) : list value := [fst p; snd p].

(** The languages among the rows [seen] that are rows of the artist [a]. *)
Definition seen_languages (a : value) (seen : list (value * value)) : list value :=
  map snd (filter (fun q => key_eqb a (fst q)) seen).

(** An artist under two languages, one of them missing, and an artist
    listed twice under one language. *)
Definition cover_reference : DataFrame :=
  mkDF 5 [("artist_name", [VStr "X"; VStr "Y"; VStr "X"; VStr "Y"; VStr "X"]);
          ("language", [VFloat 3; VFloat 17; VNull; VFloat 17; VFloat 3])].

Definition cover_target : DataFrame :=
  mkDF 3 [("artist_name", [VStr "X"; VStr "Y"; VStr "W"])].

(** The count the track-count step gives the artist [k] from the songs and
    artists of a reference of [n] rows: the rows of the artist among the
    first rows of the songs, none for a missing artist. *)
Definition first_row_count (n : nat) (songs artists : list value) (k : value) : Z :=
  if is_null k then 0
  else group_count (take (firsts [] 0 (row_keys n [songs])) artists)
                   (take (firsts [] 0 (row_keys n [songs])) songs) k.

(** The mean of the cells that are not missing, when there is one and all
    of them are numbers. *)
Definition mean_of (cells : list value) : option Q :=
  match numbers (dropna cells) with
  | Some (q :: qs) =>
      Some (sumQ (q :: qs) / inject_Z (Z.of_nat (List.length (q :: qs))))%Q
  | _ => None
  end.



(** Files of which the last, the member file, cannot be read; the train
    file holds the one event of the sample's test file. *)
Definition unreadable : FeatureProcessor.files :=
  FeatureProcessor.mkFiles true (Ok Sample.test) (Ok Sample.test) (Ok Sample.songs)
                           (Ok Sample.song_extra_info) (Raise IOError).

(** The member table, if bound, has no column [registration_init_time]. *)
Definition registration_dropped (o : FeatureProcessor.t) : Prop :=
  forall m, FeatureProcessor.members_df o = Some m ->
            has_column "registration_init_time" m = false.

(** The call leaves the member table alone, whatever its outcome. *)
Definition keeps_members {A} (m : stateful FeatureProcessor.t A) : Prop :=
  forall o o' r, m o = (o', r) ->
                 FeatureProcessor.members_df o' = FeatureProcessor.members_df o.

(** From an object that satisfies [P], the call leaves one that satisfies
    [Q] when it returns and one that satisfies [R] when it raises. *)
Definition triple {A} (P : FeatureProcessor.t -> Prop)
           (m : stateful FeatureProcessor.t A)
           (Q : A -> FeatureProcessor.t -> Prop) (R : FeatureProcessor.t -> Prop)
  : Prop :=
  forall o o' r, P o -> m o = (o', r) ->
    match r with
    | Ok a => Q a o'
    | Raise _ => R o'
    end.

(** The two frames have the same index and, under every name, the same
    column: the order of the columns apart, they are one table. *)
Definition alike (a b : DataFrame) : Prop :=
  nrows a = nrows b /\ forall c, lookup c (cols a) = lookup c (cols b).

(** [out] is [df] with the columns [l] more: the same index and under
    every name the same column as [df] followed by [l]; and, when [df] has
    a row, that very frame, the new columns last. *)
Definition appended (df : DataFrame) (l : list (string * list value))
    (out : DataFrame) : Prop :=
  alike out (mkDF (nrows df) (cols df ++ l))
  /\ (nrows df <> 0%nat -> out = mkDF (nrows df) (cols df ++ l)).

(** The mean an aggregation writes for the cells of a group: that of the
    cells that are not missing, a null when there is none. *)
Definition mean_cell (cells : list value) : value :=
  match mean_of cells with
  | Some q => VFloat (Qred q)
  | None => VNull
  end.


(* ===================================================================== *)
(** ** Properties of the building blocks                                 *)
(* ===================================================================== *)

Section KeyEquality.

Lemma Q_eqb_eq (p q : Q) : Q_eqb p q = true <-> p = q.
Proof.
  unfold Q_eqb. destruct p as [a b], q as [c d]; simpl.
  rewrite andb_true_iff, Z.eqb_eq, Pos.eqb_eq.
  split; [intros [-> ->]; reflexivity | intros [= -> ->]; auto].
Qed.

Lemma date_eqb_eq (d e : date) : date_eqb d e = true <-> d = e.
Proof.
  unfold date_eqb. destruct d, e; simpl.
  rewrite !andb_true_iff, !Z.eqb_eq.
  split; [intros [[-> ->] ->]; reflexivity | intros [= -> -> ->]; auto].
Qed.

Lemma value_eqb_eq (a b : value) : value_eqb a b = true <-> a = b.
Proof.
  destruct a, b; simpl; try (split; [discriminate | congruence]).
  - tauto.
  - rewrite String.eqb_eq. split; congruence.
  - rewrite Z.eqb_eq. split; congruence.
  - rewrite Q_eqb_eq. split; congruence.
  - rewrite date_eqb_eq. split; congruence.
Qed.

Lemma key_eqb_norm (a b : value) : key_eqb a b = true <-> key_norm a = key_norm b.
Proof. apply value_eqb_eq. Qed.

Lemma key_eqb_refl (a : value) : key_eqb a a = true.
Proof. apply key_eqb_norm. reflexivity. Qed.

Lemma key_eqb_sym (a b : value) : key_eqb a b = key_eqb b a.
Proof.
  destruct (key_eqb a b) eqn:E, (key_eqb b a) eqn:F; auto.
  - apply key_eqb_norm in E. symmetry in E. apply key_eqb_norm in E. congruence.
  - apply key_eqb_norm in F. symmetry in F. apply key_eqb_norm in F. congruence.
Qed.

Lemma key_eqb_trans (a b c : value) :
  key_eqb a b = true -> key_eqb b c = true -> key_eqb a c = true.
Proof. rewrite !key_eqb_norm. congruence. Qed.

(** Equal keys behave alike in every comparison. *)
Lemma key_eqb_subst (a b c : value) :
  key_eqb a b = true -> key_eqb a c = key_eqb b c.
Proof.
  intros E. destruct (key_eqb b c) eqn:F.
  - eapply key_eqb_trans; eauto.
  - destruct (key_eqb a c) eqn:G; auto.
    rewrite key_eqb_sym in E. rewrite <- F. symmetry. eapply key_eqb_trans; eauto.
Qed.

Lemma key_eqb_null (a : value) : key_eqb a VNull = is_null a.
Proof. destruct a; reflexivity. Qed.

Lemma key_eqb_is_null (a b : value) :
  key_eqb a b = true -> is_null a = is_null b.
Proof.
  rewrite key_eqb_norm. destruct a, b; simpl; congruence.
Qed.

End KeyEquality.

Section Results.

Context {A B : Type}.

Lemma bind_ok (m : result A) (k : A -> result B) (b : B) :
  Py.bind m k = Ok b -> exists a, m = Ok a /\ k a = Ok b.
Proof. destruct m; simpl; [eauto | discriminate]. Qed.

Lemma mapM_length (f : A -> result B) (l : list A) (l' : list B) :
  mapM f l = Ok l' -> List.length l' = List.length l.
Proof.
  revert l'. induction l as [|x l IH]; simpl; intros l' H.
  - injection H as <-. reflexivity.
  - destruct (f x); [|discriminate]. destruct (mapM f l); [|discriminate].
    injection H as <-. simpl. f_equal. auto.
Qed.

Lemma mapM_total (f : A -> result B) (g : A -> B) (l : list A) :
  (forall x, f x = Ok (g x)) -> mapM f l = Ok (map g l).
Proof.
  intros H. induction l as [|x l IH]; simpl; [reflexivity|].
  rewrite H, IH. reflexivity.
Qed.

Lemma mapM_ok_Forall2 (f : A -> result B) (l : list A) (l' : list B) :
  mapM f l = Ok l' -> Forall2 (fun x y => f x = Ok y) l l'.
Proof.
  revert l'. induction l as [|x l IH]; simpl; intros l' H.
  - injection H as <-. constructor.
  - destruct (f x) eqn:E; [|discriminate]. destruct (mapM f l); [|discriminate].
    injection H as <-. constructor; auto.
Qed.

End Results.

Section Stateful.

Context {S A B : Type}.

Lemma sbind_ok (m : stateful S A) (k : A -> stateful S B) (s s' : S) (b : B) :
  sbind m k s = (s', Ok b) ->
  exists s1 a, m s = (s1, Ok a) /\ k a s1 = (s', Ok b).
Proof.
  unfold sbind. destruct (m s) as [s1 [a|e]]; [eauto | discriminate].
Qed.

Lemma sbind_raise (m : stateful S A) (k : A -> stateful S B) (s s' : S) (e : exn) :
  sbind m k s = (s', Raise e) ->
  m s = (s', Raise e) \/ exists s1 a, m s = (s1, Ok a) /\ k a s1 = (s', Raise e).
Proof.
  unfold sbind. destruct (m s) as [s1 [a|e']]; intros H.
  - right. eauto.
  - left. injection H as -> ->. reflexivity.
Qed.

Lemma update_ok (f : S -> result S) (s s' : S) (u : unit) :
  update f s = (s', Ok u) -> f s = Ok s'.
Proof. unfold update. destruct (f s); intros [= <-]; congruence. Qed.

Lemma update_raise (f : S -> result S) (s s' : S) (e : exn) :
  update f s = (s', Raise e) -> s' = s /\ f s = Raise e.
Proof. unfold update. destruct (f s); intros [= <- <-]; auto. Qed.

End Stateful.

(** *** Which exceptions a computation can raise *)

Section Raises.

Variable P : exn -> Prop.

Lemma raises_Ok {A} (a : A) : raises P (Ok a).
Proof. intros e H. discriminate. Qed.

Lemma raises_Raise {A} (e : exn) : P e -> raises P (@Raise A e).
Proof. intros H e' [= <-]. exact H. Qed.

Lemma raises_bind {A B} (m : result A) (k : A -> result B) :
  raises P m -> (forall a, raises P (k a)) -> raises P (Py.bind m k).
Proof.
  intros Hm Hk e. destruct m as [a|e']; simpl.
  - apply Hk.
  - intros [= <-]. apply Hm. reflexivity.
Qed.

Lemma raises_mapM {A B} (f : A -> result B) (l : list A) :
  (forall x, raises P (f x)) -> raises P (mapM f l).
Proof.
  intros Hf. induction l as [|x l IH]; simpl.
  - apply raises_Ok.
  - intros e. destruct (f x) as [y|e'] eqn:E.
    + destruct (mapM f l) as [ys|e'']; [discriminate|].
      intros [= <-]. apply IH. reflexivity.
    + intros [= <-]. apply (Hf x). exact E.
Qed.

Lemma raises_if {A} (b : bool) (m m' : result A) :
  raises P m -> raises P m' -> raises P (if b then m else m').
Proof. destruct b; auto. Qed.

Lemma sraises_sret {S A} (a : A) : sraises P (@sret S A a).
Proof. intros s s' e H. discriminate. Qed.

Lemma sraises_sget {S} : sraises P (@sget S).
Proof. intros s s' e H. discriminate. Qed.

Lemma sraises_sbind {S A B} (m : stateful S A) (k : A -> stateful S B) :
  sraises P m -> (forall a, sraises P (k a)) -> sraises P (sbind m k).
Proof.
  intros Hm Hk s s' e H. apply sbind_raise in H as [H | (s1 & a & _ & H)].
  - eapply Hm; eauto.
  - eapply Hk; eauto.
Qed.

Lemma sraises_update {S} (f : S -> result S) :
  (forall s, raises P (f s)) -> sraises P (update f).
Proof. intros Hf s s' e H. apply update_raise in H as [_ H]. eapply Hf; eauto. Qed.

Lemma sraises_read {S A} (f : S -> result A) :
  (forall s, raises P (f s)) -> sraises P (read f).
Proof. intros Hf s s' e [= _ H]. eapply Hf; eauto. Qed.

Lemma sraises_assert {S} (b : bool) (site : assert_site) :
  P (AssertionError site) -> sraises P (@assert_ S b site).
Proof.
  intros H s s' e. unfold assert_. destruct b; [discriminate|].
  intros [= _ <-]. exact H.
Qed.

End Raises.

Create HintDb raises.

#[local] Hint Resolve raises_Ok raises_bind raises_mapM raises_if sraises_sret
  sraises_sget sraises_sbind sraises_update sraises_read : raises.

Ltac raises_step :=
  first [ apply raises_Ok
        | apply raises_Raise; exact I
        | apply raises_bind; [| intros ?]
        | apply raises_mapM; intros ?
        | apply sraises_sbind; [| intros ?]
        | apply sraises_update; intros ?
        | apply sraises_read; intros ?
        | apply sraises_sret
        | apply sraises_sget
        | apply sraises_assert; exact I ].

Section PandasRaises.

Lemma getitem_raises c df : raises data_error (getitem c df).
Proof. unfold getitem. destruct (lookup c (cols df)); repeat raises_step. Qed.

Lemma fillna_raises c v df : raises data_error (fillna c v df).
Proof. unfold fillna. repeat raises_step. apply getitem_raises. Qed.

Lemma drop_raises labels df : raises data_error (drop labels df).
Proof. unfold drop. destruct (find _ labels); repeat raises_step. Qed.

Lemma select_raises labels df : raises data_error (select labels df).
Proof. unfold select. repeat raises_step. apply getitem_raises. Qed.

Lemma set_columns_raises names df : raises data_error (set_columns names df).
Proof. unfold set_columns. destruct (_ =? _)%nat; repeat raises_step. Qed.

Lemma merge_raises l r on : raises data_error (merge l r on).
Proof.
  unfold merge. apply raises_bind; [apply getitem_raises | intros lk].
  apply raises_bind; [apply getitem_raises | intros rk].
  destruct (keys_clash lk rk); repeat raises_step.
Qed.

Lemma agg_apply_raises a cells : raises data_error (agg_apply a cells).
Proof.
  unfold agg_apply. destruct a; [|raises_step].
  destruct (numbers _) as [[|q qs]|]; repeat raises_step.
Qed.

Lemma groupby_agg_raises key aggs df : raises data_error (groupby_agg key aggs df).
Proof.
  unfold groupby_agg. repeat raises_step;
    first [apply getitem_raises | apply agg_apply_raises].
Qed.

Lemma groupby_count_raises key df : raises data_error (groupby_count key df).
Proof.
  unfold groupby_count. repeat raises_step;
    first [apply getitem_raises | apply agg_apply_raises].
Qed.

Lemma drop_duplicates_raises subset df : raises data_error (drop_duplicates subset df).
Proof. unfold drop_duplicates. repeat raises_step. apply getitem_raises. Qed.

Lemma sort_values_desc_raises key df : raises data_error (sort_values_desc key df).
Proof. unfold sort_values_desc. repeat raises_step. apply getitem_raises. Qed.

Lemma derive_raises dst src f df :
  (forall x, raises data_error (f x)) -> raises data_error (derive dst src f df).
Proof.
  intros Hf. unfold derive, apply. repeat raises_step; auto. apply getitem_raises.
Qed.

Lemma int_of_str_raises s : raises data_error (int_of_str s).
Proof.
  unfold int_of_str. destruct (match strip _ with [] => _ | _ => _ end).
  destruct (digits_value _ _ _); repeat raises_step.
Qed.

Lemma astype_int8_raises v : raises data_error (astype_int8 v).
Proof. destruct v; simpl; repeat raises_step. apply int_of_str_raises. Qed.

Lemma num_leb_raises a b : raises data_error (num_leb a b).
Proof.
  unfold num_leb.
  destruct a, b; simpl; repeat raises_step.
Qed.

Lemma assert_no_null_raises : sraises data_error assert_no_null.
Proof. intros s. unfold assert_no_null. apply sraises_assert. exact I. Qed.

End PandasRaises.

#[local] Hint Resolve getitem_raises fillna_raises drop_raises select_raises
  set_columns_raises merge_raises groupby_agg_raises groupby_count_raises
  drop_duplicates_raises sort_values_desc_raises derive_raises astype_int8_raises
  num_leb_raises int_of_str_raises assert_no_null_raises agg_apply_raises : raises.

Ltac raises_auto :=
  repeat first [ solve [auto with raises] | raises_step ].

Ltac raises_cases :=
  repeat first
    [ solve [auto with raises]
    | raises_step
    | match goal with
      | |- raises _ (if ?b then _ else _) => destruct b
      | |- raises _ (match ?v with _ => _ end) => destruct v
      end ].

Section ProcessorRaises.

Lemma songs_parse_raises : sraises data_error SongsProcessor.parse.
Proof.
  unfold SongsProcessor.parse.
  repeat (apply sraises_sbind; [| intros ?]);
    try (apply sraises_update; intros ?); auto with raises.
  all: try (apply derive_raises; intros x;
            unfold SongsProcessor.with_int8, SongsProcessor.is_featured,
              SongsProcessor.artist_count, SongsProcessor.song_lang_boolean,
              SongsProcessor.parse_splitted_category_to_number,
              SongsProcessor.one_hot_encode_lang, SongsProcessor.one_hot_song_length;
            raises_cases).
  all: unfold SongsProcessor.same_columns, SongsProcessor.same_three; raises_auto.
Qed.

Lemma members_parse_raises : sraises data_error MembersProcessor.parse.
Proof.
  unfold MembersProcessor.parse.
  repeat (apply sraises_sbind; [| intros ?]);
    try (apply sraises_update; intros ?); auto with raises.
  all: try (apply derive_raises; intros x).
  - unfold MembersProcessor.set_membership_days. raises_auto.
    unfold MembersProcessor.membership_days.
    destruct x as [[] []]; raises_auto.
  - destruct x; simpl; raises_auto.
  - destruct x; simpl; raises_auto.
  - destruct x; simpl; raises_auto.
  - destruct x; simpl; raises_auto.
  - unfold MembersProcessor.transform_bd_outliers. raises_cases.
  - unfold MembersProcessor.one_hot_encode_via. raises_auto.
Qed.

Lemma song_extra_parse_raises : sraises data_error SongExtraProcessor.parse.
Proof.
  unfold SongExtraProcessor.parse.
  repeat (apply sraises_sbind; [| intros ?]);
    try (apply sraises_update; intros ?); auto with raises.
  all: apply derive_raises; intros x; destruct x; simpl; raises_auto.
Qed.

Lemma train_test_parse_raises : sraises data_error TrainTestProcessor.parse.
Proof.
  unfold TrainTestProcessor.parse, TrainTestProcessor.fill_in_place.
  repeat (apply sraises_sbind; [| intros ?]);
    try (apply sraises_update; intros ?); auto with raises.
  - unfold TrainTestProcessor.set_source_merged. raises_auto.
  - apply sraises_read. intros df.
    unfold TrainTestProcessor.merge_and_encode, TrainTestProcessor.check_no_null.
    raises_cases.
    all: apply derive_raises; intros x;
      unfold TrainTestProcessor.one_hot_encode_source,
        TrainTestProcessor.one_hot_encode_system_tab,
        TrainTestProcessor.one_hot_encode_screen_name,
        TrainTestProcessor.one_hot_encode_source_type; raises_cases.
Qed.

Lemma engineering_parse_raises ref df :
  raises data_error (EngineeringProcessor.parse ref df).
Proof.
  unfold EngineeringProcessor.parse, EngineeringProcessor.generate_play_count,
    EngineeringProcessor.generate_track_count, EngineeringProcessor.generate_cover_lang.
  raises_auto.
Qed.

End ProcessorRaises.

(* ===================================================================== *)
(** ** The dispatcher                                                    *)
(* ===================================================================== *)

Lemma data_error_not_dispatch e : data_error e -> dispatch_error e = false.
Proof. destruct e as [[]| | | | | |]; simpl; tauto. Qed.

Lemma routed {S A} (m : stateful S A) (e : exn) (s : S) :
  sbind (sbind m (fun r => sret (Some r)))
        (fun res => match res with Some r => sret r | None => sraise e end) s
  = m s.
Proof. unfold sbind, sret. destruct (m s) as [s' [a|e']]; reflexivity. Qed.

Lemma process_train_test c ref df :
  c = "train" \/ c = "test" ->
  DataProcessor.process c ref df = TrainTestProcessor.parse df.
Proof. intros [-> | ->]; unfold DataProcessor.process; simpl; apply routed. Qed.

Lemma process_members ref df :
  DataProcessor.process "members" ref df = MembersProcessor.parse df.
Proof. unfold DataProcessor.process; simpl; apply routed. Qed.

Lemma process_songs ref df :
  DataProcessor.process "songs" ref df = SongsProcessor.parse df.
Proof. unfold DataProcessor.process; simpl; apply routed. Qed.

Lemma process_song_extra_info ref df :
  DataProcessor.process "song_extra_info" ref df = SongExtraProcessor.parse df.
Proof. unfold DataProcessor.process; simpl; apply routed. Qed.

Lemma process_engineering ref df :
  DataProcessor.process "engineering" (Some ref) df
  = (df, EngineeringProcessor.parse ref df).
Proof.
  unfold DataProcessor.process; simpl. rewrite routed. reflexivity.
Qed.

Lemma process_engineering_no_reference df :
  DataProcessor.process "engineering" None df
  = (df, Raise (AssertionError NoReference)).
Proof. reflexivity. Qed.

Lemma process_unknown c ref df :
  ~ In c commands ->
  DataProcessor.process c ref df = (df, Raise (AssertionError NoTransformer)).
Proof.
  intros H. unfold commands in H. simpl in H.
  assert (E : forall s, In s commands -> String.eqb c s = false).
  { intros s Hs. apply String.eqb_neq. intros ->. apply H. exact Hs. }
  unfold DataProcessor.process, mem. simpl.
  rewrite !E by (unfold commands; simpl; tauto). reflexivity.
Qed.

Lemma process_raises_data_error c ref df :
  In c commands -> (c = "engineering" -> ref <> None) ->
  forall df' e, DataProcessor.process c ref df = (df', Raise e) -> data_error e.
Proof.
  intros Hc Href df' e.
  unfold commands in Hc; simpl in Hc.
  destruct Hc as [<-|[<-|[<-|[<-|[<-|[<-|[]]]]]]].
  - rewrite process_train_test by auto. apply train_test_parse_raises.
  - rewrite process_train_test by auto. apply train_test_parse_raises.
  - rewrite process_members. apply members_parse_raises.
  - rewrite process_songs. apply songs_parse_raises.
  - rewrite process_song_extra_info. apply song_extra_parse_raises.
  - destruct ref as [ref|]; [|exfalso; apply Href; reflexivity].
    rewrite process_engineering. intros [= _ H].
    eapply engineering_parse_raises; eauto.
Qed.

(** C5, as the code has it: [process] raises one of its own two
    assertion errors exactly when the command is none of the six or is
    [engineering] without a reference table; on each of the six commands
    it is the selected processor's [parse], so it returns the table that
    one returns and raises what that one raises. *)
Theorem process_dispatch (c : string) (ref : option DataFrame) (df : DataFrame) :
  (fails_with dispatch_error (snd (DataProcessor.process c ref df)) = true
   <-> (~ In c commands \/ (c = "engineering" /\ ref = None)))
  /\ (c = "train" \/ c = "test" ->
      DataProcessor.process c ref df = TrainTestProcessor.parse df)
  /\ (c = "members" -> DataProcessor.process c ref df = MembersProcessor.parse df)
  /\ (c = "songs" -> DataProcessor.process c ref df = SongsProcessor.parse df)
  /\ (c = "song_extra_info" ->
      DataProcessor.process c ref df = SongExtraProcessor.parse df)
  /\ (forall r, c = "engineering" -> ref = Some r ->
      DataProcessor.process c ref df = (df, EngineeringProcessor.parse r df)).
Proof.
  split; [split|].
  - intros H.
    destruct (in_dec string_dec c commands) as [Hc|Hc]; [|left; exact Hc].
    destruct (string_dec c "engineering") as [->|Hn].
    + destruct ref as [r|]; [|right; auto].
      rewrite process_engineering in H. simpl in H.
      destruct (EngineeringProcessor.parse r df) as [out|e] eqn:E; [discriminate|].
      simpl in H.
      rewrite (data_error_not_dispatch e) in H; [discriminate|].
      eapply engineering_parse_raises; eauto.
    + destruct (DataProcessor.process c ref df) as [df' [out|e]] eqn:E;
        simpl in H; [discriminate|].
      rewrite (data_error_not_dispatch e) in H; [discriminate|].
      apply (process_raises_data_error c ref df Hc) with (df' := df');
        [intros ->; contradiction | exact E].
  - intros [Hc | [-> ->]].
    + rewrite process_unknown by exact Hc. reflexivity.
    + reflexivity.
  - repeat split.
    + apply process_train_test.
    + intros ->. apply process_members.
    + intros ->. apply process_songs.
    + intros ->. apply process_song_extra_info.
    + intros r -> ->. apply process_engineering.
Qed.

(** The claim as worded fails: with the command [train] and a table that
    lacks the columns the event processor reads, no table is returned. *)
Lemma process_train_no_table :
  In "train" commands
  /\ snd (DataProcessor.process "train" None (mkDF 0 []))
     = Raise (KeyError "source_system_tab").
Proof. split; [simpl; auto | reflexivity]. Qed.

Lemma process_dispatch_witness :
  DataProcessor.process "songs" None (mkDF 0 [])
  = SongsProcessor.parse (mkDF 0 []).
Proof.
  apply (process_dispatch "songs" None (mkDF 0 [])). reflexivity.
Defined.

(* ===================================================================== *)
(** ** Columns of a frame                                                *)
(* ===================================================================== *)

Ltac invert_ok :=
  repeat match goal with
    | H : sbind _ _ _ = (_, Ok _) |- _ =>
        let s := fresh "s" in let a := fresh "a" in let H1 := fresh "H" in
        apply sbind_ok in H as (s & a & H1 & H)
    | H : update _ _ = (_, Ok _) |- _ => apply update_ok in H
    | H : Py.bind _ _ = Ok _ |- _ =>
        let a := fresh "a" in let H1 := fresh "H" in
        apply bind_ok in H as (a & H1 & H)
    | H : Ok _ = Ok _ |- _ => injection H as H; try subst
    | H : (_, _) = (_, _) |- _ => injection H as ? ?; try subst
    end.

Section Columns.

Lemma mem_In (c : string) (l : list string) : mem c l = true <-> In c l.
Proof.
  unfold mem. rewrite existsb_exists. split.
  - intros (x & Hx & E). apply String.eqb_eq in E. subst. exact Hx.
  - intros H. exists c. split; [exact H | apply String.eqb_refl].
Qed.

Lemma mem_false (c : string) (l : list string) : mem c l = false <-> ~ In c l.
Proof.
  rewrite <- mem_In. destruct (mem c l); split; congruence.
Qed.

Lemma lookup_None (c : string) l : lookup c l = None <-> ~ In c (map fst l).
Proof.
  induction l as [|[n v] l IH]; simpl; [tauto|].
  destruct (String.eqb c n) eqn:E.
  - apply String.eqb_eq in E. subst. split; [discriminate | intros H; exfalso; auto].
  - apply String.eqb_neq in E. rewrite IH. split; [intros H [F|F]; auto | tauto].
Qed.

Lemma lookup_Some_In (c : string) l v : lookup c l = Some v -> In (c, v) l.
Proof.
  induction l as [|[n w] l IH]; simpl; [discriminate|].
  destruct (String.eqb c n) eqn:E.
  - apply String.eqb_eq in E. intros [= ->]. subst. auto.
  - auto.
Qed.

Lemma lookup_has_column c df :
  has_column c df = false <-> lookup c (cols df) = None.
Proof. unfold has_column, columns. rewrite mem_false, lookup_None. tauto. Qed.

Lemma getitem_ok_has c df v : getitem c df = Ok v -> has_column c df = true.
Proof.
  unfold getitem. destruct (lookup c (cols df)) eqn:E; [|discriminate].
  intros _. destruct (has_column c df) eqn:F; auto.
  apply lookup_has_column in F. congruence.
Qed.

Lemma getitem_missing c df :
  has_column c df = false -> getitem c df = Raise (KeyError c).
Proof.
  intros H. apply lookup_has_column in H. unfold getitem. rewrite H. reflexivity.
Qed.

Lemma lookup_assign_same c v l : lookup c (assign c v l) = Some v.
Proof.
  induction l as [|[n w] l IH]; simpl.
  - rewrite String.eqb_refl. reflexivity.
  - destruct (String.eqb c n) eqn:E; simpl; rewrite E; auto.
Qed.

Lemma lookup_assign_other c c' v l :
  c <> c' -> lookup c (assign c' v l) = lookup c l.
Proof.
  intros H. apply String.eqb_neq in H.
  induction l as [|[n w] l IH]; simpl.
  - rewrite H. reflexivity.
  - destruct (String.eqb c' n) eqn:E; simpl.
    + apply String.eqb_eq in E. subst. rewrite H. reflexivity.
    + rewrite IH. reflexivity.
Qed.

Lemma assign_same c v l : lookup c l = Some v -> assign c v l = l.
Proof.
  induction l as [|[n w] l IH]; simpl; [discriminate|].
  destruct (String.eqb c n) eqn:E.
  - intros [= ->]. reflexivity.
  - intros H. f_equal. auto.
Qed.

Lemma columns_assign c v l :
  map fst (assign c v l)
  = if mem c (map fst l) then map fst l else (map fst l ++ [c])%list.
Proof.
  unfold mem. induction l as [|[n w] l IH]; simpl; [reflexivity|].
  destruct (String.eqb c n) eqn:E; simpl; [reflexivity|].
  rewrite IH. destruct (existsb _ _); reflexivity.
Qed.

Lemma In_columns_assign c c' v l :
  In c (map fst (assign c' v l)) <-> c = c' \/ In c (map fst l).
Proof.
  rewrite columns_assign. destruct (mem c' (map fst l)) eqn:E.
  - apply mem_In in E. split; [auto | intros [->|H]; auto].
  - rewrite in_app_iff. simpl. intuition.
Qed.

Lemma getitem_setitem_same c v df : getitem c (setitem c v df) = Ok v.
Proof. unfold getitem, setitem; simpl. rewrite lookup_assign_same. reflexivity. Qed.

Lemma getitem_setitem_other c c' v df :
  c <> c' -> getitem c (setitem c' v df) = getitem c df.
Proof.
  intros H. unfold getitem, setitem; simpl. rewrite lookup_assign_other; auto.
Qed.

Lemma has_column_setitem c c' v df :
  has_column c (setitem c' v df) = String.eqb c c' || has_column c df.
Proof.
  unfold has_column, columns, setitem; simpl.
  destruct (String.eqb c c') eqn:E; simpl.
  - apply String.eqb_eq in E. subst. apply mem_In, In_columns_assign. auto.
  - apply String.eqb_neq in E. destruct (mem c (map fst (cols df))) eqn:F.
    + apply mem_In, In_columns_assign. apply mem_In in F. auto.
    + apply mem_false. rewrite In_columns_assign. apply mem_false in F. tauto.
Qed.

Lemma fillna_ok c v df df' :
  fillna c v df = Ok df' ->
  exists col, getitem c df = Ok col /\ df' = setitem c (map (fill v) col) df.
Proof. unfold fillna. intros H. invert_ok. eauto. Qed.

Lemma derive_ok dst src f df df' :
  derive dst src f df = Ok df' ->
  exists col v, getitem src df = Ok col /\ mapM f col = Ok v
                /\ df' = setitem dst v df.
Proof. unfold derive, apply. intros H. invert_ok. eauto 6. Qed.

Lemma has_column_fillna c c' v df df' :
  fillna c' v df = Ok df' -> has_column c df' = has_column c df.
Proof.
  intros H. apply fillna_ok in H as (col & Hc & ->).
  rewrite has_column_setitem. destruct (String.eqb c c') eqn:E; auto.
  apply String.eqb_eq in E. subst. simpl. symmetry. eapply getitem_ok_has; eauto.
Qed.

Lemma select_missing c labels df :
  In c labels -> has_column c df = false -> exists e, select labels df = Raise e.
Proof.
  intros Hin Hc. unfold select.
  assert (H : exists e, mapM (fun c0 => v <- getitem c0 df ;; Ok (c0, v)) labels
                        = Raise e).
  { induction labels as [|x l IH]; [contradiction|]. simpl.
    destruct (getitem x df) as [v|e] eqn:E; simpl; [|eauto].
    destruct Hin as [->|Hin].
    - rewrite getitem_missing in E by exact Hc. discriminate.
    - destruct (IH Hin) as (e & ->). eauto. }
  destruct H as (e & ->). simpl. eauto.
Qed.

(** *** Names under a merge *)

Lemma ends_with_append (n suffix : string) : ends_with suffix (n ++ suffix) = true.
Proof.
  induction n as [|a n IH]; simpl.
  - destruct suffix; simpl; [reflexivity|]. rewrite Ascii.eqb_refl, String.eqb_refl.
    reflexivity.
  - rewrite IH. apply orb_true_r.
Qed.

(** The columns a left frame brings to a merge, and those of the right
    frame: renamed where the two frames share a name, re-indexed by the
    rows of the merge. *)
Lemma merge_ok l r on out :
  merge l r on = Ok out ->
  exists lk rk,
    getitem on l = Ok lk /\ getitem on r = Ok rk
    /\ keys_clash lk rk = false
    /\ out = mkDF (List.length (indexer lk rk))
               (if (nrows l =? 0)%nat
                then
                  map (fun nv =>
                         ((if negb (String.eqb (fst nv) on)
                              && mem (fst nv) (map fst (remove [on] (cols r)))
                           then fst nv ++ "_x" else fst nv),
                          take (map fst (indexer lk rk)) (snd nv)))
                      (remove [on] (cols l))
                  ++ map (fun nv =>
                            if String.eqb (fst nv) on
                            then (on, take (map fst (indexer lk rk)) lk)
                            else ((if mem (fst nv) (columns l)
                                   then fst nv ++ "_y" else fst nv),
                                  take_opt (map snd (indexer lk rk)) (snd nv)))
                         (cols r)
                else
                  map (fun nv =>
                         ((if negb (String.eqb (fst nv) on)
                              && mem (fst nv) (map fst (remove [on] (cols r)))
                           then fst nv ++ "_x" else fst nv),
                          take (map fst (indexer lk rk)) (snd nv))) (cols l)
                  ++ map (fun nv =>
                            ((if mem (fst nv) (columns l)
                              then fst nv ++ "_y" else fst nv),
                             take_opt (map snd (indexer lk rk)) (snd nv)))
                         (remove [on] (cols r))).
Proof.
  unfold merge. intros H.
  apply bind_ok in H as (lk & Hl & H). apply bind_ok in H as (rk & Hr & H).
  destruct (keys_clash lk rk) eqn:K; [discriminate|].
  injection H as <-. exists lk, rk. auto.
Qed.

(** On a left frame with rows the key stays where it is. *)
Lemma merge_rows l r on out :
  merge l r on = Ok out -> nrows l <> 0%nat ->
  exists lk rk,
    getitem on l = Ok lk /\ getitem on r = Ok rk
    /\ out = mkDF (List.length (indexer lk rk))
               (map (fun nv =>
                       ((if negb (String.eqb (fst nv) on)
                            && mem (fst nv) (map fst (remove [on] (cols r)))
                         then fst nv ++ "_x" else fst nv),
                        take (map fst (indexer lk rk)) (snd nv))) (cols l)
                ++ map (fun nv =>
                          ((if mem (fst nv) (columns l)
                            then fst nv ++ "_y" else fst nv),
                           take_opt (map snd (indexer lk rk)) (snd nv)))
                       (remove [on] (cols r))).
Proof.
  intros H Hn. apply merge_ok in H as (lk & rk & Hl & Hr & _ & ->).
  apply Nat.eqb_neq in Hn. rewrite Hn. eauto.
Qed.

Lemma In_remove c labels l :
  In c (map fst (remove labels l)) -> In c (map fst l) /\ ~ In c labels.
Proof.
  unfold remove. rewrite !in_map_iff. intros ([n v] & <- & H).
  apply filter_In in H as [H1 H2]. simpl in *. split.
  - exists (n, v). auto.
  - apply mem_false. destruct (mem n labels); [discriminate | reflexivity].
Qed.

(** A plain name is a column of a merge only where it was one before. *)
Lemma merge_plain_column c l r on out :
  merge l r on = Ok out -> plain c = true -> has_column c out = true ->
  has_column c l = true \/ (has_column c r = true /\ c <> on).
Proof.
  intros H Hp Hc. apply merge_ok in H as (lk & rk & Hlk & _ & _ & ->).
  unfold plain in Hp. apply andb_true_iff in Hp as [Hx Hy].
  apply negb_true_iff in Hx, Hy.
  unfold has_column, columns in Hc. cbn [cols] in Hc. apply mem_In in Hc.
  assert (Hleft : forall ll, (forall nv, In nv ll -> In nv (cols l)) ->
            In c (map fst (map (fun nv : string * list value =>
                       ((if negb (String.eqb (fst nv) on)
                            && mem (fst nv) (map fst (remove [on] (cols r)))
                         then fst nv ++ "_x" else fst nv),
                        take (map fst (indexer lk rk)) (snd nv))) ll)) ->
            has_column c l = true).
  { intros ll Hsub Hin. rewrite map_map in Hin.
    apply in_map_iff in Hin as ([n v] & E & Hin). cbn [fst snd] in E.
    destruct (_ && _) in E.
    - subst c. rewrite ends_with_append in Hx. discriminate.
    - subst c. apply mem_In, in_map_iff. exists (n, v). auto. }
  assert (Hright : forall nv, In nv (cols r) -> fst nv <> on ->
            (if mem (fst nv) (columns l) then fst nv ++ "_y" else fst nv) = c ->
            has_column c r = true /\ c <> on).
  { intros [n v] Hin Hn E. cbn [fst] in *. destruct (mem n (columns l)).
    - subst c. rewrite ends_with_append in Hy. discriminate.
    - subst c. split; [|exact Hn]. apply mem_In, in_map_iff. exists (n, v). auto. }
  destruct (nrows l =? 0)%nat.
  - rewrite map_app, in_app_iff in Hc. destruct Hc as [Hc|Hc].
    + left. apply (Hleft (remove [on] (cols l))); [|exact Hc].
      intros nv Hnv. apply filter_In in Hnv. tauto.
    + rewrite map_map in Hc. apply in_map_iff in Hc as ([n v] & E & Hin).
      cbn [fst snd] in E. destruct (String.eqb n on) eqn:F.
      * left. cbn [fst] in E. subst c. eapply getitem_ok_has; eauto.
      * right. apply (Hright (n, v) Hin); [apply String.eqb_neq, F|].
        cbn [fst] in *. exact E.
  - rewrite map_app, in_app_iff in Hc. destruct Hc as [Hc|Hc].
    + left. apply (Hleft (cols l)); auto.
    + right. rewrite map_map in Hc. apply in_map_iff in Hc as ([n v] & E & Hin).
      cbn [fst snd] in E. apply filter_In in Hin as [Hin Hn].
      apply (Hright (n, v) Hin); [|exact E].
      cbn [fst] in *. intros ->. unfold mem in Hn. simpl in Hn.
      rewrite String.eqb_refl in Hn. discriminate.
Qed.

End Columns.

(* ===================================================================== *)
(** ** The event processor and the [target] column                       *)
(* ===================================================================== *)

Section EventTarget.

Lemma set_source_merged_ok df df' :
  TrainTestProcessor.set_source_merged df = Ok df' ->
  exists tab screen type,
    getitem "source_system_tab" df = Ok tab
    /\ getitem "source_screen_name" df = Ok screen
    /\ getitem "source_type" df = Ok type
    /\ df' = setitem "source_merged"
               (TrainTestProcessor.map3 TrainTestProcessor.merged_name tab screen type) df.
Proof.
  unfold TrainTestProcessor.set_source_merged. intros H. invert_ok. eauto 8.
Qed.

Lemma fill_in_place_columns df df1 u c :
  TrainTestProcessor.fill_in_place df = (df1, Ok u) ->
  c <> "source_merged" -> has_column c df1 = has_column c df.
Proof.
  unfold TrainTestProcessor.fill_in_place. intros H Hc. invert_ok.
  apply set_source_merged_ok in H as (tab & screen & type & _ & _ & _ & ->).
  rewrite has_column_setitem.
  apply String.eqb_neq in Hc. rewrite Hc. simpl.
  rewrite (has_column_fillna _ _ _ _ _ H2), (has_column_fillna _ _ _ _ _ H1).
  apply (has_column_fillna _ _ _ _ _ H0).
Qed.

Lemma parse_without_target df :
  has_column "target" df = false ->
  exists e, snd (TrainTestProcessor.parse df) = Raise e.
Proof.
  intros Ht. unfold TrainTestProcessor.parse, sbind.
  destruct (TrainTestProcessor.fill_in_place df) as [df1 [u|e]] eqn:E; [|simpl; eauto].
  unfold read. simpl. unfold TrainTestProcessor.merge_and_encode.
  destruct (select_missing "target" ["source_merged"; "target"] df1) as (e & ->).
  - simpl. auto.
  - rewrite (fill_in_place_columns _ _ _ _ E); [exact Ht | discriminate].
  - simpl. eauto.
Qed.

End EventTarget.

(** C6, as the code has it: the commands [train] and [test] run the same
    event processor with the same result and the same effect on the
    argument; that processor reads [target], and on a table without that
    column it raises instead of returning. *)
Theorem train_test_same_processor (ref : option DataFrame) (df : DataFrame) :
  DataProcessor.process "train" ref df = DataProcessor.process "test" ref df
  /\ (has_column "target" df = false ->
      exists e, snd (DataProcessor.process "test" ref df) = Raise e).
Proof.
  split.
  - rewrite !process_train_test by auto. reflexivity.
  - intros H. rewrite process_train_test by auto. apply parse_without_target, H.
Qed.

Lemma train_test_same_processor_witness :
  exists e, snd (DataProcessor.process "test" None test_events) = Raise e.
Proof.
  apply (train_test_same_processor None test_events). reflexivity.
Defined.

(** The claim as worded fails: the transform raises on the table without
    [target] and returns on the same table once the column is there, and
    what it derives changes with the values of [target]. *)
Lemma event_transform_depends_on_target :
  snd (DataProcessor.process "test" None test_events) = Raise (KeyError "target")
  /\ (x <- snd (DataProcessor.process "test" None
                  (setitem "target" [VInt 1; VInt 1] test_events)) ;;
      getitem "1h_source" x) = Ok [VInt 1; VInt 1]
  /\ (x <- snd (DataProcessor.process "test" None
                  (setitem "target" [VInt 0; VInt 0] test_events)) ;;
      getitem "1h_source" x) = Ok [VInt 0; VInt 0].
Proof. repeat split; vm_compute; reflexivity. Qed.

(* ===================================================================== *)
(** ** Left merge against a table whose keys are distinct                *)
(* ===================================================================== *)

Section Merge.

Lemma existsb_false_forall {A} (p : A -> bool) (l : list A) :
  existsb p l = false <-> forall x, In x l -> p x = false.
Proof.
  induction l as [|a l IH]; simpl; [tauto|].
  rewrite orb_false_iff, IH. split.
  - intros [Ha Hl] x [<-|Hx]; auto.
  - intros H. split; [|intros x Hx]; apply H; auto.
Qed.

Lemma positions_from_none p i l :
  (forall x, In x l -> p x = false) -> positions_from p i l = [].
Proof.
  revert i. induction l as [|x l IH]; intros i H; simpl; [reflexivity|].
  rewrite (H x) by (simpl; auto). apply IH. intros y Hy. apply H. simpl; auto.
Qed.

Lemma positions_distinct k i l :
  distinct l = true ->
  positions_from (key_eqb k) i l
  = match index_of (key_eqb k) l with
    | Some j => [(i + j)%nat]
    | None => []
    end.
Proof.
  revert i. induction l as [|x l IH]; intros i H; simpl in *; [reflexivity|].
  apply andb_true_iff in H as [Hx Hl]. apply negb_true_iff in Hx.
  destruct (key_eqb k x) eqn:E.
  - rewrite Nat.add_0_r. f_equal. apply positions_from_none.
    intros y Hy. rewrite (key_eqb_subst k x y E).
    eapply existsb_false_forall in Hx; eauto.
  - rewrite IH by exact Hl. destruct (index_of (key_eqb k) l); simpl; [|reflexivity].
    f_equal. lia.
Qed.

Lemma flat_map_singleton {A B} (f : A -> list B) (g : A -> B) (l : list A) :
  (forall x, f x = [g x]) -> flat_map f l = map g l.
Proof.
  intros H. induction l as [|x l IH]; simpl; [reflexivity|].
  rewrite H, IH. reflexivity.
Qed.

Lemma indexer_distinct lk rk :
  distinct rk = true ->
  indexer lk rk
  = map (fun ik => (fst ik, index_of (key_eqb (snd ik)) rk))
        (combine (seq 0 (List.length lk)) lk).
Proof.
  intros H. unfold indexer. apply flat_map_singleton. intros [i k]. simpl.
  unfold positions. rewrite positions_distinct by exact H.
  destruct (index_of (key_eqb k) rk); reflexivity.
Qed.

Lemma map_fst_combine_seq {A} (l : list A) n :
  map fst (combine (seq n (List.length l)) l) = seq n (List.length l).
Proof.
  revert n. induction l as [|x l IH]; intros n; simpl; [reflexivity|].
  rewrite IH. reflexivity.
Qed.

Lemma map_snd_combine_seq {A} (l : list A) n :
  map snd (combine (seq n (List.length l)) l) = l.
Proof.
  revert n. induction l as [|x l IH]; intros n; simpl; [reflexivity|].
  rewrite IH. reflexivity.
Qed.

Lemma indexer_distinct_fst lk rk :
  distinct rk = true -> map fst (indexer lk rk) = seq 0 (List.length lk).
Proof.
  intros H. rewrite indexer_distinct by exact H. rewrite map_map. simpl.
  apply map_fst_combine_seq.
Qed.

Lemma indexer_distinct_snd lk rk :
  distinct rk = true ->
  map snd (indexer lk rk) = map (fun k => index_of (key_eqb k) rk) lk.
Proof.
  intros H. rewrite indexer_distinct by exact H. rewrite map_map. simpl.
  replace (map (fun k => index_of (key_eqb k) rk) lk)
    with (map (fun k => index_of (key_eqb k) rk)
              (map snd (combine (seq 0 (List.length lk)) lk)))
    by (rewrite map_snd_combine_seq; reflexivity).
  rewrite map_map. reflexivity.
Qed.

(** Distinct keys on the right: one row for each row on the left. *)
Lemma indexer_distinct_length lk rk :
  distinct rk = true -> List.length (indexer lk rk) = List.length lk.
Proof.
  intros H. rewrite <- (length_map fst), indexer_distinct_fst by exact H.
  apply length_seq.
Qed.

Lemma take_seq col n :
  List.length col = n -> take (seq 0 n) col = col.
Proof.
  intros <-. unfold take. induction col as [|x col IH]; simpl; [reflexivity|].
  f_equal. rewrite <- seq_shift, map_map. exact IH.
Qed.

Lemma take_opt_lookup lk rk vals :
  take_opt (map (fun k => index_of (key_eqb k) rk) lk) vals
  = map (fun k => lookup_key k rk vals) lk.
Proof. unfold take_opt, lookup_key. rewrite map_map. reflexivity. Qed.

(** Every row of a left merge comes from a row of the left table. *)
Lemma indexer_in_range lk rk i :
  In i (map fst (indexer lk rk)) -> (i < List.length lk)%nat.
Proof.
  unfold indexer. rewrite in_map_iff. intros ([i' oj] & <- & H). simpl.
  apply in_flat_map in H as ([i0 k] & Hin & H). simpl in H.
  assert (i' = i0) as ->.
  { destruct (positions (key_eqb k) rk).
    - destruct H as [[= <- _]|[]]. reflexivity.
    - simpl in H. destruct H as [[= <- _]|H]; [reflexivity|].
      apply in_map_iff in H as (j & [= <- _] & _). reflexivity. }
  apply in_combine_l in Hin. apply in_seq in Hin. lia.
Qed.

Lemma length_take idx col : List.length (take idx col) = List.length idx.
Proof. apply length_map. Qed.

Lemma length_take_opt idx col : List.length (take_opt idx col) = List.length idx.
Proof. apply length_map. Qed.

(** The columns of a merge all have the length of its index. *)
Lemma merge_lengths l r on out :
  merge l r on = Ok out ->
  Forall (fun nv => List.length (snd nv) = nrows out) (cols out).
Proof.
  intros H. apply merge_ok in H as (lk & rk & _ & _ & _ & ->). cbn [nrows cols].
  destruct (nrows l =? 0)%nat;
    apply Forall_app; split; apply Forall_map, Forall_forall; intros nv _.
  - cbn [snd]. rewrite length_take. apply length_map.
  - destruct (String.eqb (fst nv) on); cbn [snd];
      [rewrite length_take | rewrite length_take_opt]; apply length_map.
  - cbn [snd]. rewrite length_take. apply length_map.
  - cbn [snd]. rewrite length_take_opt. apply length_map.
Qed.

Lemma lookup_key_find {A} (k : value) (kv : list A) (key g : A -> value) :
  lookup_key k (map key kv) (map g kv)
  = match find (fun e => key_eqb k (key e)) kv with
    | Some e => g e
    | None => VNull
    end.
Proof.
  unfold lookup_key. induction kv as [|e kv IH]; simpl; [reflexivity|].
  destruct (key_eqb k (key e)); [reflexivity|].
  destruct (index_of _ _); simpl in *; exact IH.
Qed.

End Merge.

(* ===================================================================== *)
(** ** Distinct keys and their counts                                    *)
(* ===================================================================== *)

Section Counting.

Lemma distinct_filter p l : distinct l = true -> distinct (filter p l) = true.
Proof.
  induction l as [|x l IH]; simpl; [reflexivity|].
  intros H. apply andb_true_iff in H as [Hx Hl]. apply negb_true_iff in Hx.
  destruct (p x); simpl; [|auto].
  rewrite IH by exact Hl. rewrite andb_true_r. apply negb_true_iff.
  apply existsb_false_forall. intros y Hy. apply filter_In in Hy as [Hy _].
  eapply existsb_false_forall in Hx; eauto.
Qed.

Lemma nub_distinct l : distinct (nub l) = true.
Proof.
  induction l as [|x l IH]; simpl; [reflexivity|].
  rewrite distinct_filter by exact IH. rewrite andb_true_r. apply negb_true_iff.
  apply existsb_false_forall. intros y Hy. apply filter_In in Hy as [_ Hy].
  apply negb_true_iff in Hy. exact Hy.
Qed.

Lemma nub_In y l : In y (nub l) -> In y l.
Proof.
  revert y. induction l as [|x l IH]; simpl; [tauto|].
  intros y [->|H]; [auto|]. apply filter_In in H as [H _]. auto.
Qed.

(** Every element has a representative of its key among the distinct ones. *)
Lemma nub_covers y l : In y l -> exists z, In z (nub l) /\ key_eqb z y = true.
Proof.
  induction l as [|x l IH]; simpl; [tauto|].
  intros [->|H].
  - exists y. split; [auto | apply key_eqb_refl].
  - destruct (IH H) as (z & Hz & E). destruct (key_eqb x z) eqn:F.
    + exists x. split; [auto | eapply key_eqb_trans; eauto].
    + exists z. split; [|exact E]. right. apply filter_In. rewrite F. auto.
Qed.

Lemma existsb_perm {A} (p : A -> bool) l l' :
  Permutation l l' -> existsb p l = existsb p l'.
Proof.
  intros H. destruct (existsb p l') eqn:E.
  - apply existsb_exists in E as (x & Hx & Hp). apply existsb_exists.
    exists x. split; [|exact Hp]. eapply Permutation_in; [symmetry|]; eauto.
  - apply existsb_false_forall. intros x Hx.
    eapply existsb_false_forall in E; eauto. eapply Permutation_in; eauto.
Qed.

Lemma distinct_perm l l' : Permutation l l' -> distinct l = distinct l'.
Proof.
  induction 1 as [|x l l' H IH|x y l|l1 l2 l3 H1 IH1 H2 IH2]; simpl.
  - reflexivity.
  - rewrite IH, (existsb_perm _ _ _ H). reflexivity.
  - rewrite (key_eqb_sym x y).
    destruct (key_eqb y x), (existsb (key_eqb x) l), (existsb (key_eqb y) l),
      (distinct l); reflexivity.
  - congruence.
Qed.

Lemma insert_desc_perm {A} (x : A * Z) l : Permutation (insert_desc x l) (x :: l).
Proof.
  induction l as [|y l IH]; simpl; [reflexivity|].
  destruct (snd y <=? snd x); [reflexivity|].
  rewrite IH. apply perm_swap.
Qed.

Lemma sort_desc_perm {A} (l : list (A * Z)) : Permutation (sort_desc l) l.
Proof.
  induction l as [|x l IH]; simpl; [reflexivity|].
  rewrite insert_desc_perm. constructor. exact IH.
Qed.

Lemma sort_desc_In {A} (e : A * Z) l : In e (sort_desc l) <-> In e l.
Proof.
  split; apply Permutation_in; [|symmetry]; apply sort_desc_perm.
Qed.

Lemma count_key_subst k k' l :
  key_eqb k k' = true -> count_key k l = count_key k' l.
Proof.
  intros E. unfold count_key. f_equal. apply filter_ext. intros y.
  apply key_eqb_subst. exact E.
Qed.

Lemma count_key_absent k l :
  (forall y, In y l -> key_eqb k y = false) -> count_key k l = 0%nat.
Proof.
  intros H. unfold count_key. induction l as [|x l IH]; simpl; [reflexivity|].
  rewrite (H x) by (simpl; auto). apply IH. intros y Hy. apply H. simpl; auto.
Qed.

Lemma value_counts_keys_distinct col :
  distinct (map fst (value_counts col)) = true.
Proof.
  unfold value_counts.
  rewrite (distinct_perm _ (map fst (map (fun k => (k, Z.of_nat (count_key k (dropna col))))
                                      (nub (dropna col))))).
  - rewrite map_map. simpl. rewrite map_id. apply nub_distinct.
  - apply Permutation_map, sort_desc_perm.
Qed.

(** What a merge reads in the frame of [value_counts]: the count of the
    key, or a null for a key that does not occur. *)
Lemma value_counts_lookup k col :
  match find (fun e => key_eqb k (fst e)) (value_counts col) with
  | Some e => snd e = Z.of_nat (count_key k (dropna col)) /\ (0 < snd e)
  | None => count_key k (dropna col) = 0%nat
  end.
Proof.
  destruct (find _ _) as [[k' n]|] eqn:E.
  - apply find_some in E as [Hin E]. simpl in *.
    apply sort_desc_In, in_map_iff in Hin as (z & [= -> <-] & Hz).
    rewrite (count_key_subst _ _ _ E). split; [reflexivity|].
    apply nub_In in Hz. unfold count_key.
    assert (In k' (filter (key_eqb k') (dropna col))).
    { apply filter_In. split; [exact Hz | apply key_eqb_refl]. }
    destruct (filter _ _); [contradiction | simpl; lia].
  - apply count_key_absent. intros y Hy.
    destruct (nub_covers y _ Hy) as (z & Hz & Ezy).
    rewrite key_eqb_sym in Ezy. rewrite key_eqb_sym.
    rewrite (key_eqb_subst y z k Ezy). rewrite key_eqb_sym.
    apply (find_none _ _ E (z, Z.of_nat (count_key z (dropna col)))).
    apply sort_desc_In, in_map_iff. eauto.
Qed.

End Counting.

Section Lookups.

Lemma lookup_app c l1 l2 :
  lookup c (l1 ++ l2)
  = match lookup c l1 with
    | Some v => Some v
    | None => lookup c l2
    end.
Proof.
  induction l1 as [|[n v] l1 IH]; simpl; [reflexivity|].
  destruct (String.eqb c n); auto.
Qed.

Lemma lookup_remove c labels l :
  lookup c (remove labels l) = if mem c labels then None else lookup c l.
Proof.
  unfold remove. induction l as [|[n v] l IH]; simpl.
  - destruct (mem c labels); reflexivity.
  - destruct (String.eqb c n) eqn:E.
    + apply String.eqb_eq in E. subst n. destruct (mem c labels) eqn:F; simpl.
      * exact IH.
      * rewrite String.eqb_refl. reflexivity.
    + destruct (mem n labels); simpl; [exact IH|]. rewrite E. exact IH.
Qed.

(** Lookup under a renaming that sends no other name to [c]. *)
Lemma lookup_renamed c (ren : string -> string) (g : list value -> list value) l :
  (forall n, In n (map fst l) -> ren n = c -> n = c) ->
  lookup c (map (fun nv => (ren (fst nv), g (snd nv))) l)
  = if String.eqb (ren c) c then option_map g (lookup c l) else None.
Proof.
  induction l as [|[n v] l IH]; intros H; simpl.
  - destruct (String.eqb (ren c) c); reflexivity.
  - rewrite IH by (intros m Hm; apply H; simpl; auto).
    destruct (String.eqb c n) eqn:E.
    + apply String.eqb_eq in E. subst n. rewrite String.eqb_sym.
      destruct (String.eqb (ren c) c) eqn:F; [reflexivity|].
      destruct (lookup c l); reflexivity.
    + destruct (String.eqb c (ren n)) eqn:F; [|reflexivity].
      apply String.eqb_eq in F. symmetry in F. apply H in F; [|simpl; auto].
      subst n. rewrite String.eqb_refl in E. discriminate.
Qed.

Lemma plain_not_suffixed c n :
  plain c = true -> n ++ "_x" <> c /\ n ++ "_y" <> c.
Proof.
  unfold plain. intros H. apply andb_true_iff in H as [Hx Hy].
  split; intros <-; rewrite ends_with_append in *; discriminate.
Qed.

(** Lookup under a renaming that sends no other name to [c], where the
    cells of a column may depend on its name. *)
Lemma lookup_renamed_by c (ren : string -> string)
      (g : string -> list value -> list value) l :
  (forall n, In n (map fst l) -> ren n = c -> n = c) ->
  lookup c (map (fun nv => (ren (fst nv), g (fst nv) (snd nv))) l)
  = if String.eqb (ren c) c then option_map (g c) (lookup c l) else None.
Proof.
  induction l as [|[n v] l IH]; intros H; simpl.
  - destruct (String.eqb (ren c) c); reflexivity.
  - rewrite IH by (intros m Hm; apply H; simpl; auto).
    destruct (String.eqb c n) eqn:E.
    + apply String.eqb_eq in E. subst n. rewrite String.eqb_sym.
      destruct (String.eqb (ren c) c) eqn:F; [reflexivity|].
      destruct (lookup c l); reflexivity.
    + destruct (String.eqb c (ren n)) eqn:F; [|reflexivity].
      apply String.eqb_eq in F. symmetry in F. apply H in F; [|simpl; auto].
      subst n. rewrite String.eqb_refl in E. discriminate.
Qed.

(** The columns of a merge under a plain name [c]: the left column when
    only the left table has it, the right column when only the right table
    has it, none when both have it (they are renamed) unless it is the key. *)
Lemma merge_lookup l r on out c :
  merge l r on = Ok out -> plain c = true ->
  exists lk rk,
    getitem on l = Ok lk /\ getitem on r = Ok rk
    /\ nrows out = List.length (indexer lk rk)
    /\ lookup c (cols out)
       = if String.eqb c on then Some (take (map fst (indexer lk rk)) lk)
         else match lookup c (cols l), lookup c (cols r) with
              | Some v, None => Some (take (map fst (indexer lk rk)) v)
              | None, Some w => Some (take_opt (map snd (indexer lk rk)) w)
              | _, _ => None
              end.
Proof.
  intros H Hp. apply merge_ok in H as (lk & rk & Hl & Hr & _ & ->).
  exists lk, rk. split; [exact Hl|]. split; [exact Hr|]. split; [reflexivity|].
  cbn [cols].
  assert (Hx : forall b : bool, String.eqb (if b then c ++ "_x" else c) c = negb b).
  { intros [|]; simpl; [|apply String.eqb_refl].
    apply String.eqb_neq. apply (plain_not_suffixed c c Hp). }
  assert (Hy : forall b : bool, String.eqb (if b then c ++ "_y" else c) c = negb b).
  { intros [|]; simpl; [|apply String.eqb_refl].
    apply String.eqb_neq. apply (plain_not_suffixed c c Hp). }
  assert (Hr' : String.eqb c on = false ->
                mem c (map fst (remove [on] (cols r)))
                = match lookup c (cols r) with Some _ => true | None => false end).
  { intros E. destruct (lookup c (cols r)) eqn:F.
    - apply mem_In. apply lookup_Some_In in F. apply in_map_iff.
      exists (c, l0). split; [reflexivity|]. apply filter_In. split; [exact F|].
      simpl. unfold mem. simpl. rewrite String.eqb_sym in E. rewrite String.eqb_sym, E.
      reflexivity.
    - apply mem_false. intros Hin. apply In_remove in Hin as [Hin _].
      apply lookup_None in F. contradiction. }
  assert (Hl' : mem c (columns l)
                = match lookup c (cols l) with Some _ => true | None => false end).
  { destruct (lookup c (cols l)) eqn:F.
    - apply mem_In. apply lookup_Some_In in F. apply in_map_iff.
      exists (c, l0). auto.
    - apply mem_false. apply lookup_None in F. exact F. }
  assert (Hleft : forall ll,
            lookup c (map (fun nv : string * list value =>
                       ((if negb (String.eqb (fst nv) on)
                            && mem (fst nv) (map fst (remove [on] (cols r)))
                         then fst nv ++ "_x" else fst nv),
                        take (map fst (indexer lk rk)) (snd nv))) ll)
            = if negb (negb (String.eqb c on) && mem c (map fst (remove [on] (cols r))))
              then option_map (take (map fst (indexer lk rk))) (lookup c ll)
              else None).
  { intros ll.
    rewrite (lookup_renamed c
               (fun n => if negb (String.eqb n on)
                            && mem n (map fst (remove [on] (cols r)))
                         then n ++ "_x" else n)
               (take (map fst (indexer lk rk)))).
    - rewrite Hx. reflexivity.
    - intros n _ E. destruct (_ && _) in E; [|exact E].
      apply (plain_not_suffixed c n) in Hp. tauto. }
  destruct (nrows l =? 0)%nat.
  - rewrite lookup_app, Hleft, lookup_remove.
    set (ren := fun n => if String.eqb n on then on
                         else if mem n (columns l) then n ++ "_y" else n).
    set (g := fun (n : string) (v : list value) =>
                if String.eqb n on then take (map fst (indexer lk rk)) lk
                else take_opt (map snd (indexer lk rk)) v).
    rewrite (map_ext _ (fun nv : string * list value =>
                          (ren (fst nv), g (fst nv) (snd nv))))
      by (intros [n v]; unfold ren, g; cbn [fst snd];
          destruct (String.eqb n on); reflexivity).
    rewrite (lookup_renamed_by c ren g).
    2:{ intros n _ E. unfold ren in E. destruct (String.eqb n on) eqn:F.
        - apply String.eqb_eq in F. congruence.
        - destruct (mem n (columns l)) in E; [|exact E].
          apply (plain_not_suffixed c n) in Hp. tauto. }
    unfold ren, g. unfold mem at 2. cbn [existsb]. rewrite orb_false_r.
    destruct (String.eqb c on) eqn:E.
    + apply String.eqb_eq in E. subst c. cbn [negb andb]. rewrite String.eqb_refl.
      unfold getitem in Hr. destruct (lookup on (cols r)); [|discriminate].
      reflexivity.
    + cbn [negb andb]. rewrite (Hr' eq_refl), Hy, Hl'.
      destruct (lookup c (cols l)), (lookup c (cols r)); reflexivity.
  - rewrite lookup_app, Hleft.
    rewrite (lookup_renamed c
               (fun n => if mem n (columns l) then n ++ "_y" else n)
               (take_opt (map snd (indexer lk rk)))).
    2:{ intros n _ E. destruct (mem n (columns l)) in E; [|exact E].
        apply (plain_not_suffixed c n) in Hp. tauto. }
    rewrite lookup_remove. unfold mem at 3. cbn [existsb]. rewrite orb_false_r.
    rewrite Hy.
    destruct (String.eqb c on) eqn:E.
    + apply String.eqb_eq in E. subst c. cbn [negb andb].
      unfold getitem in Hl. destruct (lookup on (cols l)); [|discriminate].
      injection Hl as ->. reflexivity.
    + cbn [negb andb]. rewrite (Hr' eq_refl), Hl'.
      destruct (lookup c (cols l)), (lookup c (cols r)); reflexivity.
Qed.

End Lookups.

(* ===================================================================== *)
(** ** Play count                                                        *)
(* ===================================================================== *)

Section PlayCount.

Lemma rows_with_key_count k keys :
  rows_with_key k keys = Z.of_nat (count_key k (dropna keys)).
Proof.
  unfold rows_with_key, count_key, dropna, py_eqb. f_equal.
  induction keys as [|y l IH]; simpl; [reflexivity|].
  rewrite (key_eqb_sym y k).
  destruct (is_null y); simpl; [exact IH|].
  destruct (key_eqb k y); simpl; auto.
Qed.

Lemma rows_with_key_absent k keys :
  (forall y, In y keys -> py_eqb y k = false) -> rows_with_key k keys = 0.
Proof.
  intros H. unfold rows_with_key.
  induction keys as [|y l IH]; simpl; [reflexivity|].
  rewrite (H y) by (simpl; auto). apply IH. intros z Hz. apply H. simpl; auto.
Qed.

(** The cell a left merge on [value_counts] leaves, once its nulls are
    filled with 0. *)
Lemma filled_count k col :
  fill (VInt 0)
       (lookup_key k (map fst (value_counts col))
                   (map (fun kc => VInt (snd kc)) (value_counts col)))
  = VInt (rows_with_key k col).
Proof.
  rewrite lookup_key_find, rows_with_key_count.
  pose proof (value_counts_lookup k col) as H.
  destruct (find _ _) as [e|]; simpl.
  - destruct H as [-> _]. reflexivity.
  - rewrite H. reflexivity.
Qed.

(** A left merge on a two-column frame of distinct keys [rk] and cells
    [rv] under the plain name [c], which the left frame must not have. *)
Lemma merge_counts l on c rk rv n out :
  merge l (mkDF n [(on, rk); (c, rv)]) on = Ok out ->
  plain c = true -> c <> on -> distinct rk = true ->
  exists lk,
    getitem on l = Ok lk
    /\ nrows out = List.length lk
    /\ lookup c (cols out)
       = if has_column c l then None
         else Some (map (fun k => lookup_key k rk rv) lk).
Proof.
  intros H Hp Hc Hd.
  destruct (merge_lookup _ _ _ _ c H Hp) as (lk & rk' & Hl & Hr & Hn & Hlook).
  unfold getitem in Hr. simpl in Hr. rewrite String.eqb_refl in Hr.
  injection Hr as <-.
  exists lk. split; [exact Hl|]. split.
  - rewrite Hn. apply indexer_distinct_length, Hd.
  - rewrite Hlook. apply String.eqb_neq in Hc. rewrite Hc. simpl.
    rewrite Hc, String.eqb_refl.
    rewrite indexer_distinct_snd by exact Hd. rewrite take_opt_lookup.
    destruct (has_column c l) eqn:F.
    + destruct (lookup c (cols l)) eqn:G; [reflexivity|].
      apply lookup_has_column in G. congruence.
    + apply lookup_has_column in F. rewrite F. reflexivity.
Qed.

Lemma generate_play_count_ok ref_df df out :
  EngineeringProcessor.generate_play_count ref_df df = Ok out ->
  exists songs keys,
    getitem "song_id" ref_df = Ok songs
    /\ getitem "song_id" df = Ok keys
    /\ nrows out = List.length keys
    /\ getitem "play_count" out
       = Ok (map (fun k => VInt (rows_with_key k songs)) keys)
    /\ getitem "song_id" out = Ok keys.
Proof.
  unfold EngineeringProcessor.generate_play_count. intros H. invert_ok.
  match goal with
  | E : getitem "song_id" ref_df = Ok ?x |- _ => rename x into songs; rename E into Hs
  end.
  match goal with
  | E : set_columns _ _ = Ok _ |- _ =>
      unfold set_columns, value_counts_frame in E; simpl in E; injection E as <-
  end.
  match goal with
  | E : merge df _ _ = Ok _ |- _ =>
      pose proof (merge_lookup _ _ _ _ "song_id" E eq_refl)
        as (lk & rk & Hlk & Hrk & _ & Hon);
      apply merge_counts in E as (keys & Hk & Hn & Hlook);
        [| reflexivity | discriminate | apply value_counts_keys_distinct]
  end.
  rewrite Hk in Hlk. injection Hlk as <-.
  unfold getitem in Hrk. cbn in Hrk. injection Hrk as <-.
  cbn [String.eqb Ascii.eqb Bool.eqb] in Hon.
  rewrite indexer_distinct_fst, take_seq in Hon
    by (apply value_counts_keys_distinct || reflexivity).
  exists songs, keys. split; [exact Hs|]. split; [exact Hk|].
  apply fillna_ok in H as (col & Hcol & ->).
  split; [exact Hn|]. split.
  - rewrite getitem_setitem_same. f_equal.
    unfold getitem in Hcol. rewrite Hlook in Hcol.
    destruct (has_column "play_count" df); [discriminate|].
    injection Hcol as <-. rewrite map_map. apply map_ext. intros k.
    apply filled_count.
  - rewrite getitem_setitem_other by discriminate. unfold getitem. rewrite Hon.
    reflexivity.
Qed.

End PlayCount.

(** C7: when the play-count step returns, the result has the rows of the
    target, in their order and each under its [song_id], and the
    [play_count] of a row is the number of reference rows with the row's
    [song_id]: 0 for a [song_id] the reference does not have. *)
Theorem play_count_is_row_count (ref_df df out : DataFrame) :
  EngineeringProcessor.generate_play_count ref_df df = Ok out ->
  exists songs keys,
    getitem "song_id" ref_df = Ok songs
    /\ getitem "song_id" df = Ok keys
    /\ nrows out = List.length keys
    /\ getitem "song_id" out = Ok keys
    /\ getitem "play_count" out
       = Ok (map (fun k => VInt (rows_with_key k songs)) keys)
    /\ (forall k, (forall y, In y songs -> py_eqb y k = false) ->
                  rows_with_key k songs = 0).
Proof.
  intros H.
  apply generate_play_count_ok in H as (songs & keys & Hs & Hk & Hn & Hp & Ho).
  exists songs, keys. repeat (split; [assumption|]).
  intros k. apply rows_with_key_absent.
Qed.

Lemma play_count_is_row_count_witness :
  exists out,
    EngineeringProcessor.generate_play_count play_reference play_target = Ok out
    /\ getitem "song_id" out = Ok [VStr "A"; VStr "C"]
    /\ getitem "play_count" out = Ok [VInt 2; VInt 0].
Proof.
  destruct (EngineeringProcessor.generate_play_count play_reference play_target)
    as [out|e] eqn:E; [|vm_compute in E; discriminate].
  exists out. split; [reflexivity|].
  destruct (play_count_is_row_count play_reference play_target out E)
    as (songs & keys & Hs & Hk & _ & Ho & Hp & _).
  vm_compute in Hs, Hk. injection Hs as <-. injection Hk as <-.
  split; [exact Ho | exact Hp].
Defined.

(* ===================================================================== *)
(** ** The engineering processor needs [target]                          *)
(* ===================================================================== *)

Section EngineeringTarget.

Lemma generate_play_count_columns ref df d1 c :
  EngineeringProcessor.generate_play_count ref df = Ok d1 ->
  plain c = true -> c <> "play_count" ->
  has_column c df = false -> has_column c d1 = false.
Proof.
  unfold EngineeringProcessor.generate_play_count. intros H Hp Hc Hdf. invert_ok.
  unfold set_columns, value_counts_frame in H1. simpl in H1. injection H1 as <-.
  rewrite (has_column_fillna _ _ _ _ _ H).
  destruct (has_column c a1) eqn:E; [|reflexivity].
  destruct (merge_plain_column _ _ _ _ _ H2 Hp E) as [F|[F Hon]]; [congruence|].
  unfold has_column, columns in F. simpl in F. apply mem_In in F.
  simpl in F. destruct F as [<-|[<-|[]]]; congruence.
Qed.

Lemma generate_track_count_without_target ref d1 :
  has_column "target" d1 = false ->
  exists e, EngineeringProcessor.generate_track_count ref d1 = Raise e.
Proof.
  intros Ht. unfold EngineeringProcessor.generate_track_count.
  destruct (select ["song_id"; "artist_name"] ref) as [t1|e]; simpl; [|eauto].
  destruct (drop_duplicates ["song_id"] t1) as [t2|e]; simpl; [|eauto].
  destruct (groupby_count "artist_name" t2) as [t3|e]; simpl; [|eauto].
  destruct (set_columns ["artist_name"; "track_count"] t3) as [t4|e]; simpl; [|eauto].
  destruct (sort_values_desc "track_count" t4) as [t5|e]; simpl; [|eauto].
  destruct (select_missing "target" ["artist_name"; "target"] d1) as (e & ->);
    simpl; eauto.
Qed.

End EngineeringTarget.

(** C10: on a target table without a [target] column the engineering
    processor returns no table; when its play-count step has gone through,
    it is the track-count step that raises. *)
Theorem engineering_needs_target (ref_df df : DataFrame) :
  has_column "target" df = false ->
  (exists e, EngineeringProcessor.parse ref_df df = Raise e)
  /\ (forall d1, EngineeringProcessor.generate_play_count ref_df df = Ok d1 ->
      exists e, EngineeringProcessor.generate_track_count ref_df d1 = Raise e
                /\ EngineeringProcessor.parse ref_df df = Raise e).
Proof.
  intros Ht.
  assert (H : forall d1, EngineeringProcessor.generate_play_count ref_df df = Ok d1 ->
      exists e, EngineeringProcessor.generate_track_count ref_df d1 = Raise e
                /\ EngineeringProcessor.parse ref_df df = Raise e).
  { intros d1 H1.
    destruct (generate_track_count_without_target ref_df d1) as (e & He).
    - apply (generate_play_count_columns ref_df df d1 "target" H1);
        [reflexivity | discriminate | exact Ht].
    - exists e. split; [exact He|].
      unfold EngineeringProcessor.parse. rewrite H1. simpl. rewrite He. reflexivity. }
  split; [|exact H].
  destruct (EngineeringProcessor.generate_play_count ref_df df) as [d1|e] eqn:E.
  - destruct (H d1 eq_refl) as (e & _ & He). eauto.
  - unfold EngineeringProcessor.parse. rewrite E. simpl. eauto.
Qed.

Lemma engineering_needs_target_witness :
  exists e, EngineeringProcessor.parse engineering_target engineering_target = Raise e.
Proof.
  apply (engineering_needs_target engineering_target engineering_target).
  reflexivity.
Defined.

(* ===================================================================== *)
(** ** Nulls                                                             *)
(* ===================================================================== *)

Section Nulls.

Lemma fill_no_null v col :
  is_null v = false -> existsb is_null (map (fill v) col) = false.
Proof.
  intros Hv. apply existsb_false_forall. intros x Hx.
  apply in_map_iff in Hx as (y & <- & _). unfold fill.
  destruct (is_null y) eqn:E; auto.
Qed.

Lemma take_no_null idx col :
  (forall i, In i idx -> (i < List.length col)%nat) ->
  existsb is_null col = false -> existsb is_null (take idx col) = false.
Proof.
  intros Hi Hc. apply existsb_false_forall. intros x Hx.
  apply in_map_iff in Hx as (i & <- & Hin).
  eapply existsb_false_forall in Hc; [exact Hc|]. apply nth_In, Hi, Hin.
Qed.

Lemma uniform_lookup df c v :
  uniform df -> lookup c (cols df) = Some v -> List.length v = nrows df.
Proof.
  intros Hu H. apply lookup_Some_In in H. unfold uniform in Hu.
  rewrite Forall_forall in Hu. apply (Hu _ H).
Qed.

Lemma uniform_getitem df c v :
  uniform df -> getitem c df = Ok v -> List.length v = nrows df.
Proof.
  unfold getitem. intros Hu H. destruct (lookup c (cols df)) eqn:E; [|discriminate].
  injection H as <-. eapply uniform_lookup; eauto.
Qed.

Lemma uniform_setitem df c v :
  uniform df -> List.length v = nrows df -> uniform (setitem c v df).
Proof.
  intros Hu Hv. unfold uniform, setitem in *. simpl.
  induction (cols df) as [|[n w] l IH]; simpl.
  - constructor; auto.
  - inversion Hu; subst. destruct (String.eqb c n); constructor; auto.
Qed.

Lemma uniform_fillna df c v df' :
  uniform df -> fillna c v df = Ok df' -> uniform df'.
Proof.
  intros Hu H. apply fillna_ok in H as (col & Hc & ->).
  apply uniform_setitem; [exact Hu|]. rewrite length_map.
  eapply uniform_getitem; eauto.
Qed.


Lemma uniform_merge l r on out : merge l r on = Ok out -> uniform out.
Proof. apply merge_lengths. Qed.

Lemma nrows_fillna df c v df' : fillna c v df = Ok df' -> nrows df' = nrows df.
Proof. intros H. apply fillna_ok in H as (col & _ & ->). reflexivity. Qed.

Lemma select_ok labels df s :
  select labels df = Ok s ->
  exists cs, mapM (fun c => v <- getitem c df ;; Ok (c, v)) labels = Ok cs
             /\ s = mkDF (nrows df) cs.
Proof.
  unfold select. destruct (mapM _ labels) as [cs|e]; simpl; [|discriminate].
  intros [= <-]. eauto.
Qed.

Lemma select_columns labels df s :
  select labels df = Ok s -> columns s = labels /\ nrows s = nrows df.
Proof.
  intros H. apply select_ok in H as (cs & H & ->). unfold columns. simpl.
  split; [|reflexivity].
  revert cs H. induction labels as [|c l IH]; simpl; intros cs H.
  - injection H as <-. reflexivity.
  - destruct (getitem c df); simpl in H; [|discriminate].
    destruct (mapM _ l) eqn:E; [|discriminate]. injection H as <-. simpl.
    f_equal. apply IH. reflexivity.
Qed.

Lemma select_lookup labels df s c :
  select labels df = Ok s -> In c labels ->
  lookup c (cols s) = lookup c (cols df).
Proof.
  intros H. apply select_ok in H as (cs & H & ->). simpl.
  revert cs H. induction labels as [|c' l IH]; simpl; intros cs H Hin;
    [contradiction|].
  unfold getitem in H. destruct (lookup c' (cols df)) as [v|] eqn:E;
    simpl in H; [|discriminate].
  destruct (mapM _ l) as [cs'|] eqn:F; [|discriminate]. injection H as <-. simpl.
  destruct (String.eqb c c') eqn:G.
  - apply String.eqb_eq in G. subst. auto.
  - destruct Hin as [->|Hin]; [rewrite String.eqb_refl in G; discriminate|].
    apply IH; auto.
Qed.

(** One step of the engineering processor: a left merge on a frame whose
    columns are the key and the new column, then the new column filled. *)
Lemma merge_fill_step l right on c m out :
  merge l right on = Ok m -> fillna c (VInt 0) m = Ok out ->
  columns right = [on; c] ->
  uniform out
  /\ (exists col, getitem c out = Ok col /\ existsb is_null col = false)
  /\ (forall c' v, uniform l -> plain c' = true -> c' <> c -> c' <> on ->
        getitem c' l = Ok v -> existsb is_null v = false ->
        exists v', getitem c' out = Ok v' /\ existsb is_null v' = false).
Proof.
  intros Hm Hf Hr. split; [|split].
  - eapply uniform_fillna; [|exact Hf]. eapply uniform_merge; eauto.
  - apply fillna_ok in Hf as (col & _ & ->). eexists.
    rewrite getitem_setitem_same. split; [reflexivity|].
    apply fill_no_null. reflexivity.
  - intros c' v Hu Hp Hc Hon Hv Hnull.
    apply fillna_ok in Hf as (col & _ & ->).
    rewrite getitem_setitem_other by exact Hc.
    destruct (merge_lookup _ _ _ _ c' Hm Hp) as (lk & rk & Hlk & _ & _ & Hlook).
    apply String.eqb_neq in Hon. rewrite Hon in Hlook.
    unfold getitem in Hv. destruct (lookup c' (cols l)) as [v0|] eqn:E; [|discriminate].
    injection Hv as ->.
    assert (F : lookup c' (cols right) = None).
    { apply lookup_None. fold (columns right). rewrite Hr. simpl.
      apply String.eqb_neq in Hon. intuition. }
    rewrite F in Hlook. unfold getitem. rewrite Hlook. eexists. split; [reflexivity|].
    apply take_no_null; [|exact Hnull].
    intros i Hi. apply indexer_in_range in Hi.
    rewrite (uniform_lookup _ _ _ Hu E).
    rewrite <- (uniform_getitem _ _ _ Hu Hlk). exact Hi.
Qed.

End Nulls.

Section EngineeredColumns.

Variable ref_df : DataFrame.

Lemma generate_play_count_filled df d1 :
  EngineeringProcessor.generate_play_count ref_df df = Ok d1 ->
  uniform d1
  /\ exists col, getitem "play_count" d1 = Ok col /\ existsb is_null col = false.
Proof.
  unfold EngineeringProcessor.generate_play_count. intros H. invert_ok.
  match goal with
  | Hs : set_columns _ _ = Ok _ |- _ =>
      unfold set_columns, value_counts_frame in Hs; simpl in Hs; injection Hs as <-
  end.
  match goal with
  | Hm : merge df _ _ = Ok _ |- _ =>
      destruct (merge_fill_step _ _ _ _ _ _ Hm H eq_refl) as (Hu & Hc & _)
  end. auto.
Qed.

Lemma generate_track_count_filled d1 d2 :
  EngineeringProcessor.generate_track_count ref_df d1 = Ok d2 ->
  uniform d2
  /\ (exists col, getitem "track_count" d2 = Ok col /\ existsb is_null col = false)
  /\ (forall v, uniform d1 -> getitem "play_count" d1 = Ok v ->
        existsb is_null v = false ->
        exists v', getitem "play_count" d2 = Ok v' /\ existsb is_null v' = false).
Proof.
  unfold EngineeringProcessor.generate_track_count. intros H. invert_ok.
  match goal with
  | Hs : select ["artist_name"; "track_count"] _ = Ok _ |- _ =>
      apply select_columns in Hs as [Hr _]
  end.
  match goal with
  | Hm : merge d1 _ _ = Ok _ |- _ =>
      destruct (merge_fill_step _ _ _ _ _ _ Hm H Hr) as (Hu & Hc & Hk)
  end.
  split; [exact Hu|]. split; [exact Hc|].
  intros v Hu1 Hv Hn. apply (Hk "play_count" v Hu1); auto; discriminate.
Qed.

Lemma generate_cover_lang_filled d2 out :
  EngineeringProcessor.generate_cover_lang ref_df d2 = Ok out ->
  uniform out
  /\ (exists col, getitem "cover_lang" out = Ok col /\ existsb is_null col = false)
  /\ (forall c v, c = "play_count" \/ c = "track_count" ->
        uniform d2 -> getitem c d2 = Ok v -> existsb is_null v = false ->
        exists v', getitem c out = Ok v' /\ existsb is_null v' = false).
Proof.
  unfold EngineeringProcessor.generate_cover_lang. intros H. invert_ok.
  match goal with
  | Hs : set_columns _ _ = Ok _ |- _ =>
      unfold set_columns, value_counts_frame in Hs; simpl in Hs; injection Hs as <-
  end.
  match goal with
  | Hm : merge d2 _ _ = Ok _ |- _ =>
      destruct (merge_fill_step _ _ _ _ _ _ Hm H eq_refl) as (Hu & Hc & Hk)
  end.
  split; [exact Hu|]. split; [exact Hc|].
  intros c v [-> | ->] Hu2 Hv Hn; apply (Hk _ v Hu2); auto; discriminate.
Qed.

(** What the engineering processor guarantees about nulls: none in the
    three columns it adds. *)
Lemma engineered_columns_filled df out c :
  EngineeringProcessor.parse ref_df df = Ok out ->
  In c ["play_count"; "track_count"; "cover_lang"] ->
  exists col, getitem c out = Ok col /\ existsb is_null col = false.
Proof.
  unfold EngineeringProcessor.parse. intros H Hc.
  destruct (EngineeringProcessor.generate_play_count ref_df df) as [d1|] eqn:H0;
    simpl in H; [|discriminate].
  destruct (EngineeringProcessor.generate_track_count ref_df d1) as [d2|] eqn:H1;
    simpl in H; [|discriminate].
  destruct (EngineeringProcessor.generate_cover_lang ref_df d2) as [d3|] eqn:H2;
    simpl in H; [|discriminate].
  injection H as ->.
  apply generate_play_count_filled in H0 as (Hu1 & v1 & Hv1 & Hn1).
  apply generate_track_count_filled in H1 as (Hu2 & (v2 & Hv2 & Hn2) & Hk2).
  apply generate_cover_lang_filled in H2 as (Hu3 & Hc3 & Hk3).
  destruct (Hk2 v1 Hu1 Hv1 Hn1) as (v1' & Hv1' & Hn1').
  simpl in Hc. destruct Hc as [<-|[<-|[<-|[]]]].
  - apply (Hk3 "play_count" v1'); auto.
  - apply (Hk3 "track_count" v2); auto.
  - exact Hc3.
Qed.

End EngineeredColumns.

Section CheckedProcessors.

Lemma assert_no_null_ok s s' u :
  assert_no_null s = (s', Ok u) -> s' = s /\ isnull_any s = false.
Proof.
  unfold assert_no_null, assert_. destruct (isnull_any s); simpl.
  - discriminate.
  - intros [= <-]. auto.
Qed.

Ltac checked_tail :=
  intros H; invert_ok;
  match goal with
  | Ha : assert_no_null _ = (_, Ok _) |- _ =>
      apply assert_no_null_ok in Ha as [-> Ha]
  end;
  unfold sget in H; injection H as <- <-; auto.

Lemma songs_parse_checked df df' out :
  SongsProcessor.parse df = (df', Ok out) -> out = df' /\ isnull_any out = false.
Proof. unfold SongsProcessor.parse. checked_tail. Qed.

Lemma members_parse_checked df df' out :
  MembersProcessor.parse df = (df', Ok out) -> out = df' /\ isnull_any out = false.
Proof. unfold MembersProcessor.parse. checked_tail. Qed.

Lemma song_extra_parse_checked df df' out :
  SongExtraProcessor.parse df = (df', Ok out) -> out = df' /\ isnull_any out = false.
Proof. unfold SongExtraProcessor.parse. checked_tail. Qed.

Lemma check_no_null_ok df out :
  TrainTestProcessor.check_no_null df = Ok out -> out = df /\ isnull_any df = false.
Proof.
  unfold TrainTestProcessor.check_no_null. destruct (isnull_any df); [discriminate|].
  intros [= <-]. auto.
Qed.

Lemma train_test_parse_ok df df' out :
  TrainTestProcessor.parse df = (df', Ok out) ->
  exists u, TrainTestProcessor.fill_in_place df = (df', Ok u)
            /\ TrainTestProcessor.merge_and_encode df' = Ok out.
Proof.
  unfold TrainTestProcessor.parse. intros H.
  apply sbind_ok in H as (s & u & H1 & H). unfold read in H.
  injection H as <- H. eauto.
Qed.

Lemma train_test_parse_checked df df' out :
  TrainTestProcessor.parse df = (df', Ok out) -> isnull_any out = false.
Proof.
  intros H. apply train_test_parse_ok in H as (u & _ & H).
  unfold TrainTestProcessor.merge_and_encode in H. invert_ok.
  apply check_no_null_ok in H as [-> H]. exact H.
Qed.

End CheckedProcessors.

(** C9, as the code has it: the four processors that end in the null
    check return a table only when it holds no null; the engineering
    processor has no such check and guarantees only that the three columns
    it adds hold none. *)
Theorem checked_processors_null_free :
  (forall df df' out, SongsProcessor.parse df = (df', Ok out) ->
                      isnull_any out = false)
  /\ (forall df df' out, MembersProcessor.parse df = (df', Ok out) ->
                         isnull_any out = false)
  /\ (forall df df' out, SongExtraProcessor.parse df = (df', Ok out) ->
                         isnull_any out = false)
  /\ (forall df df' out, TrainTestProcessor.parse df = (df', Ok out) ->
                         isnull_any out = false)
  /\ (forall ref_df df out c,
        EngineeringProcessor.parse ref_df df = Ok out ->
        In c ["play_count"; "track_count"; "cover_lang"] ->
        exists col, getitem c out = Ok col /\ existsb is_null col = false).
Proof.
  repeat split.
  - intros df df' out H. apply songs_parse_checked in H. tauto.
  - intros df df' out H. apply members_parse_checked in H. tauto.
  - intros df df' out H. apply song_extra_parse_checked in H. tauto.
  - intros df df' out H. eapply train_test_parse_checked; eauto.
  - intros ref_df df out c. apply engineered_columns_filled.
Qed.

(** The claim as worded fails on the engineering processor: it returns a
    table that still holds the nulls of its argument. *)
Lemma engineering_returns_nulls :
  exists out,
    EngineeringProcessor.parse engineering_input engineering_input = Ok out
    /\ isnull_any out = true.
Proof. eexists. split; vm_compute; reflexivity. Qed.

Lemma checked_processors_null_free_witness :
  exists col,
    (out <- EngineeringProcessor.parse engineering_input engineering_input ;;
     getitem "track_count" out) = Ok col
    /\ existsb is_null col = false.
Proof.
  destruct (EngineeringProcessor.parse engineering_input engineering_input)
    as [out|e] eqn:E; [|vm_compute in E; discriminate].
  destruct checked_processors_null_free as (_ & _ & _ & _ & H).
  destruct (H engineering_input engineering_input out "track_count" E)
    as (col & Hc & Hn); [simpl; auto|].
  exists col. simpl. auto.
Defined.

(* ===================================================================== *)
(** ** The stage marker                                                  *)
(* ===================================================================== *)

Module StageFacts.

Import FeatureProcessor Stage.

Section Marker.

Lemma keeps_sbind {A B} (m : stateful t A) (k : A -> stateful t B) :
  keeps_state m -> (forall a, keeps_state (k a)) -> keeps_state (sbind m k).
Proof.
  intros Hm Hk o o' r. unfold sbind. destruct (m o) as [o1 [a|e]] eqn:E.
  - intros H. apply Hk in H. apply Hm in E. congruence.
  - intros [= <- _]. eapply Hm; eauto.
Qed.

Lemma sets_sbind {A B} v (m : stateful t A) (k : A -> stateful t B) :
  keeps_state m -> (forall a, sets_state v (k a)) -> sets_state v (sbind m k).
Proof.
  intros Hm Hk o o' r. unfold sbind. destruct (m o) as [o1 [a|e]] eqn:E.
  - intros H. apply Hk in H. apply Hm in E. destruct r; congruence.
  - intros [= <- <-]. eapply Hm; eauto.
Qed.

Lemma keeps_sget : keeps_state (@sget t).
Proof. intros o o' r [= <- _]. reflexivity. Qed.

Lemma keeps_assert b site : keeps_state (@assert_ t b site).
Proof. intros o o' r. unfold assert_. destruct b; intros [= <- _]; reflexivity. Qed.

Lemma keeps_pure {A} (x : result A) : keeps_state (pure x).
Proof. intros o o' r [= <- _]. reflexivity. Qed.

Lemma keeps_frame get : keeps_state (frame get).
Proof.
  intros o o' r. unfold frame. destruct (get o); intros [= <- _]; reflexivity.
Qed.

Lemma keeps_merge_frames a b key : keeps_state (merge_frames a b key).
Proof.
  unfold merge_frames.
  repeat (apply keeps_sbind; [|intros ?]);
    first [apply keeps_frame | apply keeps_pure].
Qed.

Lemma keeps_on_frame {A} get set (m : stateful DataFrame A) :
  (forall v o, state (set v o) = state o) -> keeps_state (on_frame get set m).
Proof.
  intros Hs o o' r. unfold on_frame. destruct (get o).
  - destruct (m d). intros [= <- _]. apply Hs.
  - intros [= <- _]. reflexivity.
Qed.

Lemma keeps_store {A} (set : A -> t -> t) v :
  (forall v o, state (set v o) = state o) -> keeps_state (store set v).
Proof. intros Hs o o' r [= <- _]. apply Hs. Qed.

Lemma sets_store v : sets_state v (store set_state v).
Proof. intros o o' r [= <- <-]. reflexivity. Qed.

Ltac marker :=
  repeat first
    [ apply sets_store
    | apply keeps_sget
    | apply keeps_assert
    | apply keeps_pure
    | apply keeps_frame
    | apply keeps_merge_frames
    | apply keeps_on_frame; reflexivity
    | apply keeps_store; reflexivity
    | apply sets_sbind; [|intros ?]
    | apply keeps_sbind; [|intros ?] ].

Lemma load_raw_sets fs : sets_state LOAD_READY (load_raw fs).
Proof. unfold load_raw. marker. Qed.

Lemma pre_process_sets : sets_state PREPROCESS_READY pre_process.
Proof. unfold pre_process. marker. Qed.

Lemma feature_engineering_sets : sets_state ENGINEERING_READY feature_engineering.
Proof. unfold feature_engineering. marker. Qed.

Lemma run_sets c : sets_state (own c) (run c).
Proof.
  destruct c; simpl;
    [apply load_raw_sets | apply pre_process_sets | apply feature_engineering_sets].
Qed.

Lemma guarded {A} (r : Z) (k : t -> unit -> stateful t A) (o : t) :
  sbind sget (fun o0 => sbind (assert_ (r <=? state o0) (StageOrder r)) (k o0)) o
  = if r <=? state o then k o tt o else (o, Raise (AssertionError (StageOrder r))).
Proof.
  unfold sbind, sget, assert_, sret, sraise.
  destruct (r <=? state o); reflexivity.
Qed.

Lemma run_guard c o :
  state o < required c ->
  run c o = (o, Raise (AssertionError (StageOrder (required c)))).
Proof.
  intros H. apply Z.leb_gt in H.
  destruct c; simpl run; simpl required in H |- *;
    [ unfold load_raw; rewrite (guarded INITIALIZATION_READY)
    | unfold pre_process; rewrite (guarded LOAD_READY)
    | unfold feature_engineering; rewrite (guarded PREPROCESS_READY) ];
    rewrite H; reflexivity.
Qed.

Lemma run_ok_required c o o' u :
  run c o = (o', Ok u) -> required c <= state o.
Proof.
  intros H. destruct (Z.le_gt_cases (required c) (state o)) as [|Hlt]; [assumption|].
  apply run_guard in Hlt. congruence.
Qed.

Lemma run_step_ok c o : step_ok (o, c, fst (run c o), snd (run c o)).
Proof.
  destruct (run c o) as [o' r] eqn:E. simpl.
  pose proof (run_sets c o o' r E) as Hs.
  repeat split.
  - apply run_guard in H. congruence.
  - apply run_guard in H. congruence.
  - subst r. eapply run_ok_required; eauto.
  - subst r. exact Hs.
  - intros e ->. exact Hs.
Qed.

End Marker.

End StageFacts.

(* ===================================================================== *)
(** ** Sequences of stage calls                                          *)
(* ===================================================================== *)

(** The claim as worded fails: the marker goes down when [load_raw] is
    called again after [pre_process]; both calls return. *)
Lemma marker_decreases :
  map (fun s => (FeatureProcessor.state (snd (fst s)), snd s))
      (Stage.steps [Stage.Load Sample.files; Stage.PreProcess;
                    Stage.Load Sample.files] FeatureProcessor.init)
  = [(1, Ok tt); (2, Ok tt); (1, Ok tt)].
Proof. vm_compute. reflexivity. Qed.

(** The two orders the specification names: [pre_process] before
    [load_raw], and [feature_engineering] right after [load_raw]. *)
Lemma stage_order_examples :
  snd (FeatureProcessor.pre_process FeatureProcessor.init)
  = Raise (AssertionError (StageOrder 1))
  /\ map (fun s => snd s)
         (Stage.steps [Stage.Load Sample.files; Stage.Engineer] FeatureProcessor.init)
     = [Ok tt; Raise (AssertionError (StageOrder 2))].
Proof. split; vm_compute; reflexivity. Qed.

(* ===================================================================== *)
(** ** The stages, step by step                                          *)
(* ===================================================================== *)

Section StageInversion.

Import FeatureProcessor.

Lemma on_frame_ok {A} get set (m : stateful DataFrame A) o o' a :
  on_frame get set m o = (o', Ok a) ->
  exists df df', get o = Some df /\ m df = (df', Ok a) /\ o' = set (Some df') o.
Proof.
  unfold on_frame. destruct (get o) as [df|]; [|discriminate].
  destruct (m df) as [df' r] eqn:E. intros [= <- ->]. eauto.
Qed.

Lemma frame_ok get o o' df :
  frame get o = (o', Ok df) -> o' = o /\ get o = Some df.
Proof.
  unfold frame. destruct (get o); [|discriminate]. intros [= <- <-]. auto.
Qed.

Lemma store_ok {A} (set : A -> t -> t) v o o' u :
  store set v o = (o', Ok u) -> o' = set v o.
Proof. intros [= <-]. reflexivity. Qed.

Lemma merge_frames_ok a b key o o' out :
  merge_frames a b key o = (o', Ok out) ->
  exists l r, a o = Some l /\ b o = Some r /\ merge l r key = Ok out /\ o' = o.
Proof.
  unfold merge_frames. intros H.
  apply sbind_ok in H as (o1 & l & Hl & H). apply frame_ok in Hl as [-> Hl].
  apply sbind_ok in H as (o2 & r & Hr & H). apply frame_ok in Hr as [-> Hr].
  injection H as <- H. eauto 6.
Qed.

Lemma guard_ok {A} r (k : t -> unit -> stateful t A) o o' a :
  sbind sget (fun o0 => sbind (assert_ (r <=? state o0) (StageOrder r)) (k o0)) o
  = (o', Ok a) ->
  r <= state o /\ k o tt o = (o', Ok a).
Proof.
  rewrite StageFacts.guarded. destruct (r <=? state o) eqn:E; [|discriminate].
  apply Z.leb_le in E. auto.
Qed.

(** A run of [feature_engineering] that returns. *)
Lemma feature_engineering_ok o o' u :
  feature_engineering o = (o', Ok u) ->
  exists tr0 te0 comb tr te,
    train_df o = Some tr0 /\ test_df o = Some te0 /\ comb_df o = Some comb
    /\ EngineeringProcessor.parse tr0 tr0 = Ok tr
    /\ EngineeringProcessor.parse comb te0 = Ok te
    /\ o' = set_state ENGINEERING_READY
              (set_test_df (Some te) (set_train_df (Some tr) o)).
Proof.
  unfold feature_engineering. intros H. apply guard_ok in H as [_ H].
  apply sbind_ok in H as (o1 & tr & H1 & H).
  apply on_frame_ok in H1 as (tr0 & tr0' & Htr & H1 & ->).
  rewrite Htr in H1. rewrite process_engineering in H1. injection H1 as <- H1.
  apply sbind_ok in H as (o2 & u2 & H2 & H). apply store_ok in H2. subst o2.
  apply sbind_ok in H as (o3 & o3' & H3 & H). injection H3 as <- <-.
  apply sbind_ok in H as (o4 & te & H4 & H).
  apply on_frame_ok in H4 as (te0 & te0' & Hte & H4 & ->).
  simpl in H4, Hte.
  destruct (comb_df o) as [comb|] eqn:Hc.
  2:{ rewrite process_engineering_no_reference in H4. discriminate. }
  rewrite process_engineering in H4. injection H4 as <- H4.
  apply sbind_ok in H as (o5 & u5 & H5 & H). apply store_ok in H5. subst o5.
  apply store_ok in H. subst o'.
  exists tr0, te0, comb, tr, te. repeat split; auto.
Qed.

(** A run of [pre_process] that returns: the five processors, the five
    merges and the concatenation, in the order of the source.  The second
    call of the event processor is made on the attribute [_train_df] as the
    first call rebound it, and leaves its in-place changes there. *)
Lemma pre_process_ok o o' u :
  pre_process o = (o', Ok u) ->
  exists train0 train0' train1 train1' test1 members0 members1 songs0 songs1
         extra0 extra1 songs2 train2 test2 train3 test3,
    train_df o = Some train0
    /\ members_df o = Some members0
    /\ songs_df o = Some songs0
    /\ song_extra_info_df o = Some extra0
    /\ TrainTestProcessor.parse train0 = (train0', Ok train1)
    /\ TrainTestProcessor.parse train1 = (train1', Ok test1)
    /\ MembersProcessor.parse members0 = (members1, Ok members1)
    /\ SongsProcessor.parse songs0 = (songs1, Ok songs1)
    /\ SongExtraProcessor.parse extra0 = (extra1, Ok extra1)
    /\ merge songs1 extra1 "song_id" = Ok songs2
    /\ merge train1' songs2 "song_id" = Ok train2
    /\ merge test1 songs2 "song_id" = Ok test2
    /\ merge train2 members1 "msno" = Ok train3
    /\ merge test2 members1 "msno" = Ok test3
    /\ o' = mk (Some songs2) (Some extra1) (Some members1) (Some train3)
               (Some test3) (Some (append train3 test3)) PREPROCESS_READY.
Proof.
  unfold pre_process. intros H. apply guard_ok in H as [_ H].
  (* train *)
  apply sbind_ok in H as (o1 & train1 & H1 & H).
  apply on_frame_ok in H1 as (train0 & train0' & Htrain & H1 & ->).
  rewrite process_train_test in H1 by auto.
  apply sbind_ok in H as (? & ? & Hs & H). apply store_ok in Hs. subst.
  (* test *)
  apply sbind_ok in H as (o2 & test1 & H2 & H).
  apply on_frame_ok in H2 as (tr & train1' & Htr & H2 & ->).
  simpl in Htr. injection Htr as <-.
  rewrite process_train_test in H2 by auto.
  apply sbind_ok in H as (? & ? & Hs & H). apply store_ok in Hs. subst.
  (* members *)
  apply sbind_ok in H as (o3 & members1 & H3 & H).
  apply on_frame_ok in H3 as (members0 & members1' & Hmem & H3 & ->).
  simpl in Hmem. rewrite process_members in H3.
  pose proof (members_parse_checked _ _ _ H3) as [E _]; subst members1'.
  apply sbind_ok in H as (? & ? & Hs & H). apply store_ok in Hs. subst.
  (* songs *)
  apply sbind_ok in H as (o4 & songs1 & H4 & H).
  apply on_frame_ok in H4 as (songs0 & songs1' & Hsongs & H4 & ->).
  simpl in Hsongs. rewrite process_songs in H4.
  pose proof (songs_parse_checked _ _ _ H4) as [E _]; subst songs1'.
  apply sbind_ok in H as (? & ? & Hs & H). apply store_ok in Hs. subst.
  (* song_extra_info *)
  apply sbind_ok in H as (o5 & extra1 & H5 & H).
  apply on_frame_ok in H5 as (extra0 & extra1' & Hextra & H5 & ->).
  simpl in Hextra. rewrite process_song_extra_info in H5.
  pose proof (song_extra_parse_checked _ _ _ H5) as [E _]; subst extra1'.
  apply sbind_ok in H as (? & ? & Hs & H). apply store_ok in Hs. subst.
  (* merges *)
  apply sbind_ok in H as (? & songs2 & Hm & H).
  apply merge_frames_ok in Hm as (? & ? & Ha & Hb & Hm1 & ->).
  simpl in Ha, Hb. injection Ha as <-. injection Hb as <-.
  apply sbind_ok in H as (? & ? & Hs & H). apply store_ok in Hs. subst.
  apply sbind_ok in H as (? & train2 & Hm & H).
  apply merge_frames_ok in Hm as (? & ? & Ha & Hb & Hm2 & ->).
  simpl in Ha, Hb. injection Ha as <-. injection Hb as <-.
  apply sbind_ok in H as (? & ? & Hs & H). apply store_ok in Hs. subst.
  apply sbind_ok in H as (? & test2 & Hm & H).
  apply merge_frames_ok in Hm as (? & ? & Ha & Hb & Hm3 & ->).
  simpl in Ha, Hb. injection Ha as <-. injection Hb as <-.
  apply sbind_ok in H as (? & ? & Hs & H). apply store_ok in Hs. subst.
  apply sbind_ok in H as (? & train3 & Hm & H).
  apply merge_frames_ok in Hm as (? & ? & Ha & Hb & Hm4 & ->).
  simpl in Ha, Hb. injection Ha as <-. injection Hb as <-.
  apply sbind_ok in H as (? & ? & Hs & H). apply store_ok in Hs. subst.
  apply sbind_ok in H as (? & test3 & Hm & H).
  apply merge_frames_ok in Hm as (? & ? & Ha & Hb & Hm5 & ->).
  simpl in Ha, Hb. injection Ha as <-. injection Hb as <-.
  apply sbind_ok in H as (? & ? & Hs & H). apply store_ok in Hs. subst.
  (* concatenation *)
  apply sbind_ok in H as (? & a & Ha & H). apply frame_ok in Ha as [-> Ha].
  apply sbind_ok in H as (? & b & Hb & H). apply frame_ok in Hb as [-> Hb].
  simpl in Ha, Hb. injection Ha as <-. injection Hb as <-.
  apply sbind_ok in H as (? & ? & Hs & H). apply store_ok in Hs. subst.
  apply store_ok in H. subst o'.
  exists train0, train0', train1, train1', test1, members0, members1, songs0,
    songs1, extra0, extra1, songs2, train2, test2, train3, test3.
  repeat split; auto.
Qed.

Lemma load_raw_ok fs o o' u :
  load_raw fs o = (o', Ok u) ->
  exists tr te so ex me,
    train_csv fs = Ok tr /\ test_csv fs = Ok te /\ songs_csv fs = Ok so
    /\ song_extra_info_csv fs = Ok ex /\ members_csv fs = Ok me
    /\ o' = mk (Some so) (Some ex) (Some me) (Some tr) (Some te) (comb_df o)
               LOAD_READY.
Proof.
  unfold load_raw. intros H. apply guard_ok in H as [_ H].
  repeat match goal with
    | H : sbind (pure ?x) _ _ = (_, Ok _) |- _ =>
        let o1 := fresh "o" in let df := fresh "df" in let H1 := fresh "H" in
        apply sbind_ok in H as (o1 & df & H1 & H);
        unfold pure in H1; injection H1 as <- H1
    | H : sbind (store _ _) _ _ = (_, Ok _) |- _ =>
        let o1 := fresh "o" in let a := fresh "a" in let H1 := fresh "H" in
        apply sbind_ok in H as (o1 & a & H1 & H); apply store_ok in H1; subst o1
    end.
  apply store_ok in H. subst o'.
  exists df, df0, df1, df2, df3. repeat split; auto.
Qed.

End StageInversion.

(* ===================================================================== *)
(** ** Nulls in the output of the pipeline                               *)
(* ===================================================================== *)

Lemma init_returns fs o :
  FeatureProcessor.root_exists fs = true ->
  FeatureProcessor.__init__ fs o = (FeatureProcessor.init, Ok tt).
Proof.
  intros H. unfold FeatureProcessor.__init__, assert_. rewrite H. reflexivity.
Qed.

Lemma init_raises fs o :
  FeatureProcessor.root_exists fs = false ->
  FeatureProcessor.__init__ fs o = (o, Raise (AssertionError NoDirectory)).
Proof.
  intros H. unfold FeatureProcessor.__init__, assert_. rewrite H. reflexivity.
Qed.

(** [main] is the three stages on the object of the constructor, whatever
    object it is run on. *)
Lemma main_stages fs o :
  FeatureProcessor.root_exists fs = true ->
  FeatureProcessor.main fs o
  = sbind (FeatureProcessor.load_raw fs)
          (fun _ => sbind FeatureProcessor.pre_process
                          (fun _ => FeatureProcessor.feature_engineering))
          FeatureProcessor.init.
Proof.
  intros H. unfold FeatureProcessor.main. unfold sbind at 1.
  rewrite (init_returns fs o H). reflexivity.
Qed.

Lemma main_root fs o0 o u :
  FeatureProcessor.main fs o0 = (o, Ok u) -> FeatureProcessor.root_exists fs = true.
Proof.
  destruct (FeatureProcessor.root_exists fs) eqn:E; [reflexivity|].
  unfold FeatureProcessor.main. unfold sbind at 1.
  rewrite (init_raises fs o0 E). discriminate.
Qed.

Lemma main_ok fs o0 o u :
  FeatureProcessor.main fs o0 = (o, Ok u) ->
  exists o1 o2 u1 u2,
    FeatureProcessor.load_raw fs FeatureProcessor.init = (o1, Ok u1)
    /\ FeatureProcessor.pre_process o1 = (o2, Ok u2)
    /\ FeatureProcessor.feature_engineering o2 = (o, Ok u).
Proof.
  intros H. pose proof (main_root _ _ _ _ H) as Hr.
  rewrite (main_stages fs o0 Hr) in H.
  apply sbind_ok in H as (o1 & u1 & H1 & H).
  apply sbind_ok in H as (o2 & u2 & H2 & H). eauto 8.
Qed.


(* ===================================================================== *)
(** ** First rows, groups and sorted frames                              *)
(* ===================================================================== *)

Section FirstRows.

Lemma existsb_single x seen :
  existsb (tuple_eqb (single x)) (map single seen) = existsb (key_eqb x) seen.
Proof.
  induction seen as [|y l IH]; [reflexivity|].
  cbn [map existsb]. rewrite IH. unfold single at 1 2. simpl.
  rewrite andb_true_r. reflexivity.
Qed.

Lemma filter_filter_comm {A} (p q : A -> bool) l :
  filter p (filter q l) = filter q (filter p l).
Proof.
  induction l as [|x l IH]; simpl; [reflexivity|].
  destruct (p x) eqn:P, (q x) eqn:Q; simpl; rewrite ?P, ?Q, IH; reflexivity.
Qed.

Lemma filter_true {A} (p : A -> bool) l :
  (forall x, In x l -> p x = true) -> filter p l = l.
Proof.
  induction l as [|x l IH]; simpl; intros H; [reflexivity|].
  rewrite (H x) by auto. f_equal. apply IH. auto.
Qed.

(** [nub] commutes with a filter that does not tell equal keys apart. *)
Lemma nub_filter p l :
  (forall x y, key_eqb x y = true -> p x = p y) ->
  nub (filter p l) = filter p (nub l).
Proof.
  intros Hp. induction l as [|y l IH]; simpl; [reflexivity|].
  destruct (p y) eqn:E; simpl.
  - rewrite IH. f_equal. apply filter_filter_comm.
  - rewrite IH, filter_filter_comm. symmetry. apply filter_true.
    intros z Hz. apply filter_In in Hz as [_ Hz]. apply negb_true_iff.
    destruct (key_eqb y z) eqn:F; [|reflexivity].
    rewrite (Hp y z F) in E. congruence.
Qed.

Lemma unseen_respects seen x y : key_eqb x y = true -> unseen seen x = unseen seen y.
Proof.
  intros E. unfold unseen. f_equal. induction seen as [|z l IH]; simpl; [reflexivity|].
  rewrite (key_eqb_subst x y z E), IH. reflexivity.
Qed.

Lemma differs_respects x a b :
  key_eqb a b = true -> negb (key_eqb x a) = negb (key_eqb x b).
Proof.
  intros E. f_equal. rewrite (key_eqb_sym x a), (key_eqb_sym x b).
  apply key_eqb_subst, E.
Qed.

Lemma firsts_ge seen i l j : In j (firsts seen i l) -> (i <= j)%nat.
Proof.
  revert seen i. induction l as [|k l IH]; simpl; intros seen i H; [contradiction|].
  destruct (existsb _ seen).
  - apply IH in H. lia.
  - destruct H as [<-|H]; [lia|]. apply IH in H. lia.
Qed.

Lemma nth_S_tl (m : nat) (col : list value) :
  nth (S m) col VNull = nth m (tl col) VNull.
Proof. destruct col; [destruct m|]; reflexivity. Qed.

Lemma lookup_key_cons_other s x l col :
  key_eqb s x = false -> lookup_key s (x :: l) col = lookup_key s l (tl col).
Proof.
  intros E. unfold lookup_key. simpl. rewrite E.
  destruct (index_of (key_eqb s) l); simpl; [apply nth_S_tl | reflexivity].
Qed.

Lemma unseen_cons_eq x seen y :
  unseen (x :: seen) y = negb (key_eqb x y) && unseen seen y.
Proof. unfold unseen. simpl. rewrite (key_eqb_sym y x). apply negb_orb. Qed.

Lemma unseen_cons x seen l :
  filter (unseen (x :: seen)) l
  = filter (fun y => negb (key_eqb x y)) (filter (unseen seen) l).
Proof.
  induction l as [|y l IH]; simpl; [reflexivity|].
  rewrite unseen_cons_eq.
  destruct (unseen seen y); simpl; destruct (key_eqb x y); simpl; rewrite IH;
    reflexivity.
Qed.

(** The cells of a column [col] in the first rows of the keys [l]: for
    each distinct key, the cell of its first row. *)
Lemma take_firsts l : forall seen i col,
  map (fun j => nth (j - i) col VNull) (firsts (map single seen) i (map single l))
  = map (fun s => lookup_key s l col) (nub (filter (unseen seen) l)).
Proof.
  induction l as [|x l IH]; intros seen i col; [reflexivity|].
  cbn [map firsts filter]. rewrite existsb_single. unfold unseen at 1.
  destruct (existsb (key_eqb x) seen) eqn:E; cbn [negb].
  - transitivity (map (fun j => nth (j - S i) (tl col) VNull)
                       (firsts (map single seen) (S i) (map single l))).
    + apply map_ext_in. intros j Hj. apply firsts_ge in Hj.
      replace (j - i)%nat with (S (j - S i)) by lia. apply nth_S_tl.
    + rewrite IH. apply map_ext_in. intros s Hs.
      apply nub_In, filter_In in Hs as [_ Hs].
      symmetry. apply lookup_key_cons_other.
      destruct (key_eqb s x) eqn:F; [|reflexivity].
      rewrite (unseen_respects seen s x F) in Hs. unfold unseen in Hs.
      rewrite E in Hs. discriminate.
  - change (single x :: map single seen) with (map single (x :: seen)).
    cbn [map nub]. rewrite Nat.sub_diag. f_equal.
    + unfold lookup_key. simpl. rewrite key_eqb_refl. reflexivity.
    + transitivity (map (fun j => nth (j - S i) (tl col) VNull)
                       (firsts (map single (x :: seen)) (S i) (map single l))).
      * apply map_ext_in. intros j Hj. apply firsts_ge in Hj.
        replace (j - i)%nat with (S (j - S i)) by lia. apply nth_S_tl.
      * rewrite IH, unseen_cons, nub_filter by apply differs_respects.
        apply map_ext_in. intros s Hs.
        apply filter_In in Hs as [_ Hs]. apply negb_true_iff in Hs.
        symmetry. apply lookup_key_cons_other. rewrite key_eqb_sym. exact Hs.
Qed.

Lemma firsts_nub_col l col :
  take (firsts [] 0 (map single l)) col = map (fun s => lookup_key s l col) (nub l).
Proof.
  pose proof (take_firsts l [] 0%nat col) as H. simpl in H.
  rewrite (filter_true (unseen [])) in H by reflexivity.
  rewrite <- H. unfold take. apply map_ext. intros j. rewrite Nat.sub_0_r. reflexivity.
Qed.

Lemma lookup_key_self l s : In s (nub l) -> lookup_key s l l = s.
Proof.
  revert s. induction l as [|x l IH]; simpl; intros s H; [contradiction|].
  destruct H as [<-|H].
  - unfold lookup_key. simpl. rewrite key_eqb_refl. reflexivity.
  - apply filter_In in H as [H E]. apply negb_true_iff in E.
    rewrite lookup_key_cons_other by (rewrite key_eqb_sym; exact E).
    simpl. apply IH, H.
Qed.

Lemma firsts_nub l : take (firsts [] 0 (map single l)) l = nub l.
Proof.
  rewrite firsts_nub_col. rewrite <- (map_id (nub l)) at 2.
  apply map_ext_in. intros s Hs. apply lookup_key_self, Hs.
Qed.

Lemma row_keys_single n l : List.length l = n -> row_keys n [l] = map single l.
Proof.
  intros <-. unfold row_keys.
  rewrite <- (take_seq l (List.length l) eq_refl) at 2.
  unfold take. rewrite map_map. reflexivity.
Qed.

End FirstRows.

Section TrackCount.

Lemma select2 a b df s :
  select [a; b] df = Ok s ->
  exists va vb, getitem a df = Ok va /\ getitem b df = Ok vb
                /\ s = mkDF (nrows df) [(a, va); (b, vb)].
Proof.
  intros H. apply select_ok in H as (cs & H & ->). simpl in H.
  destruct (getitem a df) as [va|]; simpl in H; [|discriminate].
  destruct (getitem b df) as [vb|]; simpl in H; [|discriminate].
  injection H as <-. eauto.
Qed.

Lemma groupby_count_songs n songs artists :
  groupby_count "artist_name" (mkDF n [("song_id", songs); ("artist_name", artists)])
  = Ok (mkDF (List.length (group_keys artists))
          [("artist_name", group_keys artists);
           ("song_id", map (fun g => VInt (group_count artists songs g))
                           (group_keys artists))]).
Proof.
  unfold groupby_count, getitem. simpl.
  unfold remove, mem. simpl.
  rewrite (mapM_total _ (fun g => VInt (group_count artists songs g))) by reflexivity.
  reflexivity.
Qed.

Lemma drop_duplicates_songs n songs artists :
  drop_duplicates ["song_id"] (mkDF n [("song_id", songs); ("artist_name", artists)])
  = Ok (mkDF (List.length (firsts [] 0 (row_keys n [songs])))
          [("song_id", take (firsts [] 0 (row_keys n [songs])) songs);
           ("artist_name", take (firsts [] 0 (row_keys n [songs])) artists)]).
Proof. reflexivity. Qed.

Lemma sort_values_desc_counts n groups counts :
  sort_values_desc "track_count"
    (mkDF n [("artist_name", groups); ("track_count", counts)])
  = let order := map fst (sort_desc (combine (seq 0 (List.length counts))
                                             (map sort_key counts))) in
    Ok (mkDF (List.length order)
          [("artist_name", take order groups); ("track_count", take order counts)]).
Proof. reflexivity. Qed.

Lemma agg_mean_of cells v :
  agg_apply Mean cells = Ok v ->
  v = match mean_of cells with
      | Some q => VFloat (Qred q)
      | None => VNull
      end.
Proof.
  unfold agg_apply, mean_of. destruct (numbers (dropna cells)) as [[|q qs]|];
    intros [= <-]; reflexivity.
Qed.

(** The mean and the count of [target] by artist, as the aggregation
    returns them. *)
Lemma groupby_agg_target n artists target a2 :
  groupby_agg "artist_name" [Mean; Count]
    (mkDF n [("artist_name", artists); ("target", target)]) = Ok a2 ->
  exists means,
    Forall2 (fun g m => m = mean_cell (members g artists target))
            (group_keys artists) means
    /\ a2 = mkDF (List.length (group_keys artists))
              [("artist_name", group_keys artists);
               ("target_mean", means);
               ("target_count", map (fun g => VInt (group_count artists target g))
                                    (group_keys artists))].
Proof.
  unfold groupby_agg, getitem. simpl. unfold remove, mem. simpl.
  destruct (mapM _ (group_keys artists)) as [means|] eqn:Em; simpl; [|discriminate].
  rewrite (mapM_total _ (fun g => VInt (group_count artists target g)))
    by reflexivity.
  simpl. intros [= <-]. exists means. split; [|reflexivity].
  apply mapM_ok_Forall2 in Em.
  eapply Forall2_impl; [|exact Em]. intros g m Hm. apply agg_mean_of, Hm.
Qed.

Lemma group_count_respects keys vals x y :
  key_eqb x y = true -> group_count keys vals x = group_count keys vals y.
Proof.
  intros E. unfold group_count, members. do 4 f_equal.
  apply filter_ext. intros [k v]. simpl. apply key_eqb_subst, E.
Qed.

Lemma members_none g keys vals :
  (forall y, In y keys -> key_eqb g y = false) -> members g keys vals = [].
Proof.
  unfold members. revert vals.
  induction keys as [|k keys IH]; intros vals H; [reflexivity|].
  destruct vals as [|v vals]; [reflexivity|]. simpl.
  rewrite (H k) by (simpl; auto). apply IH. intros y Hy. apply H. simpl; auto.
Qed.

(** A key that is not null and has no group counts no row. *)
Lemma group_count_absent keys vals g :
  is_null g = false ->
  (forall z, In z (group_keys keys) -> key_eqb g z = false) ->
  group_count keys vals g = 0.
Proof.
  intros Hg H. unfold group_count. rewrite members_none; [reflexivity|].
  intros y Hy. destruct (is_null y) eqn:Ny.
  - destruct y; try discriminate. rewrite key_eqb_null. exact Hg.
  - assert (Hd : In y (dropna keys)).
    { apply filter_In. rewrite Ny. auto. }
    destruct (nub_covers y _ Hd) as (z & Hz & Ezy).
    rewrite key_eqb_sym in Ezy. rewrite key_eqb_sym.
    rewrite (key_eqb_subst y z g Ezy). rewrite key_eqb_sym. apply H, Hz.
Qed.

Lemma sort_order_perm (keys : list Z) :
  Permutation (map fst (sort_desc (combine (seq 0 (List.length keys)) keys)))
              (seq 0 (List.length keys)).
Proof.
  rewrite <- (map_fst_combine_seq keys 0) at 2.
  apply Permutation_map, sort_desc_perm.
Qed.

Lemma take_perm idx col :
  Permutation idx (seq 0 (List.length col)) -> Permutation (take idx col) col.
Proof.
  intros H. rewrite <- (take_seq col (List.length col) eq_refl) at 2.
  apply Permutation_map, H.
Qed.

(** What a merge reads in a frame of groups and their counts that has
    been sorted: the count of the key, whether or not it has a group. *)
Lemma sorted_counts_lookup groups (h : value -> Z) order g :
  Permutation order (seq 0 (List.length groups)) ->
  (forall x y, key_eqb x y = true -> h x = h y) ->
  ((forall z, In z groups -> key_eqb g z = false) -> h g = 0) ->
  fill (VInt 0)
       (lookup_key g (take order groups)
                   (take order (map (fun x => VInt (h x)) groups)))
  = VInt (h g).
Proof.
  intros Hp Hr Hz. unfold take. rewrite lookup_key_find.
  destruct (find _ order) as [i|] eqn:E.
  - apply find_some in E as [Hi E].
    apply (Permutation_in _ Hp), in_seq in Hi.
    rewrite (nth_indep _ VNull (VInt (h VNull))) by (rewrite length_map; lia).
    rewrite (map_nth (fun x => VInt (h x))). simpl.
    rewrite (Hr _ _ E). reflexivity.
  - simpl. rewrite Hz; [reflexivity|]. intros z Hin.
    destruct (In_nth _ _ VNull Hin) as (i & Hi & <-).
    apply (find_none _ _ E). apply (Permutation_in _ (Permutation_sym Hp)).
    apply in_seq. lia.
Qed.

Lemma merge_counts_columns l on c rk rv n out :
  merge l (mkDF n [(on, rk); (c, rv)]) on = Ok out ->
  c <> on -> has_column c l = false -> nrows l <> 0%nat ->
  columns out = (columns l ++ [c])%list.
Proof.
  intros H Hc Hl Hn. apply merge_rows in H as (lk & rk' & _ & _ & ->); [|exact Hn].
  assert (Hr : remove [on] [(on, rk); (c, rv)] = [(c, rv)]).
  { unfold remove, mem. simpl. rewrite String.eqb_refl. simpl.
    apply String.eqb_neq in Hc. rewrite Hc. reflexivity. }
  unfold columns at 1. cbn [cols]. rewrite Hr.
  rewrite map_app, !map_map. cbn [map fst snd].
  unfold has_column in Hl. rewrite Hl. f_equal.
  unfold columns. apply map_ext_in. intros [m v] Hin. cbn [fst].
  destruct (negb (String.eqb m on) && mem m [c]) eqn:F; [|reflexivity].
  apply andb_true_iff in F as [_ F]. apply mem_In in F. destruct F as [<-|[]].
  apply mem_false in Hl. exfalso. apply Hl. apply in_map_iff. exists (c, v). auto.
Qed.

(** The names of a left merge with a frame of the key and one more
    column, under a name the left frame does not have: those of the left
    frame and the new one, whatever the order. *)
Lemma merge_counts_names l on c rk rv n out c' :
  merge l (mkDF n [(on, rk); (c, rv)]) on = Ok out ->
  c <> on -> has_column c l = false ->
  has_column c' out = has_column c' l || String.eqb c' c.
Proof.
  intros H Hc Hl. apply merge_ok in H as (lk & rk' & Hlk & _ & _ & ->).
  pose proof (getitem_ok_has _ _ _ Hlk) as Hon.
  assert (Hr : remove [on] [(on, rk); (c, rv)] = [(c, rv)]).
  { unfold remove, mem. simpl. rewrite String.eqb_refl. simpl.
    apply String.eqb_neq in Hc. rewrite Hc. reflexivity. }
  assert (Hkeep : forall m v, In (m, v) (cols l) ->
            (if negb (String.eqb m on) && mem m (map fst [(c, rv)])
             then m ++ "_x" else m) = m).
  { intros m v Hin.
    destruct (negb (String.eqb m on) && mem m (map fst [(c, rv)])) eqn:F; [|reflexivity].
    apply andb_true_iff in F as [_ F]. apply mem_In in F. destruct F as [<-|[]].
    apply mem_false in Hl. exfalso. apply Hl. apply in_map_iff. exists (c, v). auto. }
  unfold has_column in Hl |- *. unfold columns at 1. cbn [cols]. rewrite Hr.
  apply String.eqb_neq in Hc.
  destruct (nrows l =? 0)%nat.
  - cbn [map fst snd]. rewrite String.eqb_refl, Hc. cbn [fst]. rewrite Hl.
    rewrite map_app, map_map. cbn [map fst].
    rewrite (map_ext_in _ fst).
    2:{ intros [m v] Hin. cbn [fst]. apply filter_In in Hin as [Hin _].
        apply (Hkeep m v Hin). }
    destruct (mem c' (columns l)) eqn:E; cbn [orb].
    + apply mem_In. rewrite in_app_iff. apply mem_In in E.
      destruct (String.eqb c' on) eqn:F.
      * apply String.eqb_eq in F. subst c'. right. simpl. auto.
      * left. apply in_map_iff in E as ([m v] & Em & Hin). cbn [fst] in Em. subst m.
        apply in_map_iff. exists (c', v). split; [reflexivity|].
        apply filter_In. split; [exact Hin|]. cbn [fst]. unfold mem. cbn [existsb].
        rewrite F. reflexivity.
    + destruct (String.eqb c' c) eqn:F.
      * apply String.eqb_eq in F. subst c'. apply mem_In, in_app_iff. right.
        simpl. auto.
      * apply mem_false. rewrite in_app_iff. intros [H|H].
        -- apply mem_false in E. apply E. apply in_map_iff in H as ([m v] & Em & Hin).
           apply filter_In in Hin as [Hin _]. apply in_map_iff. exists (m, v). auto.
        -- simpl in H. destruct H as [<-|[<-|[]]].
           ++ unfold has_column in Hon. congruence.
           ++ rewrite String.eqb_refl in F. discriminate.
  - rewrite map_app, !map_map. cbn [map fst snd]. rewrite Hl.
    rewrite (map_ext_in _ fst) by (intros [m v] Hin; cbn [fst]; apply (Hkeep m v Hin)).
    fold (columns l).
    destruct (mem c' (columns l)) eqn:E; cbn [orb].
    + apply mem_In, in_app_iff. left. apply mem_In, E.
    + destruct (String.eqb c' c) eqn:F.
      * apply String.eqb_eq in F. subst c'. apply mem_In, in_app_iff. right.
        simpl. auto.
      * apply mem_false. rewrite in_app_iff. intros [H|H].
        -- apply mem_In in H. congruence.
        -- simpl in H. destruct H as [<-|[]]. rewrite String.eqb_refl in F.
           discriminate.
Qed.

Lemma assign_last c v w l :
  lookup c l = None -> assign c v (l ++ [(c, w)]) = (l ++ [(c, v)])%list.
Proof.
  induction l as [|[n x] l IH]; simpl.
  - rewrite String.eqb_refl. reflexivity.
  - destruct (String.eqb c n); [discriminate|]. intros H. f_equal. auto.
Qed.

Lemma uniform_frame_app df c v :
  uniform df -> List.length v = nrows df ->
  uniform (mkDF (nrows df) (cols df ++ [(c, v)])).
Proof.
  intros Hu Hv. unfold uniform in *. cbn [nrows cols]. apply Forall_app. split.
  - exact Hu.
  - constructor; [exact Hv | constructor].
Qed.

Lemma alike_refl a : alike a a.
Proof. split; reflexivity. Qed.

Lemma alike_trans a b c : alike a b -> alike b c -> alike a c.
Proof. intros [H1 H2] [H3 H4]. split; [congruence|]. intros x. rewrite H2. apply H4. Qed.

Lemma alike_getitem a b c : alike a b -> getitem c a = getitem c b.
Proof. intros [_ H]. unfold getitem. rewrite H. reflexivity. Qed.

Lemma alike_has_column a b c : alike a b -> has_column c a = has_column c b.
Proof.
  intros [_ H]. destruct (has_column c b) eqn:E.
  - destruct (has_column c a) eqn:F; [reflexivity|].
    apply lookup_has_column in F. rewrite H in F. apply lookup_has_column in F.
    congruence.
  - apply lookup_has_column. rewrite H. apply lookup_has_column, E.
Qed.

Lemma lookup_assign c c' v l :
  lookup c (assign c' v l) = if String.eqb c c' then Some v else lookup c l.
Proof.
  destruct (String.eqb c c') eqn:E.
  - apply String.eqb_eq in E. subst. apply lookup_assign_same.
  - apply String.eqb_neq in E. apply lookup_assign_other, E.
Qed.

Lemma alike_setitem a b c v : alike a b -> alike (setitem c v a) (setitem c v b).
Proof.
  intros [H1 H2]. split; [exact H1|]. intros x. unfold setitem. cbn [cols].
  rewrite !lookup_assign, H2. reflexivity.
Qed.

Lemma alike_app a b l :
  alike a b -> alike (mkDF (nrows a) (cols a ++ l)) (mkDF (nrows b) (cols b ++ l)).
Proof.
  intros [H1 H2]. split; [exact H1|]. intros x. cbn [cols].
  rewrite !lookup_app, H2. reflexivity.
Qed.

(** Two uniform frames without rows and with the same names. *)
Lemma alike_zero a b :
  uniform a -> uniform b -> nrows a = 0%nat -> nrows b = 0%nat ->
  (forall c, has_column c a = has_column c b) -> alike a b.
Proof.
  intros Ha Hb Na Nb H. split; [congruence|]. intros c.
  pose proof (H c) as Hc.
  destruct (lookup c (cols a)) as [v|] eqn:E, (lookup c (cols b)) as [w|] eqn:F.
  - apply (uniform_lookup _ _ _ Ha) in E. apply (uniform_lookup _ _ _ Hb) in F.
    rewrite Na in E. rewrite Nb in F.
    destruct v, w; try discriminate. reflexivity.
  - apply lookup_has_column in F. rewrite F in Hc.
    apply lookup_has_column in Hc. congruence.
  - apply lookup_has_column in E. rewrite E in Hc. symmetry in Hc.
    apply lookup_has_column in Hc. congruence.
  - reflexivity.
Qed.

Lemma has_column_app c n l l' :
  has_column c (mkDF n (l ++ l')) = mem c (map fst l) || mem c (map fst l').
Proof.
  unfold has_column, columns. cbn [cols]. rewrite map_app. unfold mem.
  apply existsb_app.
Qed.

(** A left merge of a uniform frame with a frame of distinct keys and one
    more column, under a name the left frame does not have: the left frame
    as it is, and the new column; the new column is last unless the frame
    has no row. *)
Lemma merge_counts_frame l on c rk rv n out :
  merge l (mkDF n [(on, rk); (c, rv)]) on = Ok out ->
  c <> on -> distinct rk = true -> uniform l -> has_column c l = false ->
  exists lk,
    getitem on l = Ok lk
    /\ alike out (mkDF (nrows l) (cols l ++ [(c, map (fun k => lookup_key k rk rv) lk)]))
    /\ (nrows l <> 0%nat ->
        out = mkDF (nrows l) (cols l ++ [(c, map (fun k => lookup_key k rk rv) lk)])).
Proof.
  intros H Hc Hd Hu Hl.
  pose proof (fun c' => merge_counts_names _ _ _ _ _ _ _ c' H Hc Hl) as Hnames.
  pose proof (uniform_merge _ _ _ _ H) as Huo.
  pose proof H as H0.
  apply merge_ok in H0 as (lk & rk' & Hlk & Hrk & _ & Eo).
  unfold getitem in Hrk. simpl in Hrk. rewrite String.eqb_refl in Hrk.
  injection Hrk as <-.
  exists lk. split; [exact Hlk|].
  pose proof (uniform_getitem _ _ _ Hu Hlk) as Hn.
  assert (Hrows : nrows l <> 0%nat ->
            out = mkDF (nrows l)
                    (cols l ++ [(c, map (fun k => lookup_key k rk rv) lk)])).
  { intros Hz. apply Nat.eqb_neq in Hz. rewrite Hz in Eo. subst out.
    assert (Hr : remove [on] [(on, rk); (c, rv)] = [(c, rv)]).
    { unfold remove, mem. simpl. rewrite String.eqb_refl. simpl.
      apply String.eqb_neq in Hc. rewrite Hc. reflexivity. }
    cbn [cols]. rewrite Hr. cbn [map fst snd].
    rewrite indexer_distinct_length, indexer_distinct_fst, indexer_distinct_snd
      by exact Hd.
    rewrite take_opt_lookup. unfold has_column in Hl. rewrite Hl, Hn. f_equal. f_equal.
    rewrite <- (map_id (cols l)) at 2. apply map_ext_in. intros [m v] Hin.
    cbn [fst snd]. f_equal.
    - destruct (negb (String.eqb m on) && mem m [c]) eqn:F; [|reflexivity].
      apply andb_true_iff in F as [_ F]. apply mem_In in F. destruct F as [<-|[]].
      apply mem_false in Hl. exfalso. apply Hl. apply in_map_iff. exists (c, v). auto.
    - apply take_seq. unfold uniform in Hu. rewrite Forall_forall in Hu.
      apply (Hu _ Hin). }
  split; [|exact Hrows].
  destruct (Nat.eq_dec (nrows l) 0) as [Hz|Hz].
  - apply alike_zero.
    + exact Huo.
    + apply uniform_frame_app; [exact Hu|]. rewrite length_map. exact Hn.
    + rewrite Eo. cbn [nrows]. rewrite indexer_distinct_length by exact Hd.
      congruence.
    + exact Hz.
    + intros c'. rewrite Hnames, has_column_app. cbn [map fst].
      unfold has_column, columns. f_equal. unfold mem. cbn [existsb].
      symmetry. apply orb_false_r.
  - rewrite (Hrows Hz). apply alike_refl.
Qed.

(** The same followed by the fill of the new column. *)
Lemma merge_fill_frame l on c rk rv n m v0 out :
  merge l (mkDF n [(on, rk); (c, rv)]) on = Ok m ->
  fillna c v0 m = Ok out ->
  plain c = true -> c <> on -> distinct rk = true -> uniform l ->
  has_column c l = false
  /\ exists lk,
       getitem on l = Ok lk
       /\ alike out
            (mkDF (nrows l)
               (cols l ++ [(c, map (fun k => fill v0 (lookup_key k rk rv)) lk)]))
       /\ (nrows l <> 0%nat ->
           out = mkDF (nrows l)
                   (cols l ++ [(c, map (fun k => fill v0 (lookup_key k rk rv)) lk)])).
Proof.
  intros Hm Hf Hp Hc Hd Hu.
  assert (Hl : has_column c l = false).
  { pose proof Hm as Hm'.
    apply merge_counts in Hm' as (lk & _ & _ & Hlook); try assumption.
    apply fillna_ok in Hf as (col & Hcol & _). unfold getitem in Hcol.
    rewrite Hlook in Hcol. destruct (has_column c l); [discriminate|reflexivity]. }
  split; [exact Hl|].
  apply merge_counts_frame in Hm as (lk & Hlk & Ha & Hrows); try assumption.
  exists lk. split; [exact Hlk|].
  apply fillna_ok in Hf as (col & Hcol & ->).
  rewrite (alike_getitem _ _ _ Ha) in Hcol.
  apply lookup_has_column in Hl.
  unfold getitem in Hcol. cbn [cols] in Hcol. rewrite lookup_app, Hl in Hcol.
  simpl in Hcol. rewrite String.eqb_refl in Hcol. injection Hcol as <-.
  assert (E : setitem c (map (fill v0) (map (fun k => lookup_key k rk rv) lk))
                (mkDF (nrows l) (cols l ++ [(c, map (fun k => lookup_key k rk rv) lk)]))
              = mkDF (nrows l)
                  (cols l ++ [(c, map (fun k => fill v0 (lookup_key k rk rv)) lk)])).
  { unfold setitem. cbn [nrows cols]. rewrite assign_last by exact Hl.
    rewrite map_map. reflexivity. }
  split.
  - rewrite <- E. apply alike_setitem, Ha.
  - intros Hz. rewrite (Hrows Hz). exact E.
Qed.

Lemma group_keys_not_null keys g : In g (group_keys keys) -> is_null g = false.
Proof.
  intros H. apply nub_In, filter_In in H as [_ H]. apply negb_true_iff in H. exact H.
Qed.

(** What the merge onto the target reads in the frame of its own groups:
    for a null key nothing, for any other key the cell of its group. *)
Lemma target_lookup keys (h' : value -> value) (c : value -> Z) k :
  In k keys ->
  (forall g, is_null g = false -> fill (VInt 0) (h' g) = VInt (c g)) ->
  (forall x y, key_eqb x y = true -> c x = c y) ->
  fill (VInt 0) (lookup_key k (group_keys keys) (map h' (group_keys keys)))
  = VInt (if is_null k then 0 else c k).
Proof.
  intros Hk Hh Hc.
  pose proof (lookup_key_find k (group_keys keys) (fun x => x) h') as E.
  rewrite map_id in E. rewrite E. clear E.
  destruct (find _ _) as [g|] eqn:F.
  - apply find_some in F as [Hg F].
    apply group_keys_not_null in Hg.
    rewrite (key_eqb_is_null _ _ F), Hg, (Hh g Hg), (Hc _ _ F). reflexivity.
  - destruct (is_null k) eqn:Nk; [reflexivity|]. exfalso.
    assert (Hd : In k (dropna keys)) by (apply filter_In; rewrite Nk; auto).
    destruct (nub_covers k _ Hd) as (z & Hz & Ezk).
    pose proof (find_none _ _ F z Hz) as G. simpl in G.
    rewrite key_eqb_sym in G. congruence.
Qed.

Lemma generate_track_count_ok ref_df d1 out :
  EngineeringProcessor.generate_track_count ref_df d1 = Ok out ->
  exists songs artists keys target means,
    getitem "song_id" ref_df = Ok songs
    /\ getitem "artist_name" ref_df = Ok artists
    /\ getitem "artist_name" d1 = Ok keys
    /\ (getitem "target" d1 = Ok target
        /\ groupby_agg "artist_name" [Mean; Count]
             (mkDF (nrows d1) [("artist_name", keys); ("target", target)])
           = Ok (mkDF (List.length (group_keys keys))
                   [("artist_name", group_keys keys);
                    ("target_mean", means);
                    ("target_count",
                     map (fun g => VInt (group_count keys target g))
                         (group_keys keys))])
        /\ Forall2 (fun g m => m = mean_cell (members g keys target))
                   (group_keys keys) means)
    /\ (has_column "track_count" d1 = false
        /\ uniform out
        /\ (uniform d1 ->
            exists col,
              List.length col = nrows d1
              /\ appended d1 [("track_count", col)] out))
    /\ nrows out = List.length keys
    /\ ((forall c, has_column c out = has_column c d1 || String.eqb c "track_count")
        /\ (nrows d1 <> 0%nat -> columns out = (columns d1 ++ ["track_count"])%list))
    /\ getitem "track_count" out
       = Ok (map (fun k =>
                    VInt (if is_null k then 0
                          else group_count
                                 (take (firsts [] 0 (row_keys (nrows ref_df) [songs])) artists)
                                 (take (firsts [] 0 (row_keys (nrows ref_df) [songs])) songs)
                                 k)) keys)
    /\ getitem "artist_name" out = Ok keys.
Proof.
  unfold EngineeringProcessor.generate_track_count. intros H. invert_ok.
  (* the reference side *)
  match goal with
  | E : select ["song_id"; "artist_name"] ref_df = Ok _ |- _ =>
      apply select2 in E as (songs & artists & Hs & Ha & ->)
  end.
  match goal with
  | E : drop_duplicates _ _ = Ok _ |- _ =>
      rewrite drop_duplicates_songs in E; injection E as <-
  end.
  match goal with
  | E : groupby_count _ _ = Ok _ |- _ =>
      rewrite groupby_count_songs in E; injection E as <-
  end.
  set (F := firsts [] 0 (row_keys (nrows ref_df) [songs])) in *.
  set (groups := group_keys (take F artists)) in *.
  set (cnt := group_count (take F artists) (take F songs)) in *.
  match goal with
  | E : set_columns ["artist_name"; "track_count"] _ = Ok _ |- _ =>
      unfold set_columns in E; simpl in E; injection E as <-
  end.
  match goal with
  | E : sort_values_desc _ _ = Ok _ |- _ =>
      rewrite sort_values_desc_counts in E; cbv zeta in E; injection E as <-
  end.
  set (order := map fst (sort_desc _)) in *.
  (* the target side *)
  match goal with
  | E : select ["artist_name"; "target"] d1 = Ok _ |- _ =>
      apply select2 in E as (keys & target & Hk & Ht & ->)
  end.
  match goal with
  | E : groupby_agg _ _ _ = Ok _ |- _ =>
      pose proof E as Hagg; apply groupby_agg_target in E as (means & Hmeans & ->)
  end.
  match goal with
  | E : set_columns ["artist_name"; "replay_pb"; "play_count"] _ = Ok _ |- _ =>
      unfold set_columns in E; simpl in E; injection E as <-
  end.
  assert (Hp : Permutation order (seq 0 (List.length groups))).
  { subst order.
    pose proof (sort_order_perm (map sort_key (map (fun g => VInt (cnt g)) groups))) as P.
    rewrite !length_map in P. rewrite length_map. exact P. }
  assert (Hd : distinct (take order groups) = true).
  { rewrite (distinct_perm _ groups) by (apply take_perm, Hp). apply nub_distinct. }
  assert (Hg : distinct (group_keys keys) = true) by apply nub_distinct.
  (* the groups of the target meet the counts of the reference *)
  match goal with
  | E : merge _ _ "artist_name" = Ok a7 |- _ =>
      pose proof (merge_lookup _ _ _ _ "artist_name" E eq_refl)
        as (lk & rk & Hlk & Hrk & _ & Hon);
      apply merge_counts in E as (lk' & Hlk' & _ & Htc);
        [| reflexivity | discriminate | exact Hd]
  end.
  unfold getitem in Hlk, Hlk', Hrk. simpl in Hlk, Hlk', Hrk.
  injection Hlk as <-. injection Hlk' as <-. injection Hrk as <-.
  simpl in Hon, Htc.
  rewrite indexer_distinct_fst, take_seq in Hon by (exact Hd || reflexivity).
  match goal with
  | E : select ["artist_name"; "track_count"] a7 = Ok _ |- _ =>
      apply select2 in E as (v1 & v2 & Hv1 & Hv2 & ->)
  end.
  unfold getitem in Hv1, Hv2. rewrite Hon in Hv1. rewrite Htc in Hv2.
  injection Hv1 as <-. injection Hv2 as <-.
  (* the counts meet the target *)
  match goal with
  | E : merge d1 _ "artist_name" = Ok a9 |- _ =>
      pose proof (fun Hu => merge_fill_frame _ _ _ _ _ _ _ _ _ E H eq_refl
                              ltac:(discriminate) Hg Hu) as Hframe;
      pose proof (uniform_fillna _ _ _ _ (uniform_merge _ _ _ _ E) H) as Huo;
      pose proof (merge_counts_columns _ _ _ _ _ _ _ E) as Hcols;
      pose proof (fun c => merge_counts_names _ _ _ _ _ _ _ c E) as Hnames;
      pose proof (merge_lookup _ _ _ _ "artist_name" E eq_refl)
        as (lk1 & rk1 & Hlk1 & Hrk1 & _ & Hkey);
      apply merge_counts in E as (keys' & Hk' & Hn & Hlook);
        [| reflexivity | discriminate | exact Hg]
  end.
  rewrite Hk in Hk'. injection Hk' as <-.
  rewrite Hk in Hlk1. injection Hlk1 as <-.
  unfold getitem in Hrk1. cbn in Hrk1. injection Hrk1 as <-.
  cbn [String.eqb Ascii.eqb Bool.eqb] in Hkey.
  rewrite indexer_distinct_fst, take_seq in Hkey by (exact Hg || reflexivity).
  apply fillna_ok in H as (col & Hcol & ->).
  unfold getitem in Hcol. rewrite Hlook in Hcol.
  destruct (has_column "track_count" d1) eqn:Hhas; [discriminate|].
  injection Hcol as <-.
  exists songs, artists, keys, target, means.
  split; [exact Hs|]. split; [exact Ha|]. split; [exact Hk|].
  split; [split; [exact Ht | split; [exact Hagg | exact Hmeans]]|].
  split.
  { split; [reflexivity|]. split; [exact Huo|]. intros Hu.
    destruct (Hframe Hu) as (_ & lk & Hlk & Hal & Hrows).
    rewrite Hk in Hlk. injection Hlk as <-.
    eexists. split; [|split; [exact Hal | exact Hrows]].
    rewrite length_map. eapply uniform_getitem; eauto. }
  split; [exact Hn|]. split; [split|split].
  - intros c. rewrite has_column_setitem, (Hnames c) by (discriminate || reflexivity).
    destruct (String.eqb c "track_count"), (has_column c d1); reflexivity.
  - intros Hrows. unfold columns, setitem. simpl. rewrite columns_assign.
    fold (columns a9). rewrite Hcols by (discriminate || reflexivity || exact Hrows).
    replace (mem "track_count" (columns d1 ++ ["track_count"])) with true.
    + reflexivity.
    + symmetry. apply mem_In, in_app_iff. right. simpl. auto.
  - rewrite getitem_setitem_same. f_equal. rewrite map_map.
    apply map_ext_in. intros k Hin.
    apply (target_lookup keys
             (fun g => lookup_key g (take order groups)
                         (take order (map (fun x => VInt (cnt x)) groups))) cnt);
      [exact Hin | | apply group_count_respects].
    intros g Ng. apply sorted_counts_lookup;
      [exact Hp | apply group_count_respects | apply group_count_absent, Ng].
  - rewrite getitem_setitem_other by discriminate. unfold getitem. rewrite Hkey.
    reflexivity.
Qed.

End TrackCount.

(* ===================================================================== *)
(** ** Track count                                                       *)
(* ===================================================================== *)

Section Attribution.

Lemma py_eqb_null x : py_eqb x VNull = false.
Proof. unfold py_eqb. rewrite key_eqb_null. destruct (is_null x); reflexivity. Qed.

Lemma py_eqb_key x a : is_null a = false -> py_eqb x a = key_eqb a x.
Proof.
  intros Ha. unfold py_eqb. rewrite (key_eqb_sym x a).
  destruct (key_eqb a x) eqn:E; [|apply andb_false_r].
  rewrite <- (key_eqb_is_null _ _ E), Ha. reflexivity.
Qed.

Lemma members_of_map (f : value -> value) l g :
  members g (map f l) l = filter (fun s => key_eqb g (f s)) l.
Proof.
  unfold members. induction l as [|s l IH]; simpl; [reflexivity|].
  destruct (key_eqb g (f s)); simpl; rewrite IH; reflexivity.
Qed.

Lemma dropna_nub l : nub (dropna l) = dropna (nub l).
Proof.
  unfold dropna. apply nub_filter. intros x y E. f_equal.
  apply key_eqb_is_null, E.
Qed.

Lemma group_count_attributed a songs artists :
  is_null a = false ->
  group_count (map (first_artist songs artists) (nub songs)) (nub songs) a
  = attributed_songs a songs artists.
Proof.
  intros Ha. unfold group_count, attributed_songs. do 2 f_equal.
  rewrite members_of_map, dropna_nub. unfold dropna.
  rewrite filter_filter_comm. apply filter_ext. intros s.
  symmetry. apply py_eqb_key, Ha.
Qed.

Lemma attributed_songs_null songs artists : attributed_songs VNull songs artists = 0.
Proof.
  unfold attributed_songs. rewrite (filter_ext _ (fun _ => false)).
  - induction (nub (dropna songs)); simpl; auto.
  - intros s. apply py_eqb_null.
Qed.

Lemma first_artist_in songs artists s :
  first_artist songs artists s = VNull \/ In (first_artist songs artists s) artists.
Proof.
  unfold first_artist, lookup_key. destruct (index_of _ songs) as [j|]; [|auto].
  destruct (nth_in_or_default j artists VNull); auto.
Qed.

(** An artist the reference does not have is attributed no song. *)
Lemma attributed_songs_absent a songs artists :
  (forall y, In y artists -> py_eqb y a = false) ->
  attributed_songs a songs artists = 0.
Proof.
  intros H. unfold attributed_songs. rewrite (filter_ext_in _ (fun _ => false)).
  - induction (nub (dropna songs)); simpl; auto.
  - intros s _. destruct (first_artist_in songs artists s) as [-> | Hin];
      [reflexivity | apply H, Hin].
Qed.

Lemma index_of_respects x y l :
  key_eqb x y = true -> index_of (key_eqb x) l = index_of (key_eqb y) l.
Proof.
  intros E. induction l as [|z l IH]; simpl; [reflexivity|].
  rewrite (key_eqb_subst x y z E), IH. reflexivity.
Qed.

Lemma first_artist_respects songs artists x y :
  key_eqb x y = true -> first_artist songs artists x = first_artist songs artists y.
Proof.
  intros E. unfold first_artist, lookup_key. rewrite (index_of_respects x y _ E).
  reflexivity.
Qed.

(** When every row of a song carries the artist of the song's first row,
    the songs attributed to an artist are the distinct song ids of the
    rows of that artist. *)
Lemma attributed_songs_functional a songs artists :
  List.length songs = List.length artists ->
  (forall s b, In (s, b) (combine songs artists) ->
               py_eqb b a = py_eqb (first_artist songs artists s) a) ->
  attributed_songs a songs artists
  = Z.of_nat (List.length
                (nub (dropna (map fst (filter (fun sb => py_eqb (snd sb) a)
                                              (combine songs artists)))))).
Proof.
  intros Hlen H. unfold attributed_songs. do 2 f_equal.
  assert (E : map fst (filter (fun sb => py_eqb (snd sb) a) (combine songs artists))
              = filter (fun s => py_eqb (first_artist songs artists s) a) songs).
  { set (f := first_artist songs artists) in *. clearbody f.
    revert artists Hlen H. induction songs as [|s l IH]; intros [|b bs] Hlen H;
      simpl in *; try discriminate; [reflexivity|].
    rewrite (H s b) by auto.
    destruct (py_eqb (f s) a); simpl; f_equal; apply IH; auto. }
  rewrite E. unfold dropna. rewrite filter_filter_comm.
  symmetry. apply nub_filter. intros x y Exy. unfold py_eqb.
  rewrite (first_artist_respects _ _ x y Exy). reflexivity.
Qed.

End Attribution.

(** C8: after the track-count step the target has one row per row it
    had, with the artist it had, and one more column, [track_count]; the
    cell of a row is the number of distinct song ids of the reference
    attributed to the row's artist, 0 for an artist the reference does not
    have.  On its way the step selects the artist and [target] columns of
    the target and computes, for each artist, the mean and the count of
    [target] over the artist's rows.  Nothing of them is in the result: its
    names are those of the target and [track_count] (last, when the target
    has a row), the target had no column of that name, and under every
    other name the column is that of the target. *)
Theorem track_count_is_attributed_songs (ref_df df out : DataFrame) :
  uniform ref_df ->
  EngineeringProcessor.generate_track_count ref_df df = Ok out ->
  exists songs artists keys target means,
    getitem "song_id" ref_df = Ok songs
    /\ getitem "artist_name" ref_df = Ok artists
    /\ getitem "artist_name" df = Ok keys
    /\ getitem "target" df = Ok target
    (* the rows and the new column *)
    /\ nrows out = List.length keys
    /\ getitem "artist_name" out = Ok keys
    /\ getitem "track_count" out
       = Ok (map (fun a => VInt (attributed_songs a songs artists)) keys)
    /\ (forall a, (forall y, In y artists -> py_eqb y a = false) ->
                  attributed_songs a songs artists = 0)
    (* the mean and the count of [target] by artist, as computed *)
    /\ select ["artist_name"; "target"] df
       = Ok (mkDF (nrows df) [("artist_name", keys); ("target", target)])
    /\ groupby_agg "artist_name" [Mean; Count]
         (mkDF (nrows df) [("artist_name", keys); ("target", target)])
       = Ok (mkDF (List.length (group_keys keys))
               [("artist_name", group_keys keys);
                ("target_mean", means);
                ("target_count",
                 map (fun g => VInt (group_count keys target g)) (group_keys keys))])
    /\ Forall2 (fun g m => m = mean_cell (members g keys target))
               (group_keys keys) means
    (* none of which is in the result *)
    /\ has_column "track_count" df = false
    /\ (forall c, has_column c out = has_column c df || String.eqb c "track_count")
    /\ (nrows df <> 0%nat -> columns out = (columns df ++ ["track_count"])%list)
    /\ (uniform df ->
        forall c, c <> "track_count" -> getitem c out = getitem c df).
Proof.
  intros Hu H.
  apply generate_track_count_ok in H
    as (songs & artists & keys & target & means & Hs & Ha & Hk & (Hg & Hagg & Hm)
        & (Hno & _ & Hframe) & Hn & (Hnames & Hcols) & Ht & Hkeys).
  exists songs, artists, keys, target, means.
  split; [exact Hs|]. split; [exact Ha|]. split; [exact Hk|]. split; [exact Hg|].
  split; [exact Hn|]. split; [exact Hkeys|]. split.
  { rewrite Ht. f_equal. apply map_ext. intros k.
    rewrite row_keys_single by (eapply uniform_getitem; eauto).
    rewrite firsts_nub, firsts_nub_col.
    destruct (is_null k) eqn:Nk.
    - destruct k; try discriminate. rewrite attributed_songs_null. reflexivity.
    - rewrite <- group_count_attributed by exact Nk. reflexivity. }
  split; [intros a; apply attributed_songs_absent|].
  split; [unfold select; simpl; rewrite Hk, Hg; reflexivity|].
  split; [exact Hagg|]. split; [exact Hm|]. split; [exact Hno|].
  split; [exact Hnames|]. split; [exact Hcols|].
  intros Hud c Hc. destruct (Hframe Hud) as (col & _ & Hal & _).
  rewrite (alike_getitem _ _ c Hal). unfold getitem. cbn [cols].
  rewrite lookup_app. destruct (lookup c (cols df)); [reflexivity|].
  simpl. apply String.eqb_neq in Hc. rewrite Hc. reflexivity.
Qed.

Lemma track_count_is_attributed_songs_witness :
  exists out,
    EngineeringProcessor.generate_track_count track_reference track_target = Ok out
    /\ has_column "replay_pb" out = false
    /\ getitem "artist_name" out = Ok [VStr "X"; VStr "Y"; VStr "W"]
    /\ getitem "track_count" out = Ok [VInt 1; VInt 1; VInt 0].
Proof.
  destruct (EngineeringProcessor.generate_track_count track_reference track_target)
    as [out|e] eqn:E; [|vm_compute in E; discriminate].
  exists out. split; [reflexivity|].
  destruct (track_count_is_attributed_songs track_reference track_target out)
    as (songs & artists & keys & target & means & Hs & Ha & Hk & _ & _ & Hkeys
        & Ht & _ & _ & _ & _ & _ & Hnames & _).
  - repeat constructor.
  - exact E.
  - vm_compute in Hs, Ha, Hk. injection Hs as <-. injection Ha as <-.
    injection Hk as <-. split; [rewrite Hnames; reflexivity|].
    split; [exact Hkeys | exact Ht].
Defined.

(* ===================================================================== *)
(** ** Row counts under the merges                                       *)
(* ===================================================================== *)

Section RowCounts.

Lemma generate_cover_lang_rows ref_df df out :
  EngineeringProcessor.generate_cover_lang ref_df df = Ok out ->
  exists keys, getitem "artist_name" df = Ok keys /\ nrows out = List.length keys.
Proof.
  unfold EngineeringProcessor.generate_cover_lang. intros H. invert_ok.
  match goal with
  | E : set_columns _ _ = Ok _ |- _ =>
      unfold set_columns, value_counts_frame in E; simpl in E; injection E as <-
  end.
  match goal with
  | E : merge df _ _ = Ok _ |- _ =>
      apply merge_counts in E as (keys & Hk & Hn & _);
        [| reflexivity | discriminate | apply value_counts_keys_distinct]
  end.
  exists keys. split; [exact Hk|]. rewrite (nrows_fillna _ _ _ _ H). exact Hn.
Qed.

(** A left merge against distinct keys keeps the rows of the left frame. *)
Lemma merge_distinct_rows l r on out rk :
  merge l r on = Ok out -> getitem on r = Ok rk ->
  uniform l -> distinct rk = true -> nrows out = nrows l.
Proof.
  intros H Hr Hu Hd. apply merge_ok in H as (lk & rk' & Hl & Hr' & _ & ->).
  rewrite Hr in Hr'. injection Hr' as <-. simpl.
  rewrite indexer_distinct_length by exact Hd. eapply uniform_getitem; eauto.
Qed.

End RowCounts.

(* ===================================================================== *)
(** ** The event processor applied twice                                 *)
(* ===================================================================== *)

Section EventTwice.

Lemma remove_assign labels c v l :
  mem c labels = false ->
  remove labels (assign c v l) = assign c v (remove labels l).
Proof.
  intros Hc. unfold remove. induction l as [|[n w] l IH]; simpl.
  - rewrite Hc. reflexivity.
  - destruct (String.eqb c n) eqn:E; simpl.
    + apply String.eqb_eq in E. subst n. rewrite Hc. simpl.
      rewrite String.eqb_refl. reflexivity.
    + destruct (mem n labels); simpl; rewrite ?E, IH; reflexivity.
Qed.

Lemma remove_app labels l1 l2 :
  remove labels (l1 ++ l2) = (remove labels l1 ++ remove labels l2)%list.
Proof. apply filter_app. Qed.

Lemma remove_absent labels l :
  (forall c, In c labels -> lookup c l = None) -> remove labels l = l.
Proof.
  intros H. unfold remove. apply filter_true. intros [n v] Hin. simpl.
  apply negb_true_iff, mem_false. intros Hn.
  apply H in Hn. apply lookup_None in Hn. apply Hn.
  apply in_map_iff. exists (n, v). auto.
Qed.

Lemma lookup_remove_In c labels l :
  In c labels -> lookup c (remove labels l) = None.
Proof.
  intros H. rewrite lookup_remove. apply mem_In in H. rewrite H. reflexivity.
Qed.

Lemma assign_absent c v l : lookup c l = None -> assign c v l = (l ++ [(c, v)])%list.
Proof.
  induction l as [|[n w] l IH]; simpl; [reflexivity|].
  destruct (String.eqb c n); [discriminate|]. intros H. f_equal. auto.
Qed.

Lemma groupby_agg_source n keys target a2 :
  groupby_agg "source_merged" [Mean; Count]
    (mkDF n [("source_merged", keys); ("target", target)]) = Ok a2 ->
  exists means counts,
    group_means keys target = Ok means
    /\ a2 = mkDF (List.length (group_keys keys))
              [("source_merged", group_keys keys);
               ("target_mean", means); ("target_count", counts)].
Proof.
  unfold groupby_agg, getitem, group_means. simpl. unfold remove, mem. simpl.
  destruct (mapM _ (group_keys keys)) as [means|]; simpl; [|discriminate].
  destruct (mapM _ (group_keys keys)) as [counts|]; simpl; [|discriminate].
  intros [= <-]. eauto.
Qed.

(** The left columns of a merge as they come out: in their place when
    the frame has rows, the key moved behind the others when it has none. *)
Lemma lookup_key_last c on lk l :
  lookup on l = Some lk -> lookup c (remove [on] l ++ [(on, lk)]) = lookup c l.
Proof.
  intros H. rewrite lookup_app, lookup_remove. unfold mem. cbn [existsb].
  rewrite orb_false_r. destruct (String.eqb c on) eqn:E.
  - apply String.eqb_eq in E. subst c. simpl. rewrite String.eqb_refl.
    symmetry. exact H.
  - destruct (lookup c l); [reflexivity|]. simpl. rewrite E. reflexivity.
Qed.

Lemma remove_key_last labels on lk l :
  In on labels -> remove labels (remove [on] l ++ [(on, lk)]) = remove labels l.
Proof.
  intros H. apply mem_In in H. rewrite remove_app.
  replace (remove labels [(on, lk)]) with (@nil (string * list value))
    by (unfold remove; simpl; rewrite H; reflexivity).
  rewrite app_nil_r. unfold remove.
  induction l as [|[n v] l IH]; simpl; [reflexivity|].
  unfold mem at 2. cbn [existsb]. rewrite orb_false_r.
  destruct (String.eqb n on) eqn:E; simpl.
  - apply String.eqb_eq in E. subst n. rewrite H. simpl. exact IH.
  - rewrite IH. reflexivity.
Qed.

(** A left merge of a uniform frame on a frame of distinct keys and two
    more columns, neither of which the left frame has. *)
Lemma merge_two_columns l on c1 c2 rk r1 r2 n lk m :
  merge l (mkDF n [(on, rk); (c1, r1); (c2, r2)]) on = Ok m ->
  getitem on l = Ok lk -> uniform l -> distinct rk = true ->
  c1 <> on -> c2 <> on -> lookup c1 (cols l) = None -> lookup c2 (cols l) = None ->
  m = mkDF (nrows l)
        ((if (nrows l =? 0)%nat then remove [on] (cols l) ++ [(on, lk)] else cols l)
         ++ [(c1, map (fun k => lookup_key k rk r1) lk);
             (c2, map (fun k => lookup_key k rk r2) lk)]).
Proof.
  intros H Hl Hu Hd H1 H2 L1 L2.
  apply merge_ok in H as (lk' & rk' & Hl' & Hr & _ & ->).
  rewrite Hl in Hl'. injection Hl' as <-.
  unfold getitem in Hr. simpl in Hr. rewrite String.eqb_refl in Hr. injection Hr as <-.
  assert (Hrm : remove [on] [(on, rk); (c1, r1); (c2, r2)] = [(c1, r1); (c2, r2)]).
  { unfold remove, mem. simpl. rewrite String.eqb_refl. simpl.
    apply String.eqb_neq in H1, H2. rewrite H1, H2. reflexivity. }
  assert (Hkeep : forall c v, In (c, v) (cols l) ->
            ((if negb (String.eqb c on) && mem c (map fst [(c1, r1); (c2, r2)])
              then c ++ "_x" else c),
             take (seq 0 (List.length lk)) v) = (c, v)).
  { intros c v Hin. rewrite take_seq.
    2:{ rewrite (uniform_getitem _ _ _ Hu Hl). unfold uniform in Hu.
        rewrite Forall_forall in Hu. apply (Hu _ Hin). }
    destruct (negb (String.eqb c on) && mem c (map fst [(c1, r1); (c2, r2)])) eqn:F;
      [|reflexivity].
    apply andb_true_iff in F as [_ F]. apply mem_In in F. exfalso.
    assert (Hc : In c (map fst (cols l))) by (apply in_map_iff; exists (c, v); auto).
    simpl in F. destruct F as [<-|[<-|[]]].
    - apply lookup_None in L1. contradiction.
    - apply lookup_None in L2. contradiction. }
  cbn [cols]. rewrite Hrm.
  rewrite indexer_distinct_length, indexer_distinct_fst, indexer_distinct_snd
    by exact Hd.
  rewrite (uniform_getitem _ _ _ Hu Hl). f_equal.
  rewrite <- (uniform_getitem _ _ _ Hu Hl).
  pose proof L1 as N1. pose proof L2 as N2.
  apply lookup_has_column in N1, N2. unfold has_column in N1, N2.
  apply String.eqb_neq in H1, H2.
  destruct (List.length lk =? 0)%nat eqn:Z.
  - cbn [map fst snd]. rewrite String.eqb_refl, H1, H2. cbn [fst snd].
    rewrite !take_opt_lookup, N1, N2.
    rewrite take_seq by reflexivity.
    rewrite <- app_assoc. cbn [app]. f_equal.
    rewrite <- (map_id (remove [on] (cols l))) at 2. apply map_ext_in.
    intros [c v] Hin. cbn [fst snd]. apply filter_In in Hin as [Hin _].
    apply (Hkeep c v Hin).
  - cbn [map fst snd]. rewrite !take_opt_lookup, N1, N2. f_equal.
    rewrite <- (map_id (cols l)) at 2. apply map_ext_in. intros [c v] Hin.
    cbn [fst snd]. apply (Hkeep c v Hin).
Qed.

Lemma drop_ok labels df out :
  drop labels df = Ok out ->
  (forall c, In c labels -> has_column c df = true)
  /\ out = mkDF (nrows df) (remove labels (cols df)).
Proof.
  unfold drop. destruct (find _ labels) eqn:E; [discriminate|].
  intros [= <-]. split; [|reflexivity]. intros c Hc.
  apply (find_none _ _ E) in Hc. apply negb_false_iff in Hc. exact Hc.
Qed.

Lemma getitem_app_left c df l v :
  getitem c (mkDF (nrows df) (cols df ++ l)) = Ok v ->
  lookup c l = None -> getitem c df = Ok v.
Proof.
  unfold getitem. simpl. rewrite lookup_app.
  destruct (lookup c (cols df)); [auto|]. intros H E. rewrite E in H. discriminate.
Qed.

Lemma getitem_left c n L l df v :
  (forall x, lookup x L = lookup x (cols df)) ->
  getitem c (mkDF n (L ++ l)) = Ok v ->
  lookup c l = None -> getitem c df = Ok v.
Proof.
  intros HL. unfold getitem. simpl. rewrite lookup_app, HL.
  destruct (lookup c (cols df)); [auto|]. intros H E. rewrite E in H. discriminate.
Qed.

(** What [merge_and_encode] returns on a uniform frame: the frame without
    the three helper columns, with its four encodings. *)
Lemma merge_and_encode_ok d out :
  uniform d -> TrainTestProcessor.merge_and_encode d = Ok out ->
  exists sm target tab screen type means v1 v2 v3 v4,
    getitem "source_merged" d = Ok sm
    /\ getitem "target" d = Ok target
    /\ getitem "source_system_tab" d = Ok tab
    /\ getitem "source_screen_name" d = Ok screen
    /\ getitem "source_type" d = Ok type
    /\ group_means sm target = Ok means
    /\ mapM TrainTestProcessor.one_hot_encode_source
            (map (fun k => lookup_key k (group_keys sm) means) sm) = Ok v1
    /\ mapM TrainTestProcessor.one_hot_encode_system_tab tab = Ok v2
    /\ mapM TrainTestProcessor.one_hot_encode_screen_name screen = Ok v3
    /\ mapM TrainTestProcessor.one_hot_encode_source_type type = Ok v4
    /\ isnull_any out = false
    /\ out = mkDF (nrows d)
              (assign "1h_source_type" v4
                 (assign "1h_screen_name" v3
                    (assign "1h_system_tab" v2
                       (assign "1h_source" v1 (remove dropped (cols d)))))).
Proof.
  intros Hu H. unfold TrainTestProcessor.merge_and_encode in H. invert_ok.
  match goal with
  | E : select _ d = Ok _ |- _ => apply select2 in E as (sm & target & Hsm & Ht & ->)
  end.
  match goal with
  | E : groupby_agg _ _ _ = Ok _ |- _ =>
      apply groupby_agg_source in E as (means & counts & Hmeans & ->)
  end.
  match goal with
  | E : set_columns _ _ = Ok _ |- _ =>
      unfold set_columns in E; simpl in E; injection E as <-
  end.
  apply check_no_null_ok in H as [-> Hnull].
  match goal with
  | E : derive "1h_source_type" _ _ _ = Ok _ |- _ =>
      apply derive_ok in E as (type & v4 & Htype & Hv4 & ->)
  end.
  match goal with
  | E : derive "1h_screen_name" _ _ _ = Ok _ |- _ =>
      apply derive_ok in E as (screen & v3 & Hscreen & Hv3 & ->)
  end.
  match goal with
  | E : derive "1h_system_tab" _ _ _ = Ok _ |- _ =>
      apply derive_ok in E as (tab & v2 & Htab & Hv2 & ->)
  end.
  match goal with
  | E : derive "1h_source" _ _ _ = Ok _ |- _ =>
      apply derive_ok in E as (pb & v1 & Hpb & Hv1 & ->)
  end.
  match goal with
  | E : drop _ _ = Ok _ |- _ => apply drop_ok in E as [Hhas ->]
  end.
  repeat rewrite getitem_setitem_other in Htype by discriminate.
  repeat rewrite getitem_setitem_other in Hscreen by discriminate.
  repeat rewrite getitem_setitem_other in Htab by discriminate.
  match goal with
  | E : merge d _ _ = Ok ?m |- _ => rename m into merged; rename E into Hm
  end.
  (* the frame had neither of the two columns the merge brings *)
  assert (L1 : lookup "source_replay_pb" (cols d) = None).
  { destruct (merge_lookup _ _ _ _ "source_replay_pb" Hm eq_refl)
      as (lk & rk & _ & _ & _ & Hlook).
    simpl in Hlook. unfold getitem in Hpb. rewrite Hlook in Hpb.
    destruct (lookup "source_replay_pb" (cols d)); [discriminate | reflexivity]. }
  assert (L2 : lookup "source_replay_count" (cols d) = None).
  { destruct (merge_lookup _ _ _ _ "source_replay_count" Hm eq_refl)
      as (lk & rk & _ & _ & _ & Hlook).
    simpl in Hlook.
    pose proof (Hhas "source_replay_count") as Hc.
    rewrite !has_column_setitem in Hc. simpl in Hc.
    specialize (Hc (or_intror (or_intror (or_introl eq_refl)))).
    apply not_false_iff_true in Hc. rewrite lookup_has_column in Hc.
    rewrite Hlook in Hc.
    destruct (lookup "source_replay_count" (cols d)); [contradiction | reflexivity]. }
  apply (merge_two_columns _ _ _ _ _ _ _ _ sm) in Hm;
    [| exact Hsm | exact Hu | apply nub_distinct | discriminate | discriminate
     | exact L1 | exact L2].
  subst merged.
  set (L := if (nrows d =? 0)%nat then _ else _) in *.
  assert (HL : forall c, lookup c L = lookup c (cols d)).
  { intros c. subst L. destruct (nrows d =? 0)%nat; [|reflexivity].
    apply lookup_key_last. unfold getitem in Hsm.
    destruct (lookup "source_merged" (cols d)); [|discriminate].
    injection Hsm as <-. reflexivity. }
  assert (HR : remove dropped L = remove dropped (cols d)).
  { subst L. destruct (nrows d =? 0)%nat; [|reflexivity].
    apply remove_key_last. simpl. auto. }
  apply (getitem_left _ _ _ _ d _ HL) in Htype; [|reflexivity].
  apply (getitem_left _ _ _ _ d _ HL) in Hscreen; [|reflexivity].
  apply (getitem_left _ _ _ _ d _ HL) in Htab; [|reflexivity].
  unfold getitem in Hpb. cbn [cols] in Hpb. rewrite lookup_app, HL, L1 in Hpb.
  simpl in Hpb. injection Hpb as <-.
  exists sm, target, tab, screen, type, means, v1, v2, v3, v4.
  repeat (split; [assumption|]).
  unfold setitem. cbn [cols nrows]. f_equal.
  rewrite !remove_assign by reflexivity. rewrite remove_app.
  replace (remove _ [_; _]) with (@nil (string * list value)) by reflexivity.
  rewrite app_nil_r. fold dropped. rewrite HR. reflexivity.
Qed.

Lemma map3_length {A B C D} (f : A -> B -> C -> D) a b c n :
  List.length a = n -> List.length b = n -> List.length c = n ->
  List.length (TrainTestProcessor.map3 f a b c) = n.
Proof.
  revert b c n. induction a as [|x a IH]; intros [|y b] [|z c] n Ha Hb Hc;
    simpl in *; try congruence.
  destruct n as [|n]; [discriminate|]. f_equal. apply IH; congruence.
Qed.

(** The part of [parse] that works on the argument, once it returns. *)
Lemma fill_in_place_ok t d u :
  TrainTestProcessor.fill_in_place t = (d, Ok u) ->
  exists tab screen type,
    getitem "source_system_tab" d = Ok tab
    /\ getitem "source_screen_name" d = Ok screen
    /\ getitem "source_type" d = Ok type
    /\ getitem "source_merged" d
       = Ok (TrainTestProcessor.map3 TrainTestProcessor.merged_name tab screen type)
    /\ (uniform t -> uniform d).
Proof.
  unfold TrainTestProcessor.fill_in_place. intros H. invert_ok.
  apply set_source_merged_ok in H as (tab & screen & type & Htab & Hscreen & Htype & ->).
  exists tab, screen, type.
  rewrite !getitem_setitem_other by discriminate. rewrite getitem_setitem_same.
  repeat (split; [assumption || reflexivity|]).
  intros Hu.
  assert (Hu2 : uniform s1).
  { repeat match goal with
      | E : fillna _ _ _ = Ok _ |- _ => apply uniform_fillna in E; [|assumption]
      end. assumption. }
  apply uniform_setitem; [exact Hu2|].
  apply map3_length; eapply uniform_getitem; eauto.
Qed.

Lemma column_no_null df c col :
  isnull_any df = false -> getitem c df = Ok col -> existsb is_null col = false.
Proof.
  unfold isnull_any, getitem. intros H Hc.
  destruct (lookup c (cols df)) eqn:E; [|discriminate]. injection Hc as ->.
  apply lookup_Some_In in E.
  apply (proj1 (existsb_false_forall _ _) H (c, col) E).
Qed.

Lemma fillna_clean c v df df' :
  isnull_any df = false -> fillna c v df = Ok df' -> df' = df.
Proof.
  intros Hn H. apply fillna_ok in H as (col & Hc & ->).
  pose proof (column_no_null _ _ _ Hn Hc) as Hcol.
  assert (E : map (fill v) col = col).
  { rewrite <- (map_id col) at 2. apply map_ext_in. intros x Hx. unfold fill.
    rewrite (proj1 (existsb_false_forall _ _) Hcol x Hx). reflexivity. }
  rewrite E. unfold setitem, getitem in *. destruct df as [n cs]. simpl in *.
  destruct (lookup c cs) eqn:L; [|discriminate]. injection Hc as ->.
  rewrite assign_same by exact L. reflexivity.
Qed.

Lemma fill_in_place_clean t d u :
  isnull_any t = false ->
  TrainTestProcessor.fill_in_place t = (d, Ok u) ->
  exists tab screen type,
    getitem "source_system_tab" t = Ok tab
    /\ getitem "source_screen_name" t = Ok screen
    /\ getitem "source_type" t = Ok type
    /\ d = setitem "source_merged"
             (TrainTestProcessor.map3 TrainTestProcessor.merged_name tab screen type) t.
Proof.
  unfold TrainTestProcessor.fill_in_place. intros Hn H. invert_ok.
  repeat match goal with
    | E : fillna _ _ ?x = Ok _ |- _ =>
        apply fillna_clean in E; [subst | assumption]
    end.
  apply set_source_merged_ok in H as (tab & screen & type & Htab & Hscreen & Htype & ->).
  eauto 8.
Qed.

Lemma lookup_encoded c v1 v2 v3 v4 l :
  mem c encoding_names = false ->
  lookup c (encoded v1 v2 v3 v4 l) = lookup c l.
Proof.
  intros H. unfold encoded.
  assert (Hc : forall n, In n encoding_names -> c <> n).
  { intros n Hn ->. apply mem_false in H. contradiction. }
  rewrite !lookup_assign_other by (apply Hc; simpl; auto). reflexivity.
Qed.

Lemma encoded_same v1 v2 v3 v4 l :
  encoded v1 v2 v3 v4 (encoded v1 v2 v3 v4 l) = encoded v1 v2 v3 v4 l.
Proof.
  unfold encoded at 1.
  rewrite (assign_same "1h_source").
  2:{ unfold encoded. rewrite !lookup_assign_other by discriminate.
      apply lookup_assign_same. }
  rewrite (assign_same "1h_system_tab").
  2:{ unfold encoded. rewrite !lookup_assign_other by discriminate.
      apply lookup_assign_same. }
  rewrite (assign_same "1h_screen_name").
  2:{ unfold encoded. rewrite !lookup_assign_other by discriminate.
      apply lookup_assign_same. }
  apply assign_same. unfold encoded. apply lookup_assign_same.
Qed.

Lemma uniform_remove labels df :
  uniform df -> uniform (mkDF (nrows df) (remove labels (cols df))).
Proof.
  unfold uniform, remove. simpl. rewrite !Forall_forall. intros H x Hx.
  apply filter_In in Hx as [Hx _]. auto.
Qed.

Lemma uniform_encoded v1 v2 v3 v4 df :
  uniform df ->
  List.length v1 = nrows df -> List.length v2 = nrows df ->
  List.length v3 = nrows df -> List.length v4 = nrows df ->
  uniform (mkDF (nrows df) (encoded v1 v2 v3 v4 (cols df))).
Proof.
  intros Hu H1 H2 H3 H4.
  apply (uniform_setitem _ "1h_source" v1) in Hu; [|exact H1].
  apply (uniform_setitem _ "1h_system_tab" v2) in Hu; [|exact H2].
  apply (uniform_setitem _ "1h_screen_name" v3) in Hu; [|exact H3].
  apply (uniform_setitem _ "1h_source_type" v4) in Hu; [|exact H4].
  exact Hu.
Qed.

(** The event processor applied to its own result returns that result;
    the argument of the second call is left with the column
    [source_merged]. *)
Lemma parse_twice t t' out t1' out2 :
  uniform t ->
  TrainTestProcessor.parse t = (t', Ok out) ->
  TrainTestProcessor.parse out = (t1', Ok out2) ->
  out2 = out
  /\ exists sm, t1' = setitem "source_merged" sm out
                /\ has_column "source_merged" out = false.
Proof.
  intros Hu H1 H2.
  apply train_test_parse_ok in H1 as (u1 & Hf1 & He1).
  apply fill_in_place_ok in Hf1 as (tab & screen & type & Htab & Hscreen & Htype & Hsm & Hu').
  specialize (Hu' Hu).
  apply (merge_and_encode_ok _ _ Hu') in He1
    as (sm & target & tab' & screen' & type' & means & v1 & v2 & v3 & v4
        & Hsm' & Htarget & Htab' & Hscreen' & Htype' & Hmeans & Hv1 & Hv2 & Hv3 & Hv4
        & Hnull & Hout).
  rewrite Hsm in Hsm'. injection Hsm' as <-.
  rewrite Htab in Htab'. injection Htab' as <-.
  rewrite Hscreen in Hscreen'. injection Hscreen' as <-.
  rewrite Htype in Htype'. injection Htype' as <-.
  fold (encoded v1 v2 v3 v4 (remove dropped (cols t'))) in Hout.
  (* the columns of the result *)
  assert (Hkeep : forall c, mem c encoding_names = false -> mem c dropped = false ->
                            getitem c out = getitem c t').
  { intros c Hc Hd. subst out. unfold getitem. cbn [cols].
    rewrite lookup_encoded by exact Hc. rewrite lookup_remove, Hd. reflexivity. }
  assert (Hgone : forall c, In c dropped -> lookup c (cols out) = None).
  { intros c Hc. subst out. cbn [cols]. rewrite lookup_encoded.
    - apply lookup_remove_In. exact Hc.
    - simpl in Hc. destruct Hc as [<-|[<-|[<-|[]]]]; reflexivity. }
  assert (Huo : uniform out).
  { subst out.
    apply (uniform_encoded v1 v2 v3 v4 (mkDF (nrows t') (remove dropped (cols t')))).
    - apply uniform_remove, Hu'.
    - apply mapM_length in Hv1. rewrite Hv1, length_map. cbn [nrows].
      apply (uniform_getitem t' "source_merged"); assumption.
    - apply mapM_length in Hv2. rewrite Hv2. cbn [nrows].
      apply (uniform_getitem t' "source_system_tab"); assumption.
    - apply mapM_length in Hv3. rewrite Hv3. cbn [nrows].
      apply (uniform_getitem t' "source_screen_name"); assumption.
    - apply mapM_length in Hv4. rewrite Hv4. cbn [nrows].
      apply (uniform_getitem t' "source_type"); assumption. }
  (* the second call *)
  apply train_test_parse_ok in H2 as (u2 & Hf2 & He2).
  apply (fill_in_place_clean _ _ _ Hnull) in Hf2
    as (tab2 & screen2 & type2 & Htab2 & Hscreen2 & Htype2 & Ht1).
  rewrite Hkeep, Htab in Htab2 by reflexivity. injection Htab2 as <-.
  rewrite Hkeep, Hscreen in Hscreen2 by reflexivity. injection Hscreen2 as <-.
  rewrite Hkeep, Htype in Htype2 by reflexivity. injection Htype2 as <-.
  set (sm := TrainTestProcessor.map3 TrainTestProcessor.merged_name tab screen type) in *.
  assert (Hu1 : uniform t1').
  { subst t1'. apply uniform_setitem; [exact Huo|].
    subst out. cbn [nrows]. eapply uniform_getitem; eauto. }
  apply (merge_and_encode_ok _ _ Hu1) in He2
    as (sm2 & target2 & tab2 & screen2 & type2 & means2 & w1 & w2 & w3 & w4
        & Hsm2 & Htarget2 & Htab2 & Hscreen2 & Htype2 & Hmeans2 & Hw1 & Hw2 & Hw3 & Hw4
        & _ & Hout2).
  subst t1'.
  rewrite getitem_setitem_same in Hsm2. injection Hsm2 as <-.
  rewrite getitem_setitem_other in Htarget2, Htab2, Hscreen2, Htype2 by discriminate.
  rewrite Hkeep, Htarget in Htarget2 by reflexivity. injection Htarget2 as <-.
  rewrite Hkeep, Htab in Htab2 by reflexivity. injection Htab2 as <-.
  rewrite Hkeep, Hscreen in Hscreen2 by reflexivity. injection Hscreen2 as <-.
  rewrite Hkeep, Htype in Htype2 by reflexivity. injection Htype2 as <-.
  rewrite Hmeans in Hmeans2. injection Hmeans2 as <-.
  rewrite Hv1 in Hw1. injection Hw1 as <-.
  rewrite Hv2 in Hw2. injection Hw2 as <-.
  rewrite Hv3 in Hw3. injection Hw3 as <-.
  rewrite Hv4 in Hw4. injection Hw4 as <-.
  split.
  - rewrite Hout2. unfold setitem. cbn [cols nrows].
    rewrite (assign_absent "source_merged") by (apply Hgone; simpl; auto).
    rewrite remove_app, (remove_absent dropped (cols out)) by exact Hgone.
    replace (remove dropped [("source_merged", sm)])
      with (@nil (string * list value)) by reflexivity.
    rewrite app_nil_r.
    fold (encoded v1 v2 v3 v4 (cols out)).
    rewrite Hout at 2 3. cbn [cols nrows]. rewrite encoded_same.
    rewrite Hout. reflexivity.
  - exists sm. split; [reflexivity|].
    apply lookup_has_column, Hgone. simpl; auto.
Qed.

End EventTwice.

(* ===================================================================== *)
(** ** Row counts through [pre_process]                                  *)
(* ===================================================================== *)

Section KeptKeys.

Lemma same_key_refl c df : same_key c df df.
Proof. repeat split; auto. Qed.

Lemma same_key_trans c d1 d2 d3 :
  same_key c d1 d2 -> same_key c d2 d3 -> same_key c d1 d3.
Proof.
  intros (H1 & H2 & H3) (H4 & H5 & H6). repeat split; try congruence. auto.
Qed.

Lemma same_key_setitem c dst v df :
  c <> dst -> (uniform df -> List.length v = nrows df) ->
  same_key c df (setitem dst v df).
Proof.
  intros Hc Hv. repeat split.
  - apply getitem_setitem_other, Hc.
  - intros Hu. apply uniform_setitem; auto.
Qed.

Lemma same_key_fillna c c' v df df' :
  c <> c' -> fillna c' v df = Ok df' -> same_key c df df'.
Proof.
  intros Hc H. apply fillna_ok in H as (col & Hcol & ->).
  apply same_key_setitem; [exact Hc|]. intros Hu. rewrite length_map.
  eapply uniform_getitem; eauto.
Qed.

Lemma same_key_derive c dst src f df df' :
  c <> dst -> derive dst src f df = Ok df' -> same_key c df df'.
Proof.
  intros Hc H. apply derive_ok in H as (col & v & Hcol & Hv & ->).
  apply same_key_setitem; [exact Hc|]. intros Hu. apply mapM_length in Hv.
  rewrite Hv. eapply uniform_getitem; eauto.
Qed.

Lemma same_key_drop c labels df df' :
  mem c labels = false -> drop labels df = Ok df' -> same_key c df df'.
Proof.
  intros Hc H. apply drop_ok in H as [_ ->]. repeat split.
  - unfold getitem. cbn [cols]. rewrite lookup_remove, Hc. reflexivity.
  - apply uniform_remove.
Qed.

Lemma map2_length {A B C} (f : A -> B -> C) a b n :
  List.length a = n -> List.length b = n -> List.length (map2 f a b) = n.
Proof.
  revert b n. induction a as [|x a IH]; intros [|y b] n Ha Hb; simpl in *;
    try congruence.
  destruct n as [|n]; [discriminate|]. f_equal. apply IH; congruence.
Qed.

Lemma same_key_same_columns c dst a b df df' :
  c <> dst -> SongsProcessor.same_columns dst a b df = Ok df' -> same_key c df df'.
Proof.
  unfold SongsProcessor.same_columns. intros Hc H. invert_ok.
  apply same_key_setitem; [exact Hc|]. intros Hu.
  apply map2_length; eapply uniform_getitem; eauto.
Qed.

Lemma same_key_same_three c dst a b x df df' :
  c <> dst -> SongsProcessor.same_three dst a b x df = Ok df' -> same_key c df df'.
Proof.
  unfold SongsProcessor.same_three. intros Hc H. invert_ok.
  apply same_key_setitem; [exact Hc|]. intros Hu.
  repeat apply map2_length; eapply uniform_getitem; eauto.
Qed.

Lemma same_key_membership_days c df df' :
  c <> "membership_days" ->
  MembersProcessor.set_membership_days df = Ok df' -> same_key c df df'.
Proof.
  unfold MembersProcessor.set_membership_days. intros Hc H. invert_ok.
  apply same_key_setitem; [exact Hc|]. intros Hu.
  match goal with
  | E : mapM _ _ = Ok _ |- _ => apply mapM_length in E; rewrite E
  end.
  rewrite length_combine.
  repeat match goal with
    | E : getitem _ df = Ok _ |- _ => apply (uniform_getitem _ _ _ Hu) in E; rewrite E
    end.
  apply Nat.min_id.
Qed.

Ltac kept_steps c :=
  repeat match goal with
    | E : fillna _ _ _ = Ok _ |- _ =>
        apply (same_key_fillna c) in E; [|discriminate]
    | E : derive _ _ _ _ = Ok _ |- _ =>
        apply (same_key_derive c) in E; [|discriminate]
    | E : drop _ _ = Ok _ |- _ =>
        apply (same_key_drop c) in E; [|reflexivity]
    | E : SongsProcessor.same_columns _ _ _ _ = Ok _ |- _ =>
        apply (same_key_same_columns c) in E; [|discriminate]
    | E : SongsProcessor.same_three _ _ _ _ _ = Ok _ |- _ =>
        apply (same_key_same_three c) in E; [|discriminate]
    | E : MembersProcessor.set_membership_days _ = Ok _ |- _ =>
        apply (same_key_membership_days c) in E; [|discriminate]
    end;
  repeat (eapply same_key_trans; [eassumption|]);
  apply same_key_refl.

Lemma songs_parse_keeps df df' out :
  SongsProcessor.parse df = (df', Ok out) -> same_key "song_id" df out.
Proof.
  unfold SongsProcessor.parse. intros H. invert_ok.
  match goal with
  | Ha : assert_no_null _ = (_, Ok _) |- _ => apply assert_no_null_ok in Ha as [-> _]
  end.
  unfold sget in H. injection H as <- <-.
  kept_steps "song_id".
Qed.

Lemma song_extra_parse_keeps df df' out :
  SongExtraProcessor.parse df = (df', Ok out) -> same_key "song_id" df out.
Proof.
  unfold SongExtraProcessor.parse. intros H. invert_ok.
  match goal with
  | Ha : assert_no_null _ = (_, Ok _) |- _ => apply assert_no_null_ok in Ha as [-> _]
  end.
  unfold sget in H. injection H as <- <-.
  kept_steps "song_id".
Qed.

Lemma members_parse_keeps df df' out :
  MembersProcessor.parse df = (df', Ok out) -> same_key "msno" df out.
Proof.
  unfold MembersProcessor.parse. intros H. invert_ok.
  match goal with
  | Ha : assert_no_null _ = (_, Ok _) |- _ => apply assert_no_null_ok in Ha as [-> _]
  end.
  unfold sget in H. injection H as <- <-.
  kept_steps "msno".
Qed.

End KeptKeys.

Section PipelineRows.

Import FeatureProcessor.

Lemma fill_in_place_rows t d u :
  TrainTestProcessor.fill_in_place t = (d, Ok u) -> nrows d = nrows t.
Proof.
  unfold TrainTestProcessor.fill_in_place. intros H. invert_ok.
  apply set_source_merged_ok in H as (tab & screen & type & _ & _ & _ & ->).
  repeat match goal with
    | E : fillna _ _ _ = Ok _ |- _ => apply nrows_fillna in E
    end.
  simpl. congruence.
Qed.

(** The event processor returns a uniform frame with the rows of its
    argument. *)
Lemma train_test_parse_rows t t' out :
  uniform t -> TrainTestProcessor.parse t = (t', Ok out) ->
  nrows out = nrows t /\ uniform out /\ nrows t' = nrows t /\ uniform t'.
Proof.
  intros Hu H. apply train_test_parse_ok in H as (u & Hf & He).
  pose proof (fill_in_place_rows _ _ _ Hf) as Hn.
  apply fill_in_place_ok in Hf as (tab & screen & type & Htab & Hscreen & Htype & Hsm & Hu').
  specialize (Hu' Hu).
  apply (merge_and_encode_ok _ _ Hu') in He
    as (sm & target & tab' & screen' & type' & means & v1 & v2 & v3 & v4
        & Hsm' & _ & Htab' & Hscreen' & Htype' & _ & Hv1 & Hv2 & Hv3 & Hv4
        & _ & Hout).
  fold (encoded v1 v2 v3 v4 (remove dropped (cols t'))) in Hout.
  repeat split; try assumption.
  - subst out. exact Hn.
  - subst out.
    apply (uniform_encoded v1 v2 v3 v4 (mkDF (nrows t') (remove dropped (cols t')))).
    + apply uniform_remove, Hu'.
    + apply mapM_length in Hv1. rewrite Hv1, length_map. cbn [nrows].
      apply (uniform_getitem t' "source_merged"); assumption.
    + apply mapM_length in Hv2. rewrite Hv2. cbn [nrows].
      apply (uniform_getitem t' "source_system_tab"); assumption.
    + apply mapM_length in Hv3. rewrite Hv3. cbn [nrows].
      apply (uniform_getitem t' "source_screen_name"); assumption.
    + apply mapM_length in Hv4. rewrite Hv4. cbn [nrows].
      apply (uniform_getitem t' "source_type"); assumption.
Qed.

(** A left merge against distinct keys keeps the key column of the left
    frame as it is. *)
Lemma merge_distinct_key l r on out lk rk :
  merge l r on = Ok out -> plain on = true ->
  getitem on l = Ok lk -> getitem on r = Ok rk ->
  uniform l -> distinct rk = true ->
  getitem on out = Ok lk.
Proof.
  intros H Hp Hl Hr Hu Hd.
  apply (merge_lookup _ _ _ _ on) in H as (lk' & rk' & Hl' & Hr' & _ & Hc);
    [|exact Hp].
  rewrite Hl in Hl'. injection Hl' as <-. rewrite Hr in Hr'. injection Hr' as <-.
  unfold getitem. rewrite Hc, String.eqb_refl.
  rewrite indexer_distinct_fst by exact Hd.
  rewrite take_seq by reflexivity. reflexivity.
Qed.

(** [pre_process] on tables whose song and member keys are distinct: the
    stored train and test tables have the rows of the loaded train table,
    the stored song table those of the loaded one. *)
Lemma pre_process_rows o o' u train0 songs0 extra0 members0 sk ek mk_ :
  train_df o = Some train0 -> songs_df o = Some songs0 ->
  song_extra_info_df o = Some extra0 -> members_df o = Some members0 ->
  uniform train0 -> uniform songs0 ->
  getitem "song_id" songs0 = Ok sk -> distinct sk = true ->
  getitem "song_id" extra0 = Ok ek -> distinct ek = true ->
  getitem "msno" members0 = Ok mk_ -> distinct mk_ = true ->
  pre_process o = (o', Ok u) ->
  exists train test songs,
    train_df o' = Some train /\ test_df o' = Some test /\ songs_df o' = Some songs
    /\ nrows train = nrows train0
    /\ nrows test = nrows train0
    /\ nrows songs = nrows songs0.
Proof.
  intros Htrain Hsongs Hextra Hmembers Hut Hus Hsk Hdsk Hek Hdek Hmk Hdmk H.
  apply pre_process_ok in H
    as (tr0 & train0' & train1 & train1' & test1 & me0 & members1 & so0
        & songs1 & ex0 & extra1 & songs2 & train2 & test2 & train3 & test3
        & Htr & Hme & Hso & Hex & Hp1 & Hp2 & Hpm & Hps & Hpe
        & Hm1 & Hm2 & Hm3 & Hm4 & Hm5 & ->).
  rewrite Htrain in Htr. injection Htr as <-.
  rewrite Hsongs in Hso. injection Hso as <-.
  rewrite Hextra in Hex. injection Hex as <-.
  rewrite Hmembers in Hme. injection Hme as <-.
  (* the event tables *)
  destruct (parse_twice _ _ _ _ _ Hut Hp1 Hp2) as [-> _].
  destruct (train_test_parse_rows _ _ _ Hut Hp1) as (Hn1 & Hu1 & _).
  destruct (train_test_parse_rows _ _ _ Hu1 Hp2) as (_ & _ & Hn1' & Hu1').
  (* the key columns of the right tables *)
  apply songs_parse_keeps in Hps as (Hks & Hns & Hus1). specialize (Hus1 Hus).
  apply song_extra_parse_keeps in Hpe as (Hke & _).
  apply members_parse_keeps in Hpm as (Hkm & _).
  rewrite Hsk in Hks. rewrite Hek in Hke. rewrite Hmk in Hkm.
  pose proof (merge_distinct_key _ _ _ _ _ _ Hm1 eq_refl Hks Hke Hus1 Hdek) as Hk2.
  pose proof (merge_distinct_rows _ _ _ _ _ Hm1 Hke Hus1 Hdek) as Hn2.
  pose proof (merge_distinct_rows _ _ _ _ _ Hm2 Hk2 Hu1' Hdsk) as Hn3.
  pose proof (merge_distinct_rows _ _ _ _ _ Hm3 Hk2 Hu1 Hdsk) as Hn4.
  pose proof (merge_distinct_rows _ _ _ _ _ Hm4 Hkm (uniform_merge _ _ _ _ Hm2) Hdmk) as Hn5.
  pose proof (merge_distinct_rows _ _ _ _ _ Hm5 Hkm (uniform_merge _ _ _ _ Hm3) Hdmk) as Hn6.
  exists train3, test3, songs2. simpl. repeat split; congruence.
Qed.

End PipelineRows.

(** C4, as the code has it: the merge of each of the three steps of the
    engineering processor leaves the target with the rows it had; a merge
    of [pre_process] does so when the keys of its right table are distinct
    (nothing in the code checks that they are), and so [pre_process] as a
    whole stores train and test tables with the rows of the loaded train
    table when the song and member keys are distinct. *)
Theorem merges_keep_row_count :
  (forall ref_df df out,
      uniform df ->
      EngineeringProcessor.generate_play_count ref_df df = Ok out ->
      nrows out = nrows df)
  /\ (forall ref_df df out,
        uniform df ->
        EngineeringProcessor.generate_track_count ref_df df = Ok out ->
        nrows out = nrows df)
  /\ (forall ref_df df out,
        uniform df ->
        EngineeringProcessor.generate_cover_lang ref_df df = Ok out ->
        nrows out = nrows df)
  /\ (forall a b key o o' out,
        FeatureProcessor.merge_frames a b key o = (o', Ok out) ->
        exists l r rk,
          a o = Some l /\ b o = Some r /\ getitem key r = Ok rk
          /\ (uniform l -> distinct rk = true -> nrows out = nrows l))
  /\ (forall o o' train0 songs0 extra0 members0 sk ek mk,
        FeatureProcessor.train_df o = Some train0 ->
        FeatureProcessor.songs_df o = Some songs0 ->
        FeatureProcessor.song_extra_info_df o = Some extra0 ->
        FeatureProcessor.members_df o = Some members0 ->
        uniform train0 -> uniform songs0 ->
        getitem "song_id" songs0 = Ok sk -> distinct sk = true ->
        getitem "song_id" extra0 = Ok ek -> distinct ek = true ->
        getitem "msno" members0 = Ok mk -> distinct mk = true ->
        FeatureProcessor.pre_process o = (o', Ok tt) ->
        exists train test songs,
          FeatureProcessor.train_df o' = Some train
          /\ FeatureProcessor.test_df o' = Some test
          /\ FeatureProcessor.songs_df o' = Some songs
          /\ nrows train = nrows train0
          /\ nrows test = nrows train0
          /\ nrows songs = nrows songs0).
Proof.
  repeat split.
  - intros ref_df df out Hu H.
    apply generate_play_count_ok in H as (songs & keys & _ & Hk & Hn & _).
    rewrite Hn. eapply uniform_getitem; eauto.
  - intros ref_df df out Hu H.
    apply generate_track_count_ok in H
      as (songs & artists & keys & target & means & _ & _ & Hk & _ & _ & Hn & _).
    rewrite Hn. eapply uniform_getitem; eauto.
  - intros ref_df df out Hu H.
    apply generate_cover_lang_rows in H as (keys & Hk & Hn).
    rewrite Hn. eapply uniform_getitem; eauto.
  - intros a b key o o' out H.
    apply merge_frames_ok in H as (l & r & Ha & Hb & Hm & _).
    pose proof Hm as Hm'. apply merge_ok in Hm' as (lk & rk & _ & Hr & _).
    exists l, r, rk. repeat split; auto.
    intros Hu Hd. eapply merge_distinct_rows; eauto.
  - intros o o' train0 songs0 extra0 members0 sk ek mk.
    apply pre_process_rows.
Qed.

Lemma merges_keep_row_count_witness :
  (exists out,
      EngineeringProcessor.generate_track_count five_rows five_rows = Ok out
      /\ nrows out = 5%nat)
  /\ (let o := fst (FeatureProcessor.load_raw Sample.files FeatureProcessor.init) in
      let o' := fst (FeatureProcessor.pre_process o) in
      exists train test songs,
        FeatureProcessor.train_df o' = Some train
        /\ FeatureProcessor.test_df o' = Some test
        /\ FeatureProcessor.songs_df o' = Some songs
        /\ nrows train = 3%nat /\ nrows test = 3%nat /\ nrows songs = 2%nat).
Proof.
  split.
  - destruct (EngineeringProcessor.generate_track_count five_rows five_rows)
      as [out|e] eqn:E; [|vm_compute in E; discriminate].
    exists out. split; [reflexivity|].
    destruct merges_keep_row_count as (_ & H & _).
    apply (H five_rows five_rows out); [repeat constructor | exact E].
  - intros o o'.
    destruct merges_keep_row_count as (_ & _ & _ & _ & H).
    apply (H o o' Sample.train Sample.songs Sample.song_extra_info Sample.members
             [VStr "A"; VStr "B"] [VStr "A"; VStr "B"] [VStr "u1"; VStr "u2"]);
      try (vm_compute; reflexivity); repeat constructor.
Defined.

(** The claim as worded fails in [pre_process]: with a song listed twice
    in the song table, the event of that song is there twice after the
    merge, and the three events have become four rows. *)
Lemma pre_process_duplicates_rows :
  let run := sbind (FeatureProcessor.load_raw Sample.files_twice)
                   (fun _ => FeatureProcessor.pre_process) FeatureProcessor.init in
  snd run = Ok tt
  /\ nrows Sample.train = 3%nat
  /\ option_map nrows (FeatureProcessor.train_df (fst run)) = Some 4%nat
  /\ option_map (getitem "song_id") (FeatureProcessor.train_df (fst run))
     = Some (Ok [VStr "A"; VStr "A"; VStr "B"; VStr "C"]).
Proof. vm_compute. repeat split. Qed.

Lemma pre_process_ignores_test o o' t :
  FeatureProcessor.pre_process o = (o', Ok tt) ->
  FeatureProcessor.pre_process (FeatureProcessor.set_test_df t o) = (o', Ok tt).
Proof.
  destruct o as [so ex me tr te co st].
  unfold FeatureProcessor.pre_process, sbind, sget, assert_, sraise,
    FeatureProcessor.on_frame,
    FeatureProcessor.store, FeatureProcessor.merge_frames, FeatureProcessor.frame,
    FeatureProcessor.pure.
  cbn -[DataProcessor.process merge append Z.leb].
  destruct (FeatureProcessor.LOAD_READY <=? st); [|discriminate].
  cbn -[DataProcessor.process merge append Z.leb].
  destruct tr as [tr|]; [|discriminate].
  destruct (DataProcessor.process "train" None tr) as [tr' [ev|e]]; [|discriminate].
  cbn -[DataProcessor.process merge append Z.leb].
  destruct (DataProcessor.process "test" None ev) as [ev' [te1|e]]; [|discriminate].
  exact (fun H => H).
Qed.

(** C1, as the code has it.  Line 382 rebinds the train attribute to
    what the event processor returns on the loaded train table, and line
    383 reads the attribute after that: the second call of the event
    processor is made on that result, [events], not on the table as it was
    before its transform (which the first call leaves behind as [stale]),
    and not on the loaded test table, which no line reads.  The stored
    test table is what the second call returns, merged with the song and
    member tables; what the second call writes into its argument is in the
    stored train table.  On a table with one cell per row and column the
    second call returns a table equal to its argument, so that the stored
    test table is [events] merged, and writes the column [source_merged]
    into it. *)
Theorem test_table_is_transformed_train
        (o o' : FeatureProcessor.t) (train0 : DataFrame) :
  FeatureProcessor.train_df o = Some train0 ->
  FeatureProcessor.pre_process o = (o', Ok tt) ->
  exists stale events events' again songs members train_songs test_songs train test,
    TrainTestProcessor.parse train0 = (stale, Ok events)
    /\ TrainTestProcessor.parse events = (events', Ok again)
    /\ FeatureProcessor.songs_df o' = Some songs
    /\ FeatureProcessor.members_df o' = Some members
    /\ merge again songs "song_id" = Ok test_songs
    /\ merge test_songs members "msno" = Ok test
    /\ FeatureProcessor.test_df o' = Some test
    /\ merge events' songs "song_id" = Ok train_songs
    /\ merge train_songs members "msno" = Ok train
    /\ FeatureProcessor.train_df o' = Some train
    /\ (uniform train0 ->
        again = events
        /\ has_column "source_merged" events = false
        /\ exists sm, events' = setitem "source_merged" sm events)
    /\ (forall t,
          FeatureProcessor.pre_process (FeatureProcessor.set_test_df t o)
          = (o', Ok tt)).
Proof.
  intros Htrain H. pose proof (pre_process_ignores_test o o') as Hignore.
  specialize (fun t => Hignore t H).
  apply pre_process_ok in H
    as (tr0 & train0' & train1 & train1' & test1 & members0 & members1 & songs0
        & songs1 & extra0 & extra1 & songs2 & train2 & test2 & train3 & test3
        & Htr & _ & _ & _ & Hp1 & Hp2 & _ & _ & _ & _ & Hm1 & Hm2 & Hm3 & Hm4 & ->).
  rewrite Htrain in Htr. injection Htr as <-.
  exists train0', train1, train1', test1, songs2, members1, train2, test2, train3, test3.
  repeat (split; [assumption || reflexivity|]).
  split; [|exact Hignore].
  intros Hu. destruct (parse_twice _ _ _ _ _ Hu Hp1 Hp2) as (-> & sm & -> & Hno).
  split; [reflexivity|]. split; [exact Hno|]. exists sm. reflexivity.
Qed.

Lemma test_table_is_transformed_train_witness :
  let o := fst (FeatureProcessor.load_raw Sample.files FeatureProcessor.init) in
  exists events test,
    snd (TrainTestProcessor.parse Sample.train) = Ok events
    /\ FeatureProcessor.test_df (fst (FeatureProcessor.pre_process o)) = Some test
    /\ getitem "song_id" test = getitem "song_id" events.
Proof.
  intros o.
  destruct (test_table_is_transformed_train
              o (fst (FeatureProcessor.pre_process o)) Sample.train)
    as (stale & events & events' & again & songs & members & train_songs
        & test_songs & train & test & Hp & _ & _ & _ & _ & _ & Ht & _).
  - reflexivity.
  - vm_compute. reflexivity.
  - exists events, test. rewrite Hp. split; [reflexivity|]. split; [exact Ht|].
    vm_compute in Hp. injection Hp as _ <-.
    vm_compute in Ht. injection Ht as <-. reflexivity.
Defined.

(** The claim as worded fails: the second call is not made on the train
    table as it was before its transform.  On the sample the first call
    leaves the loaded table behind ([stale], with the column
    [source_merged] it wrote) and returns [events], which has no such
    column; neither have the stored song and member tables; yet the stored
    train table has it: the second call wrote it into [events], the table
    line 382 had just stored. *)
Lemma test_call_reads_transformed_train :
  let o := fst (FeatureProcessor.load_raw Sample.files FeatureProcessor.init) in
  let o' := fst (FeatureProcessor.pre_process o) in
  exists stale events songs members train,
    snd (FeatureProcessor.pre_process o) = Ok tt
    /\ FeatureProcessor.train_df o = Some Sample.train
    /\ TrainTestProcessor.parse Sample.train = (stale, Ok events)
    /\ has_column "source_merged" Sample.train = false
    /\ has_column "source_merged" stale = true
    /\ has_column "source_merged" events = false
    /\ FeatureProcessor.songs_df o' = Some songs
    /\ has_column "source_merged" songs = false
    /\ FeatureProcessor.members_df o' = Some members
    /\ has_column "source_merged" members = false
    /\ FeatureProcessor.train_df o' = Some train
    /\ has_column "source_merged" train = true
    /\ fst (TrainTestProcessor.parse events) <> events
    /\ (forall a b, merge events songs "song_id" = Ok a ->
                    merge a members "msno" = Ok b -> b <> train).
Proof.
  intros o o'.
  destruct (TrainTestProcessor.parse Sample.train) as [stale [events|e]] eqn:P;
    [|vm_compute in P; discriminate].
  destruct (FeatureProcessor.songs_df o') as [songs|] eqn:S;
    [|vm_compute in S; discriminate].
  destruct (FeatureProcessor.members_df o') as [members|] eqn:M;
    [|vm_compute in M; discriminate].
  destruct (FeatureProcessor.train_df o') as [train|] eqn:T;
    [|vm_compute in T; discriminate].
  exists stale, events, songs, members, train.
  vm_compute in P. injection P as <- <-.
  vm_compute in S. injection S as <-.
  vm_compute in M. injection M as <-.
  vm_compute in T. injection T as <-.
  repeat (split; [vm_compute; reflexivity|]).
  split.
  - vm_compute. discriminate.
  - intros a b Ha Hb. vm_compute in Ha. injection Ha as <-.
    vm_compute in Hb. injection Hb as <-. discriminate.
Qed.

(** On the sample the loaded test table has one row, of user [u2]; the
    stored test table has the three rows of the train table, and the
    stored train table itself has kept the column [source_merged] that the
    second call of the event processor added to it. *)
Lemma stored_tables_after_pre_process :
  let o := fst (sbind (FeatureProcessor.load_raw Sample.files)
                      (fun _ => FeatureProcessor.pre_process) FeatureProcessor.init) in
  getitem "msno" Sample.test = Ok [VStr "u2"]
  /\ option_map (getitem "msno") (FeatureProcessor.test_df o)
     = Some (Ok [VStr "u1"; VStr "u2"; VStr "u1"])
  /\ option_map (has_column "source_merged") (FeatureProcessor.train_df o) = Some true
  /\ option_map (has_column "source_merged") (FeatureProcessor.test_df o) = Some false.
Proof. vm_compute. repeat split. Qed.

(* ===================================================================== *)
(** ** What the marker tells about the attributes                        *)
(* ===================================================================== *)

Section Bound.

Import FeatureProcessor.

Lemma grows_refl o : grows o o.
Proof. unfold grows. tauto. Qed.

Lemma grows_trans o1 o2 o3 : grows o1 o2 -> grows o2 o3 -> grows o1 o3.
Proof. unfold grows. tauto. Qed.

Lemma bound_sbind {A B} (m : stateful t A) (k : A -> stateful t B) :
  keeps_bound m -> (forall a, keeps_bound (k a)) -> keeps_bound (sbind m k).
Proof.
  intros Hm Hk o o' r. unfold sbind. destruct (m o) as [o1 [a|e]] eqn:E.
  - intros H. apply Hk in H. apply Hm in E. eapply grows_trans; eauto.
  - intros [= <- _]. eapply Hm; eauto.
Qed.

Lemma bound_sget : keeps_bound (@sget t).
Proof. intros o o' r [= <- _]. apply grows_refl. Qed.

Lemma bound_assert b site : keeps_bound (@assert_ t b site).
Proof.
  intros o o' r. unfold assert_. destruct b; intros [= <- _]; apply grows_refl.
Qed.

Lemma bound_pure {A} (x : result A) : keeps_bound (pure x).
Proof. intros o o' r [= <- _]. apply grows_refl. Qed.

Lemma bound_frame get : keeps_bound (frame get).
Proof.
  intros o o' r. unfold frame. destruct (get o); intros [= <- _]; apply grows_refl.
Qed.

Lemma bound_merge_frames a b key : keeps_bound (merge_frames a b key).
Proof.
  unfold merge_frames.
  repeat (apply bound_sbind; [|intros ?]);
    first [apply bound_frame | apply bound_pure].
Qed.

Lemma bound_on_frame {A} get set (m : stateful DataFrame A) :
  (forall df o, grows o (set (Some df) o)) -> keeps_bound (on_frame get set m).
Proof.
  intros Hs o o' r. unfold on_frame. destruct (get o).
  - destruct (m d). intros [= <- _]. apply Hs.
  - intros [= <- _]. apply grows_refl.
Qed.

Lemma bound_store {A} (set : A -> t -> t) v :
  (forall o, grows o (set v o)) -> keeps_bound (store set v).
Proof. intros Hs o o' r [= <- _]. apply Hs. Qed.

Ltac grows_set :=
  intros; unfold grows; simpl; repeat split; (assumption || discriminate || tauto).

Ltac bound :=
  repeat first
    [ apply bound_sget
    | apply bound_assert
    | apply bound_pure
    | apply bound_frame
    | apply bound_merge_frames
    | apply bound_on_frame; grows_set
    | apply bound_store; grows_set
    | apply bound_sbind; [|intros ?] ].

Lemma load_raw_bound fs : keeps_bound (load_raw fs).
Proof. unfold load_raw. bound. Qed.

Lemma pre_process_bound : keeps_bound pre_process.
Proof. unfold pre_process. bound. Qed.

Lemma feature_engineering_bound : keeps_bound feature_engineering.
Proof. unfold feature_engineering. bound. Qed.

Lemma run_bound c : keeps_bound (Stage.run c).
Proof.
  destruct c; simpl;
    [apply load_raw_bound | apply pre_process_bound | apply feature_engineering_bound].
Qed.

(** One call keeps the marker and the attributes consistent. *)
Lemma run_consistent c o : consistent o -> consistent (fst (Stage.run c o)).
Proof.
  intros (Hs & Hl & Hc). destruct (Stage.run c o) as [o' r] eqn:E. simpl.
  pose proof (run_bound c o o' r E) as (G1 & G2 & G3 & G4 & G5 & G6).
  pose proof (StageFacts.run_sets c o o' r E) as Hset.
  destruct r as [u|e].
  - pose proof (StageFacts.run_ok_required c o o' u E) as Hreq.
    unfold INITIALIZATION_READY, LOAD_READY, PREPROCESS_READY, ENGINEERING_READY in *.
    destruct c; simpl in *.
    + apply load_raw_ok in E as (tr & te & so & ex & me & _ & _ & _ & _ & _ & ->).
      unfold consistent, loaded, LOAD_READY, PREPROCESS_READY, INITIALIZATION_READY,
        ENGINEERING_READY. simpl.
      repeat split; try discriminate; lia.
    + apply pre_process_ok in E
        as (? & ? & ? & ? & ? & ? & ? & ? & ? & ? & ? & ? & ? & ? & ? & ?
            & _ & _ & _ & _ & _ & _ & _ & _ & _ & _ & _ & _ & _ & _ & ->).
      unfold consistent, loaded, LOAD_READY, PREPROCESS_READY, INITIALIZATION_READY,
        ENGINEERING_READY. simpl.
      repeat split; try discriminate; lia.
    + unfold consistent, loaded in *.
      unfold INITIALIZATION_READY, LOAD_READY, PREPROCESS_READY, ENGINEERING_READY in *.
      rewrite Hset.
      destruct Hl as (L1 & L2 & L3 & L4 & L5); [lia|].
      split; [lia|]. split; intros _; [auto 6|]. apply G6, Hc. lia.
  - unfold consistent, loaded in *. rewrite Hset.
    split; [exact Hs|]. split.
    + intros H. destruct (Hl H) as (L1 & L2 & L3 & L4 & L5). auto 6.
    + intros H. apply G6, Hc, H.
Qed.

Lemma after_consistent cs o : consistent o -> consistent (after cs o).
Proof.
  revert o. induction cs as [|c cs IH]; intros o H; simpl; [exact H|].
  apply IH, run_consistent, H.
Qed.

Lemma init_consistent : consistent init.
Proof.
  unfold consistent, loaded, init, INITIALIZATION_READY, LOAD_READY,
    PREPROCESS_READY, ENGINEERING_READY. simpl. repeat split; intros; lia.
Qed.

(** What [load_raw] raises past its guard is what a read raised. *)
Lemma load_raw_raise fs o o' e :
  load_raw fs o = (o', Raise e) ->
  e = AssertionError (StageOrder INITIALIZATION_READY)
      /\ state o < INITIALIZATION_READY
  \/ read_error fs e.
Proof.
  unfold load_raw. rewrite (StageFacts.guarded INITIALIZATION_READY).
  destruct (INITIALIZATION_READY <=? state o) eqn:G.
  2:{ intros [= _ <-]. left. split; [reflexivity|]. apply Z.leb_gt. exact G. }
  intros H. right. unfold read_error.
  unfold sbind, pure, store in H.
  destruct (train_csv fs); [|injection H as _ <-; auto].
  destruct (test_csv fs); [|injection H as _ <-; auto].
  destruct (songs_csv fs); [|injection H as _ <-; auto].
  destruct (song_extra_info_csv fs); [|injection H as _ <-; auto 6].
  destruct (members_csv fs); [|injection H as _ <-; auto 6].
  discriminate.
Qed.

End Bound.

(** X1: on an object as [__init__] leaves it, after any sequence of calls
    of the three stage methods, whatever each call returned or raised: the
    marker is one of the four stage values; once it is [LOAD_READY] or
    more the five tables are bound, and once it is [PREPROCESS_READY] or
    more the combined table is.  So no stage method that passes its guard
    finds an attribute still [None], and the guard of [load_raw] never
    fires: [load_raw] raises only what a read raised. *)
Theorem marker_tells_bound_tables (cs : list Stage.call) :
  consistent (after cs FeatureProcessor.init)
  /\ (forall fs e,
        snd (FeatureProcessor.load_raw fs (after cs FeatureProcessor.init)) = Raise e ->
        read_error fs e).
Proof.
  pose proof (after_consistent cs _ init_consistent) as H.
  split; [exact H|].
  intros fs e He.
  destruct (FeatureProcessor.load_raw fs (after cs FeatureProcessor.init))
    as [o' r] eqn:E.
  simpl in He. subst r.
  apply load_raw_raise in E as [[_ Hlt]|E]; [|exact E].
  destruct H as [[H _] _]. lia.
Qed.

Lemma marker_tells_bound_tables_witness :
  read_error unreadable IOError.
Proof.
  destruct (marker_tells_bound_tables [Stage.Load Sample.files; Stage.PreProcess])
    as [_ H].
  apply (H unreadable IOError). vm_compute. reflexivity.
Defined.

(* ===================================================================== *)
(** ** A stage run a second time                                         *)
(* ===================================================================== *)

Section SecondRun.

Import FeatureProcessor.

Lemma has_column_derive c dst src f df df' :
  derive dst src f df = Ok df' ->
  has_column c df' = String.eqb c dst || has_column c df.
Proof.
  intros H. apply derive_ok in H as (col & v & _ & _ & ->).
  apply has_column_setitem.
Qed.

Lemma has_column_drop c labels df df' :
  drop labels df = Ok df' ->
  has_column c df' = negb (mem c labels) && has_column c df.
Proof.
  intros H. apply drop_ok in H as [_ ->].
  unfold has_column, columns. cbn [cols].
  destruct (mem c labels) eqn:E; simpl.
  - apply mem_false. intros Hin. apply In_remove in Hin as [_ Hn].
    apply Hn, mem_In, E.
  - destruct (mem c (map fst (cols df))) eqn:F.
    + apply mem_In. apply mem_In in F. apply in_map_iff in F as ([n v] & Hn & Hin).
      simpl in Hn. subst n.
      apply in_map_iff. exists (c, v). split; [reflexivity|].
      apply filter_In. split; [exact Hin|]. simpl. rewrite E. reflexivity.
    + apply mem_false. intros Hin. apply In_remove in Hin as [Hin _].
      apply mem_In in Hin. congruence.
Qed.

(** The member processor drops [registration_init_time] from the table it
    returns. *)
Lemma members_parse_drops df df' out :
  MembersProcessor.parse df = (df', Ok out) ->
  has_column "registration_init_time" out = false.
Proof.
  intros H. pose proof (members_parse_checked _ _ _ H) as [-> _].
  unfold MembersProcessor.parse in H. invert_ok.
  match goal with
  | Ha : assert_no_null _ = (_, Ok _) |- _ => apply assert_no_null_ok in Ha as [-> _]
  end.
  unfold sget in H. injection H as <-.
  repeat match goal with
    | E : derive _ _ _ ?x = Ok ?y |- context [has_column _ ?y] =>
        rewrite (has_column_derive _ _ _ _ _ _ E); simpl; clear E
    end.
  match goal with
  | E : drop _ _ = Ok _ |- _ => rewrite (has_column_drop _ _ _ _ E)
  end.
  reflexivity.
Qed.

(** ... and does not return on a table without that column. *)
Lemma members_parse_needs_registration df df' out :
  MembersProcessor.parse df = (df', Ok out) ->
  has_column "registration_init_time" df = true.
Proof.
  unfold MembersProcessor.parse. intros H. invert_ok.
  match goal with
  | E : MembersProcessor.set_membership_days _ = Ok _ |- _ =>
      unfold MembersProcessor.set_membership_days in E; invert_ok
  end.
  match goal with
  | E : getitem "registration_init_time" _ = Ok _ |- _ =>
      apply getitem_ok_has in E; rename E into Hc
  end.
  match goal with
  | E : fillna _ _ _ = Ok _ |- _ => rewrite (has_column_fillna _ _ _ _ _ E) in Hc
  end.
  exact Hc.
Qed.

(** The play-count step does not return on a table that has a column
    [play_count] already: the merge renames the two columns of that name,
    and the fill finds none. *)
Lemma generate_play_count_again ref_df df out :
  EngineeringProcessor.generate_play_count ref_df df = Ok out ->
  has_column "play_count" df = false.
Proof.
  unfold EngineeringProcessor.generate_play_count. intros H. invert_ok.
  match goal with
  | E : set_columns _ _ = Ok _ |- _ =>
      unfold set_columns, value_counts_frame in E; simpl in E; injection E as <-
  end.
  match goal with
  | E : merge df _ _ = Ok _ |- _ =>
      apply merge_counts in E as (keys & _ & _ & Hc);
        [| reflexivity | discriminate | apply value_counts_keys_distinct]
  end.
  apply fillna_ok in H as (col & Hcol & _). unfold getitem in Hcol.
  rewrite Hc in Hcol. destruct (has_column "play_count" df); [discriminate|reflexivity].
Qed.

Lemma stage_raises {A} (m : stateful t A) v o :
  Stage.sets_state v m ->
  (forall o' a, m o <> (o', Ok a)) ->
  exists e, snd (m o) = Raise e /\ state (fst (m o)) = state o.
Proof.
  intros Hs Hn. destruct (m o) as [o' [a|e]] eqn:E.
  - exfalso. apply (Hn o' a). reflexivity.
  - exists e. split; [reflexivity|]. apply (Hs o o' (Raise e) E).
Qed.

End SecondRun.

(** X2: [pre_process] returns at most once on the tables of one load.
    The member processor drops [registration_init_time] and reads it, so
    after a [pre_process] that returned, a second one raises (at the member
    table, if not before), and leaves the marker at [PREPROCESS_READY]. *)
Theorem pre_process_returns_once (o o1 : FeatureProcessor.t) :
  FeatureProcessor.pre_process o = (o1, Ok tt) ->
  exists e,
    snd (FeatureProcessor.pre_process o1) = Raise e
    /\ FeatureProcessor.state (fst (FeatureProcessor.pre_process o1))
       = FeatureProcessor.PREPROCESS_READY.
Proof.
  intros H.
  assert (Hs : FeatureProcessor.state o1 = FeatureProcessor.PREPROCESS_READY).
  { apply (StageFacts.pre_process_sets o o1 (Ok tt) H). }
  apply pre_process_ok in H
    as (tr0 & train0' & train1 & train1' & test1 & me0 & members1 & so0
        & songs1 & ex0 & extra1 & songs2 & train2 & test2 & train3 & test3
        & _ & _ & _ & _ & _ & _ & Hpm & _ & _ & _ & _ & _ & _ & _ & ->).
  apply members_parse_drops in Hpm.
  rewrite <- Hs.
  apply (stage_raises _ FeatureProcessor.PREPROCESS_READY);
    [apply StageFacts.pre_process_sets|].
  intros o' a H2.
  apply pre_process_ok in H2
    as (? & ? & ? & ? & ? & me & ? & ? & ? & ? & ? & ? & ? & ? & ? & ?
        & _ & Hme & _ & _ & _ & _ & Hpm2 & _).
  simpl in Hme. injection Hme as <-.
  apply members_parse_needs_registration in Hpm2. congruence.
Qed.

Lemma pre_process_returns_once_witness :
  let o := fst (FeatureProcessor.load_raw Sample.files FeatureProcessor.init) in
  let o1 := fst (FeatureProcessor.pre_process o) in
  snd (FeatureProcessor.pre_process o) = Ok tt
  /\ exists e, snd (FeatureProcessor.pre_process o1) = Raise e
               /\ FeatureProcessor.state (fst (FeatureProcessor.pre_process o1)) = 2.
Proof.
  intros o o1. split; [vm_compute; reflexivity|].
  apply (pre_process_returns_once o o1). vm_compute. reflexivity.
Defined.

(** X3: [feature_engineering] returns at most once as well.  The train
    table it stores has the column [play_count]; on a second call the merge
    of the play-count step renames that column and the one it brings, the
    fill of [play_count] finds neither, and the call raises, leaving the
    marker at [ENGINEERING_READY]. *)
Theorem feature_engineering_returns_once (o o1 : FeatureProcessor.t) :
  FeatureProcessor.feature_engineering o = (o1, Ok tt) ->
  exists e,
    snd (FeatureProcessor.feature_engineering o1) = Raise e
    /\ FeatureProcessor.state (fst (FeatureProcessor.feature_engineering o1))
       = FeatureProcessor.ENGINEERING_READY.
Proof.
  intros H.
  assert (Hs : FeatureProcessor.state o1 = FeatureProcessor.ENGINEERING_READY).
  { apply (StageFacts.feature_engineering_sets o o1 (Ok tt) H). }
  apply feature_engineering_ok in H
    as (tr0 & te0 & comb & tr & te & _ & _ & _ & Hp & _ & ->).
  assert (Hc : has_column "play_count" tr = true).
  { destruct (engineered_columns_filled tr0 tr0 tr "play_count" Hp) as (col & Hcol & _);
      [simpl; auto|].
    apply getitem_ok_has in Hcol. exact Hcol. }
  rewrite <- Hs.
  apply (stage_raises _ FeatureProcessor.ENGINEERING_READY);
    [apply StageFacts.feature_engineering_sets|].
  intros o' a H2.
  apply feature_engineering_ok in H2
    as (tr' & ? & ? & ? & ? & Htr & _ & _ & Hp2 & _).
  simpl in Htr. injection Htr as <-.
  unfold EngineeringProcessor.parse in Hp2. invert_ok.
  match goal with
  | E : EngineeringProcessor.generate_play_count _ _ = Ok _ |- _ =>
      apply generate_play_count_again in E
  end.
  congruence.
Qed.

Lemma feature_engineering_returns_once_witness :
  let o := fst (FeatureProcessor.main Sample.files FeatureProcessor.init) in
  snd (FeatureProcessor.main Sample.files FeatureProcessor.init) = Ok tt
  /\ exists e, snd (FeatureProcessor.feature_engineering o) = Raise e
               /\ FeatureProcessor.state (fst (FeatureProcessor.feature_engineering o)) = 3.
Proof.
  intros o. split; [vm_compute; reflexivity|].
  apply (feature_engineering_returns_once
           (fst (sbind (FeatureProcessor.load_raw Sample.files)
                       (fun _ => FeatureProcessor.pre_process) FeatureProcessor.init)) o).
  vm_compute. reflexivity.
Defined.

(* ===================================================================== *)
(** ** The cell functions of the member and song-extra processors        *)
(* ===================================================================== *)

Section Cells.

Lemma Qle_bool_Z (a b : Z) : Qle_bool (inject_Z a) (inject_Z b) = (a <=? b).
Proof.
  unfold Qle_bool, inject_Z. simpl. rewrite !Z.mul_1_r. reflexivity.
Qed.

Lemma num_leb_int (a b : Z) : num_leb (VInt a) (VInt b) = Ok (a <=? b).
Proof. unfold num_leb. simpl. rewrite Qle_bool_Z. reflexivity. Qed.

(** Within three standard deviations of the mean: from 1 to 57 for a
    whole number of years. *)
Lemma bd_within (n : Z) :
  Qle_bool (Qabs (inject_Z n - MembersProcessor.bd_mean))
           (3 * MembersProcessor.bd_std)
  = (1 <=? n) && (n <=? 57).
Proof.
  destruct ((1 <=? n) && (n <=? 57)) eqn:E.
  - apply andb_true_iff in E as [E1 E2]. apply Z.leb_le in E1, E2.
    apply Qle_bool_iff, Qabs_Qle_condition.
    unfold MembersProcessor.bd_mean, MembersProcessor.bd_std, Qle, Qminus, Qplus,
      Qopp, Qmult, inject_Z. simpl. split; lia.
  - apply not_true_is_false. intros H.
    apply Qle_bool_iff, Qabs_Qle_condition in H as [H1 H2].
    unfold MembersProcessor.bd_mean, MembersProcessor.bd_std, Qle, Qminus, Qplus,
      Qopp, Qmult, inject_Z in H1, H2. simpl in H1, H2.
    apply andb_false_iff in E as [E|E]; apply Z.leb_gt in E; lia.
Qed.

End Cells.

(** X4: the age filter of the member processor.  A whole number of years
    is kept when it is from 8 to 57 and replaced by the text ['nan']
    otherwise (the bounds 7 and 120 of the first test, and the mean plus
    three standard deviations, 57.6, of the second); a missing age becomes
    the text ['nan'] as well, and an age given as text raises a
    [TypeError]. *)
Theorem transform_bd_outliers_keeps_8_to_57 :
  (forall n : Z,
      MembersProcessor.transform_bd_outliers (VInt n)
      = Ok (if (8 <=? n) && (n <=? 57) then VInt n else VStr "nan"))
  /\ MembersProcessor.transform_bd_outliers VNull = Ok (VStr "nan")
  /\ (forall s, MembersProcessor.transform_bd_outliers (VStr s) = Raise TypeError).
Proof.
  split; [|split; [reflexivity | intros s; reflexivity]].
  intros n. unfold MembersProcessor.transform_bd_outliers.
  rewrite !num_leb_int. cbn [Py.bind as_Q].
  destruct (120 <=? n) eqn:H120.
  - apply Z.leb_le in H120. cbn [Py.bind].
    replace (n <=? 57) with false by (symmetry; apply Z.leb_gt; lia).
    rewrite andb_false_r. reflexivity.
  - apply Z.leb_gt in H120. cbn [Py.bind].
    destruct (n <=? 7) eqn:H7.
    + apply Z.leb_le in H7.
      replace (8 <=? n) with false by (symmetry; apply Z.leb_gt; lia).
      reflexivity.
    + apply Z.leb_gt in H7. rewrite bd_within.
      replace (1 <=? n) with true by (symmetry; apply Z.leb_le; lia).
      replace (8 <=? n) with true by (symmetry; apply Z.leb_le; lia).
      simpl. destruct (n <=? 57); reflexivity.
Qed.

Section IsrcYear.

Lemma substring_length n m s : (String.length (String.substring n m s) <= m)%nat.
Proof.
  revert n m. induction s as [|c s IH]; intros n m.
  - destruct n, m; simpl; lia.
  - destruct n as [|n].
    + destruct m as [|m]; simpl; [lia|]. specialize (IH 0%nat m). lia.
    + simpl. apply IH.
Qed.

Lemma lstrip_length l : (List.length (lstrip l) <= List.length l)%nat.
Proof.
  induction l as [|c l IH]; simpl; [lia|]. destruct (is_space c); simpl; lia.
Qed.

Lemma strip_length l : (List.length (strip l) <= List.length l)%nat.
Proof.
  unfold strip. rewrite length_rev.
  pose proof (lstrip_length (rev (lstrip l))) as H. rewrite length_rev in H.
  pose proof (lstrip_length l). lia.
Qed.

Lemma length_list_ascii_of_string s :
  List.length (list_ascii_of_string s) = String.length s.
Proof. induction s; simpl; congruence. Qed.

(** The number a run of digits stands for, given the number read so far. *)
Lemma digits_value_bound l : forall acc prev n,
  digits_value l acc prev = Some n -> 0 <= acc ->
  acc <= n < (acc + 1) * 10 ^ Z.of_nat (List.length l).
Proof.
  induction l as [|c l IH]; intros acc prev n H Hacc.
  - simpl in H. destruct prev; [|discriminate]. injection H as <-. simpl. lia.
  - cbn [digits_value] in H.
    replace (Z.of_nat (List.length (c :: l))) with (Z.succ (Z.of_nat (List.length l)))
      by (simpl List.length; lia).
    rewrite Z.pow_succ_r by lia.
    assert (Hp : 0 < 10 ^ Z.of_nat (List.length l)) by (apply Z.pow_pos_nonneg; lia).
    destruct (is_digit c) eqn:D.
    + unfold is_digit in D. apply andb_true_iff in D as [D1 D2].
      apply Nat.leb_le in D1, D2.
      apply IH in H; [|lia]. nia.
    + destruct (Ascii.eqb c "_" && prev); [|discriminate].
      destruct l as [|d l']; [discriminate|].
      destruct (is_digit d); [|discriminate].
      apply IH in H; [|lia]. nia.
Qed.

Lemma int_of_str_bound s n :
  int_of_str s = Ok n -> (String.length s <= 2)%nat -> -9 <= n <= 99.
Proof.
  unfold int_of_str. intros H Hs.
  pose proof (strip_length (list_ascii_of_string s)) as Hl.
  rewrite length_list_ascii_of_string in Hl.
  destruct (strip (list_ascii_of_string s)) as [|c l] eqn:E.
  - simpl in H. discriminate.
  - simpl in Hl.
    assert (Hb : forall body m, digits_value body 0 false = Some m ->
                                (List.length body <= 2)%nat -> 0 <= m <= 99).
    { intros body m Hm Hlen. apply digits_value_bound in Hm; [|lia].
      assert (10 ^ Z.of_nat (List.length body) <= 10 ^ 2)
        by (apply Z.pow_le_mono_r; lia).
      lia. }
    assert (Hb1 : forall body m, digits_value body 0 false = Some m ->
                                 (List.length body <= 1)%nat -> 0 <= m <= 9).
    { intros body m Hm Hlen. apply digits_value_bound in Hm; [|lia].
      assert (10 ^ Z.of_nat (List.length body) <= 10 ^ 1)
        by (apply Z.pow_le_mono_r; lia).
      lia. }
    destruct (Ascii.eqb c "-").
    + destruct (digits_value l 0 false) as [m|] eqn:F; [|discriminate].
      injection H as <-. apply Hb1 in F; [lia | lia].
    + destruct (Ascii.eqb c "+").
      * destruct (digits_value l 0 false) as [m|] eqn:F; [|discriminate].
        injection H as <-. apply Hb1 in F; [lia | lia].
      * destruct (digits_value (c :: l) 0 false) as [m|] eqn:F; [|discriminate].
        injection H as <-. apply Hb in F; [lia | simpl; lia].
Qed.

Lemma transform_isrc_to_year_range isrc y :
  SongExtraProcessor.transform_isrc_to_year isrc = Ok y -> year_of_isrc isrc y.
Proof.
  destruct isrc as [|s|n|q|d]; simpl; try (intros [= <-]; reflexivity).
  intros H. apply bind_ok in H as (suffix & Hs & H). injection H as <-.
  apply int_of_str_bound in Hs; [|apply substring_length].
  exists (if suffix >? 17 then 1900 + suffix else 2000 + suffix).
  split; [reflexivity|].
  destruct (suffix >? 17) eqn:E.
  - apply Z.gtb_lt in E. lia.
  - assert (suffix <= 17) by (rewrite Z.gtb_ltb in E; apply Z.ltb_ge in E; exact E).
    lia.
Qed.

Lemma one_hot_encode_year_recent isrc y :
  year_of_isrc isrc y -> SongExtraProcessor.one_hot_encode_year y = Ok (recent y).
Proof.
  destruct isrc; simpl; try (intros ->; reflexivity).
  intros (n & -> & _). unfold SongExtraProcessor.one_hot_encode_year, recent.
  rewrite !num_leb_int. reflexivity.
Qed.

Lemma mapM_Forall2 {A B} (f : A -> result B) (P : A -> B -> Prop) l l' :
  (forall x y, f x = Ok y -> P x y) -> mapM f l = Ok l' -> Forall2 P l l'.
Proof.
  intros Hf H. apply mapM_ok_Forall2 in H.
  induction H; constructor; auto.
Qed.

Lemma mapM_Forall2_total {A B C} (f : B -> result C) (g : B -> C)
      (P : A -> B -> Prop) l l' :
  (forall x y, P x y -> f y = Ok (g y)) -> Forall2 P l l' ->
  mapM f l' = Ok (map g l').
Proof.
  intros Hf H. induction H; simpl; [reflexivity|].
  rewrite (Hf _ _ H), IHForall2. reflexivity.
Qed.

End IsrcYear.

(** X5: the release year of the song-extra processor.  For a song whose
    ISRC is a text the year is read off its characters 5 and 6 and lies
    from 1918 to 2017; a song without ISRC has none.  The flag
    [1h_song_year] is computed before the missing years are filled with
    2017: a song without ISRC ends with [song_year] 2017 and the flag 0,
    while a song whose ISRC says 2017 has the flag 1.  The columns [name]
    and [isrc] are gone from the result. *)
Theorem song_year_of_isrc (df df' out : DataFrame) (isrc : list value) :
  SongExtraProcessor.parse df = (df', Ok out) ->
  getitem "isrc" df = Ok isrc ->
  exists years,
    Forall2 year_of_isrc isrc years
    /\ getitem "song_year" out = Ok (map (fill (VInt 2017)) years)
    /\ getitem "1h_song_year" out = Ok (map recent years)
    /\ has_column "isrc" out = false
    /\ has_column "name" out = false.
Proof.
  intros H Hisrc. unfold SongExtraProcessor.parse in H.
  apply sbind_ok in H as (s1 & ? & E1 & H). apply update_ok in E1.
  apply sbind_ok in H as (s2 & ? & E2 & H). apply update_ok in E2.
  apply sbind_ok in H as (s3 & ? & E3 & H). apply update_ok in E3.
  apply sbind_ok in H as (s4 & ? & E4 & H). apply update_ok in E4.
  apply sbind_ok in H as (s5 & ? & E5 & H). apply assert_no_null_ok in E5 as [-> _].
  unfold sget in H. injection H as _ <-.
  pose proof (has_column_drop "isrc" _ _ _ E2) as Hi.
  pose proof (has_column_drop "name" _ _ _ E2) as Hn.
  pose proof (same_key_drop "song_year" ["name"; "isrc"] s1 s2 eq_refl E2) as (K2 & _).
  apply derive_ok in E1 as (col & years & Hcol & Hyears & ->).
  rewrite Hisrc in Hcol. injection Hcol as <-.
  rewrite getitem_setitem_same in K2.
  apply derive_ok in E3 as (col3 & flags & Hcol3 & Hflags & ->).
  rewrite K2 in Hcol3. injection Hcol3 as <-.
  apply fillna_ok in E4 as (col4 & Hcol4 & ->).
  rewrite getitem_setitem_other, K2 in Hcol4 by discriminate. injection Hcol4 as <-.
  assert (Hy : Forall2 year_of_isrc isrc years).
  { eapply mapM_Forall2; [|exact Hyears]. apply transform_isrc_to_year_range. }
  rewrite (mapM_Forall2_total _ recent year_of_isrc isrc years) in Hflags;
    [|apply one_hot_encode_year_recent | exact Hy].
  injection Hflags as <-.
  exists years. split; [exact Hy|].
  split; [apply getitem_setitem_same|].
  split; [rewrite getitem_setitem_other by discriminate; apply getitem_setitem_same|].
  rewrite !has_column_setitem, Hi, Hn. split; reflexivity.
Qed.

Lemma song_year_of_isrc_witness :
  exists out,
    snd (SongExtraProcessor.parse isrc_table) = Ok out
    /\ getitem "song_year" out = Ok [VInt 2017; VInt 2017]
    /\ getitem "1h_song_year" out = Ok [VInt 1; VInt 0].
Proof.
  destruct (SongExtraProcessor.parse isrc_table) as [df' [out|e]] eqn:E;
    [|vm_compute in E; discriminate].
  exists out. split; [reflexivity|].
  destruct (song_year_of_isrc isrc_table df' out [VStr "TWUM71700043"; VNull] E eq_refl)
    as (years & Hy & Hs & Hf & _).
  vm_compute in E. injection E as _ <-. split; reflexivity.
Defined.

(* ===================================================================== *)
(** ** The song processor, column by column                              *)
(* ===================================================================== *)

Section SongColumns.

Lemma has_getitem c df : has_column c df = true -> exists v, getitem c df = Ok v.
Proof.
  intros H. unfold getitem. destruct (lookup c (cols df)) eqn:E; [eauto|].
  apply lookup_has_column in E. congruence.
Qed.

Lemma sbind_update_ok {S B} (f : S -> result S) (k : unit -> stateful S B) s s' :
  f s = Ok s' -> sbind (update f) k s = k tt s'.
Proof. intros H. unfold sbind, update. rewrite H. reflexivity. Qed.

Lemma sbind_update_raise {S B} (f : S -> result S) (k : unit -> stateful S B) s e :
  f s = Raise e -> sbind (update f) k s = (s, Raise e).
Proof. intros H. unfold sbind, update. rewrite H. reflexivity. Qed.

Lemma fillna_has c v df :
  has_column c df = true ->
  exists col, getitem c df = Ok col /\ fillna c v df = Ok (setitem c (map (fill v) col) df).
Proof.
  intros H. apply has_getitem in H as (col & H). exists col. split; [exact H|].
  unfold fillna. rewrite H. reflexivity.
Qed.

Lemma mapM_raise {A B} (f : A -> result B) (e : exn) (l : list A) :
  (forall x, In x l -> f x = Raise e \/ exists y, f x = Ok y) ->
  (exists x, In x l /\ f x = Raise e) ->
  mapM f l = Raise e.
Proof.
  induction l as [|x l IH]; intros Hall (x0 & Hin & Hx0); [contradiction|].
  simpl. destruct (Hall x (or_introl eq_refl)) as [E|(y & E)]; rewrite E; [reflexivity|].
  rewrite IH; [reflexivity | intros z Hz; apply Hall; simpl; auto |].
  destruct Hin as [->|Hin]; [congruence|]. eauto.
Qed.

Lemma mapM_map {A B C} (f : B -> result C) (h : A -> B) (l : list A) :
  mapM f (map h l) = mapM (fun x => f (h x)) l.
Proof.
  induction l as [|x l IH]; simpl; [reflexivity|]. rewrite IH. reflexivity.
Qed.

Lemma pieces_of_filled (l : list value) :
  mapM SongsProcessor.parse_splitted_category_to_number (map (fill (VStr "nan")) l)
  = Ok (map pieces l).
Proof. rewrite mapM_map. apply mapM_total. intros x. destruct x; reflexivity. Qed.

Lemma is_featured_total x :
  SongsProcessor.with_int8 SongsProcessor.is_featured x
  = Ok (of_bool (contains "feat" (str x))).
Proof.
  unfold SongsProcessor.with_int8, SongsProcessor.is_featured, of_bool. simpl.
  destruct (contains "feat" (str x)); reflexivity.
Qed.

Lemma artist_count_cell x :
  SongsProcessor.with_int8 SongsProcessor.artist_count
    (fill (VStr "no_artist") x)
  = if not_text x then Raise AttributeError
    else SongsProcessor.with_int8 SongsProcessor.artist_count
           (fill (VStr "no_artist") x).
Proof. destruct x; reflexivity. Qed.

Lemma artist_count_text x :
  not_text x = false ->
  exists y, SongsProcessor.with_int8 SongsProcessor.artist_count
              (fill (VStr "no_artist") x) = Ok y.
Proof.
  destruct x as [|s| | |]; try discriminate; intros _.
  - eexists. reflexivity.
  - unfold fill. simpl is_null. cbv iota.
    unfold SongsProcessor.with_int8, SongsProcessor.artist_count.
    destruct (py_eqb (VStr s) (VStr "no_artist")); simpl; eauto.
Qed.

Lemma parse_splitted_pieces x :
  SongsProcessor.parse_splitted_category_to_number (fill (VStr "nan") x)
  = Ok (pieces x).
Proof. destruct x; reflexivity. Qed.

End SongColumns.

Ltac kept c E K :=
  pose proof E as K;
  first [ apply (same_key_fillna c) in K
        | apply (same_key_derive c) in K
        | apply (same_key_same_columns c) in K
        | apply (same_key_same_three c) in K
        | apply (same_key_drop c) in K ];
  [destruct K as (K & _) | first [discriminate | reflexivity]].

(** X6: the three counts of the song processor.  The cells of
    [genre_count], [composer_count] and [lyricist_count] are one more than
    the number of bars in the cell they are counted from, after the missing
    cells have been filled with the text ['nan'].  So the branch of the
    source for a missing cell never runs there, and a song without genre
    has [genre_count] 1, as has a song whose genres are separated by
    anything but a bar: no count is below 1. *)
Theorem song_counts_are_bars_plus_one
        (df df' out : DataFrame) (genres composers lyricists : list value) :
  SongsProcessor.parse df = (df', Ok out) ->
  getitem "genre_ids" df = Ok genres ->
  getitem "composer" df = Ok composers ->
  getitem "lyricist" df = Ok lyricists ->
  getitem "genre_count" out = Ok (map pieces genres)
  /\ getitem "composer_count" out = Ok (map pieces composers)
  /\ getitem "lyricist_count" out = Ok (map pieces lyricists)
  /\ pieces VNull = VInt 1
  /\ (forall s, count "|" s = 0 -> pieces (VStr s) = VInt 1)
  /\ (forall x, exists n, pieces x = VInt n /\ 1 <= n).
Proof.
  intros H Hg Hc Hl. unfold SongsProcessor.parse in H.
  apply sbind_ok in H as (s1 & ? & E1 & H). apply update_ok in E1.
  apply sbind_ok in H as (s2 & ? & E2 & H). apply update_ok in E2.
  apply sbind_ok in H as (s3 & ? & E3 & H). apply update_ok in E3.
  apply sbind_ok in H as (s4 & ? & E4 & H). apply update_ok in E4.
  apply sbind_ok in H as (s5 & ? & E5 & H). apply update_ok in E5.
  apply sbind_ok in H as (s6 & ? & E6 & H). apply update_ok in E6.
  apply sbind_ok in H as (s7 & ? & E7 & H). apply update_ok in E7.
  apply sbind_ok in H as (s8 & ? & E8 & H). apply update_ok in E8.
  apply sbind_ok in H as (s9 & ? & E9 & H). apply update_ok in E9.
  apply sbind_ok in H as (s10 & ? & E10 & H). apply update_ok in E10.
  apply sbind_ok in H as (s11 & ? & E11 & H). apply update_ok in E11.
  apply sbind_ok in H as (s12 & ? & E12 & H). apply update_ok in E12.
  apply sbind_ok in H as (s13 & ? & E13 & H). apply update_ok in E13.
  apply sbind_ok in H as (s14 & ? & E14 & H). apply update_ok in E14.
  apply sbind_ok in H as (s15 & ? & E15 & H). apply update_ok in E15.
  apply sbind_ok in H as (s16 & ? & E16 & H). apply update_ok in E16.
  apply sbind_ok in H as (s17 & ? & E17 & H). apply update_ok in E17.
  apply sbind_ok in H as (s18 & ? & E18 & H). apply assert_no_null_ok in E18 as [-> _].
  unfold sget in H. injection H as _ <-.
  (* the three columns as they are filled *)
  assert (Hc3 : getitem "composer" s3 = Ok (map (fill (VStr "nan")) composers)).
  { apply fillna_ok in E3 as (col & Hcol & ->).
    kept "composer" E1 K1.
    kept "composer" E2 K2.
    rewrite K2, K1, Hc in Hcol. injection Hcol as <-. apply getitem_setitem_same. }
  assert (Hl4 : getitem "lyricist" s4 = Ok (map (fill (VStr "nan")) lyricists)).
  { apply fillna_ok in E4 as (col & Hcol & ->).
    kept "lyricist" E1 K1.
    kept "lyricist" E2 K2.
    kept "lyricist" E3 K3.
    rewrite K3, K2, K1, Hl in Hcol. injection Hcol as <-. apply getitem_setitem_same. }
  assert (Hg5 : getitem "genre_ids" s5 = Ok (map (fill (VStr "nan")) genres)).
  { apply fillna_ok in E5 as (col & Hcol & ->).
    kept "genre_ids" E1 K1.
    kept "genre_ids" E2 K2.
    kept "genre_ids" E3 K3.
    kept "genre_ids" E4 K4.
    rewrite K4, K3, K2, K1, Hg in Hcol. injection Hcol as <-.
    apply getitem_setitem_same. }
  (* what the steps in between leave alone *)
  assert (K : forall c,
             c <> "is_featured" -> c <> "artist_count" -> c <> "artist_composer" ->
             c <> "artist_composer_lyricist" -> c <> "song_lang_boolean" ->
             getitem c s12 = getitem c s5).
  { intros c N1 N2 N3 N4 N5.
    destruct (same_key_derive c _ _ _ _ _ N1 E6) as (K6 & _).
    destruct (same_key_derive c _ _ _ _ _ N2 E7) as (K7 & _).
    destruct (same_key_same_columns c _ _ _ _ _ N3 E8) as (K8 & _).
    destruct (same_key_derive c _ _ _ _ _ N3 E9) as (K9 & _).
    destruct (same_key_same_three c _ _ _ _ _ _ N4 E10) as (K10 & _).
    destruct (same_key_derive c _ _ _ _ _ N4 E11) as (K11 & _).
    destruct (same_key_derive c _ _ _ _ _ N5 E12) as (K12 & _).
    congruence. }
  assert (K5 : forall c, c <> "genre_ids" -> getitem c s5 = getitem c s4).
  { intros c N. apply (same_key_fillna c _ _ _ _ N E5). }
  assert (K4 : forall c, c <> "lyricist" -> getitem c s4 = getitem c s3).
  { intros c N. apply (same_key_fillna c _ _ _ _ N E4). }
  (* the counts *)
  apply derive_ok in E13 as (col13 & v13 & Hcol13 & Hv13 & ->).
  rewrite K, Hg5 in Hcol13 by discriminate. injection Hcol13 as <-.
  rewrite pieces_of_filled in Hv13. injection Hv13 as <-.
  apply derive_ok in E14 as (col14 & v14 & Hcol14 & Hv14 & ->).
  rewrite getitem_setitem_other, K, K5, K4, Hc3 in Hcol14 by discriminate.
  injection Hcol14 as <-.
  rewrite pieces_of_filled in Hv14. injection Hv14 as <-.
  apply derive_ok in E15 as (col15 & v15 & Hcol15 & Hv15 & ->).
  rewrite !getitem_setitem_other, K, K5, Hl4 in Hcol15 by discriminate.
  injection Hcol15 as <-.
  rewrite pieces_of_filled in Hv15. injection Hv15 as <-.
  kept "genre_count" E16 G16. kept "genre_count" E17 G17.
  kept "composer_count" E16 C16. kept "composer_count" E17 C17.
  kept "lyricist_count" E16 L16. kept "lyricist_count" E17 L17.
  rewrite G17, G16, C17, C16, L17, L16.
  rewrite !getitem_setitem_other by discriminate.
  rewrite getitem_setitem_same.
  rewrite (getitem_setitem_other "composer_count" "lyricist_count") by discriminate.
  rewrite !getitem_setitem_same.
  repeat split.
  - intros s Hs. unfold pieces. simpl. rewrite Hs. reflexivity.
  - intros v. unfold pieces, count. eexists. split; [reflexivity|]. lia.
Qed.

Lemma song_counts_are_bars_plus_one_witness :
  exists out,
    snd (SongsProcessor.parse Sample.songs) = Ok out
    /\ getitem "genre_count" out = Ok [VInt 2; VInt 1].
Proof.
  destruct (SongsProcessor.parse Sample.songs) as [df' [out|e]] eqn:E;
    [|vm_compute in E; discriminate].
  exists out. split; [reflexivity|].
  destruct (song_counts_are_bars_plus_one
              Sample.songs df' out [VStr "465|458"; VNull] [VStr "Z"; VStr "Z"]
              [VNull; VStr "Z"] E eq_refl eq_refl eq_refl) as (Hg & _).
  exact Hg.
Defined.

(** X7: an artist name that is neither missing nor a text stops the song
    processor.  On a table that has the five columns it fills, with such a
    cell in [artist_name], the call raises an [AttributeError] at the
    artist count; the table it was given is left with the five columns
    filled and the column [is_featured] added, and with no column
    [artist_count] if it had none. *)
Theorem songs_parse_numeric_artist (df : DataFrame) (artists : list value) :
  getitem "artist_name" df = Ok artists ->
  has_column "language" df = true ->
  has_column "composer" df = true ->
  has_column "lyricist" df = true ->
  has_column "genre_ids" df = true ->
  existsb not_text artists = true ->
  snd (SongsProcessor.parse df) = Raise AttributeError
  /\ getitem "artist_name" (fst (SongsProcessor.parse df))
     = Ok (map (fill (VStr "no_artist")) artists)
  /\ getitem "is_featured" (fst (SongsProcessor.parse df))
     = Ok (map (fun x => of_bool (contains "feat" (str (fill (VStr "no_artist") x))))
               artists)
  /\ has_column "artist_count" (fst (SongsProcessor.parse df))
     = has_column "artist_count" df.
Proof.
  intros Ha Hl Hc Hy Hg Hbad. unfold SongsProcessor.parse.
  (* the five fills *)
  assert (F1 : fillna "artist_name" (VStr "no_artist") df
               = Ok (setitem "artist_name" (map (fill (VStr "no_artist")) artists) df)).
  { unfold fillna. rewrite Ha. reflexivity. }
  rewrite (sbind_update_ok _ _ _ _ F1).
  set (s1 := setitem "artist_name" _ df).
  destruct (fillna_has "language" (VStr "nan") s1) as (c2 & _ & F2).
  { unfold s1. rewrite has_column_setitem, Hl. apply orb_true_r. }
  rewrite (sbind_update_ok _ _ _ _ F2). set (s2 := setitem "language" _ s1).
  destruct (fillna_has "composer" (VStr "nan") s2) as (c3 & _ & F3).
  { unfold s2, s1. rewrite !has_column_setitem, Hc. rewrite !orb_true_r. reflexivity. }
  rewrite (sbind_update_ok _ _ _ _ F3). set (s3 := setitem "composer" _ s2).
  destruct (fillna_has "lyricist" (VStr "nan") s3) as (c4 & _ & F4).
  { unfold s3, s2, s1. rewrite !has_column_setitem, Hy. rewrite !orb_true_r. reflexivity. }
  rewrite (sbind_update_ok _ _ _ _ F4). set (s4 := setitem "lyricist" _ s3).
  destruct (fillna_has "genre_ids" (VStr "nan") s4) as (c5 & _ & F5).
  { unfold s4, s3, s2, s1. rewrite !has_column_setitem, Hg. rewrite !orb_true_r.
    reflexivity. }
  rewrite (sbind_update_ok _ _ _ _ F5). set (s5 := setitem "genre_ids" _ s4).
  assert (A5 : getitem "artist_name" s5 = Ok (map (fill (VStr "no_artist")) artists)).
  { unfold s5, s4, s3, s2, s1. rewrite !getitem_setitem_other by discriminate.
    apply getitem_setitem_same. }
  (* is_featured *)
  assert (F6 : derive "is_featured" "artist_name"
                 (SongsProcessor.with_int8 SongsProcessor.is_featured) s5
               = Ok (setitem "is_featured"
                       (map (fun x => of_bool (contains "feat"
                                                 (str (fill (VStr "no_artist") x))))
                            artists) s5)).
  { unfold derive, apply. rewrite A5. cbn [Py.bind]. rewrite mapM_map.
    rewrite (mapM_total _ (fun x => of_bool (contains "feat"
                                               (str (fill (VStr "no_artist") x))))).
    - reflexivity.
    - intros x. apply is_featured_total. }
  rewrite (sbind_update_ok _ _ _ _ F6). set (s6 := setitem "is_featured" _ s5).
  (* artist_count *)
  assert (F7 : derive "artist_count" "artist_name"
                 (SongsProcessor.with_int8 SongsProcessor.artist_count) s6
               = Raise AttributeError).
  { unfold derive, apply. unfold s6. rewrite getitem_setitem_other, A5 by discriminate.
    cbn [Py.bind]. rewrite mapM_map. rewrite (mapM_raise _ AttributeError).
    - reflexivity.
    - intros x _. rewrite artist_count_cell. destruct (not_text x) eqn:N; [auto|].
      right. apply artist_count_text, N.
    - apply existsb_exists in Hbad as (x & Hin & Hx). exists x. split; [exact Hin|].
      rewrite artist_count_cell, Hx. reflexivity. }
  rewrite (sbind_update_raise _ _ _ _ F7). cbn [fst snd].
  split; [reflexivity|]. split; [|split].
  - unfold s6. rewrite getitem_setitem_other by discriminate. exact A5.
  - unfold s6. apply getitem_setitem_same.
  - unfold s6, s5, s4, s3, s2, s1. rewrite !has_column_setitem. reflexivity.
Qed.

Lemma songs_parse_numeric_artist_witness :
  snd (SongsProcessor.parse numeric_artist) = Raise AttributeError
  /\ has_column "is_featured" (fst (SongsProcessor.parse numeric_artist)) = true.
Proof.
  destruct (songs_parse_numeric_artist numeric_artist [VStr "X"; VInt 1975])
    as (H1 & _ & H2 & _); try reflexivity.
  split; [exact H1|]. apply getitem_ok_has in H2. exact H2.
Defined.

(* ===================================================================== *)
(** ** The engineering processor on the whole frame                      *)
(* ===================================================================== *)

Section EngineeringFrame.

Lemma appended_alike df l out : appended df l out -> alike out (mkDF (nrows df) (cols df ++ l)).
Proof. intros [H _]. exact H. Qed.

Lemma appended_nrows df l out : appended df l out -> nrows out = nrows df.
Proof. intros [[H _] _]. exact H. Qed.

Lemma appended_getitem df l out c v :
  appended df l out -> getitem c df = Ok v -> getitem c out = Ok v.
Proof.
  intros [H _] Hc. rewrite (alike_getitem _ _ c H). unfold getitem in *. cbn [cols].
  rewrite lookup_app. destruct (lookup c (cols df)); [exact Hc | discriminate].
Qed.

Lemma appended_has_column df l out c :
  appended df l out -> has_column c out = has_column c df || mem c (map fst l).
Proof.
  intros [H _]. rewrite (alike_has_column _ _ c H). apply has_column_app.
Qed.

Lemma appended_getitem_inv df l out c v :
  appended df l out -> getitem c out = Ok v -> lookup c l = None ->
  getitem c df = Ok v.
Proof.
  intros [H _] Hc Hl. rewrite (alike_getitem _ _ c H) in Hc.
  unfold getitem in *. cbn [cols] in Hc. rewrite lookup_app, Hl in Hc.
  destruct (lookup c (cols df)); [exact Hc | discriminate].
Qed.

Lemma appended_new df l out c :
  appended df l out -> has_column c df = false ->
  lookup c (cols out) = lookup c l.
Proof.
  intros [[_ H] _] Hc. rewrite H. cbn [cols]. apply lookup_has_column in Hc.
  rewrite lookup_app, Hc. reflexivity.
Qed.

(** One step after another. *)
Lemma appended_step df l l' d out :
  appended df l d -> appended d l' out -> appended df (l ++ l') out.
Proof.
  intros [A1 E1] [A2 E2]. split.
  - eapply alike_trans; [exact A2|]. rewrite app_assoc.
    apply (alike_app d (mkDF (nrows df) (cols df ++ l)) l' A1).
  - intros Hz. specialize (E1 Hz). subst d. cbn [nrows cols] in E2.
    rewrite (E2 Hz). rewrite app_assoc. reflexivity.
Qed.

Lemma generate_play_count_frame ref_df df out :
  uniform df ->
  EngineeringProcessor.generate_play_count ref_df df = Ok out ->
  has_column "play_count" df = false
  /\ uniform out
  /\ exists songs keys,
       getitem "song_id" ref_df = Ok songs
       /\ getitem "song_id" df = Ok keys
       /\ appended df [("play_count",
                        map (fun k => VInt (rows_with_key k songs)) keys)] out.
Proof.
  intros Hu H. unfold EngineeringProcessor.generate_play_count in H. invert_ok.
  match goal with
  | E : getitem "song_id" ref_df = Ok ?x |- _ => rename x into songs; rename E into Hs
  end.
  match goal with
  | E : set_columns _ _ = Ok _ |- _ =>
      unfold set_columns, value_counts_frame in E; simpl in E; injection E as <-
  end.
  match goal with
  | E : merge df _ _ = Ok _ |- _ =>
      pose proof (uniform_fillna _ _ _ _ (uniform_merge _ _ _ _ E) H) as Huo;
      destruct (merge_fill_frame _ _ _ _ _ _ _ _ _ E H eq_refl)
        as (Hl & keys & Hk & Hal & Hrows);
        [discriminate | apply value_counts_keys_distinct | exact Hu |]
  end.
  split; [exact Hl|]. split; [exact Huo|].
  exists songs, keys. split; [exact Hs|]. split; [exact Hk|].
  rewrite (map_ext _ (fun k => VInt (rows_with_key k songs)))
    in Hal, Hrows by (intros k; apply filled_count).
  split; [exact Hal | exact Hrows].
Qed.

Lemma generate_cover_lang_frame ref_df df out :
  uniform df ->
  EngineeringProcessor.generate_cover_lang ref_df df = Ok out ->
  has_column "cover_lang" df = false
  /\ uniform out
  /\ exists col, List.length col = nrows df
                 /\ appended df [("cover_lang", col)] out.
Proof.
  intros Hu H. unfold EngineeringProcessor.generate_cover_lang in H. invert_ok.
  match goal with
  | E : set_columns _ _ = Ok _ |- _ =>
      unfold set_columns, value_counts_frame in E; simpl in E; injection E as <-
  end.
  match goal with
  | E : merge df _ _ = Ok _ |- _ =>
      pose proof (uniform_fillna _ _ _ _ (uniform_merge _ _ _ _ E) H) as Huo;
      destruct (merge_fill_frame _ _ _ _ _ _ _ _ _ E H eq_refl)
        as (Hl & keys & Hk & Hal & Hrows);
        [discriminate | apply value_counts_keys_distinct | exact Hu |]
  end.
  split; [exact Hl|]. split; [exact Huo|]. eexists.
  split; [|split; [exact Hal | exact Hrows]].
  rewrite length_map. eapply uniform_getitem; eauto.
Qed.

End EngineeringFrame.

Section EngineeringParse.

Lemma generate_track_count_frame ref_df d1 out :
  uniform d1 ->
  EngineeringProcessor.generate_track_count ref_df d1 = Ok out ->
  has_column "track_count" d1 = false
  /\ uniform out
  /\ exists col, List.length col = nrows d1
                 /\ appended d1 [("track_count", col)] out.
Proof.
  intros Hu H.
  apply generate_track_count_ok in H
    as (songs & artists & keys & target & means & _ & _ & _ & _
        & (Hno & Huo & Hframe) & _).
  split; [exact Hno|]. split; [exact Huo|]. exact (Hframe Hu).
Qed.

(** The engineering processor returns the frame it was given with three
    columns more. *)
Lemma engineering_parse_frame ref_df df out :
  uniform df ->
  EngineeringProcessor.parse ref_df df = Ok out ->
  exists songs keys tc cl,
    getitem "song_id" ref_df = Ok songs
    /\ getitem "song_id" df = Ok keys
    /\ List.length tc = nrows df /\ List.length cl = nrows df
    /\ has_column "play_count" df = false
    /\ has_column "track_count" df = false
    /\ has_column "cover_lang" df = false
    /\ uniform out
    /\ appended df [("play_count",
                     map (fun k => VInt (rows_with_key k songs)) keys);
                    ("track_count", tc); ("cover_lang", cl)] out.
Proof.
  intros Hu H. unfold EngineeringProcessor.parse in H.
  apply bind_ok in H as (d1 & H1 & H).
  apply bind_ok in H as (d2 & H2 & H).
  apply bind_ok in H as (d3 & H3 & H). injection H as <-.
  apply (generate_play_count_frame _ _ _ Hu) in H1
    as (N1 & Hu1 & songs & keys & Hs & Hk & A1).
  apply (generate_track_count_frame _ _ _ Hu1) in H2 as (N2 & Hu2 & tc & Htc & A2).
  apply (generate_cover_lang_frame _ _ _ Hu2) in H3 as (N3 & Hu3 & cl & Hcl & A3).
  pose proof (appended_step _ _ _ _ _ A1 A2) as A12.
  pose proof (appended_step _ _ _ _ _ A12 A3) as A123. cbn [app] in A12, A123.
  rewrite (appended_nrows _ _ _ A1) in Htc.
  rewrite (appended_nrows _ _ _ A12) in Hcl.
  rewrite (appended_has_column _ _ _ _ A1) in N2.
  rewrite (appended_has_column _ _ _ _ A12) in N3.
  apply orb_false_iff in N2 as [N2 _]. apply orb_false_iff in N3 as [N3 _].
  exists songs, keys, tc, cl.
  repeat (split; [assumption|]). exact A123.
Qed.

End EngineeringParse.

(** X8: when the engineering processor returns, the result is the table
    it was given with exactly three columns more, [play_count],
    [track_count] and [cover_lang]: the row count, the names and the cells
    of the columns the table had are unchanged, and when the table has a
    row the three columns are last, in this order, behind the others in the
    order they had.  The table must not have had any of the three names
    before (a second run on the result raises). *)
Theorem engineering_appends_three_columns (ref_df df out : DataFrame) :
  uniform df ->
  EngineeringProcessor.parse ref_df df = Ok out ->
  has_column "play_count" df = false
  /\ has_column "track_count" df = false
  /\ has_column "cover_lang" df = false
  /\ (exists pc tc cl,
        List.length pc = nrows df /\ List.length tc = nrows df
        /\ List.length cl = nrows df
        /\ alike out
             (mkDF (nrows df)
                (cols df ++ [("play_count", pc); ("track_count", tc);
                             ("cover_lang", cl)]))
        /\ (nrows df <> 0%nat ->
            out = mkDF (nrows df)
                    (cols df ++ [("play_count", pc); ("track_count", tc);
                                 ("cover_lang", cl)])))
  /\ nrows out = nrows df
  /\ (forall c, has_column c out
                = has_column c df
                  || mem c ["play_count"; "track_count"; "cover_lang"])
  /\ (forall c v, getitem c df = Ok v -> getitem c out = Ok v)
  /\ (exists e, EngineeringProcessor.parse ref_df out = Raise e).
Proof.
  intros Hu H.
  destruct (engineering_parse_frame _ _ _ Hu H)
    as (songs & keys & tc & cl & _ & Hk & Ltc & Lcl & N1 & N2 & N3 & _ & A).
  split; [exact N1|]. split; [exact N2|]. split; [exact N3|].
  split.
  { eexists _, tc, cl. split; [|split; [exact Ltc | split; [exact Lcl | exact A]]].
    rewrite length_map. eapply uniform_getitem; eauto. }
  split; [exact (appended_nrows _ _ _ A)|].
  split; [intros c; exact (appended_has_column _ _ _ c A)|].
  split; [intros c v; apply (appended_getitem _ _ _ c v A)|].
  destruct (EngineeringProcessor.parse ref_df out) as [out2|e] eqn:E2; [|eauto].
  exfalso. unfold EngineeringProcessor.parse in E2.
  apply bind_ok in E2 as (d1 & H1 & _).
  apply generate_play_count_again in H1.
  rewrite (appended_has_column _ _ _ _ A), N1 in H1. discriminate.
Qed.

Lemma engineering_appends_three_columns_witness :
  exists out,
    EngineeringProcessor.parse five_rows five_rows = Ok out
    /\ columns out = ["song_id"; "artist_name"; "language"; "target";
                      "play_count"; "track_count"; "cover_lang"]
    /\ getitem "language" out = getitem "language" five_rows.
Proof.
  destruct (EngineeringProcessor.parse five_rows five_rows) as [out|e] eqn:E;
    [|vm_compute in E; discriminate].
  exists out. split; [reflexivity|].
  destruct (engineering_appends_three_columns five_rows five_rows out)
    as (_ & _ & _ & (pc & tc & cl & _ & _ & _ & _ & Hout) & _ & _ & Hk & _);
    [repeat constructor | exact E |].
  split; [rewrite Hout by discriminate; reflexivity|]. apply Hk. reflexivity.
Defined.

(** A target without rows: the three columns are added all the same, and
    the key columns of the merges come back behind the columns that were
    not keys. *)
Lemma engineering_without_rows :
  exists out,
    EngineeringProcessor.parse five_rows
      (mkDF 0 [("song_id", []); ("artist_name", []); ("language", []);
               ("target", [])]) = Ok out
    /\ columns out = ["language"; "target"; "song_id"; "play_count";
                      "track_count"; "artist_name"; "cover_lang"].
Proof. eexists. split; vm_compute; reflexivity. Qed.

(* ===================================================================== *)
(** ** Cover languages                                                   *)
(* ===================================================================== *)

Section CoverLang.

Lemma existsb_pair x l seen :
  existsb (tuple_eqb (pair_key (x, l))) (map pair_key seen)
  = existsb (fun q => key_eqb x (fst q) && key_eqb l (snd q)) seen.
Proof.
  induction seen as [|q seen IH]; [reflexivity|].
  cbn [map existsb]. rewrite IH. unfold pair_key at 1 2. simpl.
  rewrite andb_true_r. reflexivity.
Qed.

Lemma seen_pair a x l seen :
  key_eqb a x = true ->
  unseen (seen_languages a seen) l
  = negb (existsb (fun q => key_eqb x (fst q) && key_eqb l (snd q)) seen).
Proof.
  intros E. unfold unseen, seen_languages. f_equal.
  induction seen as [|q seen IH]; [reflexivity|]. simpl.
  rewrite <- (key_eqb_subst a x (fst q) E).
  destruct (key_eqb a (fst q)); simpl; rewrite IH; reflexivity.
Qed.

Lemma members_cons a x l A L :
  members a (x :: A) (l :: L)
  = if key_eqb a x then l :: members a A L else members a A L.
Proof. unfold members. simpl. destruct (key_eqb a x); reflexivity. Qed.

Lemma seen_languages_cons a x l seen :
  seen_languages a ((x, l) :: seen)
  = if key_eqb a x then l :: seen_languages a seen else seen_languages a seen.
Proof. unfold seen_languages. simpl. destruct (key_eqb a x); reflexivity. Qed.

(** The rows of the artist [a] among the first rows of the pairs of an
    artist and a language: one for each language of the artist. *)
Lemma count_first_pairs a : is_null a = false -> forall A L seen i,
  List.length A = List.length L ->
  List.length
    (filter (fun y => py_eqb y a)
       (map (fun j => nth (j - i) A VNull)
            (firsts (map pair_key seen) i (map pair_key (combine A L)))))
  = List.length (nub (filter (unseen (seen_languages a seen)) (members a A L))).
Proof.
  intros Ha. induction A as [|x A IH]; intros [|l L] seen i Hlen;
    try discriminate; [reflexivity|].
  injection Hlen as Hlen.
  cbn [combine map firsts]. rewrite existsb_pair.
  assert (Hshift : forall s,
             map (fun j => nth (j - i) (x :: A) VNull)
                 (firsts (map pair_key s) (S i) (map pair_key (combine A L)))
             = map (fun j => nth (j - S i) A VNull)
                   (firsts (map pair_key s) (S i) (map pair_key (combine A L)))).
  { intros s. apply map_ext_in. intros j Hj. apply firsts_ge in Hj.
    replace (j - i)%nat with (S (j - S i)) by lia. reflexivity. }
  rewrite members_cons.
  destruct (existsb _ seen) eqn:E.
  - rewrite (Hshift seen). rewrite IH by exact Hlen.
    destruct (key_eqb a x) eqn:F; [|reflexivity].
    cbn [filter]. rewrite (seen_pair a x l seen F), E. reflexivity.
  - cbn [map filter]. rewrite Nat.sub_diag.
    change (nth 0 (x :: A) VNull) with x.
    change (pair_key (x, l) :: map pair_key seen) with (map pair_key ((x, l) :: seen)).
    rewrite (Hshift ((x, l) :: seen)), (py_eqb_key x a Ha).
    destruct (key_eqb a x) eqn:F.
    + cbn [filter]. rewrite (seen_pair a x l seen F), E. cbn [negb nub List.length].
      rewrite IH by exact Hlen. rewrite seen_languages_cons, F. f_equal.
      rewrite unseen_cons, nub_filter by apply differs_respects. reflexivity.
    + rewrite IH by exact Hlen. rewrite seen_languages_cons, F. reflexivity.
Qed.

Lemma row_keys_pair A L :
  List.length A = List.length L ->
  row_keys (List.length A) [A; L] = map pair_key (combine A L).
Proof.
  unfold row_keys. revert L. induction A as [|x A IH]; intros [|l L] Hlen;
    try discriminate; [reflexivity|].
  injection Hlen as Hlen. cbn [List.length seq combine map]. f_equal.
  rewrite <- seq_shift, map_map. apply IH, Hlen.
Qed.

Lemma rows_of_first_pairs a A L :
  List.length A = List.length L ->
  rows_with_key a (take (firsts [] 0 (row_keys (List.length A) [A; L])) A)
  = languages_of a A L.
Proof.
  intros Hlen. unfold rows_with_key, languages_of.
  destruct (is_null a) eqn:Ha.
  - destruct a; try discriminate.
    rewrite (filter_ext _ (fun _ => false)) by (intros y; apply py_eqb_null).
    induction (take _ A); simpl; auto.
  - f_equal. rewrite row_keys_pair by exact Hlen.
    pose proof (count_first_pairs a Ha A L [] 0%nat Hlen) as H.
    cbn [map] in H. unfold seen_languages in H. cbn [filter map] in H.
    rewrite (filter_true (unseen [])) in H by reflexivity.
    rewrite <- H. unfold take. f_equal. f_equal. apply map_ext. intros j.
    rewrite Nat.sub_0_r. reflexivity.
Qed.

(** The cover-language step, cell by cell. *)
Lemma generate_cover_lang_values ref_df df out :
  uniform ref_df -> uniform df ->
  EngineeringProcessor.generate_cover_lang ref_df df = Ok out ->
  exists artists langs keys,
    getitem "artist_name" ref_df = Ok artists
    /\ getitem "language" ref_df = Ok langs
    /\ getitem "artist_name" df = Ok keys
    /\ has_column "cover_lang" df = false
    /\ appended df [("cover_lang",
                     map (fun a => VInt (languages_of a artists langs)) keys)] out.
Proof.
  intros Hur Hu H. unfold EngineeringProcessor.generate_cover_lang in H. invert_ok.
  match goal with
  | E : select _ ref_df = Ok _ |- _ =>
      apply select2 in E as (artists & langs & Ha & Hl & ->)
  end.
  match goal with
  | E : drop_duplicates _ _ = Ok _ |- _ =>
      unfold drop_duplicates in E; cbn in E; injection E as <-
  end.
  match goal with
  | E : getitem "artist_name" (take_rows _ _) = Ok _ |- _ =>
      unfold getitem in E; cbn in E; injection E as <-
  end.
  match goal with
  | E : set_columns _ _ = Ok _ |- _ =>
      unfold set_columns, value_counts_frame in E; simpl in E; injection E as <-
  end.
  match goal with
  | E : merge df _ _ = Ok _ |- _ =>
      destruct (merge_fill_frame _ _ _ _ _ _ _ _ _ E H eq_refl)
        as (Hn & keys & Hk & Hal & Hrows);
        [discriminate | apply value_counts_keys_distinct | exact Hu |]
  end.
  pose proof (uniform_getitem _ _ _ Hur Ha) as La.
  pose proof (uniform_getitem _ _ _ Hur Hl) as Ll.
  exists artists, langs, keys.
  split; [exact Ha|]. split; [exact Hl|]. split; [exact Hk|]. split; [exact Hn|].
  rewrite (map_ext _ (fun a => VInt (languages_of a artists langs)))
    in Hal, Hrows
    by (intros k; rewrite filled_count; f_equal; rewrite <- La;
        apply rows_of_first_pairs; congruence).
  split; [exact Hal | exact Hrows].
Qed.

End CoverLang.

(** X9: after the cover-language step each row of the target has in
    [cover_lang] the number of languages the reference lists under the
    row's artist: the distinct cells of [language] in the reference rows of
    that artist, a missing language counting as one; 0 for an artist the
    reference does not have and for a missing artist.  The target, which
    had no column of that name, keeps its rows and, under every name, its
    columns; when it has a row, [cover_lang] comes last behind the others
    in the order they had. *)
Theorem cover_lang_is_language_count (ref_df df out : DataFrame) :
  uniform ref_df -> uniform df ->
  EngineeringProcessor.generate_cover_lang ref_df df = Ok out ->
  exists artists langs keys,
    getitem "artist_name" ref_df = Ok artists
    /\ getitem "language" ref_df = Ok langs
    /\ getitem "artist_name" df = Ok keys
    /\ has_column "cover_lang" df = false
    /\ getitem "cover_lang" out
       = Ok (map (fun a => VInt (languages_of a artists langs)) keys)
    /\ alike out
         (mkDF (nrows df)
            (cols df ++ [("cover_lang",
                          map (fun a => VInt (languages_of a artists langs)) keys)]))
    /\ (nrows df <> 0%nat ->
        out = mkDF (nrows df)
                (cols df ++ [("cover_lang",
                              map (fun a => VInt (languages_of a artists langs))
                                  keys)]))
    /\ (forall a, (forall y, In y artists -> key_eqb a y = false) ->
                  languages_of a artists langs = 0).
Proof.
  intros Hur Hu H.
  destruct (generate_cover_lang_values _ _ _ Hur Hu H)
    as (artists & langs & keys & Ha & Hl & Hk & Hn & Hal & Hrows).
  exists artists, langs, keys.
  split; [exact Ha|]. split; [exact Hl|]. split; [exact Hk|]. split; [exact Hn|].
  split.
  { rewrite (alike_getitem _ _ _ Hal). unfold getitem. cbn [cols].
    apply lookup_has_column in Hn. rewrite lookup_app, Hn. reflexivity. }
  split; [exact Hal|]. split; [exact Hrows|].
  intros a Habs. unfold languages_of. destruct (is_null a); [reflexivity|].
  rewrite members_none by exact Habs. reflexivity.
Qed.

Lemma cover_lang_is_language_count_witness :
  exists out,
    EngineeringProcessor.generate_cover_lang cover_reference cover_target = Ok out
    /\ getitem "cover_lang" out = Ok [VInt 2; VInt 1; VInt 0].
Proof.
  destruct (EngineeringProcessor.generate_cover_lang cover_reference cover_target)
    as [out|e] eqn:E; [|vm_compute in E; discriminate].
  exists out. split; [reflexivity|].
  destruct (cover_lang_is_language_count cover_reference cover_target out)
    as (artists & langs & keys & Ha & Hl & Hk & _ & Hc & _);
    [repeat constructor | repeat constructor | exact E |].
  injection Ha as <-. injection Hl as <-. injection Hk as <-.
  rewrite Hc. vm_compute. reflexivity.
Defined.

(* ===================================================================== *)
(** ** The play counts of the two output tables                          *)
(* ===================================================================== *)

Section Doubled.

Import FeatureProcessor.

(** Two merges with one right table, from left tables that agree on the
    key and on a column [c], agree on [c]. *)
Lemma merge_same_column l l' r on out out' c :
  merge l r on = Ok out -> merge l' r on = Ok out' ->
  plain c = true ->
  lookup on (cols l) = lookup on (cols l') ->
  lookup c (cols l) = lookup c (cols l') ->
  lookup c (cols out) = lookup c (cols out').
Proof.
  intros H H' Hp Hon Hc.
  apply (merge_lookup _ _ _ _ c) in H as (lk & rk & Hl & Hr & _ & E); [|exact Hp].
  apply (merge_lookup _ _ _ _ c) in H' as (lk' & rk' & Hl' & Hr' & _ & E'); [|exact Hp].
  rewrite Hr in Hr'. injection Hr' as <-.
  unfold getitem in Hl, Hl'. rewrite <- Hon in Hl'.
  destruct (lookup on (cols l)); [|discriminate].
  injection Hl as <-. injection Hl' as <-.
  rewrite E, E', Hc. reflexivity.
Qed.

Lemma lookup_named (f : string -> list value) c names :
  In c names -> lookup c (map (fun n => (n, f n)) names) = Some (f c).
Proof.
  induction names as [|n names IH]; intros H; [contradiction|]. simpl.
  destruct (String.eqb c n) eqn:E.
  - apply String.eqb_eq in E. subst n. reflexivity.
  - destruct H as [->|H]; [rewrite String.eqb_refl in E; discriminate|]. auto.
Qed.

(** A column the two frames have, in their concatenation. *)
Lemma getitem_append c a b va vb :
  getitem c a = Ok va -> getitem c b = Ok vb ->
  getitem c (append a b) = Ok (va ++ vb)%list.
Proof.
  intros Ha Hb. pose proof (getitem_ok_has _ _ _ Ha) as Hin.
  unfold getitem, append in *. cbn [cols].
  rewrite lookup_named.
  - unfold column_or_nulls.
    destruct (lookup c (cols a)); [|discriminate].
    destruct (lookup c (cols b)); [|discriminate]. congruence.
  - apply in_app_iff. left. apply mem_In. exact Hin.
Qed.

Lemma rows_with_key_twice k l :
  rows_with_key k (l ++ l) = 2 * rows_with_key k l.
Proof. unfold rows_with_key. rewrite filter_app, length_app. lia. Qed.

End Doubled.

(** X10: what [main] leaves in [play_count].  The test table is made from
    the train table, and its reference in [feature_engineering] is the
    train table followed by the test table, so every row is counted in
    both halves: the two tables have the same [song_id] column, the train
    table counts the rows of a song in it, and the test table has exactly
    twice that count in every row. *)
Theorem test_play_count_is_doubled
        (fs : FeatureProcessor.files) (o : FeatureProcessor.t) (train0 : DataFrame) :
  FeatureProcessor.main fs FeatureProcessor.init = (o, Ok tt) ->
  FeatureProcessor.train_csv fs = Ok train0 ->
  uniform train0 ->
  exists tr te songs,
    FeatureProcessor.train_df o = Some tr
    /\ FeatureProcessor.test_df o = Some te
    /\ getitem "song_id" tr = Ok songs
    /\ getitem "song_id" te = Ok songs
    /\ getitem "play_count" tr
       = Ok (map (fun k => VInt (rows_with_key k songs)) songs)
    /\ getitem "play_count" te
       = Ok (map (fun k => VInt (2 * rows_with_key k songs)) songs).
Proof.
  intros H Htrain Hu.
  apply main_ok in H as (o1 & o2 & u1 & u2 & H1 & H2 & H3).
  apply load_raw_ok in H1 as (tr0 & te0 & so0 & ex0 & me0 & Htr & _ & _ & _ & _ & ->).
  rewrite Htrain in Htr. injection Htr as <-.
  apply pre_process_ok in H2
    as (tr0 & train0' & train1 & train1' & test1 & me & members1 & so
        & songs1 & ex & extra1 & songs2 & train2 & test2 & train3 & test3
        & Htr & _ & _ & _ & Hp1 & Hp2 & _ & _ & _ & _ & Hm2 & Hm3 & Hm4 & Hm5 & ->).
  simpl in Htr. injection Htr as <-.
  destruct (parse_twice _ _ _ _ _ Hu Hp1 Hp2) as (-> & sm & -> & _).
  (* the two tables agree on the keys *)
  assert (Hsame : forall c, c <> "source_merged" ->
                    lookup c (cols (setitem "source_merged" sm train1))
                    = lookup c (cols train1)).
  { intros c Hc. unfold setitem. cbn [cols]. apply lookup_assign_other, Hc. }
  assert (S2 : lookup "song_id" (cols train2) = lookup "song_id" (cols test2)).
  { apply (merge_same_column _ _ _ _ _ _ "song_id" Hm2 Hm3 eq_refl);
      apply Hsame; discriminate. }
  assert (M2 : lookup "msno" (cols train2) = lookup "msno" (cols test2)).
  { apply (merge_same_column _ _ _ _ _ _ "msno" Hm2 Hm3 eq_refl);
      apply Hsame; discriminate. }
  assert (S3 : lookup "song_id" (cols train3) = lookup "song_id" (cols test3)).
  { apply (merge_same_column _ _ _ _ _ _ "song_id" Hm4 Hm5 eq_refl); assumption. }
  (* the engineering of the two *)
  apply feature_engineering_ok in H3
    as (a & b & comb & tr & te & Ha & Hb & Hc & Ptr & Pte & ->).
  simpl in Ha, Hb, Hc. injection Ha as <-. injection Hb as <-. injection Hc as <-.
  pose proof (uniform_merge _ _ _ _ Hm4) as U3.
  pose proof (uniform_merge _ _ _ _ Hm5) as V3.
  destruct (engineering_parse_frame _ _ _ U3 Ptr)
    as (songs & keys & tc & cl & Hs & Hk & _ & _ & N1 & _ & _ & _ & A).
  rewrite Hs in Hk. injection Hk as <-.
  destruct (engineering_parse_frame _ _ _ V3 Pte)
    as (songs' & keys' & tc' & cl' & Hs' & Hk' & _ & _ & N1' & _ & _ & _ & A').
  assert (Hk2 : getitem "song_id" test3 = Ok songs).
  { unfold getitem in *. rewrite <- S3. exact Hs. }
  rewrite Hk2 in Hk'. injection Hk' as <-.
  rewrite (getitem_append _ _ _ _ _ Hs Hk2) in Hs'. injection Hs' as <-.
  exists tr, te, songs.
  apply lookup_has_column in N1, N1'.
  split; [reflexivity|]. split; [reflexivity|].
  split; [exact (appended_getitem _ _ _ _ _ A Hs)|].
  split; [exact (appended_getitem _ _ _ _ _ A' Hk2)|].
  rewrite (alike_getitem _ _ _ (appended_alike _ _ _ A)).
  rewrite (alike_getitem _ _ _ (appended_alike _ _ _ A')).
  unfold getitem. cbn [cols]. rewrite !lookup_app, N1, N1'.
  split; [reflexivity|].
  transitivity (@Ok (list value)
                  (map (fun k => VInt (rows_with_key k (songs ++ songs))) songs));
    [reflexivity|].
  f_equal. apply map_ext. intros k. rewrite rows_with_key_twice. reflexivity.
Qed.

Lemma test_play_count_is_doubled_witness :
  let o := fst (FeatureProcessor.main Sample.files FeatureProcessor.init) in
  exists tr te,
    FeatureProcessor.train_df o = Some tr
    /\ FeatureProcessor.test_df o = Some te
    /\ getitem "play_count" tr = Ok [VInt 1; VInt 1; VInt 1]
    /\ getitem "play_count" te = Ok [VInt 2; VInt 2; VInt 2].
Proof.
  intros o.
  destruct (test_play_count_is_doubled Sample.files o Sample.train)
    as (tr & te & songs & Htr & Hte & Hs & _ & Hp & Hq).
  - vm_compute. reflexivity.
  - reflexivity.
  - repeat constructor.
  - exists tr, te. split; [exact Htr|]. split; [exact Hte|].
    vm_compute in Htr. injection Htr as <-.
    vm_compute in Hs. injection Hs as <-.
    split; [exact Hp | exact Hq].
Defined.

(* ===================================================================== *)
(** ** The two output tables, column by column                           *)
(* ===================================================================== *)

Section Twice.

Lemma nub_app l l' :
  nub (l ++ l') = (nub l ++ filter (unseen l) (nub l'))%list.
Proof.
  induction l as [|x l IH]; simpl.
  - symmetry. apply filter_true. reflexivity.
  - rewrite IH, filter_app, unseen_cons. reflexivity.
Qed.

Lemma unseen_self l x : In x l -> unseen l x = false.
Proof.
  intros H. unfold unseen. apply negb_false_iff, existsb_exists.
  exists x. split; [exact H | apply key_eqb_refl].
Qed.

Lemma filter_none {A} (l : list A) : filter (fun _ => false) l = [].
Proof. induction l; simpl; auto. Qed.

Lemma nub_twice l : nub (l ++ l) = nub l.
Proof.
  rewrite nub_app. rewrite (filter_ext_in _ (fun _ => false)).
  - rewrite filter_none. apply app_nil_r.
  - intros x Hx. apply unseen_self, nub_In, Hx.
Qed.

Lemma index_of_app p l l' j :
  index_of p l = Some j -> index_of p (l ++ l') = Some j /\ (j < List.length l)%nat.
Proof.
  revert j. induction l as [|x l IH]; simpl; intros j H; [discriminate|].
  destruct (p x).
  - injection H as <-. split; [reflexivity | lia].
  - destruct (index_of p l) as [i|]; [|discriminate]. injection H as <-.
    destruct (IH i eq_refl) as [-> Hi]. split; [reflexivity | lia].
Qed.

Lemma index_of_In p l x :
  In x l -> p x = true -> exists j, index_of p l = Some j.
Proof.
  induction l as [|y l IH]; simpl; intros H Hp; [contradiction|].
  destruct (p y) eqn:E; [eauto|].
  destruct H as [->|H]; [congruence|]. destruct (IH H Hp) as (j & ->). simpl. eauto.
Qed.

Lemma lookup_key_app k l l' c c' :
  List.length c = List.length l -> In k l ->
  lookup_key k (l ++ l') (c ++ c') = lookup_key k l c.
Proof.
  intros Hlen Hin. unfold lookup_key.
  destruct (index_of_In (key_eqb k) l k Hin (key_eqb_refl k)) as (j & Hj).
  destruct (index_of_app _ _ l' _ Hj) as [-> Hlt]. rewrite Hj.
  apply app_nth1. lia.
Qed.

(** The first rows of the keys of a frame followed by a copy of itself
    are the first rows of the frame. *)
Lemma take_firsts_twice l col :
  List.length col = List.length l ->
  take (firsts [] 0 (row_keys (List.length l + List.length l) [(l ++ l)%list]))
       (col ++ col)
  = take (firsts [] 0 (row_keys (List.length l) [l])) col.
Proof.
  intros Hlen.
  rewrite (row_keys_single _ (l ++ l)) by (rewrite length_app; reflexivity).
  rewrite (row_keys_single _ l) by reflexivity.
  rewrite !firsts_nub_col, nub_twice. apply map_ext_in. intros k Hk.
  apply lookup_key_app; [exact Hlen | apply nub_In, Hk].
Qed.

Lemma members_app a A A' L L' :
  List.length A = List.length L ->
  members a (A ++ A') (L ++ L') = (members a A L ++ members a A' L')%list.
Proof.
  revert L. induction A as [|x A IH]; intros [|l L] Hlen; try discriminate;
    [reflexivity|].
  injection Hlen as Hlen. cbn [app]. rewrite !members_cons, IH by exact Hlen.
  destruct (key_eqb a x); reflexivity.
Qed.

Lemma languages_of_twice a A L :
  List.length A = List.length L ->
  languages_of a (A ++ A) (L ++ L) = languages_of a A L.
Proof.
  intros Hlen. unfold languages_of. rewrite members_app by exact Hlen.
  rewrite nub_twice. reflexivity.
Qed.

Lemma column_or_nulls_length c df :
  uniform df -> List.length (column_or_nulls c df) = nrows df.
Proof.
  intros Hu. unfold column_or_nulls. destruct (lookup c (cols df)) eqn:E.
  - eapply uniform_lookup; eauto.
  - apply repeat_length.
Qed.

Lemma uniform_append a b : uniform a -> uniform b -> uniform (append a b).
Proof.
  intros Ha Hb. unfold uniform, append. cbn [nrows cols].
  apply Forall_map, Forall_forall. intros c _. cbn [snd].
  rewrite length_app, !column_or_nulls_length by assumption. reflexivity.
Qed.


End Twice.

Section OutputTables.

Import FeatureProcessor.

(** The engineering processor, cell by cell. *)
Lemma engineering_parse_values ref_df df out :
  uniform ref_df -> uniform df ->
  EngineeringProcessor.parse ref_df df = Ok out ->
  exists songs artists langs ids names,
    getitem "song_id" ref_df = Ok songs
    /\ getitem "artist_name" ref_df = Ok artists
    /\ getitem "language" ref_df = Ok langs
    /\ getitem "song_id" df = Ok ids
    /\ getitem "artist_name" df = Ok names
    /\ has_column "play_count" df = false
    /\ has_column "track_count" df = false
    /\ has_column "cover_lang" df = false
    /\ appended df
         [("play_count", map (fun k => VInt (rows_with_key k songs)) ids);
          ("track_count",
           map (fun k => VInt (first_row_count (nrows ref_df) songs artists k))
               names);
          ("cover_lang",
           map (fun a => VInt (languages_of a artists langs)) names)] out.
Proof.
  intros Hur Hu H.
  destruct (engineering_parse_frame _ _ _ Hu H)
    as (_ & _ & _ & _ & _ & _ & _ & _ & N1 & N2 & N3 & _).
  unfold EngineeringProcessor.parse in H.
  apply bind_ok in H as (d1 & H1 & H).
  apply bind_ok in H as (d2 & H2 & H).
  apply bind_ok in H as (d3 & H3 & H). injection H as <-.
  apply (generate_play_count_frame _ _ _ Hu) in H1
    as (_ & Hu1 & songs & ids & Hs & Hi & A1).
  pose proof (generate_track_count_ok _ _ _ H2)
    as (songs' & artists & names & target & means & Hs' & Ha & Hn & _ & _ & _
        & _ & Htc & _).
  rewrite Hs in Hs'. injection Hs' as <-.
  apply (appended_getitem_inv _ _ _ _ _ A1) in Hn; [|reflexivity].
  apply (generate_track_count_frame _ _ _ Hu1) in H2
    as (M2 & Hu2 & tc & Ltc & A2).
  assert (Etc : tc = map (fun k => VInt (first_row_count (nrows ref_df) songs artists k))
                         names).
  { unfold getitem in Htc. rewrite (appended_new _ _ _ _ A2 M2) in Htc.
    simpl in Htc. injection Htc as ->. reflexivity. }
  subst tc.
  pose proof (appended_step _ _ _ _ _ A1 A2) as A12.
  apply (generate_cover_lang_values _ _ _ Hur Hu2) in H3
    as (artists' & langs & names' & Ha' & Hl & Hn' & _ & A3).
  rewrite Ha in Ha'. injection Ha' as <-.
  apply (appended_getitem_inv _ _ _ _ _ A12) in Hn'; [|reflexivity].
  rewrite Hn in Hn'. injection Hn' as <-.
  pose proof (appended_step _ _ _ _ _ A12 A3) as A123.
  exists songs, artists, langs, ids, names.
  repeat (split; [assumption|]). exact A123.
Qed.

Lemma first_row_count_twice songs artists k :
  List.length artists = List.length songs ->
  first_row_count (List.length songs + List.length songs)
                  (songs ++ songs) (artists ++ artists) k
  = first_row_count (List.length songs) songs artists k.
Proof.
  intros Hlen. unfold first_row_count.
  rewrite (take_firsts_twice songs artists Hlen).
  rewrite (take_firsts_twice songs songs eq_refl). reflexivity.
Qed.

End OutputTables.

(** X14: the two tables [main] leaves.  The test table is the train table
    over again but for two columns: under every name without a merge
    suffix, other than [source_merged] and [play_count], the two tables
    have the same column or none, the labels in [target] and the counts in
    [track_count] and [cover_lang] included.  Nothing of the file
    [test.csv] is in either. *)
Theorem test_table_repeats_train
        (fs : FeatureProcessor.files) (o : FeatureProcessor.t) (train0 : DataFrame) :
  FeatureProcessor.main fs FeatureProcessor.init = (o, Ok tt) ->
  FeatureProcessor.train_csv fs = Ok train0 ->
  uniform train0 ->
  exists tr te,
    FeatureProcessor.train_df o = Some tr
    /\ FeatureProcessor.test_df o = Some te
    /\ nrows te = nrows tr
    /\ (forall c, plain c = true -> c <> "source_merged" -> c <> "play_count" ->
                  lookup c (cols te) = lookup c (cols tr))
    /\ (exists labels, getitem "target" tr = Ok labels
                       /\ getitem "target" te = Ok labels).
Proof.
  intros H Htrain Hu.
  apply main_ok in H as (o1 & o2 & u1 & u2 & H1 & H2 & H3).
  apply load_raw_ok in H1 as (tr0 & te0 & so0 & ex0 & me0 & Htr & _ & _ & _ & _ & ->).
  rewrite Htrain in Htr. injection Htr as <-.
  apply pre_process_ok in H2
    as (tr0 & train0' & train1 & train1' & test1 & me & members1 & so
        & songs1 & ex & extra1 & songs2 & train2 & test2 & train3 & test3
        & Htr & _ & _ & _ & Hp1 & Hp2 & _ & _ & _ & _ & Hm2 & Hm3 & Hm4 & Hm5 & ->).
  simpl in Htr. injection Htr as <-.
  destruct (parse_twice _ _ _ _ _ Hu Hp1 Hp2) as (-> & sm & -> & _).
  (* the two tables before the engineering *)
  assert (Hsame : forall c, c <> "source_merged" ->
                    lookup c (cols (setitem "source_merged" sm train1))
                    = lookup c (cols train1)).
  { intros c Hc. unfold setitem. cbn [cols]. apply lookup_assign_other, Hc. }
  assert (S2 : forall c, plain c = true -> c <> "source_merged" ->
                 lookup c (cols train2) = lookup c (cols test2)).
  { intros c Hp Hc. apply (merge_same_column _ _ _ _ _ _ c Hm2 Hm3 Hp);
      apply Hsame; [discriminate | exact Hc]. }
  assert (S3 : forall c, plain c = true -> c <> "source_merged" ->
                 lookup c (cols train3) = lookup c (cols test3)).
  { intros c Hp Hc. apply (merge_same_column _ _ _ _ _ _ c Hm4 Hm5 Hp);
      apply S2; (reflexivity || discriminate || assumption). }
  assert (G3 : forall c, plain c = true -> c <> "source_merged" ->
                 getitem c train3 = getitem c test3).
  { intros c Hp Hc. unfold getitem. rewrite (S3 c Hp Hc). reflexivity. }
  pose proof (uniform_merge _ _ _ _ Hm4) as U3.
  pose proof (uniform_merge _ _ _ _ Hm5) as V3.
  (* the engineering of the two *)
  apply feature_engineering_ok in H3
    as (a & b & comb & tr & te & Ha & Hb & Hc & Ptr & Pte & ->).
  simpl in Ha, Hb, Hc. injection Ha as <-. injection Hb as <-. injection Hc as <-.
  destruct (engineering_parse_values _ _ _ U3 U3 Ptr)
    as (songs & artists & langs & ids & names
        & Hs & Har & Hl & Hi & Hn & N1 & N2 & N3 & ((Rtr & Ltr) & _)).
  rewrite Hs in Hi. injection Hi as <-. rewrite Har in Hn. injection Hn as <-.
  destruct (engineering_parse_values _ _ _ (uniform_append _ _ U3 V3) V3 Pte)
    as (songs' & artists' & langs' & ids' & names'
        & Hs' & Har' & Hl' & Hi' & Hn' & N1' & N2' & N3' & ((Rte & Lte) & _)).
  rewrite <- G3, Hs in Hi' by (reflexivity || discriminate). injection Hi' as <-.
  rewrite <- G3, Har in Hn' by (reflexivity || discriminate). injection Hn' as <-.
  assert (Hs2 : getitem "song_id" test3 = Ok songs)
    by (rewrite <- G3 by (reflexivity || discriminate); exact Hs).
  assert (Har2 : getitem "artist_name" test3 = Ok artists)
    by (rewrite <- G3 by (reflexivity || discriminate); exact Har).
  assert (Hl2 : getitem "language" test3 = Ok langs)
    by (rewrite <- G3 by (reflexivity || discriminate); exact Hl).
  rewrite (getitem_append _ _ _ _ _ Hs Hs2) in Hs'. injection Hs' as <-.
  rewrite (getitem_append _ _ _ _ _ Har Har2) in Har'. injection Har' as <-.
  rewrite (getitem_append _ _ _ _ _ Hl Hl2) in Hl'. injection Hl' as <-.
  pose proof (uniform_getitem _ _ _ U3 Hs) as Ls.
  pose proof (uniform_getitem _ _ _ U3 Har) as La.
  pose proof (uniform_getitem _ _ _ U3 Hl) as Ll.
  pose proof (uniform_getitem _ _ _ V3 Hs2) as Ls2.
  exists tr, te. split; [reflexivity|]. split; [reflexivity|].
  cbn [nrows cols] in Rtr, Rte, Ltr, Lte.
  split; [congruence|]. split.
  - intros c Hp Hc1 Hc2. rewrite Ltr, Lte, !lookup_app, <- (S3 c Hp Hc1).
    destruct (lookup c (cols train3)); [reflexivity|].
    apply String.eqb_neq in Hc2. cbn [lookup]. rewrite Hc2.
    destruct (String.eqb c "track_count").
    + f_equal. apply map_ext. intros k. f_equal.
      unfold append. cbn [nrows]. rewrite <- Ls2, <- Ls.
      apply first_row_count_twice. congruence.
    + destruct (String.eqb c "cover_lang"); [|reflexivity].
      f_equal. apply map_ext. intros k. f_equal.
      apply languages_of_twice. congruence.
  - destruct (getitem "target" train3) as [labels|e] eqn:Ht.
    + exists labels. pose proof Ht as Ht2.
      rewrite G3 in Ht2 by (reflexivity || discriminate).
      unfold getitem in *. rewrite Ltr, Lte, !lookup_app.
      destruct (lookup "target" (cols train3)); [|discriminate].
      destruct (lookup "target" (cols test3)); [|discriminate].
      split; [exact Ht | exact Ht2].
    + exfalso. unfold EngineeringProcessor.parse in Ptr.
      apply bind_ok in Ptr as (d1 & P1 & Ptr).
      apply bind_ok in Ptr as (d2 & P2 & _).
      destruct (generate_track_count_without_target train3 d1) as (e' & He').
      * apply not_true_is_false. intros Hc.
        apply has_getitem in Hc as (v & Hv).
        apply (generate_play_count_frame _ _ _ U3) in P1
          as (_ & _ & ? & ? & _ & _ & A1).
        apply (appended_getitem_inv _ _ _ _ _ A1) in Hv; [|reflexivity]. congruence.
      * congruence.
Qed.

Lemma test_table_repeats_train_witness :
  let o := fst (FeatureProcessor.main Sample.files FeatureProcessor.init) in
  exists tr te,
    FeatureProcessor.train_df o = Some tr
    /\ FeatureProcessor.test_df o = Some te
    /\ getitem "msno" te = getitem "msno" tr
    /\ getitem "track_count" te = getitem "track_count" tr.
Proof.
  intros o.
  destruct (test_table_repeats_train Sample.files o Sample.train)
    as (tr & te & Htr & Hte & _ & Hc & _).
  - vm_compute. reflexivity.
  - reflexivity.
  - repeat constructor.
  - exists tr, te. split; [exact Htr|]. split; [exact Hte|].
    unfold getitem. rewrite !Hc by (reflexivity || discriminate). split; reflexivity.
Defined.

(* ===================================================================== *)
(** ** The event processor: its argument and its result                  *)
(* ===================================================================== *)

Section EventResult.

Lemma fill_in_place_frame df df' u :
  TrainTestProcessor.fill_in_place df = (df', Ok u) ->
  exists tab screen type,
    getitem "source_system_tab" df = Ok tab
    /\ getitem "source_screen_name" df = Ok screen
    /\ getitem "source_type" df = Ok type
    /\ df' = setitem "source_merged"
               (TrainTestProcessor.map3 TrainTestProcessor.merged_name
                  (map (fill (VStr "others")) tab)
                  (map (fill (VStr "others")) screen)
                  (map (fill (VStr "nan")) type))
               (setitem "source_type" (map (fill (VStr "nan")) type)
                  (setitem "source_screen_name" (map (fill (VStr "others")) screen)
                     (setitem "source_system_tab" (map (fill (VStr "others")) tab)
                        df))).
Proof.
  unfold TrainTestProcessor.fill_in_place. intros H.
  apply sbind_ok in H as (s1 & ? & E1 & H). apply update_ok in E1.
  apply sbind_ok in H as (s2 & ? & E2 & H). apply update_ok in E2.
  apply sbind_ok in H as (s3 & ? & E3 & H). apply update_ok in E3.
  apply update_ok in H.
  apply fillna_ok in E1 as (tab & Htab & ->).
  apply fillna_ok in E2 as (screen & Hscreen & ->).
  apply fillna_ok in E3 as (type & Htype & ->).
  rewrite getitem_setitem_other in Hscreen by discriminate.
  rewrite !getitem_setitem_other in Htype by discriminate.
  apply set_source_merged_ok in H as (tab' & screen' & type' & Ht & Hs & Hy & ->).
  rewrite !getitem_setitem_other, getitem_setitem_same in Ht by discriminate.
  rewrite getitem_setitem_other, getitem_setitem_same in Hs by discriminate.
  rewrite getitem_setitem_same in Hy.
  injection Ht as <-. injection Hs as <-. injection Hy as <-.
  exists tab, screen, type. auto.
Qed.

Lemma has_column_assign c c' v l :
  mem c (map fst (assign c' v l)) = String.eqb c c' || mem c (map fst l).
Proof.
  destruct (String.eqb c c') eqn:E; simpl.
  - apply String.eqb_eq in E. subst c'. apply mem_In, In_columns_assign. auto.
  - destruct (mem c (map fst l)) eqn:F.
    + apply mem_In, In_columns_assign. right. apply mem_In, F.
    + apply mem_false. rewrite In_columns_assign. intros [->|H].
      * rewrite String.eqb_refl in E. discriminate.
      * apply mem_In in H. congruence.
Qed.







End EventResult.

(* ===================================================================== *)
(** ** Where the output tables can hold a null                           *)
(* ===================================================================== *)

Section OutputNulls.

Import FeatureProcessor.







End OutputNulls.



Lemma nth_error_map3 {A B C D} (f : A -> B -> C -> D) a b c i x y z :
  nth_error a i = Some x -> nth_error b i = Some y -> nth_error c i = Some z ->
  nth_error (TrainTestProcessor.map3 f a b c) i = Some (f x y z).
Proof.
  revert b c i. induction a as [|x0 a IH]; intros [|y0 b] [|z0 c] [|i];
    simpl; try discriminate.
  - intros [= ->] [= ->] [= ->]. reflexivity.
  - apply IH.
Qed.

(** X11: what the event processor does to the table it is given and what
    it returns.  The table given is changed in place: its three source
    columns have their missing cells filled, and it has a column
    [source_merged], of one text per row, which for a row whose three
    source cells are text (as read, or as filled) is the three joined by
    [" | "]; nothing else of it changes.  The table returned is another
    one: it has the rows of the argument, none of the columns
    [source_merged], [source_replay_pb] and [source_replay_count], the four
    encoded columns, and every other column as the argument has it after
    the call. *)
Theorem event_parse_argument_and_result (df df' out : DataFrame) :
  uniform df ->
  TrainTestProcessor.parse df = (df', Ok out) ->
  exists tab screen type sm,
    getitem "source_system_tab" df = Ok tab
    /\ getitem "source_screen_name" df = Ok screen
    /\ getitem "source_type" df = Ok type
    /\ df' = setitem "source_merged" sm
               (setitem "source_type" (map (fill (VStr "nan")) type)
                  (setitem "source_screen_name" (map (fill (VStr "others")) screen)
                     (setitem "source_system_tab" (map (fill (VStr "others")) tab)
                        df)))
    /\ List.length sm = nrows df
    /\ (forall k, In k sm -> is_text k = true)
    /\ (forall i a b c,
          nth_error (map (fill (VStr "others")) tab) i = Some (VStr a) ->
          nth_error (map (fill (VStr "others")) screen) i = Some (VStr b) ->
          nth_error (map (fill (VStr "nan")) type) i = Some (VStr c) ->
          nth_error sm i = Some (VStr (a ++ " | " ++ b ++ " | " ++ c)))
    /\ nrows out = nrows df
    /\ (forall c, In c dropped -> has_column c out = false)
    /\ (forall c, In c encoding_names -> has_column c out = true)
    /\ (forall c, ~ In c dropped -> ~ In c encoding_names ->
                  getitem c out = getitem c df').
Proof.
  intros Hu H. apply train_test_parse_ok in H as (u & Hf & He).
  pose proof (fill_in_place_rows _ _ _ Hf) as Hn.
  pose proof (fill_in_place_ok _ _ _ Hf) as (_ & _ & _ & _ & _ & _ & _ & Hu').
  specialize (Hu' Hu).
  pose proof (fill_in_place_frame _ _ _ Hf) as (tab & screen & type & Ht & Hs & Hy & E).
  apply (merge_and_encode_ok _ _ Hu') in He
    as (sm & target & ? & ? & ? & means & v1 & v2 & v3 & v4
        & _ & _ & _ & _ & _ & _ & _ & _ & _ & _ & _ & Hout).
  fold (encoded v1 v2 v3 v4 (remove dropped (cols df'))) in Hout.
  exists tab, screen, type,
    (TrainTestProcessor.map3 TrainTestProcessor.merged_name
       (map (fill (VStr "others")) tab)
       (map (fill (VStr "others")) screen)
       (map (fill (VStr "nan")) type)).
  split; [exact Ht|]. split; [exact Hs|]. split; [exact Hy|]. split; [exact E|].
  split.
  { apply map3_length; rewrite length_map; eapply uniform_getitem; eauto. }
  split.
  { intros k Hk. clear - Hk.
    revert Hk. generalize (map (fill (VStr "others")) tab),
      (map (fill (VStr "others")) screen), (map (fill (VStr "nan")) type).
    intros a. induction a as [|x a IH]; intros [|y b] [|z c] Hk;
      simpl in Hk; try contradiction.
    destruct Hk as [<-|Hk]; [reflexivity | eauto]. }
  split.
  { intros i a b c Ha Hb Hc.
    rewrite (nth_error_map3 _ _ _ _ _ _ _ _ Ha Hb Hc). reflexivity. }
  split; [rewrite Hout; exact Hn|]. split; [|split].
  - intros c Hc. apply lookup_has_column. rewrite Hout. cbn [cols].
    rewrite lookup_encoded.
    + apply lookup_remove_In, Hc.
    + simpl in Hc. destruct Hc as [<-|[<-|[<-|[]]]]; reflexivity.
  - intros c Hc. rewrite Hout. unfold has_column, columns, encoded. cbn [cols].
    rewrite !has_column_assign.
    simpl in Hc. destruct Hc as [<-|[<-|[<-|[<-|[]]]]]; simpl;
      rewrite ?orb_true_r; reflexivity.
  - intros c Hd Hc. rewrite Hout. unfold getitem. cbn [cols].
    rewrite lookup_encoded by (apply mem_false, Hc).
    rewrite lookup_remove. apply mem_false in Hd. rewrite Hd. reflexivity.
Qed.

Lemma event_parse_argument_and_result_witness :
  exists df' out,
    TrainTestProcessor.parse Sample.train = (df', Ok out)
    /\ has_column "source_merged" df' = true
    /\ has_column "source_merged" out = false
    /\ getitem "source_type" out
       = Ok [VStr "local-library"; VStr "nan"; VStr "online-playlist"].
Proof.
  destruct (TrainTestProcessor.parse Sample.train) as [df' [out|e]] eqn:E;
    [|vm_compute in E; discriminate].
  exists df', out. split; [reflexivity|].
  destruct (event_parse_argument_and_result Sample.train df' out)
    as (tab & screen & type & sm & Ht & Hs & Hy & Hdf & _ & _ & _ & _ & Hd & _ & Hk);
    [repeat constructor | exact E |].
  injection Ht as <-. injection Hs as <-. injection Hy as <-.
  split; [rewrite Hdf; reflexivity|]. split; [apply Hd; simpl; auto|].
  rewrite Hk, Hdf.
  - reflexivity.
  - simpl. intros [H|[H|[H|[]]]]; discriminate.
  - simpl. intros [H|[H|[H|[H|[]]]]]; discriminate.
Defined.



(* ===================================================================== *)
(** ** A load that fails                                                 *)
(* ===================================================================== *)

(** X13: [load_raw] is not all or nothing.  When one of its reads raises,
    the call raises the same exception and leaves the marker, the member
    table and the combined table as they were; but unless it was the
    first read that failed, the train table (and every table read before
    the failure) has been replaced by then.  After a failed reload an
    object can so hold new raw tables under a marker that tells
    [PREPROCESS_READY]. *)
Theorem load_raw_is_not_atomic
        (fs : FeatureProcessor.files) (o o' : FeatureProcessor.t) (e : exn) :
  FeatureProcessor.INITIALIZATION_READY <= FeatureProcessor.state o ->
  FeatureProcessor.load_raw fs o = (o', Raise e) ->
  FeatureProcessor.state o' = FeatureProcessor.state o
  /\ FeatureProcessor.comb_df o' = FeatureProcessor.comb_df o
  /\ FeatureProcessor.members_df o' = FeatureProcessor.members_df o
  /\ (FeatureProcessor.train_csv fs = Raise e /\ o' = o
      \/ exists tr, FeatureProcessor.train_csv fs = Ok tr
                    /\ FeatureProcessor.train_df o' = Some tr
                    /\ read_error fs e).
Proof.
  intros Hs H. unfold FeatureProcessor.load_raw in H.
  rewrite (StageFacts.guarded FeatureProcessor.INITIALIZATION_READY) in H.
  apply Z.leb_le in Hs. rewrite Hs in H.
  unfold sbind, FeatureProcessor.pure, FeatureProcessor.store, read_error in *.
  destruct (FeatureProcessor.train_csv fs) as [tr|e1]; [|injection H as <- <-; auto 6].
  destruct (FeatureProcessor.test_csv fs) as [te|e2];
    [|injection H as <- <-; simpl; repeat split; right; eauto 8].
  destruct (FeatureProcessor.songs_csv fs) as [so|e3];
    [|injection H as <- <-; simpl; repeat split; right; eauto 8].
  destruct (FeatureProcessor.song_extra_info_csv fs) as [ex|e4];
    [|injection H as <- <-; simpl; repeat split; right; eauto 9].
  destruct (FeatureProcessor.members_csv fs) as [me|e5];
    [discriminate | injection H as <- <-; simpl; repeat split; right; eauto 10].
Qed.

Lemma load_raw_is_not_atomic_witness :
  let o := fst (sbind (FeatureProcessor.load_raw Sample.files)
                      (fun _ => FeatureProcessor.pre_process) FeatureProcessor.init) in
  let o' := fst (FeatureProcessor.load_raw unreadable o) in
  snd (FeatureProcessor.load_raw unreadable o) = Raise IOError
  /\ FeatureProcessor.state o' = 2
  /\ FeatureProcessor.train_df o' = Some Sample.test.
Proof.
  intros o o'.
  destruct (load_raw_is_not_atomic unreadable o o' IOError)
    as (Hs & _ & _ & [[H _]|(tr & Htr & Ht & _)]).
  - vm_compute. discriminate.
  - vm_compute. reflexivity.
  - discriminate H.
  - split; [vm_compute; reflexivity|]. split.
    + rewrite Hs. vm_compute. reflexivity.
    + injection Htr as <-. exact Ht.
Defined.

(* ===================================================================== *)
(** ** What lowers the marker                                            *)
(* ===================================================================== *)

Section Lowering.

Import FeatureProcessor.

Lemma triple_sbind {A B} P (m : stateful t A) (k : A -> stateful t B) Q1 Q2 R :
  triple P m Q1 R -> (forall a, triple (Q1 a) (k a) Q2 R) ->
  triple P (sbind m k) Q2 R.
Proof.
  intros Hm Hk o o' r HP. unfold sbind. destruct (m o) as [o1 [a|e]] eqn:E.
  - intros H. apply (Hk a o1 o' r); [|exact H]. apply (Hm o o1 (Ok a) HP E).
  - intros [= <- <-]. apply (Hm o o1 (Raise e) HP E).
Qed.

Lemma triple_false {A} (m : stateful t A) Q R : triple (fun _ => False) m Q R.
Proof. intros o o' r []. Qed.

Lemma triple_keeps {A} (P : t -> Prop) (m : stateful t A) :
  keeps_members m ->
  (forall o o', members_df o' = members_df o -> P o -> P o') ->
  triple P m (fun _ => P) P.
Proof.
  intros Hm HP o o' r Ho E. apply Hm in E. destruct r; apply (HP o o' E Ho).
Qed.

Lemma members_sget : keeps_members (@sget t).
Proof. intros o o' r [= <- _]. reflexivity. Qed.

Lemma members_assert b site : keeps_members (@assert_ t b site).
Proof. intros o o' r. unfold assert_. destruct b; intros [= <- _]; reflexivity. Qed.

Lemma members_on_frame {A} get set (m : stateful DataFrame A) :
  (forall v o, members_df (set v o) = members_df o) ->
  keeps_members (on_frame get set m).
Proof.
  intros Hs o o' r. unfold on_frame. destruct (get o).
  - destruct (m d). intros [= <- _]. apply Hs.
  - intros [= <- _]. reflexivity.
Qed.

Lemma members_store {A} (set : A -> t -> t) v :
  (forall v o, members_df (set v o) = members_df o) -> keeps_members (store set v).
Proof. intros Hs o o' r [= <- _]. apply Hs. Qed.

Lemma members_sbind {A B} (m : stateful t A) (k : A -> stateful t B) :
  keeps_members m -> (forall a, keeps_members (k a)) -> keeps_members (sbind m k).
Proof.
  intros Hm Hk o o' r. unfold sbind. destruct (m o) as [o1 [a|e]] eqn:E.
  - intros H. apply Hk in H. apply Hm in E. congruence.
  - intros [= <- _]. eapply Hm; eauto.
Qed.

Lemma feature_engineering_members : keeps_members feature_engineering.
Proof.
  unfold feature_engineering.
  repeat first
    [ apply members_sget
    | apply members_assert
    | apply members_on_frame; reflexivity
    | apply members_store; reflexivity
    | apply members_sbind; [|intros ?] ].
Qed.

Lemma load_raw_raise_members fs o o' e :
  load_raw fs o = (o', Raise e) -> members_df o' = members_df o.
Proof.
  unfold load_raw. rewrite (StageFacts.guarded INITIALIZATION_READY).
  destruct (INITIALIZATION_READY <=? state o); [|intros [= <- _]; reflexivity].
  unfold sbind, pure, store.
  destruct (train_csv fs); [|intros [= <- _]; reflexivity].
  destruct (test_csv fs); [|intros [= <- _]; reflexivity].
  destruct (songs_csv fs); [|intros [= <- _]; reflexivity].
  destruct (song_extra_info_csv fs); [|intros [= <- _]; reflexivity].
  destruct (members_csv fs); [discriminate | intros [= <- _]; reflexivity].
Qed.

(** On a table without [registration_init_time] the member processor
    raises, and what it leaves of the table is still without it. *)
Lemma members_parse_dropped m m' r :
  has_column "registration_init_time" m = false ->
  MembersProcessor.parse m = (m', r) ->
  has_column "registration_init_time" m' = false /\ exists e, r = Raise e.
Proof.
  intros Hm H. destruct r as [out|e].
  - apply members_parse_needs_registration in H. congruence.
  - split; [|eauto]. unfold MembersProcessor.parse in H.
    apply sbind_raise in H as [H|(s1 & u & H1 & H)].
    + apply update_raise in H as [-> _]. exact Hm.
    + apply update_ok in H1.
      rewrite <- (has_column_fillna "registration_init_time" _ _ _ _ H1) in Hm.
      apply sbind_raise in H as [H|(s2 & u2 & H2 & H)].
      * apply update_raise in H as [-> _]. exact Hm.
      * exfalso. apply update_ok in H2.
        unfold MembersProcessor.set_membership_days in H2. invert_ok.
        match goal with
        | E : getitem "registration_init_time" _ = Ok _ |- _ =>
            apply getitem_ok_has in E; congruence
        end.
Qed.

(** With the registration column dropped, [pre_process] raises and the
    column stays dropped. *)
Lemma pre_process_dropped :
  triple registration_dropped pre_process (fun _ _ => False) registration_dropped.
Proof.
  assert (K : forall o o', members_df o' = members_df o ->
                           registration_dropped o -> registration_dropped o').
  { intros o o' E H m Hm. apply H. congruence. }
  unfold pre_process.
  apply (triple_sbind _ _ _ (fun _ => registration_dropped));
    [apply triple_keeps; [apply members_sget | exact K]|intros ?].
  apply (triple_sbind _ _ _ (fun _ => registration_dropped));
    [apply triple_keeps; [apply members_assert | exact K]|intros ?].
  apply (triple_sbind _ _ _ (fun _ => registration_dropped));
    [apply triple_keeps; [apply members_on_frame; reflexivity | exact K]|intros ?].
  apply (triple_sbind _ _ _ (fun _ => registration_dropped));
    [apply triple_keeps; [apply members_store; reflexivity | exact K]|intros ?].
  apply (triple_sbind _ _ _ (fun _ => registration_dropped));
    [apply triple_keeps; [apply members_on_frame; reflexivity | exact K]|intros ?].
  apply (triple_sbind _ _ _ (fun _ => registration_dropped));
    [apply triple_keeps; [apply members_store; reflexivity | exact K]|intros ?].
  apply (triple_sbind _ _ _ (fun _ _ => False)); [|intros ?; apply triple_false].
  intros o o' r Ho. unfold on_frame.
  destruct (members_df o) as [m|] eqn:E.
  - rewrite process_members.
    destruct (MembersProcessor.parse m) as [m' r'] eqn:P. intros [= <- <-].
    destruct (members_parse_dropped m m' r' (Ho m E) P) as (Hm' & e & ->).
    intros m0 [= <-]. exact Hm'.
  - intros [= <- <-]. exact Ho.
Qed.

(** From [PREPROCESS_READY] on the member table is without its
    registration column, after any calls. *)
Lemma run_dropped c o :
  consistent o ->
  (PREPROCESS_READY <= state o -> registration_dropped o) ->
  PREPROCESS_READY <= state (fst (Stage.run c o)) ->
  registration_dropped (fst (Stage.run c o)).
Proof.
  intros Hc HJ. destruct (Stage.run c o) as [o' r] eqn:E. cbn [fst].
  pose proof (StageFacts.run_sets c o o' r E) as Hset.
  unfold LOAD_READY, PREPROCESS_READY, ENGINEERING_READY in *.
  destruct c as [fs| |]; simpl in E, Hset.
  - destruct r as [u|e].
    + unfold LOAD_READY in Hset. lia.
    + rewrite Hset. intros Hs m Hm.
      rewrite (load_raw_raise_members _ _ _ _ E) in Hm. apply (HJ Hs m Hm).
  - destruct r as [u|e].
    + intros _. apply pre_process_ok in E
        as (? & ? & ? & ? & ? & ? & members1 & ? & ? & ? & ? & ? & ? & ? & ? & ?
            & _ & _ & _ & _ & _ & _ & Hpm & _ & _ & _ & _ & _ & _ & _ & ->).
      intros m [= <-]. apply (members_parse_drops _ _ _ Hpm).
    + rewrite Hset. intros Hs.
      apply (pre_process_dropped o o' (Raise e) (HJ Hs) E).
  - intros Hs m Hm.
    rewrite (feature_engineering_members _ _ _ E) in Hm.
    apply HJ; [|exact Hm].
    destruct r as [u|e]; [|lia].
    apply (StageFacts.run_ok_required Stage.Engineer o o' u E).
Qed.

Lemma after_dropped cs : forall o,
  consistent o ->
  (PREPROCESS_READY <= state o -> registration_dropped o) ->
  PREPROCESS_READY <= state (after cs o) -> registration_dropped (after cs o).
Proof.
  induction cs as [|c cs IH]; intros o Hc HJ; simpl; [exact HJ|].
  apply IH; [apply run_consistent, Hc | apply run_dropped; assumption].
Qed.

(** A call on an object that came from the constructor by stage calls
    does not lower the marker, unless it is a [load_raw] that returns. *)
Lemma run_marker_kept c o :
  consistent o ->
  (PREPROCESS_READY <= state o -> registration_dropped o) ->
  Stage.marker_kept (o, c, fst (Stage.run c o), snd (Stage.run c o)).
Proof.
  intros Hc HJ. destruct (Stage.run c o) as [o' r] eqn:E. cbn [fst snd].
  pose proof (StageFacts.run_sets c o o' r E) as Hset.
  destruct r as [[]|e]; [|left; simpl in Hset; lia].
  pose proof (StageFacts.run_ok_required c o o' tt E) as Hreq.
  simpl in Hset. unfold Stage.marker_kept.
  destruct c as [fs| |]; simpl in E, Hset, Hreq.
  - right. exists fs. repeat split. exact Hset.
  - left.
    destruct (Z.le_gt_cases PREPROCESS_READY (state o)) as [Hge|Hlt].
    + exfalso. apply (pre_process_dropped o o' (Ok tt) (HJ Hge) E).
    + lia.
  - left. destruct Hc as [[_ Hmax] _]. lia.
Qed.

Lemma steps_marker_kept cs : forall o,
  consistent o ->
  (PREPROCESS_READY <= state o -> registration_dropped o) ->
  Forall Stage.marker_kept (Stage.steps cs o).
Proof.
  induction cs as [|c cs IH]; intros o Hc HJ; simpl; [constructor|].
  pose proof (run_marker_kept c o Hc HJ) as H.
  pose proof (run_consistent c o Hc) as Hc'.
  pose proof (run_dropped c o Hc HJ) as HJ'.
  destruct (Stage.run c o) as [o' r]. constructor; [exact H | apply IH; assumption].
Qed.

End Lowering.

(** C2, as the code has it.  For every sequence of calls of the stage
    methods on an object in any state: a call made below the state its
    stage requires raises the stage-order assertion and changes nothing; a
    call that returns was made at or above that state and leaves the
    marker at the stage's own value; a call that raises leaves the marker
    as it was.  And on an object as the constructor leaves it, whatever
    the calls and their outcomes, the marker never goes down except across
    a [load_raw] that returns, which sets it to [LOAD_READY]. *)
Theorem stage_calls (cs : list Stage.call) :
  (forall o, Forall Stage.step_ok (Stage.steps cs o))
  /\ Forall Stage.marker_kept (Stage.steps cs FeatureProcessor.init).
Proof.
  split.
  - induction cs as [|c cs IH]; intros o; simpl; [constructor|].
    pose proof (StageFacts.run_step_ok c o) as H.
    destruct (Stage.run c o) as [o' r]. constructor; [exact H | apply IH].
  - apply steps_marker_kept; [apply init_consistent|].
    unfold FeatureProcessor.PREPROCESS_READY, FeatureProcessor.init. simpl.
    unfold FeatureProcessor.INITIALIZATION_READY. intros Hs. lia.
Qed.

(** X15: on an object as [__init__] leaves it, after any sequence of calls
    of the three stage methods, a [pre_process] that returns was made in
    the state [LOAD_READY] exactly (in a later state the member table has
    lost the column the member processor reads), and a returning call that
    lowers the marker is a [load_raw]: no other call takes the marker
    back. *)
Theorem only_load_raw_lowers_marker
        (cs : list Stage.call) (c : Stage.call) (o' : FeatureProcessor.t) :
  Stage.run c (after cs FeatureProcessor.init) = (o', Ok tt) ->
  (c = Stage.PreProcess ->
   FeatureProcessor.state (after cs FeatureProcessor.init) = FeatureProcessor.LOAD_READY)
  /\ (FeatureProcessor.state o' < FeatureProcessor.state (after cs FeatureProcessor.init) ->
      exists fs, c = Stage.Load fs).
Proof.
  intros H. set (o := after cs FeatureProcessor.init) in *.
  pose proof (after_consistent cs _ init_consistent) as Hc. fold o in Hc.
  assert (HJ : FeatureProcessor.PREPROCESS_READY <= FeatureProcessor.state o ->
               registration_dropped o).
  { apply after_dropped; [apply init_consistent|].
    unfold FeatureProcessor.PREPROCESS_READY, FeatureProcessor.init. simpl.
    unfold FeatureProcessor.INITIALIZATION_READY. intros Hs. lia. }
  pose proof (StageFacts.run_ok_required c o o' tt H) as Hreq.
  pose proof (StageFacts.run_sets c o o' (Ok tt) H) as Hset. simpl in Hset.
  assert (Hpre : c = Stage.PreProcess ->
                 FeatureProcessor.state o = FeatureProcessor.LOAD_READY).
  { intros ->. simpl in H, Hreq.
    destruct (Z.le_gt_cases FeatureProcessor.PREPROCESS_READY (FeatureProcessor.state o))
      as [Hge|Hlt].
    - exfalso. apply (pre_process_dropped o o' (Ok tt) (HJ Hge) H).
    - unfold FeatureProcessor.PREPROCESS_READY, FeatureProcessor.LOAD_READY in *. lia. }
  split; [exact Hpre|]. intros Hlow.
  destruct c as [fs| |]; [eauto | |].
  - specialize (Hpre eq_refl). simpl in Hset.
    unfold FeatureProcessor.PREPROCESS_READY, FeatureProcessor.LOAD_READY in *. lia.
  - simpl in Hset. destruct Hc as [[_ Hmax] _].
    unfold FeatureProcessor.ENGINEERING_READY in *. lia.
Qed.

Lemma only_load_raw_lowers_marker_witness :
  FeatureProcessor.state
    (after [Stage.Load Sample.files] FeatureProcessor.init) = 1.
Proof.
  destruct (only_load_raw_lowers_marker
              [Stage.Load Sample.files] Stage.PreProcess
              (fst (FeatureProcessor.pre_process
                      (after [Stage.Load Sample.files] FeatureProcessor.init))))
    as [H _].
  - vm_compute. reflexivity.
  - apply H. reflexivity.
Defined.

(* ===================================================================== *)
(** ** The column the train table keeps                                  *)
(* ===================================================================== *)

(** X16: the helper column [source_merged] after [pre_process].  The second
    call of the event processor writes it into the table the train
    attribute refers to, and no later step drops it: when neither the song
    table nor the member table stored by [pre_process] has a column of
    that name, the stored train table has the column and the stored test
    table has not, so the two tables differ in their columns. *)
Theorem train_keeps_source_merged
        (o o' : FeatureProcessor.t) (train0 songs members : DataFrame) :
  FeatureProcessor.train_df o = Some train0 ->
  uniform train0 ->
  FeatureProcessor.pre_process o = (o', Ok tt) ->
  FeatureProcessor.songs_df o' = Some songs ->
  FeatureProcessor.members_df o' = Some members ->
  has_column "source_merged" songs = false ->
  has_column "source_merged" members = false ->
  exists tr te,
    FeatureProcessor.train_df o' = Some tr
    /\ FeatureProcessor.test_df o' = Some te
    /\ has_column "source_merged" tr = true
    /\ has_column "source_merged" te = false.
Proof.
  intros Htrain Hu H Hsongs Hmembers Ns Nm.
  apply pre_process_ok in H
    as (tr0 & train0' & train1 & train1' & test1 & me0 & members1 & so0
        & songs1 & ex0 & extra1 & songs2 & train2 & test2 & train3 & test3
        & Htr & _ & _ & _ & Hp1 & Hp2 & _ & _ & _ & _ & Hm2 & Hm3 & Hm4 & Hm5 & ->).
  rewrite Htrain in Htr. injection Htr as <-.
  simpl in Hsongs, Hmembers. injection Hsongs as <-. injection Hmembers as <-.
  destruct (parse_twice _ _ _ _ _ Hu Hp1 Hp2) as (-> & sm & -> & N1).
  apply lookup_has_column in Ns, Nm.
  exists train3, test3. split; [reflexivity|]. split; [reflexivity|]. split.
  - destruct (merge_lookup _ _ _ _ "source_merged" Hm2 eq_refl)
      as (lk & rk & _ & _ & _ & L2).
    cbn [String.eqb Ascii.eqb Bool.eqb] in L2. rewrite Ns in L2.
    unfold setitem in L2. cbn [cols] in L2. rewrite lookup_assign_same in L2.
    destruct (merge_lookup _ _ _ _ "source_merged" Hm4 eq_refl)
      as (lk' & rk' & _ & _ & _ & L3).
    cbn [String.eqb Ascii.eqb Bool.eqb] in L3. rewrite Nm, L2 in L3.
    apply not_false_iff_true. intros F. apply lookup_has_column in F. congruence.
  - apply not_true_is_false. intros F.
    apply (merge_plain_column "source_merged" _ _ _ _ Hm5 eq_refl) in F as [F|[F _]].
    + apply (merge_plain_column "source_merged" _ _ _ _ Hm3 eq_refl) in F as [F|[F _]].
      * congruence.
      * apply lookup_has_column in Ns. congruence.
    + apply lookup_has_column in Nm. congruence.
Qed.

Lemma train_keeps_source_merged_witness :
  let o := fst (FeatureProcessor.load_raw Sample.files FeatureProcessor.init) in
  let o' := fst (FeatureProcessor.pre_process o) in
  exists tr te,
    FeatureProcessor.train_df o' = Some tr
    /\ FeatureProcessor.test_df o' = Some te
    /\ has_column "source_merged" tr = true
    /\ has_column "source_merged" te = false.
Proof.
  intros o o'.
  destruct (FeatureProcessor.songs_df o') as [songs|] eqn:Es;
    [|vm_compute in Es; discriminate].
  destruct (FeatureProcessor.members_df o') as [members|] eqn:Em;
    [|vm_compute in Em; discriminate].
  apply (train_keeps_source_merged o o' Sample.train songs members).
  - reflexivity.
  - repeat constructor.
  - vm_compute. reflexivity.
  - exact Es.
  - exact Em.
  - vm_compute in Es. injection Es as <-. reflexivity.
  - vm_compute in Em. injection Em as <-. reflexivity.
Defined.

(* ===================================================================== *)
(** ** What [main] raises, and what it leaves behind                     *)
(* ===================================================================== *)

Section MainRaises.

Import FeatureProcessor.

Lemma sraises_on_frame {A} P get set (m : stateful DataFrame A) :
  P TypeError -> sraises P m -> sraises P (on_frame get set m).
Proof.
  intros HP Hm o o' e. unfold on_frame. destruct (get o) as [df|].
  - destruct (m df) as [df' r] eqn:E. intros [= _ ->]. apply (Hm df df' e E).
  - intros [= _ <-]. exact HP.
Qed.

Lemma sraises_frame P get : P AttributeError -> sraises P (frame get).
Proof.
  intros HP o o' e. unfold frame. destruct (get o); [discriminate|].
  intros [= _ <-]. exact HP.
Qed.

Lemma sraises_pure {A} P (r : result A) : raises P r -> sraises P (pure r).
Proof. intros Hr o o' e [= _ H]. apply Hr, H. Qed.

Lemma sraises_store {A} P (set : A -> t -> t) v : sraises P (store set v).
Proof. intros o o' e H. discriminate. Qed.

Lemma sraises_merge_frames a b key : sraises data_error (merge_frames a b key).
Proof.
  unfold merge_frames.
  apply sraises_sbind; [apply sraises_frame; exact I | intros l].
  apply sraises_sbind; [apply sraises_frame; exact I | intros r].
  apply sraises_pure, merge_raises.
Qed.

Lemma sraises_process c :
  In c ["train"; "test"; "members"; "songs"; "song_extra_info"] ->
  sraises data_error (DataProcessor.process c None).
Proof.
  intros Hc df df' e. apply process_raises_data_error.
  - simpl in *. tauto.
  - intros ->. simpl in Hc. repeat destruct Hc as [Hc|Hc]; try discriminate; contradiction.
Qed.

(** Past its guard, [pre_process] raises errors of the data only. *)
Lemma pre_process_raises o o' e :
  LOAD_READY <= state o -> pre_process o = (o', Raise e) -> data_error e.
Proof.
  intros Hs. unfold pre_process. rewrite (StageFacts.guarded LOAD_READY).
  apply Z.leb_le in Hs. rewrite Hs.
  match goal with
  | |- ?m o = _ -> _ => assert (Hm : sraises data_error m); [|apply Hm]
  end.
  repeat first
    [ apply sraises_store
    | apply sraises_merge_frames
    | apply sraises_frame; exact I
    | apply sraises_on_frame;
        [exact I | apply sraises_process; simpl; tauto]
    | apply sraises_sbind; [|intros ?] ].
Qed.

(** With its tables bound, so does [feature_engineering]. *)
Lemma feature_engineering_raises o o' e tr comb :
  PREPROCESS_READY <= state o ->
  train_df o = Some tr -> comb_df o = Some comb ->
  feature_engineering o = (o', Raise e) -> data_error e.
Proof.
  intros Hs Htr Hc. unfold feature_engineering.
  rewrite (StageFacts.guarded PREPROCESS_READY).
  apply Z.leb_le in Hs. rewrite Hs. rewrite Htr.
  intros H. apply sbind_raise in H as [H|(o1 & df & H1 & H)].
  - revert H. apply sraises_on_frame; [exact I|].
    intros d d' e'. rewrite process_engineering. intros [= _ H].
    eapply engineering_parse_raises; eauto.
  - apply on_frame_ok in H1 as (d & d' & _ & _ & ->).
    apply sbind_raise in H as [H|(o2 & u & H2 & H)]; [discriminate|].
    apply store_ok in H2. subst o2.
    apply sbind_raise in H as [H|(o3 & o3' & H3 & H)]; [discriminate|].
    injection H3 as <- <-. simpl in H. rewrite Hc in H.
    apply sbind_raise in H as [H|(o4 & df4 & H4 & H)].
    + revert H. apply sraises_on_frame; [exact I|].
      intros x x' e'. rewrite process_engineering. intros [= _ H].
      eapply engineering_parse_raises; eauto.
    + apply sbind_raise in H as [H|(o5 & u5 & H5 & H)]; discriminate.
Qed.

Lemma has_column_append c a b :
  has_column c (append a b) = has_column c a || has_column c b.
Proof.
  unfold has_column, columns, append. cbn [cols]. rewrite map_map. cbn [fst].
  rewrite map_id.
  destruct (mem c (map fst (cols a))) eqn:Ea; simpl.
  - apply mem_In, in_app_iff. left. apply mem_In, Ea.
  - destruct (mem c (map fst (cols b))) eqn:Eb.
    + apply mem_In, in_app_iff. right. apply filter_In. split.
      * apply mem_In, Eb.
      * unfold has_column, columns. rewrite Ea. reflexivity.
    + apply mem_false. rewrite in_app_iff. intros [H|H].
      * apply mem_In in H. unfold columns in H. congruence.
      * apply filter_In in H as [H _]. apply mem_In in H. unfold columns in H.
        congruence.
Qed.

End MainRaises.

(** X17: what [main] can raise.  It never fails on a guard of a stage or
    on the dispatcher: when it raises, either the constructor found no
    root directory and raised its assertion, and no stage was run; or
    [load_raw] raised what one of its reads raised, and the marker is
    still [INITIALIZATION_READY]; or [pre_process] raised an error of the
    data (a missing column, a cell of the wrong kind, a null that is
    left), and the marker is [LOAD_READY]; or [feature_engineering] raised
    one, and the marker is [PREPROCESS_READY].  Past the constructor the
    marker tells the stage that failed. *)
Theorem main_raises_read_or_data_error
        (fs : FeatureProcessor.files) (o0 o : FeatureProcessor.t) (e : exn) :
  FeatureProcessor.main fs o0 = (o, Raise e) ->
  (FeatureProcessor.root_exists fs = false
   /\ e = AssertionError NoDirectory /\ o = o0)
  \/ (FeatureProcessor.root_exists fs = true
      /\ ((FeatureProcessor.state o = FeatureProcessor.INITIALIZATION_READY
           /\ read_error fs e)
          \/ (FeatureProcessor.state o = FeatureProcessor.LOAD_READY
              /\ data_error e)
          \/ (FeatureProcessor.state o = FeatureProcessor.PREPROCESS_READY
              /\ data_error e))).
Proof.
  intros H. destruct (FeatureProcessor.root_exists fs) eqn:Hroot.
  2:{ left. unfold FeatureProcessor.main in H. unfold sbind at 1 in H.
      rewrite (init_raises fs o0 Hroot) in H. injection H as <- <-.
      repeat split; reflexivity. }
  right. split; [reflexivity|].
  rewrite (main_stages fs o0 Hroot) in H.
  apply sbind_raise in H as [H|(o1 & u1 & H1 & H)].
  - left. split.
    + apply (StageFacts.load_raw_sets fs FeatureProcessor.init o (Raise e) H).
    + apply load_raw_raise in H as [[_ Hlt]|H]; [|exact H].
      unfold FeatureProcessor.init, FeatureProcessor.INITIALIZATION_READY in Hlt.
      simpl in Hlt. lia.
  - pose proof (StageFacts.load_raw_sets fs _ _ _ H1) as S1. simpl in S1.
    apply sbind_raise in H as [H|(o2 & u2 & H2 & H)].
    + right. left. split.
      * pose proof (StageFacts.pre_process_sets o1 o (Raise e) H) as S2.
        simpl in S2. congruence.
      * apply (pre_process_raises o1 o e); [rewrite S1; reflexivity | exact H].
    + right. right.
      pose proof (StageFacts.pre_process_sets o1 o2 (Ok u2) H2) as S2. simpl in S2.
      pose proof (StageFacts.feature_engineering_sets o2 o (Raise e) H) as S3.
      simpl in S3.
      split; [congruence|].
      pose proof H2 as H2'.
      apply pre_process_ok in H2'
        as (? & ? & ? & ? & ? & ? & ? & ? & ? & ? & ? & ? & ? & ? & train3 & test3
            & _ & _ & _ & _ & _ & _ & _ & _ & _ & _ & _ & _ & _ & _ & E2).
      apply (feature_engineering_raises o2 o e train3 (append train3 test3)).
      * rewrite S2. reflexivity.
      * rewrite E2. reflexivity.
      * rewrite E2. reflexivity.
      * exact H.
Qed.

Lemma main_raises_read_or_data_error_witness :
  FeatureProcessor.state (fst (FeatureProcessor.main unreadable FeatureProcessor.init))
  = 0
  /\ read_error unreadable IOError.
Proof.
  destruct (main_raises_read_or_data_error
              unreadable FeatureProcessor.init
              (fst (FeatureProcessor.main unreadable FeatureProcessor.init))
              IOError) as [[H _]|[_ [H|[[H _]|[H _]]]]].
  - vm_compute. reflexivity.
  - vm_compute in H. discriminate.
  - exact H.
  - vm_compute in H. discriminate.
  - vm_compute in H. discriminate.
Defined.

(** X18: [feature_engineering] does not touch the combined table.  After
    [main] the train and test tables have the three engineered columns;
    the combined table is still the concatenation [pre_process] made, with
    one row for every row of the two tables and none of the three
    columns. *)
Theorem combined_table_is_not_engineered
        (fs : FeatureProcessor.files) (o : FeatureProcessor.t) :
  FeatureProcessor.main fs FeatureProcessor.init = (o, Ok tt) ->
  exists tr te comb,
    FeatureProcessor.train_df o = Some tr
    /\ FeatureProcessor.test_df o = Some te
    /\ FeatureProcessor.comb_df o = Some comb
    /\ nrows comb = (nrows tr + nrows te)%nat
    /\ (forall c, In c ["play_count"; "track_count"; "cover_lang"] ->
                  has_column c tr = true /\ has_column c te = true
                  /\ has_column c comb = false).
Proof.
  intros H. apply main_ok in H as (o1 & o2 & u1 & u2 & _ & H2 & H3).
  apply pre_process_ok in H2
    as (? & ? & ? & ? & ? & ? & ? & ? & ? & ? & ? & ? & train2 & test2 & train3 & test3
        & _ & _ & _ & _ & _ & _ & _ & _ & _ & _ & _ & _ & Hm4 & Hm5 & ->).
  apply feature_engineering_ok in H3
    as (a & b & comb & tr & te & Ha & Hb & Hc & Ptr & Pte & ->).
  simpl in Ha, Hb, Hc. injection Ha as <-. injection Hb as <-. injection Hc as <-.
  pose proof (uniform_merge _ _ _ _ Hm4) as U3.
  pose proof (uniform_merge _ _ _ _ Hm5) as V3.
  destruct (engineering_parse_frame _ _ _ U3 Ptr)
    as (? & ? & tc & cl & _ & _ & _ & _ & N1 & N2 & N3 & _ & A).
  destruct (engineering_parse_frame _ _ _ V3 Pte)
    as (? & ? & tc' & cl' & _ & _ & _ & _ & N1' & N2' & N3' & _ & A').
  exists tr, te, (append train3 test3).
  split; [reflexivity|]. split; [reflexivity|]. split; [reflexivity|].
  split.
  { rewrite (appended_nrows _ _ _ A), (appended_nrows _ _ _ A'). reflexivity. }
  intros c Hc.
  rewrite (appended_has_column _ _ _ c A), (appended_has_column _ _ _ c A').
  rewrite has_column_append.
  simpl in Hc. destruct Hc as [<-|[<-|[<-|[]]]].
  - rewrite N1, N1'. repeat split; reflexivity.
  - rewrite N2, N2'. repeat split; reflexivity.
  - rewrite N3, N3'. repeat split; reflexivity.
Qed.

Lemma combined_table_is_not_engineered_witness :
  let o := fst (FeatureProcessor.main Sample.files FeatureProcessor.init) in
  exists comb,
    FeatureProcessor.comb_df o = Some comb
    /\ nrows comb = 6%nat
    /\ has_column "play_count" comb = false.
Proof.
  intros o.
  destruct (combined_table_is_not_engineered Sample.files o)
    as (tr & te & comb & Htr & Hte & Hc & Hn & Hcols).
  - vm_compute. reflexivity.
  - exists comb. split; [exact Hc|]. split.
    + rewrite Hn. vm_compute in Htr, Hte.
      injection Htr as <-. injection Hte as <-. reflexivity.
    + apply (Hcols "play_count"). simpl. auto.
Defined.

(* ===================================================================== *)
(** ** The three processors that work in place                           *)
(* ===================================================================== *)

(** X19: the song, song-extra and member processors work on the table
    they are given and return that very table, as they have changed it:
    what the caller holds and what it gets back are one table.  None of
    them adds or drops a row, and none touches the key column the merges
    of [pre_process] join on ([song_id], [msno]). *)
Theorem in_place_processors_keep_rows_and_keys :
  (forall df df' out,
      SongsProcessor.parse df = (df', Ok out) ->
      out = df' /\ nrows out = nrows df
      /\ getitem "song_id" out = getitem "song_id" df)
  /\ (forall df df' out,
        SongExtraProcessor.parse df = (df', Ok out) ->
        out = df' /\ nrows out = nrows df
        /\ getitem "song_id" out = getitem "song_id" df)
  /\ (forall df df' out,
        MembersProcessor.parse df = (df', Ok out) ->
        out = df' /\ nrows out = nrows df
        /\ getitem "msno" out = getitem "msno" df).
Proof.
  split; [|split]; intros df df' out H.
  - destruct (songs_parse_checked _ _ _ H) as [E _].
    destruct (songs_parse_keeps _ _ _ H) as (K & N & _). auto.
  - destruct (song_extra_parse_checked _ _ _ H) as [E _].
    destruct (song_extra_parse_keeps _ _ _ H) as (K & N & _). auto.
  - destruct (members_parse_checked _ _ _ H) as [E _].
    destruct (members_parse_keeps _ _ _ H) as (K & N & _). auto.
Qed.

Lemma in_place_processors_keep_rows_and_keys_witness :
  exists out,
    snd (MembersProcessor.parse Sample.members) = Ok out
    /\ fst (MembersProcessor.parse Sample.members) = out
    /\ getitem "msno" out = Ok [VStr "u1"; VStr "u2"].
Proof.
  destruct (MembersProcessor.parse Sample.members) as [df' [out|e]] eqn:E;
    [|vm_compute in E; discriminate].
  destruct in_place_processors_keep_rows_and_keys as (_ & _ & H).
  destruct (H Sample.members df' out E) as (-> & _ & K).
  exists df'. split; [reflexivity|]. split; [reflexivity|]. exact K.
Defined.
